(** * The double-tree map: a B+-tree of page nodes whose nodes are B+-trees
      of cache-line nodes.

    Shallow embedding of [double_tree_line_node.hpp], [double_tree_page_node.hpp]
    and [double_tree.hpp] for the instance [double_tree::map<uint64_t, uint64_t>]
    that the drivers of the repository build.

    Memory is explicit.  A line node is its [std::array] of elements together
    with [count_]; a page node is its pool of 256-byte entries and its
    bookkeeping bytes; the tree is a heap of page nodes addressed by pointers.
    Everything the C++ standard leaves undefined (an index outside its array,
    a read of a value that was never written, a pool entry read through the
    wrong union member, a dangling page pointer, a failed [assert]) is a
    fault of the model: the operation returns [Err]. *)

From stdpp Require Import base list sorting gmap strings.
From Stdlib Require Import ZArith Lia.

Local Open Scope Z_scope.

(** ** Faults and the state-and-fault monad *)

Inductive error : Type :=
| AssertFailed (what : string)    (* an [assert] of the source does not hold *)
| OutOfBounds (what : string)     (* an array is indexed outside its bounds *)
| Indeterminate (what : string)   (* an object is read before it was written *)
| BadPointer (what : string)      (* null, dangling or wrongly typed pointer *)
| Diverges.                       (* a [while] loop used up its fuel *)

Inductive result (X : Type) : Type :=
| Ok (x : X)
| Err (e : error).
Arguments Ok {X} x.
Arguments Err {X} e.

Definition rbind {X Y} (r : result X) (k : X → result Y) : result Y :=
  match r with Ok x => k x | Err e => Err e end.

(** A computation over a mutable object of type [S]. *)
Definition M (S X : Type) : Type := S → result (X * S).

Definition ret {S X} (x : X) : M S X := fun s => Ok (x, s).
Definition bind {S X Y} (m : M S X) (k : X → M S Y) : M S Y :=
  fun s => match m s with Ok (x, s') => k x s' | Err e => Err e end.
Definition fail {S X} (e : error) : M S X := fun _ => Err e.
Definition lift {S X} (r : result X) : M S X :=
  fun s => match r with Ok x => Ok (x, s) | Err e => Err e end.
Definition gets {S X} (f : S → X) : M S X := fun s => Ok (f s, s).
Definition modify {S} (f : S → S) : M S unit := fun s => Ok (tt, f s).

Declare Scope monad_scope.
Delimit Scope monad_scope with monad.
Notation "x <- m ;; k" := (bind m (fun x => k))
  (at level 20, m at level 99, k at level 200, only parsing) : monad_scope.
Notation "' pat <- m ;; k" := (bind m (fun x => match x with pat => k end))
  (at level 20, pat pattern, m at level 99, k at level 200, only parsing) : monad_scope.
Notation "m ;; k" := (bind m (fun _ => k))
  (at level 100, k at level 200, only parsing, right associativity) : monad_scope.
Notation "x <-? r ;; k" := (rbind r (fun x => k))
  (at level 20, r at level 99, k at level 200, only parsing) : monad_scope.
Notation "' pat <-? r ;; k" := (rbind r (fun x => match x with pat => k end))
  (at level 20, pat pattern, r at level 99, k at level 200, only parsing) : monad_scope.
Local Open Scope monad_scope.

Definition when {S} (b : bool) (m : M S unit) : M S unit :=
  if b then m else ret tt.

(** Run a computation on the first or on the second of two objects. *)
Definition on_this {S1 S2 X} (m : M S1 X) : M (S1 * S2) X :=
  fun s => match m (fst s) with Ok (x, s1) => Ok (x, (s1, snd s)) | Err e => Err e end.
Definition on_other {S1 S2 X} (m : M S2 X) : M (S1 * S2) X :=
  fun s => match m (snd s) with Ok (x, s2) => Ok (x, (fst s, s2)) | Err e => Err e end.

(** [for (int i = from; i < from + n; ++i) body(i)] *)
Fixpoint for_loop {S} (n : nat) (i : Z) (body : Z → M S unit) : M S unit :=
  match n with
  | O => ret tt
  | S n' => body i ;; for_loop n' (i + 1) body
  end.

(** [while (cond) body], with fuel. *)
Fixpoint while_loop {S} (fuel : nat) (cond : M S bool) (body : M S unit) : M S unit :=
  b <- cond ;;
  if b then
    match fuel with
    | O => fail Diverges
    | S fuel' => body ;; while_loop fuel' cond body
    end
  else ret tt.

(** ** Machine integers *)

Abbreviation Key := Z (only parsing).   (* uint64_t; only compared *)
Definition u8 (z : Z) : Z := z mod 256. (* conversion to uint8_t *)

Abbreviation line_index := Z (only parsing).   (* uint8_t *)
Definition line_index_nil : line_index := 255.
Abbreviation page_index := Z (only parsing).   (* uint8_t *)
Definition page_index_nil : page_index := 255.

Definition line_node_size : Z := 256.
Definition page_node_size : Z := 4096.

(** ** The elements of a subtree

    A stem entry [(k, i)] stands for the elements below child [i]: there is
    at least one, and [k] is the key of the first. *)

Definition child_block {X I : Type} (below : I → option (list (Key * X)))
    (r : Key * I) : option (list (Key * X)) :=
  match below (snd r) with
  | Some (e :: l) => if fst e =? fst r then Some (e :: l) else None
  | _ => None
  end.

Fixpoint all_blocks {X I : Type} (below : I → option (list (Key * X)))
    (rs : list (Key * I)) : option (list (Key * X)) :=
  match rs with
  | [] => Some []
  | r :: rs' =>
      match child_block below r, all_blocks below rs' with
      | Some b, Some l => Some (b ++ l)
      | _, _ => None
      end
  end.

(** [b] starts with the key of [r] *)
Definition heads {X I : Type} (r : Key * I) (b : list (Key * X)) : Prop :=
  ∃ e b', b = e :: b' ∧ fst e = fst r.

(** How many elements at the front of [l] have a key that is not greater
    than [find_key]; on a sorted list, the number of such elements. *)
Fixpoint run_length {X : Type} (find_key : Key) (l : list (Key * X)) : nat :=
  match l with
  | [] => 0
  | e :: l' => if fst e >? find_key then 0 else S (run_length find_key l')
  end.

(** The index of the last element whose key is not greater than [find_key],
    or 0 when the first key is greater already. *)
Definition find_index {X : Type} (find_key : Key) (l : list (Key * X)) : nat :=
  pred (run_length find_key l).

Definition sorted {X : Type} (l : list (Key * X)) : Prop :=
  StronglySorted Z.le (fst <$> l).

(** [l] with [e] put behind the elements at the front whose keys are not
    greater than the key of [e]: on a sorted list, [e] goes behind the
    elements with a smaller or the same key. *)
Definition put_behind {X : Type} (e : Key * X) (l : list (Key * X))
  : list (Key * X) :=
  take (run_length (fst e) l) l ++ e :: drop (run_length (fst e) l) l.

(** ** double_tree_line_node.hpp *)

Module Line.
Section line_node.
Context {T A : Type}.
(** [max_count]: how many elements fit in the 256 bytes. *)
Variable max_count : Z.

Local Abbreviation Element := (Key * T)%type (only parsing).

(** [elems_] has [max_count] cells; [None] is a cell that was never
    written.  Cells at [count_] and beyond keep whatever was left there. *)
Record line_node : Type := mk {
  elems_ : list (option Element);
  count_ : line_index;
  aux : A
}.

Definition min_count : Z := max_count / 2.

(** A node in storage that was not written yet, as [allocate] hands it out. *)
Definition blank (a : A) : line_node :=
  mk (replicate (Z.to_nat max_count) None) 0 a.

Definition in_array (index : Z) : bool := (0 <=? index) && (index <? max_count).

Definition cell (es : list (option Element)) (index : Z) : result Element :=
  if in_array index then
    match es !! Z.to_nat index with
    | Some (Some e) => Ok e
    | _ => Err (Indeterminate "elems_")
    end
  else Err (OutOfBounds "elems_").

Definition set_cell (es : list (option Element)) (index : Z) (e : Element)
  : result (list (option Element)) :=
  if in_array index then Ok (<[Z.to_nat index := Some e]> es)
  else Err (OutOfBounds "elems_").

(* ACCESSORS *)

Definition count (n : line_node) : line_index := count_ n.
Definition reset (n : line_node) : line_node := mk (elems_ n) 0 (aux n).
Definition set_aux (n : line_node) (a : A) : line_node := mk (elems_ n) (count_ n) a.

Definition elem (n : line_node) (index : line_index) : result Element :=
  cell (elems_ n) index.
Definition key (n : line_node) (index : line_index) : result Key :=
  e <-? elem n index ;; Ok (fst e).

Definition set_key (n : line_node) (index : line_index) (new_key : Key)
  : result line_node :=
  e <-? elem n index ;;
  es <-? set_cell (elems_ n) index (new_key, snd e) ;;
  Ok (mk es (count_ n) (aux n)).

Definition min_index (n : line_node) : line_index := 0.
Definition max_index (n : line_node) : line_index :=
  if count_ n =? 0 then 0 else u8 (count_ n - 1).
Definition end_index (n : line_node) : line_index := count_ n.

Definition min_key (n : line_node) : result Key := key n (min_index n).
Definition min_elem (n : line_node) : result Element := elem n (min_index n).

(* PREDICATES *)

Definition empty (n : line_node) : bool := count_ n =? 0.
Definition full (n : line_node) : bool := count_ n =? max_count.
Definition thin (n : line_node) : bool := count_ n <? min_count.

(* OPERATIONS *)

(** The [for] loop of [find]: [n] iterations are left, [i] is the loop
    variable. *)
Fixpoint find_loop (n : nat) (i : Z) (node : line_node) (find_key : Key)
  : result line_index :=
  match n with
  | O => Ok (u8 (count_ node - 1))
  | S n' =>
      k <-? key node i ;;
      if k >? find_key then Ok (u8 (i - 1))
      else find_loop n' (i + 1) node find_key
  end.

Definition find (node : line_node) (find_key : Key) : result line_index :=
  k <-? min_key node ;;
  if k >? find_key then Ok (min_index node)
  else find_loop (Z.to_nat (end_index node - (min_index node + 1)))
                 (min_index node + 1) node find_key.

(** [std::move(&src[b], &src[e], &dst[d])] on trivially copyable elements;
    for the overlapping calls of the source the copy direction makes it equal
    to copying a snapshot. *)
Definition move (src : list (option Element)) (b e : Z)
    (dst : list (option Element)) (d : Z) : result (list (option Element)) :=
  if (0 <=? b) && (b <=? e) && (e <=? max_count)
     && (0 <=? d) && (d + (e - b) <=? max_count)
  then Ok (take (Z.to_nat d) dst
           ++ take (Z.to_nat (e - b)) (drop (Z.to_nat b) src)
           ++ drop (Z.to_nat (d + (e - b))) dst)
  else Err (OutOfBounds "std::move").

Definition move_one_back (es : list (option Element)) (b e : line_index) :=
  move es b e es (b + 1).
Definition move_one_forward (es : list (option Element)) (b e : line_index) :=
  move es b e es (b - 1).
Definition move_to (es : list (option Element)) (b e : line_index)
    (dest_es : list (option Element)) (dest : line_index) :=
  move es b e dest_es dest.

Definition init (n : line_node) : line_node := mk (elems_ n) 0 (aux n).

Definition init_from (n other : line_node) : result line_node :=
  es <-? move (elems_ other) (min_index other) (end_index other)
              (elems_ n) (min_index n) ;;
  Ok (mk es (count_ other) (aux n)).

Fixpoint insert_loop (n : nat) (i : Z) (node : line_node) (new_key : Key)
  : result line_index :=
  match n with
  | O => Ok (end_index node)
  | S n' =>
      k <-? key node i ;;
      if k >? new_key then Ok i
      else insert_loop n' (i + 1) node new_key
  end.

(** Insert a new element.  Assumes the node is not full. *)
Definition insert (node : line_node) (new_elem : Element) : result line_node :=
  insert_index <-? insert_loop (Z.to_nat (end_index node - min_index node))
                     (min_index node) node (fst new_elem) ;;
  es <-? move_one_back (elems_ node) insert_index (end_index node) ;;
  es' <-? set_cell es insert_index new_elem ;;
  Ok (mk es' (u8 (count_ node + 1)) (aux node)).

(** Split node in half: the node keeps half and the odd element. *)
Definition split (node split_node : line_node) : result (line_node * line_node) :=
  let new_count := count_ node / 2 + count_ node mod 2 in
  es <-? move_to (elems_ node) (u8 new_count) (end_index node)
                 (elems_ split_node) (min_index split_node) ;;
  Ok (mk (elems_ node) (u8 new_count) (aux node),
      mk es (u8 (count_ node / 2)) (aux split_node)).

Definition erase (node : line_node) (erase_index : line_index) : result line_node :=
  es <-? (if erase_index <? end_index node
          then move_one_forward (elems_ node) (u8 (erase_index + 1)) (end_index node)
          else Ok (elems_ node)) ;;
  Ok (mk es (u8 (count_ node - 1)) (aux node)).

(** Erase an element while merging with the previous node; this node is
    left empty.  Returns this node and the previous node. *)
Definition merge_prev_erase (node : line_node) (erase_index : line_index)
    (prev_node : line_node) : result (line_node * line_node) :=
  es1 <-? move_to (elems_ node) 0 erase_index
                  (elems_ prev_node) (end_index prev_node) ;;
  es2 <-? move_to (elems_ node) (u8 (erase_index + 1)) (end_index node)
                  es1 (u8 (end_index prev_node + erase_index)) ;;
  Ok (mk (elems_ node) 0 (aux node),
      mk es2 (u8 (count_ prev_node + (count_ node - 1))) (aux prev_node)).

(** Erase an element while merging with the next node; the next node is
    left empty.  Returns this node and the next node. *)
Definition merge_next_erase (node : line_node) (erase_index : line_index)
    (next_node : line_node) : result (line_node * line_node) :=
  es1 <-? move_one_forward (elems_ node) (u8 (erase_index + 1)) (end_index node) ;;
  es2 <-? move_to (elems_ next_node) (min_index next_node) (end_index next_node)
                  es1 (u8 (end_index node - 1)) ;;
  Ok (mk es2 (u8 (count_ node + (count_ next_node - 1))) (aux node),
      mk (elems_ next_node) 0 (aux next_node)).

(** Erase an element while borrowing one from the previous node. *)
Definition borrow_prev_erase (node : line_node) (erase_index : line_index)
    (prev_node : line_node) : result (line_node * line_node) :=
  es1 <-? move_one_back (elems_ node) (min_index node) erase_index ;;
  es2 <-? move_to (elems_ prev_node) (u8 (end_index prev_node - 1))
                  (end_index prev_node) es1 (min_index node) ;;
  Ok (mk es2 (count_ node) (aux node),
      mk (elems_ prev_node) (u8 (count_ prev_node - 1)) (aux prev_node)).

(** Erase an element while borrowing one from the next node. *)
Definition borrow_next_erase (node : line_node) (erase_index : line_index)
    (next_node : line_node) : result (line_node * line_node) :=
  es1 <-? move_one_forward (elems_ node) (u8 (erase_index + 1)) (end_index node) ;;
  es2 <-? move_to (elems_ next_node) (min_index next_node)
                  (u8 (min_index next_node + 1)) es1 (u8 (end_index node - 1)) ;;
  nes <-? move_one_forward (elems_ next_node) (u8 (min_index next_node + 1))
                           (end_index next_node) ;;
  Ok (mk es2 (count_ node) (aux node),
      mk nes (u8 (count_ next_node - 1)) (aux next_node)).

(** The elements of a node: its first [count_] cells, all of them written.
    [count_] is a [uint8_t] and never more than [max_count]. *)
Fixpoint all_written (cells : list (option Element)) : option (list Element) :=
  match cells with
  | [] => Some []
  | Some e :: cells' =>
      match all_written cells' with
      | Some l => Some (e :: l)
      | None => None
      end
  | None :: _ => None
  end.

Definition live (n : line_node) : option (list Element) :=
  if (0 <=? count_ n) && (count_ n <=? max_count) && (count_ n <? 256)
     && (Z.of_nat (length (elems_ n)) =? max_count)
  then all_written (take (Z.to_nat (count_ n)) (elems_ n))
  else None.

End line_node.
Arguments line_node : clear implicits.

(** A node of capacity 4 that holds the keys 1, 3 and 5 *)
Definition three_of_four : line_node Z unit :=
  mk [Some (1, 10); Some (3, 30); Some (5, 50); None] 3 tt.
(** A node of capacity 4 that holds the keys 7 and 9 *)
Definition two_of_four : line_node Z unit :=
  mk [Some (7, 70); Some (9, 90); None; None] 2 tt.
(** A full node of capacity 2 *)
Definition two_of_two : line_node Z unit :=
  mk [Some (1, 10); Some (3, 30)] 2 tt.
End Line.

(** ** double_tree_page_node.hpp *)

(** An index into a page node combined with an index into the line node at
    that index: the position of an element in the page node. *)
Module page_position.
Record t : Type := mk { line : page_index; elem : line_index }.
Definition eqb (a b : t) : bool := (line a =? line b) && (elem a =? elem b).
Definition neqb (a b : t) : bool :=
  negb (line a =? line b) || negb (elem a =? elem b).
End page_position.
Abbreviation page_position := page_position.t.

Module Page.

(** The constants of one instance of the template: [stem_node::max_count],
    [leaf_node::max_count] and [pool_count]. *)
Record config : Type := mk_config { stem_max : Z; leaf_max : Z; pool : Z }.

Section PageNode.
Context {T A : Type}.
Variable c : config.
Local Abbreviation stem_max_count := (stem_max c).
Local Abbreviation leaf_max_count := (leaf_max c).
Local Abbreviation pool_count := (pool c).

Local Abbreviation Element := (Key * T)%type (only parsing).

Definition stem_aux : Type := unit.
Record leaf_aux : Type := mk_leaf_aux {
  prev_index : page_index;
  next_index : page_index
}.

Definition stem_node : Type := Line.line_node page_index stem_aux.
Definition leaf_node : Type := Line.line_node T leaf_aux.

(* MEMORY SYSTEM *)

(** An entry in the pool memory: the union of a stem node, a leaf node and
    a page index; [raw] is an entry that holds nothing yet. *)
Inductive PoolEntry : Type :=
| stem (n : stem_node)
| leaf (n : leaf_node)
| prev_head (i : page_index)
| raw.

Record PageNode : Type := mk {
  pool_memory : list PoolEntry;
  head_index : page_index;
  back_index : page_index;
  free_count : page_index;
  root_index : page_index;
  min_leaf_index : page_index;
  max_leaf_index : page_index;
  stem_levels : Z;              (* uint8_t *)
  aux : A
}.

Definition set_pool_memory m (p : PageNode) :=
  mk m (head_index p) (back_index p) (free_count p) (root_index p)
     (min_leaf_index p) (max_leaf_index p) (stem_levels p) (aux p).
Definition set_allocator h b f (p : PageNode) :=
  mk (pool_memory p) h b f (root_index p)
     (min_leaf_index p) (max_leaf_index p) (stem_levels p) (aux p).
Definition set_root_index r (p : PageNode) :=
  mk (pool_memory p) (head_index p) (back_index p) (free_count p) r
     (min_leaf_index p) (max_leaf_index p) (stem_levels p) (aux p).
Definition set_min_leaf_index i (p : PageNode) :=
  mk (pool_memory p) (head_index p) (back_index p) (free_count p) (root_index p)
     i (max_leaf_index p) (stem_levels p) (aux p).
Definition set_max_leaf_index i (p : PageNode) :=
  mk (pool_memory p) (head_index p) (back_index p) (free_count p) (root_index p)
     (min_leaf_index p) i (stem_levels p) (aux p).
Definition set_stem_levels l (p : PageNode) :=
  mk (pool_memory p) (head_index p) (back_index p) (free_count p) (root_index p)
     (min_leaf_index p) (max_leaf_index p) l (aux p).
Definition set_aux a (p : PageNode) :=
  mk (pool_memory p) (head_index p) (back_index p) (free_count p) (root_index p)
     (min_leaf_index p) (max_leaf_index p) (stem_levels p) a.

Local Abbreviation PM := (M PageNode).

Definition in_pool (index : Z) : bool := (0 <=? index) && (index <? pool_count).

Definition entry (index : page_index) : PM PoolEntry := fun p =>
  if in_pool index then
    match pool_memory p !! Z.to_nat index with
    | Some e => Ok (e, p)
    | None => Err (OutOfBounds "pool_memory")
    end
  else Err (OutOfBounds "pool_memory").

Definition set_entry (index : page_index) (e : PoolEntry) : PM unit := fun p =>
  if in_pool index
  then Ok (tt, set_pool_memory (<[Z.to_nat index := e]> (pool_memory p)) p)
  else Err (OutOfBounds "pool_memory").

Definition allocate : PM page_index := fun p =>
  if free_count p >? 0 then
    let allocate_index := head_index p in
    if head_index p =? back_index p then
      let b := u8 (back_index p + 1) in
      Ok (allocate_index, set_allocator b b (u8 (free_count p - 1)) p)
    else
      match entry (head_index p) p with
      | Ok (prev_head h, _) =>
          Ok (allocate_index, set_allocator h (back_index p) (u8 (free_count p - 1)) p)
      | Ok _ => Err (Indeterminate "prev_head")
      | Err e => Err e
      end
  else Err (AssertFailed "free_count > 0").

Definition deallocate (deallocate_index : page_index) : PM unit :=
  h <- gets head_index ;;
  set_entry deallocate_index (prev_head h) ;;
  modify (fun p => set_allocator deallocate_index (back_index p)
                                 (u8 (free_count p + 1)) p).

(* SMALL, LARGE, OVERSIZED NODES *)

Definition branchout : Z := stem_max_count.

(** [n] is the pool entries left and [b] the total branchout of the
    previous level; [n] shrinks by [b] in every call, which bounds the
    recursion. *)
Fixpoint max_stem_levels_helper (fuel : nat) (n b : Z) : Z :=
  match fuel with
  | O => 0
  | S fuel' =>
      if n >? b then 1 + max_stem_levels_helper fuel' (n - b) (b * branchout)
      else 0
  end.
Definition max_stem_levels : Z :=
  max_stem_levels_helper (Z.to_nat pool_count) pool_count 1.
Definition max_levels : Z := max_stem_levels + 1.

Definition small (p : PageNode) : bool := free_count p >? 2 * max_levels - 1.
Definition large (p : PageNode) : bool := free_count p <=? 2 * max_levels - 1.
Definition oversized (p : PageNode) : bool := free_count p <=? max_levels - 1.

(* ACCESSORS *)

Definition get_stem (index : page_index) : PM stem_node :=
  e <- entry index ;;
  match e with
  | stem n => ret n
  | _ => fail (Indeterminate "get_stem")
  end.
Definition get_leaf (index : page_index) : PM leaf_node :=
  e <- entry index ;;
  match e with
  | leaf n => ret n
  | _ => fail (Indeterminate "get_leaf")
  end.
Definition put_stem (index : page_index) (n : stem_node) : PM unit :=
  set_entry index (stem n).
Definition put_leaf (index : page_index) (n : leaf_node) : PM unit :=
  set_entry index (leaf n).

(** [get_stem(index).f(...)] for a member [f] that changes the node. *)
Definition upd_stem (index : page_index) (f : stem_node → result stem_node)
  : PM unit :=
  n <- get_stem index ;; n' <- lift (f n) ;; put_stem index n'.
Definition upd_leaf (index : page_index) (f : leaf_node → result leaf_node)
  : PM unit :=
  n <- get_leaf index ;; n' <- lift (f n) ;; put_leaf index n'.
Definition set_prev_index (index : page_index) (i : page_index) : PM unit :=
  upd_leaf index (fun n =>
    Ok (Line.set_aux n (mk_leaf_aux i (next_index (Line.aux n))))).
Definition set_next_index (index : page_index) (i : page_index) : PM unit :=
  upd_leaf index (fun n =>
    Ok (Line.set_aux n (mk_leaf_aux (prev_index (Line.aux n)) i))).

(** A leaf node in a freshly allocated entry. *)
Definition new_leaf_node (prev next : page_index) : leaf_node :=
  Line.blank leaf_max_count (mk_leaf_aux prev next).
Definition new_stem_node : stem_node := Line.blank stem_max_count tt.

(* CONSTRUCTOR *)

(** [aux] is not initialised by the constructor: the caller passes what
    the storage holds. *)
Definition PageNode_ (a : A) : result PageNode :=
  let p0 := mk (replicate (Z.to_nat pool_count) raw) 0 0 (u8 pool_count)
               0 0 0 0 a in
  '(r, p1) <-? allocate p0 ;;
  let p2 := set_stem_levels 0 (set_max_leaf_index r (set_min_leaf_index r
              (set_root_index r p1))) in
  '(_, p3) <-? put_leaf r (new_leaf_node page_index_nil page_index_nil) p2 ;;
  Ok p3.

Definition key (position : page_position) : PM Key :=
  n <- get_leaf (page_position.line position) ;;
  lift (Line.key leaf_max_count n (page_position.elem position)).
Definition elem (position : page_position) : PM Element :=
  n <- get_leaf (page_position.line position) ;;
  lift (Line.elem leaf_max_count n (page_position.elem position)).

Definition min_position : PM page_position :=
  i <- gets min_leaf_index ;; n <- get_leaf i ;;
  ret (page_position.mk i (Line.min_index n)).
Definition max_position : PM page_position :=
  i <- gets max_leaf_index ;; n <- get_leaf i ;;
  ret (page_position.mk i (Line.max_index n)).
Definition end_position : PM page_position :=
  i <- gets max_leaf_index ;; n <- get_leaf i ;;
  ret (page_position.mk i (u8 (Line.max_index n + 1))).

Definition prev_position (position : page_position) : PM page_position :=
  node <- get_leaf (page_position.line position) ;;
  if negb (prev_index (Line.aux node) =? page_index_nil)
     && (page_position.elem position =? Line.min_index node)
  then
    prev <- get_leaf (prev_index (Line.aux node)) ;;
    ret (page_position.mk (prev_index (Line.aux node)) (Line.max_index prev))
  else
    ret (page_position.mk (page_position.line position)
                          (u8 (page_position.elem position - 1))).

Definition next_position (position : page_position) : PM page_position :=
  node <- get_leaf (page_position.line position) ;;
  if negb (next_index (Line.aux node) =? page_index_nil)
     && (page_position.elem position =? Line.max_index node)
  then
    next <- get_leaf (next_index (Line.aux node)) ;;
    ret (page_position.mk (next_index (Line.aux node)) (Line.min_index next))
  else
    ret (page_position.mk (page_position.line position)
                          (u8 (page_position.elem position + 1))).

Definition min_key : PM Key :=
  i <- gets min_leaf_index ;; n <- get_leaf i ;;
  lift (Line.min_key leaf_max_count n).
Definition min_elem : PM Element :=
  i <- gets min_leaf_index ;; n <- get_leaf i ;;
  lift (Line.min_elem leaf_max_count n).

(* PREDICATES *)

(** [stem_levels == 0 && get_leaf(root_index).empty()], short-circuit. *)
Definition empty : PM bool :=
  sl <- gets stem_levels ;;
  if sl =? 0 then
    r <- gets root_index ;; n <- get_leaf r ;; ret (Line.empty n)
  else ret false.

(* OPERATIONS *)

(** The descent through the stem levels shared by [find], [find_path],
    [min_path] and [max_path]: [choose] picks the entry of a stem node. *)
Fixpoint descend (n : nat) (choose : stem_node → result line_index)
    (search_index : page_index) : PM page_index :=
  match n with
  | O => ret search_index
  | S n' =>
      search_stem <- get_stem search_index ;;
      i <- lift (choose search_stem) ;;
      e <- lift (Line.elem stem_max_count search_stem i) ;;
      descend n' choose (snd e)
  end.

(** Returns the position of the greatest key less than or equal to the
    one given, or the minimum position if all keys are greater. *)
Definition find (find_key : Key) : PM page_position :=
  sl <- gets stem_levels ;;
  r <- gets root_index ;;
  search_index <-
    descend (Z.to_nat sl) (fun s => Line.find stem_max_count s find_key) r ;;
  search_leaf <- get_leaf search_index ;;
  i <- lift (Line.find leaf_max_count search_leaf find_key) ;;
  ret (page_position.mk search_index i).

(** What [find] does from the entry [index], [n] stem levels above the
    leaves. *)
Definition find_from (n : nat) (index : page_index) (find_key : Key)
  : PM page_position :=
  search_index <-
    descend n (fun s => Line.find stem_max_count s find_key) index ;;
  search_leaf <- get_leaf search_index ;;
  i <- lift (Line.find leaf_max_count search_leaf find_key) ;;
  ret (page_position.mk search_index i).

(** [std::array<page_position, max_levels>]; [None] is an entry that was
    not assigned. *)
Definition Path : Type := list (option page_position).

Definition in_path (i : Z) : bool := (0 <=? i) && (i <? max_levels).
(** [path[i]]; [what] names the expression of the source, for the fault. *)
Definition path_get (what : string) (path : Path) (i : Z) : result page_position :=
  if in_path i then
    match path !! Z.to_nat i with
    | Some (Some x) => Ok x
    | _ => Err (Indeterminate what)
    end
  else Err (OutOfBounds what).
Definition path_set (path : Path) (i : Z) (x : page_position) : result Path :=
  if in_path i then Ok (<[Z.to_nat i := Some x]> path)
  else Err (OutOfBounds "Path").

Fixpoint descend_path (n : nat) (depth : Z)
    (choose : stem_node → result line_index)
    (search_index : page_index) (result_ : Path) : PM (page_index * Path) :=
  match n with
  | O => ret (search_index, result_)
  | S n' =>
      search_stem <- get_stem search_index ;;
      i <- lift (choose search_stem) ;;
      result' <- lift (path_set result_ depth (page_position.mk search_index i)) ;;
      e <- lift (Line.elem stem_max_count search_stem i) ;;
      descend_path n' (depth + 1) choose (snd e) result'
  end.

Definition make_path (choose_stem : stem_node → result line_index)
    (choose_leaf : leaf_node → result line_index) : PM Path :=
  sl <- gets stem_levels ;;
  r <- gets root_index ;;
  '(search_index, result_) <-
    descend_path (Z.to_nat sl) 0 choose_stem r
                 (replicate (Z.to_nat max_levels) None) ;;
  search_leaf <- get_leaf search_index ;;
  i <- lift (choose_leaf search_leaf) ;;
  lift (path_set result_ sl (page_position.mk search_index i)).

(** Construct the path taken to find the key given *)
Definition find_path (find_key : Key) : PM Path :=
  make_path (fun s => Line.find stem_max_count s find_key)
            (fun l => Line.find leaf_max_count l find_key).
(** Construct the leftmost path down the stem *)
Definition min_path : PM Path :=
  make_path (fun s => Ok (Line.min_index s)) (fun l => Ok (Line.min_index l)).
(** Construct the rightmost path down the stem *)
Definition max_path : PM Path :=
  make_path (fun s => Ok (Line.max_index s)) (fun l => Ok (Line.max_index l)).

Definition stem_min_key (index : page_index) : PM Key :=
  n <- get_stem index ;; lift (Line.min_key stem_max_count n).
Definition leaf_min_key (index : page_index) : PM Key :=
  n <- get_leaf index ;; lift (Line.min_key leaf_max_count n).

(** [new_root.init(); new_root.insert({key1, index1});
    new_root.insert({key2, index2})] on the entry just allocated for the new
    root; a key is read when its element is inserted. *)
Definition init_root (key1 : PM Key) (index1 : page_index)
    (key2 : PM Key) (index2 : page_index) : PM unit :=
  r <- gets root_index ;;
  put_stem r (Line.init new_stem_node) ;;
  k1 <- key1 ;;
  upd_stem r (fun n => Line.insert stem_max_count n (k1, index1)) ;;
  k2 <- key2 ;;
  upd_stem r (fun n => Line.insert stem_max_count n (k2, index2)).

(** [get_stem(index).split(get_stem(new_index))] *)
Definition split_stem (index new_index : page_index) : PM unit :=
  n <- get_stem index ;;
  '(n1, n2) <- lift (Line.split stem_max_count n new_stem_node) ;;
  put_stem index n1 ;;
  put_stem new_index n2.
(** [get_leaf(index).split(get_leaf(new_index))]; the aux of the new leaf
    is assigned by the caller. *)
Definition split_leaf (index new_index : page_index) (a : leaf_aux) : PM unit :=
  n <- get_leaf index ;;
  '(n1, n2) <- lift (Line.split leaf_max_count n
                       (Line.blank leaf_max_count a)) ;;
  put_leaf index n1 ;;
  put_leaf new_index n2.

Definition incr_stem_levels : PM unit :=
  modify (fun p => set_stem_levels (u8 (stem_levels p + 1)) p).
Definition decr_stem_levels : PM unit :=
  modify (fun p => set_stem_levels (u8 (stem_levels p - 1)) p).

Definition split_root : PM unit :=
  sl <- gets stem_levels ;;
  old_root_index <- gets root_index ;;
  if sl >? 0 then
    old_root <- get_stem old_root_index ;;
    when (Line.full stem_max_count old_root) (
      new_index <- allocate ;;
      split_stem old_root_index new_index ;;
      r <- allocate ;;
      modify (set_root_index r) ;;
      init_root (stem_min_key old_root_index) old_root_index
                (stem_min_key new_index) new_index ;;
      incr_stem_levels)
  else
    old_root <- get_leaf old_root_index ;;
    when (Line.full leaf_max_count old_root) (
      new_index <- allocate ;;
      split_leaf old_root_index new_index
                 (mk_leaf_aux old_root_index page_index_nil) ;;
      set_next_index old_root_index new_index ;;
      modify (set_max_leaf_index new_index) ;;
      r <- allocate ;;
      modify (set_root_index r) ;;
      init_root (leaf_min_key old_root_index) old_root_index
                (leaf_min_key new_index) new_index ;;
      incr_stem_levels).

(** One turn of the [for] loop of [insert]: from [current_index] to the
    stem node below it that the new key belongs to. *)
Definition insert_step (new_key : Key) (current_index : page_index)
  : PM page_index :=
  current_stem <- get_stem current_index ;;
  target_pos <- lift (Line.find stem_max_count current_stem new_key) ;;
  te <- lift (Line.elem stem_max_count current_stem target_pos) ;;
  let target_index := snd te in
  tmin <- stem_min_key target_index ;;
  when (new_key <? tmin)
    (upd_stem current_index (fun n =>
       Line.set_key stem_max_count n target_pos new_key)) ;;
  (* Split target stem? *)
  target_stem <- get_stem target_index ;;
  if Line.full stem_max_count target_stem then
    new_index <- allocate ;;
    split_stem target_index new_index ;;
    nmin <- stem_min_key new_index ;;
    upd_stem current_index (fun n =>
      Line.insert stem_max_count n (nmin, new_index)) ;;
    if new_key >=? nmin then ret new_index else ret target_index
  else ret target_index.

Fixpoint iterate_index (n : nat) (step : page_index → PM page_index)
    (current_index : page_index) : PM page_index :=
  match n with
  | O => ret current_index
  | S n' => i <- step current_index ;; iterate_index n' step i
  end.

(** The leaf level of [insert], below the stem node [current_index]: the
    block after the [for] loop. *)
Definition insert_below (new_elem : Element) (current_index : page_index)
  : PM unit :=
  let new_key := fst new_elem in
  current_stem <- get_stem current_index ;;
  target_pos <- lift (Line.find stem_max_count current_stem new_key) ;;
  te <- lift (Line.elem stem_max_count current_stem target_pos) ;;
  let target_index := snd te in
  tmin <- leaf_min_key target_index ;;
  when (new_key <? tmin)
    (upd_stem current_index (fun n =>
       Line.set_key stem_max_count n target_pos new_key)) ;;
  (* Split target leaf? *)
  target_leaf <- get_leaf target_index ;;
  if Line.full leaf_max_count target_leaf then
    new_index <- allocate ;;
    split_leaf target_index new_index
      (mk_leaf_aux target_index (next_index (Line.aux target_leaf))) ;;
    nmin <- leaf_min_key new_index ;;
    upd_stem current_index (fun n =>
      Line.insert stem_max_count n (nmin, new_index)) ;;
    (* Adjust the linked leaf list to fit in the new leaf *)
    when (negb (next_index (Line.aux target_leaf) =? page_index_nil))
      (set_prev_index (next_index (Line.aux target_leaf)) new_index) ;;
    set_next_index target_index new_index ;;
    mx <- gets max_leaf_index ;;
    when (mx =? target_index) (modify (set_max_leaf_index new_index)) ;;
    nmin' <- leaf_min_key new_index ;;
    if new_key >=? nmin'
    then upd_leaf new_index (fun n => Line.insert leaf_max_count n new_elem)
    else upd_leaf target_index (fun n => Line.insert leaf_max_count n new_elem)
  else
    upd_leaf target_index (fun n => Line.insert leaf_max_count n new_elem).

(** Insert a new element *)
Definition insert (new_elem : Element) : PM unit :=
  split_root ;;
  let new_key := fst new_elem in
  sl <- gets stem_levels ;;
  r <- gets root_index ;;
  if sl >? 0 then
    current_index <- iterate_index (Z.to_nat (sl - 1)) (insert_step new_key) r ;;
    insert_below new_elem current_index
  else
    upd_leaf r (fun n => Line.insert leaf_max_count n new_elem).

Definition insert_min_leaf_step (new_min_key : Key) (current_index : page_index)
  : PM page_index :=
  current_stem <- get_stem current_index ;;
  let target_pos := Line.min_index current_stem in
  te <- lift (Line.elem stem_max_count current_stem target_pos) ;;
  let target_index := snd te in
  target_stem <- get_stem target_index ;;
  upd_stem current_index (fun n =>
    Line.set_key stem_max_count n target_pos new_min_key) ;;
  (* Split target stem? *)
  target_stem <- get_stem target_index ;;
  when (Line.full stem_max_count target_stem) (
    new_index <- allocate ;;
    split_stem target_index new_index ;;
    nmin <- stem_min_key new_index ;;
    upd_stem current_index (fun n =>
      Line.insert stem_max_count n (nmin, new_index))) ;;
  ret target_index.

Definition insert_min_leaf (new_min_key : Key) (new_index : page_index)
  : PM unit :=
  sl <- gets stem_levels ;;
  if sl >? 0 then
    split_root ;;
    sl <- gets stem_levels ;;
    r <- gets root_index ;;
    current_index <-
      iterate_index (Z.to_nat (sl - 1)) (insert_min_leaf_step new_min_key) r ;;
    upd_stem current_index (fun n =>
      Line.insert stem_max_count n (new_min_key, new_index))
  else
    old_root_index <- gets root_index ;;
    r <- allocate ;;
    modify (set_root_index r) ;;
    init_root (ret new_min_key) new_index
              (leaf_min_key old_root_index) old_root_index ;;
    incr_stem_levels.

Definition insert_max_leaf_step (current_index : page_index) : PM page_index :=
  current_stem <- get_stem current_index ;;
  let target_pos := Line.max_index current_stem in
  te <- lift (Line.elem stem_max_count current_stem target_pos) ;;
  let target_index := snd te in
  target_stem <- get_stem target_index ;;
  (* Split target stem? *)
  if Line.full stem_max_count target_stem then
    new_index <- allocate ;;
    split_stem target_index new_index ;;
    nmin <- stem_min_key new_index ;;
    upd_stem current_index (fun n =>
      Line.insert stem_max_count n (nmin, new_index)) ;;
    ret new_index
  else ret target_index.

Definition insert_max_leaf (new_min_key : Key) (new_index : page_index)
  : PM unit :=
  sl <- gets stem_levels ;;
  if sl >? 0 then
    split_root ;;
    sl <- gets stem_levels ;;
    r <- gets root_index ;;
    current_index <-
      iterate_index (Z.to_nat (sl - 1)) insert_max_leaf_step r ;;
    upd_stem current_index (fun n =>
      Line.insert stem_max_count n (new_min_key, new_index))
  else
    old_root_index <- gets root_index ;;
    r <- allocate ;;
    modify (set_root_index r) ;;
    init_root (leaf_min_key old_root_index) old_root_index
              (ret new_min_key) new_index ;;
    incr_stem_levels.

(** [update_key] calls itself with [depth - 1] while [depth > 0]; [fuel]
    counts these calls. *)
Fixpoint update_key_rec (fuel : nat) (path : Path) (depth : Z)
    (elem : line_index) (new_key : Key) : PM unit :=
  pd <- lift (path_get "update_key: path[depth]" path depth) ;;
  upd_stem (page_position.line pd) (fun n =>
    Line.set_key stem_max_count n elem new_key) ;;
  if (depth >? 0) && (elem =? 0) then
    match fuel with
    | O => fail Diverges
    | S fuel' =>
        pe <- lift (path_get "update_key: path[depth - 1]" path (depth - 1)) ;;
        update_key_rec fuel' path (depth - 1) (page_position.elem pe) new_key
    end
  else ret tt.

Definition update_key (path : Path) (depth : Z) (elem : line_index)
    (new_key : Key) : PM unit :=
  update_key_rec (Z.to_nat depth) path depth elem new_key.

Definition set_key (position : page_position) (new_key : Key) : PM unit :=
  old_key <- key position ;;
  upd_leaf (page_position.line position) (fun n =>
    Line.set_key leaf_max_count n (page_position.elem position) new_key) ;;
  when (page_position.elem position =? 0) (
    path <- find_path old_key ;;
    sl <- gets stem_levels ;;
    pe <- lift (path_get "set_key: path[stem_levels - 1]" path (sl - 1)) ;;
    update_key path (sl - 1) (page_position.elem pe) new_key).

(** Erase a node from the stem structure.  The depth given is the depth of
    the node to erase from; [fuel] counts the calls with [depth - 1]. *)
Fixpoint erase_node_rec (fuel : nat) (path : Path) (depth : Z)
    (elem : line_index) : PM unit :=
  let again (e : line_index) : PM unit :=
    match fuel with
    | O => fail Diverges
    | S fuel' => erase_node_rec fuel' path (depth - 1) e
    end in
  pd <- lift (path_get "erase_node: path[depth]" path depth) ;;
  let line := page_position.line pd in
  erase_stem <- get_stem line ;;
  (* If the node is not root and thin, we must either merge or borrow *)
  if (depth >? 0) && Line.thin stem_max_count erase_stem then
    pp <- lift (path_get "erase_node: path[depth - 1]" path (depth - 1)) ;;
    let parent_page_index := page_position.line pp in
    let parent_line_index := page_position.elem pp in
    parent <- get_stem parent_page_index ;;
    (* Do we have a previous sibling? *)
    if parent_line_index >? 0 then
      pe <- lift (Line.elem stem_max_count parent (u8 (parent_line_index - 1))) ;;
      let prev_index := snd pe in
      prev_stem <- get_stem prev_index ;;
      (* Can we merge? *)
      if Line.count erase_stem + Line.count prev_stem <=? stem_max_count then
        '(n1, n2) <- lift (Line.merge_prev_erase stem_max_count
                             erase_stem elem prev_stem) ;;
        put_stem line n1 ;; put_stem prev_index n2 ;;
        deallocate line ;;
        again parent_line_index
      else
        '(n1, n2) <- lift (Line.borrow_prev_erase stem_max_count
                             erase_stem elem prev_stem) ;;
        put_stem line n1 ;; put_stem prev_index n2 ;;
        k <- stem_min_key line ;;
        update_key path (depth - 1) parent_line_index k
    else
      ne <- lift (Line.elem stem_max_count parent (u8 (parent_line_index + 1))) ;;
      let next_index := snd ne in
      next_leaf <- get_stem next_index ;;
      (* Can we merge? *)
      if Line.count erase_stem + Line.count next_leaf <=? stem_max_count then
        '(n1, n2) <- lift (Line.merge_next_erase stem_max_count
                             erase_stem elem next_leaf) ;;
        put_stem line n1 ;; put_stem next_index n2 ;;
        deallocate next_index ;;
        when (elem =? 0) (
          k <- stem_min_key line ;;
          update_key path (depth - 1) parent_line_index k) ;;
        again (u8 (parent_line_index + 1))
      else
        '(n1, n2) <- lift (Line.borrow_next_erase stem_max_count
                             erase_stem elem next_leaf) ;;
        put_stem line n1 ;; put_stem next_index n2 ;;
        k <- stem_min_key next_index ;;
        update_key path (depth - 1) (u8 (parent_line_index + 1)) k ;;
        when (elem =? 0) (
          k <- stem_min_key line ;;
          update_key path (depth - 1) parent_line_index k)
  else
    upd_stem line (fun n => Line.erase stem_max_count n elem) ;;
    when ((depth >? 0) && (elem =? 0)) (
      pp <- lift (path_get "erase_node: path[depth - 1]" path (depth - 1)) ;;
      k <- stem_min_key line ;;
      update_key path (depth - 1) (page_position.elem pp) k) ;;
    (* If we are the root and we now have only one child we should
       collapse this level of the tree *)
    erase_stem <- get_stem line ;;
    when ((depth =? 0) && (Line.count erase_stem =? 1)) (
      e <- lift (Line.min_elem stem_max_count erase_stem) ;;
      modify (set_root_index (snd e)) ;;
      deallocate line ;;
      decr_stem_levels).

Definition erase_node (path : Path) (depth : Z) (elem : line_index) : PM unit :=
  erase_node_rec (Z.to_nat depth) path depth elem.

(** Erase an element.  The page might be left thin in which case the
    caller should decide what to do about that *)
Definition erase (erase_key : Key) : PM unit :=
  path <- find_path erase_key ;;
  sl <- gets stem_levels ;;
  pl <- lift (path_get "erase: path[stem_levels]" path sl) ;;
  let line := page_position.line pl in
  let elem := page_position.elem pl in
  erase_leaf <- get_leaf line ;;
  (* If the node is not root and thin, we must either merge or borrow *)
  if (sl >? 0) && Line.thin leaf_max_count erase_leaf then
    pp <- lift (path_get "erase: path[stem_levels - 1]" path (sl - 1)) ;;
    let parent_line_index := page_position.elem pp in
    (* Do we have a previous sibling? *)
    if negb (prev_index (Line.aux erase_leaf) =? page_index_nil) then
      let prev_index := prev_index (Line.aux erase_leaf) in
      prev_leaf <- get_leaf prev_index ;;
      (* Can we merge? *)
      if Line.count erase_leaf + Line.count prev_leaf <=? leaf_max_count then
        '(n1, n2) <- lift (Line.merge_prev_erase leaf_max_count
                             erase_leaf elem prev_leaf) ;;
        put_leaf line n1 ;; put_leaf prev_index n2 ;;
        (* Adjust the linked leaf list to erase the merged node *)
        when (negb (next_index (Line.aux erase_leaf) =? page_index_nil))
          (set_prev_index (next_index (Line.aux erase_leaf)) prev_index) ;;
        set_next_index prev_index (next_index (Line.aux erase_leaf)) ;;
        mx <- gets max_leaf_index ;;
        when (mx =? line) (modify (set_max_leaf_index prev_index)) ;;
        deallocate line ;;
        erase_node path (sl - 1) parent_line_index
      else
        '(n1, n2) <- lift (Line.borrow_prev_erase leaf_max_count
                             erase_leaf elem prev_leaf) ;;
        put_leaf line n1 ;; put_leaf prev_index n2 ;;
        k <- leaf_min_key line ;;
        update_key path (sl - 1) parent_line_index k
    else
      let next_index_ := next_index (Line.aux erase_leaf) in
      next_leaf <- get_leaf next_index_ ;;
      (* Can we merge? *)
      if Line.count erase_leaf + Line.count next_leaf <=? leaf_max_count then
        '(n1, n2) <- lift (Line.merge_next_erase leaf_max_count
                             erase_leaf elem next_leaf) ;;
        put_leaf line n1 ;; put_leaf next_index_ n2 ;;
        (* Adjust the linked leaf list to erase the merged node *)
        when (negb (next_index (Line.aux next_leaf) =? page_index_nil))
          (set_prev_index (next_index (Line.aux next_leaf)) line) ;;
        set_next_index line (next_index (Line.aux next_leaf)) ;;
        mx <- gets max_leaf_index ;;
        when (mx =? next_index_) (modify (set_max_leaf_index line)) ;;
        deallocate next_index_ ;;
        when (elem =? 0) (
          k <- leaf_min_key line ;;
          update_key path (sl - 1) parent_line_index k) ;;
        erase_node path (sl - 1) (u8 (parent_line_index + 1))
      else
        '(n1, n2) <- lift (Line.borrow_next_erase leaf_max_count
                             erase_leaf elem next_leaf) ;;
        put_leaf line n1 ;; put_leaf next_index_ n2 ;;
        k <- leaf_min_key next_index_ ;;
        update_key path (sl - 1) (u8 (parent_line_index + 1)) k ;;
        when (elem =? 0) (
          k <- leaf_min_key line ;;
          update_key path (sl - 1) parent_line_index k)
  else
    upd_leaf line (fun n => Line.erase leaf_max_count n elem) ;;
    when ((sl >? 0) && (elem =? 0)) (
      pp <- lift (path_get "erase: path[stem_levels - 1]" path (sl - 1)) ;;
      k <- leaf_min_key line ;;
      update_key path (sl - 1) (page_position.elem pp) k).

(** [borrow_prev], [borrow_next]: computations over this page (first) and
    the neighbouring page (second). *)
Local Abbreviation PM2 := (M (PageNode * PageNode)).

(** [for (int i = 0; i < old_leaf.count(); ++i) insert(old_leaf.elem(i));]
    with [old_leaf] in the other page. *)
Definition insert_each (old_index : page_index) : PM2 unit :=
  old_leaf <- on_other (get_leaf old_index) ;;
  for_loop (Z.to_nat (Line.count old_leaf)) 0 (fun i =>
    old_leaf <- on_other (get_leaf old_index) ;;
    e <- lift (Line.elem leaf_max_count old_leaf (u8 i)) ;;
    on_this (insert e)).

Definition borrow_prev : PM2 unit :=
  prev_path <- on_other max_path ;;
  prev_sl <- on_other (gets stem_levels) ;;
  po <- lift (path_get "borrow_prev: prev_path[prev_page.stem_levels]" prev_path prev_sl) ;;
  let old_index := page_position.line po in
  old_leaf <- on_other (get_leaf old_index) ;;
  (if Line.count old_leaf <? Line.min_count leaf_max_count then
     (* TODO: This could be done more efficiently *)
     insert_each old_index
   else
     this_path <- on_this min_path ;;
     (* Copy the leaf *)
     new_index <- on_this allocate ;;
     sl <- on_this (gets stem_levels) ;;
     pn <- lift (path_get "borrow_prev: this_path[stem_levels]" this_path sl) ;;
     let next_index := page_position.line pn in
     on_this (set_prev_index next_index new_index) ;;
     new_leaf <- lift (Line.init_from leaf_max_count
                         (new_leaf_node page_index_nil next_index) old_leaf) ;;
     on_this (put_leaf new_index new_leaf) ;;
     on_this (modify (set_min_leaf_index new_index)) ;;
     (* Insert into this pages stem structure *)
     k <- on_this (leaf_min_key new_index) ;;
     on_this (insert_min_leaf k new_index)) ;;
  (* Erase the node from the other pages stem structure *)
  prev_sl <- on_other (gets stem_levels) ;;
  if negb (prev_sl =? 0) then
    old_leaf <- on_other (get_leaf old_index) ;;
    on_other (modify (set_max_leaf_index (prev_index (Line.aux old_leaf)))) ;;
    on_other (set_next_index (prev_index (Line.aux old_leaf)) page_index_nil) ;;
    on_other (deallocate old_index) ;;
    pe <- lift (path_get "borrow_prev: prev_path[prev_page.stem_levels - 1]"
                        prev_path (prev_sl - 1)) ;;
    on_other (erase_node prev_path (prev_sl - 1) (page_position.elem pe))
  else
    on_other (upd_leaf old_index (fun n => Ok (Line.reset n))).

(** [path[depth].elem]'s stem key, for every [depth] below [n] *)
Definition set_path_keys (n : nat) (path : Path) (new_key : Key) : PM unit :=
  for_loop n 0 (fun depth =>
    pd <- lift (path_get "set_path_keys: path[depth]" path depth) ;;
    upd_stem (page_position.line pd) (fun s =>
      Line.set_key stem_max_count s (page_position.elem pd) new_key)).

Definition borrow_next : PM2 unit :=
  next_path <- on_other min_path ;;
  next_sl <- on_other (gets stem_levels) ;;
  po <- lift (path_get "borrow_next: next_path[next_page.stem_levels]" next_path next_sl) ;;
  let old_index := page_position.line po in
  old_leaf <- on_other (get_leaf old_index) ;;
  (if Line.count old_leaf <? Line.min_count leaf_max_count then
     (* TODO: This could be done more efficiently *)
     insert_each old_index
   else
     this_path <- on_this max_path ;;
     (* Copy the leaf *)
     new_index <- on_this allocate ;;
     sl <- on_this (gets stem_levels) ;;
     pp <- lift (path_get "borrow_next: this_path[stem_levels]" this_path sl) ;;
     let prev_index := page_position.line pp in
     on_this (set_next_index prev_index new_index) ;;
     new_leaf <- lift (Line.init_from leaf_max_count
                         (new_leaf_node prev_index page_index_nil) old_leaf) ;;
     on_this (put_leaf new_index new_leaf) ;;
     on_this (modify (set_max_leaf_index new_index)) ;;
     (* Update the keys on the path *)
     new_key <- on_other min_key ;;
     on_other (set_path_keys (Z.to_nat (next_sl - 1)) next_path new_key) ;;
     (* Insert into this pages stem structure *)
     k <- on_this (leaf_min_key new_index) ;;
     on_this (insert_max_leaf k new_index)) ;;
  (* Erase the node from the other pages stem structure *)
  next_sl <- on_other (gets stem_levels) ;;
  if negb (next_sl =? 0) then
    old_leaf <- on_other (get_leaf old_index) ;;
    on_other (modify (set_min_leaf_index (next_index (Line.aux old_leaf)))) ;;
    on_other (set_prev_index (next_index (Line.aux old_leaf)) page_index_nil) ;;
    on_other (deallocate old_index) ;;
    (* the index is [stem_levels - 1] of this page *)
    sl <- on_this (gets stem_levels) ;;
    pe <- lift (path_get "borrow_next: next_path[stem_levels - 1]" next_path (sl - 1)) ;;
    on_other (erase_node next_path (next_sl - 1) (page_position.elem pe))
  else
    on_other (upd_leaf old_index (fun n => Ok (Line.reset n))).

(** Returns the new page; [a] is what the storage of the new page holds
    where its [aux] lies. *)
Definition split_one_leaf (a : A) : PM PageNode :=
  this_path <- max_path ;;
  (* Copy the leaf *)
  new_page <- lift (PageNode_ a) ;;
  let new_index := root_index new_page in
  sl <- gets stem_levels ;;
  po <- lift (path_get "split_one_leaf: this_path[stem_levels]" this_path sl) ;;
  let old_index := page_position.line po in
  old_leaf <- get_leaf old_index ;;
  '(_, new_page') <- lift (upd_leaf new_index (fun n =>
                       Line.init_from leaf_max_count n old_leaf) new_page) ;;
  (* Erase the node from this pages stem structure *)
  (if negb (sl =? 0) then
     modify (set_max_leaf_index (prev_index (Line.aux old_leaf))) ;;
     set_next_index (prev_index (Line.aux old_leaf)) page_index_nil ;;
     deallocate old_index ;;
     pe <- lift (path_get "split_one_leaf: this_path[stem_levels - 1]" this_path (sl - 1)) ;;
     erase_node this_path (sl - 1) (page_position.elem pe)
   else
     upd_leaf old_index (fun n => Ok (Line.reset n))) ;;
  ret new_page'.

(** The elements below the entry [index], which has [n] stem levels below
    it, in the order of the tree.  [None] unless every node on the way is
    of the right kind and not empty and every stem entry carries the first
    key of its child. *)
Fixpoint subtree (n : nat) (p : PageNode) (index : page_index)
  : option (list Element) :=
  match n with
  | O =>
      match entry index p with
      | Ok (leaf ln, _) =>
          match Line.live leaf_max_count ln with
          | Some (e :: l) => Some (e :: l)
          | _ => None
          end
      | _ => None
      end
  | S n' =>
      match entry index p with
      | Ok (stem sn, _) =>
          match Line.live stem_max_count sn with
          | Some (r :: rs) => all_blocks (subtree n' p) (r :: rs)
          | _ => None
          end
      | _ => None
      end
  end.

Definition contents (p : PageNode) : option (list Element) :=
  if (0 <=? stem_levels p) then
    subtree (Z.to_nat (stem_levels p)) p (root_index p)
  else None.

(** A page that is a single leaf line: the root is a leaf node that holds
    the elements [l] and has no neighbours. *)
Definition one_line (p : PageNode) (l : list Element) : Prop :=
  stem_levels p = 0 ∧ in_pool (root_index p) = true
  ∧ min_leaf_index p = root_index p ∧ max_leaf_index p = root_index p
  ∧ ∃ n, pool_memory p !! Z.to_nat (root_index p) = Some (leaf n)
       ∧ Line.live leaf_max_count n = Some l
       ∧ Line.aux n = mk_leaf_aux page_index_nil page_index_nil.

(** A page of two leaf lines below the root: the leaves [i1] and [i2] hold
    [l1] and [l2] and are linked to each other, and the root stem holds the
    first key of each with its index. *)
Definition two_lines (p : PageNode) (l1 l2 : list Element) : Prop :=
  stem_levels p = 1 ∧ in_pool (root_index p) = true
  ∧ ∃ i1 i2 e1 e2 sn n1 n2,
      min_leaf_index p = i1 ∧ max_leaf_index p = i2 ∧ i1 ≠ i2
      ∧ in_pool i1 = true ∧ in_pool i2 = true
      ∧ head l1 = Some e1 ∧ head l2 = Some e2
      ∧ pool_memory p !! Z.to_nat (root_index p) = Some (stem sn)
      ∧ Line.live stem_max_count sn = Some [(fst e1, i1); (fst e2, i2)]
      ∧ pool_memory p !! Z.to_nat i1 = Some (leaf n1)
      ∧ Line.live leaf_max_count n1 = Some l1
      ∧ Line.aux n1 = mk_leaf_aux page_index_nil i2
      ∧ pool_memory p !! Z.to_nat i2 = Some (leaf n2)
      ∧ Line.live leaf_max_count n2 = Some l2
      ∧ Line.aux n2 = mk_leaf_aux i1 page_index_nil.

(** A pool that has given no entry back and has two entries left, behind
    the entries in use. *)
Definition fresh_pool (p : PageNode) : Prop :=
  head_index p = back_index p ∧ root_index p < back_index p
  ∧ back_index p + 1 < pool_count ∧ pool_count < 256
  ∧ 2 ≤ free_count p < 256
  ∧ Z.of_nat (length (pool_memory p)) = pool_count.

(** How many nodes a tree has whose first level has [b] nodes, with
    [levels] more levels below it and [branchout] children per node. *)
Fixpoint tree_capacity (levels : nat) (b : Z) : Z :=
  match levels with
  | O => b
  | S levels' => b + tree_capacity levels' (b * branchout)
  end.

(** *** Use of the pool by [insert] *)

(** The assertion of [allocate] failed: the pool ran out. *)
Definition pool_exhausted : error := AssertFailed "free_count > 0".

(** [split_root] finds the root node full and splits it. *)
Definition root_full (p : PageNode) : bool :=
  in_pool (root_index p) &&
  match pool_memory p !! Z.to_nat (root_index p) with
  | Some (stem n) => (stem_levels p >? 0) && Line.full stem_max_count n
  | Some (leaf n) => negb (stem_levels p >? 0) && Line.full leaf_max_count n
  | _ => false
  end.

(** The stem levels that [insert] descends through: one more than
    [stem_levels] when [split_root] splits the root. *)
Definition depth_after_split (p : PageNode) : Z :=
  if root_full p then stem_levels p + 1 else stem_levels p.

(** [Q] holds when [m] returns, and [m] does not run the pool out. *)
Definition wp {X} (m : PM X) (Q : X → PageNode → Prop) (p : PageNode) : Prop :=
  match m p with
  | Ok (x, p') => Q x p'
  | Err e => e ≠ pool_exhausted
  end.

(** [m] takes at most [n] entries from the pool. *)
Definition spends {X} (n : Z) (m : PM X) : Prop :=
  ∀ p, n ≤ free_count p < 256 →
    wp m (fun _ p' => free_count p - n ≤ free_count p' ≤ free_count p) p.



(** A fault of a line node operation is never the assertion of [allocate]. *)
Definition benign {X} (r : result X) : Prop := r ≠ Err pool_exhausted.

(** The node in a pool entry has room for one more element. *)
Definition roomy_entry (e : PoolEntry) : Prop :=
  match e with
  | stem n => Line.count_ n ≠ stem_max_count
  | leaf n => Line.count_ n ≠ leaf_max_count
  | _ => True
  end.
Definition roomy_at (m : list PoolEntry) (index : page_index) : Prop :=
  match m !! Z.to_nat index with
  | Some e => roomy_entry e
  | None => True
  end.
Definition roomy (p : PageNode) (index : page_index) : Prop :=
  roomy_at (pool_memory p) index.

(** The page as [split_root] leaves it after a split: the root is a stem
    node of two elements, and both children have room. *)
Definition just_split (p : PageNode) : Prop :=
  ∃ n, pool_memory p !! Z.to_nat (root_index p) = Some (stem n)
     ∧ Line.count_ n = 2
     ∧ ∀ j, (j = 0%nat ∨ j = 1%nat) →
         ∃ k i, Line.elems_ n !! j = Some (Some (k, i)) ∧ roomy p i.

End PageNode.
Arguments PageNode : clear implicits.
Arguments PoolEntry : clear implicits.
Arguments leaf_node : clear implicits.
End Page.

(** ** double_tree.hpp *)

Abbreviation pointer := Z (only parsing).   (* void*, PageNode* *)
Definition nullptr : pointer := 0.

Module tree_position.
Record t : Type := mk { page : pointer; sub_position : page_position }.
Definition eqb (a b : t) : bool :=
  (page a =? page b) && page_position.eqb (sub_position a) (sub_position b).
Definition neqb (a b : t) : bool :=
  negb (page a =? page b) || page_position.neqb (sub_position a) (sub_position b).
End tree_position.
Abbreviation tree_position := tree_position.t.

(** [line_node::max_count] and [PageNode::pool_count] from the sizes of the
    template arguments ([sizeof(line_index) = sizeof(page_index) = 1],
    [sizeof(PoolEntry) = line_node_size]). *)
Definition line_max_count (sizeof_aux sizeof_element : Z) : Z :=
  (line_node_size - 1 - sizeof_aux) / sizeof_element.
Definition page_pool_count (sizeof_aux : Z) : Z :=
  (page_node_size - 6 * 1 - 1 - sizeof_aux) / line_node_size.

Module Kernel.

Abbreviation V := Z (only parsing).   (* uint64_t *)
Abbreviation Element := (Key * V)%type (only parsing).

(** [aux] of the page nodes.  A pointer that was never assigned is [None]. *)
Definition stem_aux : Type := unit.
Record leaf_aux : Type := mk_leaf_aux {
  prev_pointer : option pointer;
  next_pointer : option pointer
}.

(** Sizes on the LP64 targets the Makefile builds for: the elements
    [pair<const uint64_t, uint8_t>], [pair<const uint64_t, uint64_t>] and
    [pair<const uint64_t, void*>] take 16 bytes, an empty struct 1, the two
    page indices 2 and the two pointers 16. *)
Definition stem_line_max_count : Z := line_max_count 1 16.
Definition leaf_line_max_count : Z := line_max_count 2 16.
Definition stem_pool_count : Z := page_pool_count 1.
Definition leaf_pool_count : Z := page_pool_count 16.

Definition stem_node : Type := Page.PageNode pointer stem_aux.
Definition leaf_node : Type := Page.PageNode V leaf_aux.

(** What a page pointer points to. *)
Inductive object : Type :=
| stem_object (p : stem_node)
| leaf_object (p : leaf_node).

Record kernel : Type := mk {
  heap : gmap Z object;
  next_new : pointer;            (* the address the next [new] returns *)
  root_pointer : pointer;
  min_leaf_pointer : pointer;
  max_leaf_pointer : pointer;
  stem_levels : Z                (* int *)
}.

Definition set_heap h (k : kernel) :=
  mk h (next_new k) (root_pointer k) (min_leaf_pointer k) (max_leaf_pointer k)
     (stem_levels k).
Definition set_root_pointer r (k : kernel) :=
  mk (heap k) (next_new k) r (min_leaf_pointer k) (max_leaf_pointer k)
     (stem_levels k).
Definition set_min_leaf_pointer p (k : kernel) :=
  mk (heap k) (next_new k) (root_pointer k) p (max_leaf_pointer k) (stem_levels k).
Definition set_max_leaf_pointer p (k : kernel) :=
  mk (heap k) (next_new k) (root_pointer k) (min_leaf_pointer k) p (stem_levels k).
Definition set_stem_levels l (k : kernel) :=
  mk (heap k) (next_new k) (root_pointer k) (min_leaf_pointer k)
     (max_leaf_pointer k) l.

Local Abbreviation KM := (M kernel).

(** The two instances of [PageNode] that the tree is built from. *)
Record kind (T A : Type) : Type := mk_kind {
  cfg : Page.config;
  proj : object → option (Page.PageNode T A);
  inj : Page.PageNode T A → object;
  new_aux : A          (* [aux] in the storage that [new] returns *)
}.
Arguments cfg {T A}.
Arguments proj {T A}.
Arguments inj {T A}.
Arguments new_aux {T A}.

Definition stem_kind : kind pointer stem_aux :=
  mk_kind _ _
    (Page.mk_config stem_line_max_count leaf_line_max_count stem_pool_count)
    (fun o => match o with stem_object p => Some p | _ => None end)
    stem_object tt.
Definition leaf_kind : kind V leaf_aux :=
  mk_kind _ _
    (Page.mk_config stem_line_max_count leaf_line_max_count leaf_pool_count)
    (fun o => match o with leaf_object p => Some p | _ => None end)
    leaf_object (mk_leaf_aux None None).

(** A page is put back where it was taken from. *)
Definition faithful {T A} (kd : kind T A) : Prop :=
  ∀ o p, proj kd o = Some p → inj kd p = o.

Section kind.
Context {T A : Type} (kd : kind T A).

Definition deref (ptr : pointer) : KM (Page.PageNode T A) := fun k =>
  match heap k !! ptr with
  | Some o =>
      match proj kd o with
      | Some p => Ok (p, k)
      | None => Err (BadPointer "static_cast")
      end
  | None => Err (BadPointer "dereference")
  end.
Definition store (ptr : pointer) (p : Page.PageNode T A) : KM unit :=
  modify (fun k => set_heap (<[ptr := inj kd p]> (heap k)) k).

(** [new PageNode] *)
Definition new_ (p : Page.PageNode T A) : KM pointer :=
  ptr <- gets next_new ;;
  modify (fun k => mk (<[ptr := inj kd p]> (heap k)) (ptr + 1) (root_pointer k)
                      (min_leaf_pointer k) (max_leaf_pointer k) (stem_levels k)) ;;
  ret ptr.

(** [delete ptr] *)
Definition delete_ (ptr : pointer) : KM unit :=
  _ <- deref ptr ;;
  modify (fun k => set_heap (delete ptr (heap k)) k).

(** A member function called through a page pointer. *)
Definition on {X} (ptr : pointer) (m : M (Page.PageNode T A) X) : KM X :=
  p <- deref ptr ;;
  '(x, p') <- lift (m p) ;;
  store ptr p' ;;
  ret x.

(** A member function of [*this_ptr] that takes [*other_ptr] by
    reference; the two are different pages in every call. *)
Definition on2 {X} (this_ptr other_ptr : pointer)
    (m : M (Page.PageNode T A * Page.PageNode T A) X) : KM X :=
  if this_ptr =? other_ptr then fail (BadPointer "aliased pages") else
  p <- deref this_ptr ;;
  q <- deref other_ptr ;;
  '(x, (p', q')) <- lift (m (p, q)) ;;
  store this_ptr p' ;;
  store other_ptr q' ;;
  ret x.

Definition P_oversized (ptr : pointer) : KM bool :=
  on ptr (gets (Page.oversized (cfg kd))).
Definition P_small (ptr : pointer) : KM bool :=
  on ptr (gets (Page.small (cfg kd))).
Definition P_large (ptr : pointer) : KM bool :=
  on ptr (gets (Page.large (cfg kd))).
Definition P_empty (ptr : pointer) : KM bool :=
  on ptr (Page.empty (cfg kd)).
Definition P_min_key (ptr : pointer) : KM Key :=
  on ptr (Page.min_key (cfg kd)).
Definition P_insert (ptr : pointer) (e : Key * T) : KM unit :=
  on ptr (Page.insert (cfg kd) e).
Definition P_erase (ptr : pointer) (k : Key) : KM unit :=
  on ptr (Page.erase (cfg kd) k).
Definition P_find (ptr : pointer) (k : Key) : KM page_position :=
  on ptr (Page.find (cfg kd) k).
Definition P_elem (ptr : pointer) (pos : page_position) : KM (Key * T) :=
  on ptr (Page.elem (cfg kd) pos).
Definition P_borrow_prev (this_ptr prev_ptr : pointer) : KM unit :=
  on2 this_ptr prev_ptr (Page.borrow_prev (cfg kd)).
Definition P_borrow_next (this_ptr next_ptr : pointer) : KM unit :=
  on2 this_ptr next_ptr (Page.borrow_next (cfg kd)).
(** [ptr->split_one_leaf()]: the new page is put on the heap. *)
Definition P_split_one_leaf (ptr : pointer) : KM pointer :=
  new_page <- on ptr (Page.split_one_leaf (cfg kd) (new_aux kd)) ;;
  new_ new_page.
End kind.

(** Members of the stem pages, whose elements are [(key, page pointer)]. *)
Definition S_key (ptr : pointer) (pos : page_position) : KM Key :=
  on stem_kind ptr (Page.key (cfg stem_kind) pos).
Definition S_set_key (ptr : pointer) (pos : page_position) (k : Key) : KM unit :=
  on stem_kind ptr (Page.set_key (cfg stem_kind) pos k).
Definition S_min_position (ptr : pointer) : KM page_position :=
  on stem_kind ptr (Page.min_position (cfg stem_kind)).
Definition S_max_position (ptr : pointer) : KM page_position :=
  on stem_kind ptr (Page.max_position (cfg stem_kind)).
Definition S_prev_position (ptr : pointer) (pos : page_position) : KM page_position :=
  on stem_kind ptr (Page.prev_position (cfg stem_kind) pos).
Definition S_next_position (ptr : pointer) (pos : page_position) : KM page_position :=
  on stem_kind ptr (Page.next_position (cfg stem_kind) pos).

(** [loops]: the [while] loops of [insert] and [erase] move at least one
    pool entry or one element per turn, and both counters are 8 bits wide. *)
Definition loops : nat := 256.

(* CONSTRUCTOR *)

Definition kernel_ : result kernel :=
  p <-? Page.PageNode_ (cfg leaf_kind) (new_aux leaf_kind) ;;
  let root : pointer := 1 in
  let p' := Page.set_aux (mk_leaf_aux (Some nullptr) (Some nullptr)) p in
  Ok (mk {[ root := leaf_object p' ]} (root + 1) root root root 0).

(** The leaf-page list: [aux.prev_pointer] and [aux.next_pointer] *)
Definition get_aux (ptr : pointer) : KM leaf_aux :=
  on leaf_kind ptr (gets Page.aux).
Definition assigned (what : string) (o : option pointer) : KM pointer :=
  match o with
  | Some p => ret p
  | None => fail (Indeterminate what)
  end.
Definition get_prev_pointer (ptr : pointer) : KM pointer :=
  a <- get_aux ptr ;; assigned "prev_pointer" (prev_pointer a).
Definition get_next_pointer (ptr : pointer) : KM pointer :=
  a <- get_aux ptr ;; assigned "next_pointer" (next_pointer a).
Definition set_prev_pointer (ptr : pointer) (v : pointer) : KM unit :=
  on leaf_kind ptr (modify (fun p =>
    Page.set_aux (mk_leaf_aux (Some v) (next_pointer (Page.aux p))) p)).
Definition set_next_pointer (ptr : pointer) (v : pointer) : KM unit :=
  on leaf_kind ptr (modify (fun p =>
    Page.set_aux (mk_leaf_aux (prev_pointer (Page.aux p)) (Some v)) p)).

(* PREDICATES *)

Definition empty : KM bool :=
  sl <- gets stem_levels ;;
  if sl =? 0 then r <- gets root_pointer ;; P_empty leaf_kind r
  else ret false.

(* OPERATIONS *)

Fixpoint descend (n : nat) (find_key : Key) (search_pointer : pointer)
  : KM pointer :=
  match n with
  | O => ret search_pointer
  | S n' =>
      pos <- P_find stem_kind search_pointer find_key ;;
      e <- P_elem stem_kind search_pointer pos ;;
      descend n' find_key (snd e)
  end.

(** What [find_implementation] does from the page [search_pointer], [n]
    stem levels above the leaf pages. *)
Definition find_from (n : nat) (search_pointer : pointer) (find_key : Key)
  : KM tree_position :=
  leaf_pointer <- descend n find_key search_pointer ;;
  pos <- P_find leaf_kind leaf_pointer find_key ;;
  ret (tree_position.mk leaf_pointer pos).

Definition find_implementation (find_key : Key) : KM tree_position :=
  r <- gets root_pointer ;;
  sl <- gets stem_levels ;;
  search_pointer <- descend (Z.to_nat sl) find_key r ;;
  pos <- P_find leaf_kind search_pointer find_key ;;
  ret (tree_position.mk search_pointer pos).

(** [std::vector<tree_position>] *)
Definition Path : Type := list tree_position.
Definition path_get (path : Path) (i : Z) : result tree_position :=
  if (0 <=? i) && (i <? Z.of_nat (length path)) then
    match path !! Z.to_nat i with
    | Some x => Ok x
    | None => Err (OutOfBounds "Path")
    end
  else Err (OutOfBounds "Path").

Fixpoint descend_path (n : nat) (find_key : Key) (search_pointer : pointer)
  : KM (pointer * Path) :=
  match n with
  | O => ret (search_pointer, [])
  | S n' =>
      pos <- P_find stem_kind search_pointer find_key ;;
      e <- P_elem stem_kind search_pointer pos ;;
      '(leaf_pointer, rest) <- descend_path n' find_key (snd e) ;;
      ret (leaf_pointer, tree_position.mk search_pointer pos :: rest)
  end.

Definition find_path (find_key : Key) : KM Path :=
  r <- gets root_pointer ;;
  sl <- gets stem_levels ;;
  '(search_pointer, stems) <- descend_path (Z.to_nat sl) find_key r ;;
  pos <- P_find leaf_kind search_pointer find_key ;;
  ret (stems ++ [tree_position.mk search_pointer pos]).

(** [root_pointer = new stem_node] with the two children inserted *)
Definition new_root (old_root_pointer new_pointer : pointer) (k1 k2 : Key)
  : KM unit :=
  page <- lift (Page.PageNode_ (cfg stem_kind) (new_aux stem_kind)) ;;
  r <- new_ stem_kind page ;;
  modify (set_root_pointer r) ;;
  P_insert stem_kind r (k1, old_root_pointer) ;;
  P_insert stem_kind r (k2, new_pointer) ;;
  modify (fun k => set_stem_levels (stem_levels k + 1) k).

Definition split_root : KM unit :=
  sl <- gets stem_levels ;;
  old_root_pointer <- gets root_pointer ;;
  if sl >? 0 then
    ov <- P_oversized stem_kind old_root_pointer ;;
    when ov (
      new_pointer <- P_split_one_leaf stem_kind old_root_pointer ;;
      while_loop loops (P_oversized stem_kind old_root_pointer)
                 (P_borrow_prev stem_kind new_pointer old_root_pointer) ;;
      k1 <- P_min_key stem_kind old_root_pointer ;;
      k2 <- P_min_key stem_kind new_pointer ;;
      new_root old_root_pointer new_pointer k1 k2)
  else
    ov <- P_oversized leaf_kind old_root_pointer ;;
    when ov (
      new_pointer <- P_split_one_leaf leaf_kind old_root_pointer ;;
      while_loop loops (P_oversized leaf_kind old_root_pointer)
                 (P_borrow_prev leaf_kind new_pointer old_root_pointer) ;;
      set_next_pointer old_root_pointer new_pointer ;;
      set_prev_pointer new_pointer old_root_pointer ;;
      modify (set_max_leaf_pointer new_pointer) ;;
      k1 <- P_min_key leaf_kind old_root_pointer ;;
      k2 <- P_min_key leaf_kind new_pointer ;;
      new_root old_root_pointer new_pointer k1 k2).

(** The leaf-page list around a page split off [target_pointer] *)
Definition link_new_leaf (target_pointer new_pointer : pointer) : KM unit :=
  next <- get_next_pointer target_pointer ;;
  when (negb (next =? nullptr)) (set_prev_pointer next new_pointer) ;;
  set_prev_pointer new_pointer target_pointer ;;
  set_next_pointer new_pointer next ;;
  set_next_pointer target_pointer new_pointer ;;
  mx <- gets max_leaf_pointer ;;
  when (mx =? target_pointer) (modify (set_max_leaf_pointer new_pointer)).

(** One level of the descent of [insert]: the body of the [for] loop over
    the stem levels and, with [link := link_new_leaf], the block that
    handles the leaf level.  Returns the child that the new key goes to. *)
Section insert_step.
Context {T A : Type} (kd : kind T A).
Variable link : pointer → pointer → KM unit.
Variables (new_key : Key) (current_pointer : pointer).

Definition offload_prev (target_pos : page_position) (target_pointer : pointer)
  : KM (option pointer) :=
  ov <- P_oversized kd target_pointer ;;
  not_min <- (if ov then minp <- S_min_position current_pointer ;;
                         ret (page_position.neqb target_pos minp)
              else ret false) ;;
  if not_min then
    prev_pos <- S_prev_position current_pointer target_pos ;;
    pe <- P_elem stem_kind current_pointer prev_pos ;;
    let prev_pointer := snd pe in
    sm <- P_small kd prev_pointer ;;
    if sm then
      while_loop loops (P_oversized kd target_pointer)
                 (P_borrow_next kd prev_pointer target_pointer) ;;
      tmin <- P_min_key kd target_pointer ;;
      S_set_key current_pointer target_pos tmin ;;
      tmin <- P_min_key kd target_pointer ;;
      if new_key <? tmin then
        pmin <- P_min_key kd prev_pointer ;;
        when (new_key <? pmin) (S_set_key current_pointer prev_pos new_key) ;;
        ret (Some prev_pointer)
      else ret (Some target_pointer)
    else ret None
  else ret None.

Definition offload_next (target_pos : page_position) (target_pointer : pointer)
  : KM (option pointer) :=
  ov <- P_oversized kd target_pointer ;;
  not_max <- (if ov then maxp <- S_max_position current_pointer ;;
                         ret (page_position.neqb target_pos maxp)
              else ret false) ;;
  if not_max then
    next_pos <- S_next_position current_pointer target_pos ;;
    ne <- P_elem stem_kind current_pointer next_pos ;;
    let next_pointer := snd ne in
    sm <- P_small kd next_pointer ;;
    if sm then
      while_loop loops (P_oversized kd target_pointer)
                 (P_borrow_prev kd next_pointer target_pointer) ;;
      nmin <- P_min_key kd next_pointer ;;
      S_set_key current_pointer next_pos nmin ;;
      nmin <- P_min_key kd next_pointer ;;
      if new_key >=? nmin then ret (Some next_pointer)
      else
        tmin <- P_min_key kd target_pointer ;;
        when (new_key <? tmin) (S_set_key current_pointer target_pos new_key) ;;
        ret (Some target_pointer)
    else ret None
  else ret None.

Definition offload_new (target_pos : page_position) (target_pointer : pointer)
  : KM pointer :=
  new_pointer <- P_split_one_leaf kd target_pointer ;;
  while_loop loops (P_oversized kd target_pointer)
             (P_borrow_prev kd new_pointer target_pointer) ;;
  nmin <- P_min_key kd new_pointer ;;
  P_insert stem_kind current_pointer (nmin, new_pointer) ;;
  link target_pointer new_pointer ;;
  nmin <- P_min_key kd new_pointer ;;
  if new_key >=? nmin then ret new_pointer
  else
    tmin <- P_min_key kd target_pointer ;;
    when (new_key <? tmin) (S_set_key current_pointer target_pos new_key) ;;
    ret target_pointer.

Definition insert_step : KM pointer :=
  target_pos <- P_find stem_kind current_pointer new_key ;;
  te <- P_elem stem_kind current_pointer target_pos ;;
  let target_pointer := snd te in
  (* Offload to previous sibling? *)
  r <- offload_prev target_pos target_pointer ;;
  match r with
  | Some p => ret p
  | None =>
      (* Offload to next sibling? *)
      r <- offload_next target_pos target_pointer ;;
      match r with
      | Some p => ret p
      | None =>
          (* Offload to new next sibling? *)
          ov <- P_oversized kd target_pointer ;;
          if ov then offload_new target_pos target_pointer
          else
            tmin <- P_min_key kd target_pointer ;;
            when (new_key <? tmin)
                 (S_set_key current_pointer target_pos new_key) ;;
            ret target_pointer
      end
  end.
End insert_step.

Fixpoint iterate_pointer (n : nat) (step : pointer → KM pointer)
    (current_pointer : pointer) : KM pointer :=
  match n with
  | O => ret current_pointer
  | S n' => p <- step current_pointer ;; iterate_pointer n' step p
  end.

Definition insert (new_elem : Element) : KM unit :=
  split_root ;;
  let new_key := fst new_elem in
  r <- gets root_pointer ;;
  sl <- gets stem_levels ;;
  current_pointer <-
    iterate_pointer (Z.to_nat (sl - 1))
      (insert_step stem_kind (fun _ _ => ret tt) new_key) r ;;
  if sl >? 0 then
    leaf_pointer <- insert_step leaf_kind link_new_leaf new_key current_pointer ;;
    P_insert leaf_kind leaf_pointer new_elem
  else
    P_insert leaf_kind current_pointer new_elem.

(** What [erase] and [erase_helper] do after the erasure in the page
    [erase_pointer], the child at [parent_pos] of [parent_pointer]:
    [unlink_prev] and [unlink_next] take an emptied neighbour out of the
    leaf-page list ([erase] only). *)
Section maintain.
Context {T A : Type} (kd : kind T A).
Variables unlink_prev unlink_next : pointer → pointer → KM unit.
Variables (erase_pointer parent_pointer : pointer) (parent_pos : page_position).

Definition neighbour (is_end : KM page_position)
    (step : page_position → KM page_position) : KM pointer :=
  endp <- is_end ;;
  if page_position.eqb parent_pos endp then ret nullptr
  else
    pos <- step parent_pos ;;
    e <- P_elem stem_kind parent_pointer pos ;;
    ret (snd e).

(** [ptr ? ptr->min_key() : Key{}] *)
Definition min_key_or_default (ptr : pointer) : KM Key :=
  if negb (ptr =? nullptr) then P_min_key kd ptr else ret 0.

(** [erase_leaf.small() && !ptr->empty()] *)
Definition can_borrow (ptr : pointer) : KM bool :=
  sm <- P_small kd erase_pointer ;;
  if sm then em <- P_empty kd ptr ;; ret (negb em) else ret false.

Definition fix_key (old_key : Key) (ptr : pointer) : KM unit :=
  k <- P_min_key kd ptr ;;
  when (negb (k =? old_key)) (
    pos <- P_find stem_kind parent_pointer old_key ;;
    k <- P_min_key kd ptr ;;
    S_set_key parent_pointer pos k).

Definition maintain (was_large : bool) : KM unit :=
  old_key <- S_key parent_pointer parent_pos ;;
  em <- P_empty kd erase_pointer ;;
  (* If the node is now empty *)
  if em then
    delete_ kd erase_pointer ;;
    P_erase stem_kind parent_pointer old_key
  (* Otherwise we must maintain the invariants *)
  else
    prev_ptr <- neighbour (S_min_position parent_pointer)
                          (S_prev_position parent_pointer) ;;
    prev_key <- min_key_or_default prev_ptr ;;
    next_ptr <- neighbour (S_max_position parent_pointer)
                          (S_next_position parent_pointer) ;;
    next_key <- min_key_or_default next_ptr ;;
    (* If a large node turned small we must grow it large again *)
    sm <- P_small kd erase_pointer ;;
    when (was_large && sm) (
      (if negb (prev_ptr =? nullptr) then
         psm <- P_small kd prev_ptr ;;
         when psm (while_loop loops (can_borrow prev_ptr)
                              (P_borrow_prev kd erase_pointer prev_ptr))
       else ret tt) ;;
      (if negb (next_ptr =? nullptr) then
         nsm <- P_small kd next_ptr ;;
         when nsm (while_loop loops (can_borrow next_ptr)
                              (P_borrow_next kd erase_pointer next_ptr))
       else ret tt)) ;;
    (if negb (prev_ptr =? nullptr) then
       pem <- P_empty kd prev_ptr ;;
       when pem (
         unlink_prev prev_ptr erase_pointer ;;
         delete_ kd prev_ptr ;;
         P_erase stem_kind parent_pointer prev_key)
     else ret tt) ;;
    (if negb (next_ptr =? nullptr) then
       nem <- P_empty kd next_ptr ;;
       if nem then
         unlink_next next_ptr erase_pointer ;;
         delete_ kd next_ptr ;;
         P_erase stem_kind parent_pointer next_key
       else fix_key next_key next_ptr
     else ret tt) ;;
    fix_key old_key erase_pointer.
End maintain.

Definition unlink_prev_leaf (prev_ptr erase_pointer : pointer) : KM unit :=
  pp <- get_prev_pointer prev_ptr ;;
  when (negb (pp =? nullptr)) (set_next_pointer pp erase_pointer) ;;
  set_prev_pointer erase_pointer pp ;;
  mn <- gets min_leaf_pointer ;;
  when (mn =? prev_ptr) (modify (set_min_leaf_pointer erase_pointer)).

Definition unlink_next_leaf (next_ptr erase_pointer : pointer) : KM unit :=
  nn <- get_next_pointer next_ptr ;;
  when (negb (nn =? nullptr)) (set_prev_pointer nn erase_pointer) ;;
  set_next_pointer erase_pointer nn ;;
  mx <- gets max_leaf_pointer ;;
  when (mx =? next_ptr) (modify (set_max_leaf_pointer erase_pointer)).

(** [root_collapse] calls itself while the root has a single child;
    [fuel] counts the levels. *)
Fixpoint root_collapse_rec (fuel : nat) : KM unit :=
  r <- gets root_pointer ;;
  root <- deref stem_kind r ;;
  single <-
    (if Page.stem_levels root =? 0 then
       n <- on stem_kind r (Page.get_leaf (cfg stem_kind)
                              (Page.min_leaf_index root)) ;;
       ret (Line.count n =? 1)
     else ret false) ;;
  (* If we have only one child we should collapse this level of the tree *)
  when single (
    e <- P_elem stem_kind r (page_position.mk (Page.min_leaf_index root) 0) ;;
    modify (set_root_pointer (snd e)) ;;
    delete_ stem_kind r ;;
    modify (fun k => set_stem_levels (stem_levels k - 1) k) ;;
    sl <- gets stem_levels ;;
    when (sl >? 0)
      match fuel with
      | O => fail Diverges
      | S fuel' => root_collapse_rec fuel'
      end).

Definition root_collapse : KM unit :=
  sl <- gets stem_levels ;;
  root_collapse_rec (Z.to_nat sl).

Fixpoint erase_helper_rec (fuel : nat) (path : Path) (depth : Z)
    (was_large : bool) : KM unit :=
  (* If we are the root *)
  if depth =? 0 then root_collapse
  else
    pe <- lift (path_get path depth) ;;
    let erase_pointer := tree_position.page pe in
    pp <- lift (path_get path (depth - 1)) ;;
    parent_was_large <- P_large stem_kind (tree_position.page pp) ;;
    maintain stem_kind (fun _ _ => ret tt) (fun _ _ => ret tt)
             erase_pointer (tree_position.page pp)
             (tree_position.sub_position pp) was_large ;;
    match fuel with
    | O => fail Diverges
    | S fuel' => erase_helper_rec fuel' path (depth - 1) parent_was_large
    end.

Definition erase_helper (path : Path) (depth : Z) (was_large : bool) : KM unit :=
  erase_helper_rec (Z.to_nat depth) path depth was_large.

Definition erase (erase_key : Key) : KM unit :=
  path <- find_path erase_key ;;
  sl <- gets stem_levels ;;
  pe <- lift (path_get path sl) ;;
  let erase_pointer := tree_position.page pe in
  was_large <- P_large leaf_kind erase_pointer ;;
  (* Erase the element *)
  P_erase leaf_kind erase_pointer erase_key ;;
  (* If this is the root we are done *)
  if sl =? 0 then ret tt
  else
    pp <- lift (path_get path (sl - 1)) ;;
    parent_was_large <- P_large stem_kind (tree_position.page pp) ;;
    maintain leaf_kind unlink_prev_leaf unlink_next_leaf
             erase_pointer (tree_position.page pp)
             (tree_position.sub_position pp) was_large ;;
    erase_helper path (sl - 1) parent_was_large.

(* ACCESSORS *)

Definition elem (position : tree_position) : KM Element :=
  P_elem leaf_kind (tree_position.page position)
         (tree_position.sub_position position).

(** [operator[]] *)
Definition at_ (find_key : Key) : KM V :=
  position <- find_implementation find_key ;;
  e <- elem position ;;
  ret (snd e).

(* ITERATORS: an iterator is its [position_]; [tree_] is this tree. *)

Definition find (find_key : Key) : KM tree_position :=
  find_implementation find_key.

Definition begin_ : KM tree_position :=
  p <- gets min_leaf_pointer ;;
  pos <- on leaf_kind p (Page.min_position (cfg leaf_kind)) ;;
  ret (tree_position.mk p pos).

Definition end_ : KM tree_position :=
  p <- gets max_leaf_pointer ;;
  pos <- on leaf_kind p (Page.end_position (cfg leaf_kind)) ;;
  ret (tree_position.mk p pos).

(** [operator++] *)
Definition increment (position_ : tree_position) : KM tree_position :=
  let page := tree_position.page position_ in
  let sub_position := tree_position.sub_position position_ in
  next <- get_next_pointer page ;;
  at_max <- (if negb (next =? nullptr) then
               mx <- on leaf_kind page (Page.max_position (cfg leaf_kind)) ;;
               ret (page_position.eqb sub_position mx)
             else ret false) ;;
  if at_max then
    pos <- on leaf_kind next (Page.min_position (cfg leaf_kind)) ;;
    ret (tree_position.mk next pos)
  else
    pos <- on leaf_kind page (Page.next_position (cfg leaf_kind) sub_position) ;;
    ret (tree_position.mk page pos).

(** The loop [for (auto it = begin(); it != end(); ++it)] that collects
    the elements it dereferences. *)
Fixpoint visit (fuel : nat) (it : tree_position) : KM (list Element) :=
  e <- end_ ;;
  if tree_position.neqb it e then
    match fuel with
    | O => fail Diverges
    | S fuel' =>
        x <- elem it ;;
        it' <- increment it ;;
        xs <- visit fuel' it' ;;
        ret (x :: xs)
    end
  else ret [].

Definition iterate (fuel : nat) : KM (list Element) :=
  b <- begin_ ;; visit fuel b.

(** *** The elements of the map and the states it goes through *)

Fixpoint subtree (n : nat) (h : gmap Z object) (ptr : pointer)
  : option (list Element) :=
  match n with
  | O =>
      match h !! ptr with
      | Some (leaf_object p) =>
          match Page.contents (cfg leaf_kind) p with
          | Some (e :: l) => Some (e :: l)
          | _ => None
          end
      | _ => None
      end
  | S n' =>
      match h !! ptr with
      | Some (stem_object p) =>
          match Page.contents (cfg stem_kind) p with
          | Some (r :: rs) => all_blocks (subtree n' h) (r :: rs)
          | _ => None
          end
      | _ => None
      end
  end.

Definition contents (k : kernel) : option (list Element) :=
  if 0 <=? stem_levels k then
    subtree (Z.to_nat (stem_levels k)) (heap k) (root_pointer k)
  else None.

(** The public operations that change the map *)
Inductive operation : Type :=
| Insert (new_elem : Element)
| Erase (erase_key : Key).

Definition apply (o : operation) : KM unit :=
  match o with
  | Insert new_elem => insert new_elem
  | Erase erase_key => erase erase_key
  end.

(** The states that sequences of [insert] and [erase] lead to from the
    empty map, every operation having returned. *)
Inductive reachable : kernel → Prop :=
| reachable_new k :
    kernel_ = Ok k → reachable k
| reachable_apply k o k' :
    reachable k → apply o k = Ok (tt, k') → reachable k'.

(** Running operations one after the other, from a state or a fault. *)
Definition exec {X} (m : KM X) (s : result kernel) : result kernel :=
  match s with
  | Ok k => match m k with Ok (_, k') => Ok k' | Err e => Err e end
  | Err e => Err e
  end.
Definition eval {X} (m : KM X) (s : result kernel) : result X :=
  match s with
  | Ok k => match m k with Ok (x, _) => Ok x | Err e => Err e end
  | Err e => Err e
  end.
Definition run (ops : list operation) (s : result kernel) : result kernel :=
  fold_left (fun s o => exec (apply o) s) ops s.

Definition holds (P : kernel → bool) (s : result kernel) : bool :=
  match s with
  | Ok k => P k
  | Err _ => false
  end.

Definition has_key (key : Key) (l : list Element) : bool :=
  existsb (fun e => fst e =? key) l.
(** The map holds elements, and none with this key. *)
Definition lacks_key (key : Key) (k : kernel) : bool :=
  match contents k with
  | Some l => negb (has_key key l)
  | None => false
  end.
Definition holds_key (key : Key) (k : kernel) : bool :=
  match contents k with
  | Some l => has_key key l
  | None => false
  end.


(** A map that is a single leaf page of a single leaf line with the
    elements [l]; the page is not oversized. *)
Definition one_line (k : kernel) (l : list Element) : Prop :=
  stem_levels k = 0
  ∧ min_leaf_pointer k = root_pointer k ∧ max_leaf_pointer k = root_pointer k
  ∧ ∃ p, heap k !! root_pointer k = Some (leaf_object p)
       ∧ Page.one_line (cfg leaf_kind) p l
       ∧ Page.oversized (cfg leaf_kind) p = false
       ∧ Page.aux p = mk_leaf_aux (Some nullptr) (Some nullptr).

(** What an operation does to the elements of a map that is a single leaf
    line, and whether it keeps the map one: an insertion needs room in the
    line, an erasure an element. *)
Definition apply_to_list (o : operation) (l : list Element) : list Element :=
  match o with
  | Insert new_elem => put_behind new_elem l
  | Erase erase_key => delete (find_index erase_key l) l
  end.
Definition fits (o : operation) (l : list Element) : bool :=
  match o with
  | Insert _ => Z.of_nat (length l) <? leaf_line_max_count
  | Erase _ => negb (Z.of_nat (length l) =? 0)
  end.
Fixpoint run_list (ops : list operation) (l : list Element)
  : option (list Element) :=
  match ops with
  | [] => Some l
  | o :: ops' => if fits o l then run_list ops' (apply_to_list o l) else None
  end.

(** [from], [from + 1], ... ([n] keys), each mapped to ten times itself *)
Definition inserts (from : Key) (n : nat) : list operation :=
  (fun i => Insert (from + Z.of_nat i, 10 * (from + Z.of_nat i))) <$> seq 0 n.
(** [from], [from - 1], ... ([n] keys) *)
Definition erases_down (from : Key) (n : nat) : list operation :=
  (fun i => Erase (from - Z.of_nat i)) <$> seq 0 n.

(** The state that a run ends in; the value on a fault is not used. *)
Definition state_of (s : result kernel) : kernel :=
  match s with
  | Ok k => k
  | Err _ => mk ∅ 0 0 0 0 0
  end.

(** The five keys of the first scenario of the specification *)
Definition five_keys : result kernel :=
  run [Insert (5, 50); Insert (3, 30); Insert (9, 90); Insert (1, 10);
       Insert (7, 70)] kernel_.

(** The states of the map used below.  Keys are inserted in ascending
    order, so every leaf line splits into 8 and 7 elements and ends up with
    8; a page is oversized once 13 leaf lines and their stem line leave one
    pool entry free. *)

(** 104 keys: one page, 13 leaf lines *)
Definition one_full_page : result kernel := run (inserts 1 104) kernel_.
(** 105 keys: the root page was split; two leaf pages below a stem page *)
Definition two_pages : result kernel := run (inserts 1 105) kernel_.
(** 200 keys of which 6 to 96, 98 and 99 were erased again: the first page
    is a single leaf line of 5 elements, the first leaf line of the second
    page holds 6 *)
Definition thin_first_line : result kernel :=
  run (inserts 1 200 ++ erases_down 96 91 ++ [Erase 98; Erase 99]) kernel_.
(** 15 keys: one page whose only leaf line is full *)
Definition one_full_line : result kernel := run (inserts 1 15) kernel_.


(** The leaf page at [ptr]; the value where there is none is not used. *)
Definition leaf_page_at (ptr : pointer) (k : kernel) : leaf_node :=
  match heap k !! ptr with
  | Some (leaf_object p) => p
  | _ => Page.mk [] 0 0 0 0 0 0 0 (mk_leaf_aux None None)
  end.

End Kernel.


(** * Properties *)

(** ** The monad and machine integers *)

Lemma u8_small z : 0 ≤ z < 256 → u8 z = z.
Proof. intros H. unfold u8. by apply Z.mod_small. Qed.

Lemma bind_Ok {S X Y} (m : M S X) (k : X → M S Y) s x s' :
  m s = Ok (x, s') → bind m k s = k x s'.
Proof. unfold bind. by intros ->. Qed.

Lemma bind_inv {S X Y} (m : M S X) (f : X → M S Y) s y s' :
  bind m f s = Ok (y, s') → ∃ x s1, m s = Ok (x, s1) ∧ f x s1 = Ok (y, s').
Proof.
  unfold bind. destruct (m s) as [[x s1]|]; [|done]. intros H. by exists x, s1.
Qed.

(** ** Sorted lists of elements *)

Module ListFacts.
Section lists.
Context {X : Type}.
Implicit Types (l : list (Z * X)) (e : Z * X) (k : Z).

Lemma sorted_cons e l : sorted (e :: l) ↔ (∀ x, x ∈ l → fst e ≤ fst x) ∧ sorted l.
Proof.
  unfold sorted. rewrite fmap_cons, StronglySorted_cons, Forall_fmap, Forall_forall.
  reflexivity.
Qed.

Lemma sorted_app l1 l2 :
  sorted (l1 ++ l2) ↔
  (∀ x1 x2, x1 ∈ l1 → x2 ∈ l2 → fst x1 ≤ fst x2) ∧ sorted l1 ∧ sorted l2.
Proof.
  unfold sorted. rewrite fmap_app, StronglySorted_app. split.
  - intros (H & Hs1 & Hs2). split; [|done]. intros x1 x2 Hx1 Hx2.
    apply H; by apply list_elem_of_fmap_2.
  - intros (H & Hs1 & Hs2). split; [|done]. intros k1 k2 Hk1 Hk2.
    apply list_elem_of_fmap in Hk1 as (x1 & -> & Hx1).
    apply list_elem_of_fmap in Hk2 as (x2 & -> & Hx2). by apply H.
Qed.

Lemma sorted_lookup l : sorted l → ∀ i j a b,
  (i ≤ j)%nat → l !! i = Some a → l !! j = Some b → fst a ≤ fst b.
Proof.
  induction l as [|e l IH]; intros Hs i j a b Hij Ha Hb; [done|].
  apply sorted_cons in Hs as [He Hs].
  destruct i as [|i], j as [|j]; simpl in *; try lia.
  - injection Ha as <-. injection Hb as <-. lia.
  - injection Ha as <-. apply He. by eapply list_elem_of_lookup_2.
  - eapply IH; [done| |done..]. lia.
Qed.

Lemma run_length_le k l : (run_length k l ≤ length l)%nat.
Proof.
  induction l as [|e l IH]; simpl; [lia|]. destruct (fst e >? k); simpl; lia.
Qed.

(** The elements before the run's end have keys that are not greater. *)
Lemma run_length_below k l : ∀ i e,
  (i < run_length k l)%nat → l !! i = Some e → fst e ≤ k.
Proof.
  induction l as [|e0 l IH]; intros i e Hi He; simpl in *; [lia|].
  destruct (fst e0 >? k) eqn:E; [lia|].
  destruct i as [|i]; simpl in *.
  - injection He as <-. lia.
  - eapply IH; [|done]. lia.
Qed.

(** On a sorted list all elements from the run's end on have greater keys. *)
Lemma run_length_above k l : sorted l → ∀ j e,
  (run_length k l ≤ j)%nat → l !! j = Some e → k < fst e.
Proof.
  induction l as [|e0 l IH]; intros Hs j e Hj He; simpl in *; [done|].
  apply sorted_cons in Hs as [He0 Hs].
  destruct (Z.gtb_spec (fst e0) k) as [E|E].
  - destruct j as [|j]; simpl in *.
    + injection He as <-. lia.
    + apply list_elem_of_lookup_2 in He. specialize (He0 _ He). lia.
  - destruct j as [|j]; simpl in *; [lia|]. eapply IH; [done| |done]. lia.
Qed.

Lemma run_length_all k l :
  (∀ x, x ∈ l → fst x ≤ k) → run_length k l = length l.
Proof.
  induction l as [|e l IH]; intros H; simpl; [done|].
  destruct (Z.gtb_spec (fst e) k) as [E|E].
  - specialize (H e (list_elem_of_here _ _)). lia.
  - f_equal. apply IH. intros x Hx. apply H. by apply list_elem_of_further.
Qed.

Lemma run_length_app_all k l1 l2 :
  run_length k l1 = length l1 →
  run_length k (l1 ++ l2) = (length l1 + run_length k l2)%nat.
Proof.
  induction l1 as [|e l1 IH]; simpl; [done|].
  destruct (fst e >? k); [discriminate|]. intros H. f_equal. apply IH. lia.
Qed.

Lemma run_length_app_stop k l1 l2 :
  (run_length k l1 < length l1)%nat →
  run_length k (l1 ++ l2) = run_length k l1.
Proof.
  induction l1 as [|e l1 IH]; simpl; [lia|].
  destruct (fst e >? k); [done|]. intros H. f_equal. apply IH. lia.
Qed.

Lemma find_index_lt k l : l ≠ [] → (find_index k l < length l)%nat.
Proof.
  intros H. unfold find_index. pose proof (run_length_le k l).
  destruct l; [done|]. simpl in *. lia.
Qed.

Lemma find_index_lookup k l : l ≠ [] → is_Some (l !! find_index k l).
Proof. intros H. apply lookup_lt_is_Some. by apply find_index_lt. Qed.

(** The first key is greater: the index is 0. *)
Lemma find_index_all_above k l :
  (∀ x, x ∈ l → k < fst x) → find_index k l = 0%nat.
Proof.
  intros H. unfold find_index. destruct l as [|e l]; [done|]. simpl.
  specialize (H e (list_elem_of_here _ _)). destruct (Z.gtb_spec (fst e) k) as [E|E]; [done|lia].
Qed.

(** Some key is not greater: the index is that of the greatest such key. *)
Lemma find_index_greatest k l e :
  sorted l → l !! find_index k l = Some e →
  (∃ x, x ∈ l ∧ fst x ≤ k) →
  fst e ≤ k ∧ ∀ x, x ∈ l → fst x ≤ k → fst x ≤ fst e.
Proof.
  intros Hs He (x & Hx & Hxk).
  assert (Hrl : (0 < run_length k l)%nat).
  { apply list_elem_of_lookup_1 in Hx as [j Hj].
    destruct (decide (run_length k l ≤ j)%nat) as [Hle|]; [|lia].
    pose proof (run_length_above k l Hs j x Hle Hj). lia. }
  unfold find_index in He. split.
  - eapply run_length_below; [|exact He]. lia.
  - intros y Hy Hyk. apply list_elem_of_lookup_1 in Hy as [j Hj].
    destruct (decide (run_length k l ≤ j)%nat) as [Hle|Hlt].
    + pose proof (run_length_above k l Hs j y Hle Hj). lia.
    + eapply (sorted_lookup l Hs j); [|done..]. lia.
Qed.

End lists.
End ListFacts.

Import ListFacts.


(** ** Line nodes *)

Module LineFacts.
Section line.
Context {T A : Type} (mc : Z).
Implicit Types (n : Line.line_node T A) (l : list (Z * T)) (e : Z * T).

Lemma all_written_spec (cells : list (option (Z * T))) l :
  Line.all_written cells = Some l → cells = Some <$> l.
Proof.
  revert l. induction cells as [|[e|] cells IH]; intros l H; simpl in H.
  - by injection H as <-.
  - destruct (Line.all_written cells) as [l'|]; [|done].
    injection H as <-. simpl. f_equal. by apply IH.
  - done.
Qed.

Lemma live_inv n l :
  Line.live mc n = Some l →
  0 ≤ Line.count_ n ≤ mc ∧ Line.count_ n < 256
  ∧ Z.of_nat (length (Line.elems_ n)) = mc
  ∧ take (Z.to_nat (Line.count_ n)) (Line.elems_ n) = Some <$> l
  ∧ Z.of_nat (length l) = Line.count_ n.
Proof.
  unfold Line.live. intros H.
  destruct (_ && _) eqn:E in H; [|done].
  apply all_written_spec in H.
  repeat (apply andb_true_iff in E as [E ?]).
  repeat split; try lia; [done|].
  apply (f_equal length) in H. rewrite length_take, length_fmap in H. lia.
Qed.

Lemma live_cell n l i e :
  Line.live mc n = Some l → l !! i = Some e →
  Line.cell mc (Line.elems_ n) (Z.of_nat i) = Ok e.
Proof.
  intros Hl He. apply live_inv in Hl as (Hc & _ & Hlen & Htake & Hn).
  pose proof (lookup_lt_Some _ _ _ He) as Hi.
  unfold Line.cell, Line.in_array.
  replace ((0 <=? Z.of_nat i) && (Z.of_nat i <? mc)) with true by lia.
  rewrite Nat2Z.id.
  assert (Line.elems_ n !! i = Some (Some e)) as ->; [|done].
  rewrite <- (lookup_take_lt _ (Z.to_nat (Line.count_ n))) by lia.
  rewrite Htake, list_lookup_fmap, He. done.
Qed.

Lemma live_elem n l i e :
  Line.live mc n = Some l → l !! i = Some e →
  Line.elem mc n (Z.of_nat i) = Ok e.
Proof. apply live_cell. Qed.

Lemma live_key n l i e :
  Line.live mc n = Some l → l !! i = Some e →
  Line.key mc n (Z.of_nat i) = Ok (fst e).
Proof.
  intros Hl He. unfold Line.key. by rewrite (live_elem n l i e).
Qed.

(** The loop of [find], entered with [i = j], goes on for as long as the
    keys are not greater than the one given. *)
Lemma find_loop_live n l k : Line.live mc n = Some l →
  ∀ m j, (1 ≤ j)%nat → (j + m = length l)%nat →
  Line.find_loop mc m (Z.of_nat j) n k
  = Ok (Z.of_nat (j - 1 + run_length k (drop j l))).
Proof.
  intros Hl. pose proof (live_inv n l Hl) as (Hc & H8 & _ & _ & Hn).
  induction m as [|m IH]; intros j Hj Hm; simpl.
  - rewrite drop_ge by lia. simpl. rewrite u8_small by lia. f_equal. lia.
  - destruct (lookup_lt_is_Some_2 l j) as [e He]; [lia|].
    rewrite (live_key n l j e Hl He). simpl.
    rewrite (drop_S l e j He). simpl.
    destruct (Z.gtb_spec (fst e) k) as [E|E].
    + rewrite u8_small by lia. f_equal. lia.
    + replace (Z.of_nat j + 1) with (Z.of_nat (S j)) by lia.
      rewrite IH by lia. f_equal. lia.
Qed.

(** On the elements of a node [find] computes [find_index]. *)
Lemma find_live n l k :
  Line.live mc n = Some l → l ≠ [] →
  Line.find mc n k = Ok (Z.of_nat (find_index k l)).
Proof.
  intros Hl Hne. pose proof (live_inv n l Hl) as (Hc & H8 & _ & _ & Hn).
  destruct l as [|e l']; [done|]. simpl in Hn.
  unfold Line.find, Line.min_key, Line.min_index, Line.end_index.
  pose proof (live_key n (e :: l') 0 e Hl eq_refl) as Hk.
  change (Z.of_nat 0) with 0 in Hk.
  rewrite Hk. simpl. unfold find_index. simpl.
  destruct (Z.gtb_spec (fst e) k) as [E|E]; [done|].
  pose proof (find_loop_live n (e :: l') k Hl (length l') 1) as Hf.
  simpl in Hf. rewrite drop_0 in Hf.
  replace (Z.to_nat (Line.count_ n - (0 + 1))) with (length l') by lia.
  apply Hf; lia.
Qed.

(** C9.  On a line node that holds sorted elements, at least one, [find]
    returns the index of an element of the node; where some key is not
    greater than the one given, it is the index of the greatest such key;
    where all keys are greater, it is index 0. *)
Theorem find_gives_greatest_key_not_above n l find_key :
  Line.live mc n = Some l → l ≠ [] → sorted l →
  ∃ i e, Line.find mc n find_key = Ok (Z.of_nat i)
       ∧ Line.elem mc n (Z.of_nat i) = Ok e ∧ l !! i = Some e
       ∧ ((∃ x, x ∈ l ∧ fst x ≤ find_key) →
            fst e ≤ find_key ∧ ∀ x, x ∈ l → fst x ≤ find_key → fst x ≤ fst e)
       ∧ ((∀ x, x ∈ l → find_key < fst x) → i = 0%nat).
Proof.
  intros Hl Hne Hs. destruct (find_index_lookup find_key l Hne) as [e He].
  exists (find_index find_key l), e.
  split; [by apply find_live|]. split; [by eapply live_elem|]. split; [done|].
  split; [by apply find_index_greatest|apply find_index_all_above].
Qed.

End line.

Lemma find_gives_greatest_key_not_above_witness :
  Line.live 4 Line.three_of_four = Some [(1, 10); (3, 30); (5, 50)]
  ∧ [(1, 10); (3, 30); (5, 50)] ≠ []
  ∧ sorted [(1, 10); (3, 30); (5, 50)]
  ∧ ∃ i e, Line.find 4 Line.three_of_four 4 = Ok (Z.of_nat i)
         ∧ Line.elem 4 Line.three_of_four (Z.of_nat i) = Ok e
         ∧ [(1, 10); (3, 30); (5, 50)] !! i = Some e
         ∧ ((∃ x, x ∈ [(1, 10); (3, 30); (5, 50)] ∧ fst x ≤ 4) →
              fst e ≤ 4
              ∧ ∀ x, x ∈ [(1, 10); (3, 30); (5, 50)] → fst x ≤ 4 → fst x ≤ fst e)
         ∧ ((∀ x, x ∈ [(1, 10); (3, 30); (5, 50)] → 4 < fst x) → i = 0%nat).
Proof.
  assert (H1 : Line.live 4 Line.three_of_four = Some [(1, 10); (3, 30); (5, 50)])
    by reflexivity.
  assert (H2 : [(1, 10); (3, 30); (5, 50)] ≠ ([] : list (Z * Z))) by done.
  assert (H3 : sorted [(1, 10); (3, 30); (5, 50)])
    by (unfold sorted; apply (bool_decide_unpack _); vm_compute; exact I).
  split; [exact H1|]. split; [exact H2|]. split; [exact H3|].
  exact (find_gives_greatest_key_not_above 4 Line.three_of_four _ 4 H1 H2 H3).
Defined.

End LineFacts.


(** ** Blocks of elements below the entries of a stem *)

Module BlockFacts.
Section blocks.
Context {X I : Type}.
Implicit Types (rs : list (Z * I)) (bs : list (list (Z * X))) (k : Z).

Lemma all_blocks_inv (below : I → option (list (Z * X))) rs l :
  all_blocks below rs = Some l →
  ∃ bs, Forall2 (fun r b => below (snd r) = Some b ∧ heads r b) rs bs
      ∧ l = concat bs.
Proof.
  revert l. induction rs as [|r rs IH]; intros l H; simpl in H.
  - injection H as <-. exists []. split; [constructor|done].
  - destruct (child_block below r) as [b|] eqn:Eb; [|done].
    destruct (all_blocks below rs) as [l'|] eqn:El; [|done].
    injection H as <-. destruct (IH l' eq_refl) as (bs & Hbs & ->).
    exists (b :: bs). split; [|done]. constructor; [|done].
    unfold child_block in Eb.
    destruct (below (snd r)) as [[|e b']|]; [done| |done].
    destruct (Z.eqb_spec (fst e) (fst r)) as [E|E]; [|done].
    injection Eb as <-. split; [done|]. by exists e, b'.
Qed.

Lemma run_length_heads k rs bs :
  Forall2 heads rs bs →
  (run_length k rs = 0%nat → run_length k (concat bs) = 0%nat)
  ∧ ((0 < run_length k rs)%nat → (0 < run_length k (concat bs))%nat).
Proof.
  intros [|r b rs' bs' (e & b' & -> & He) _]; simpl; [lia|].
  rewrite He. destruct (Z.gtb_spec (fst r) k); lia.
Qed.

(** The element that [find] gives on all elements lies in the block of the
    entry that [find] gives on the stem, and [find] gives it there. *)
Lemma find_index_concat k rs bs :
  Forall2 heads rs bs → sorted (concat bs) → rs ≠ [] →
  ∃ r b, rs !! find_index k rs = Some r ∧ bs !! find_index k rs = Some b
       ∧ concat bs !! find_index k (concat bs) = b !! find_index k b.
Proof.
  induction 1 as [|r b rs bs Hh Hbs IH]; intros Hs Hnil; [done|]. clear Hnil.
  pose proof Hh as (e & b' & -> & He).
  change (sorted ((e :: b') ++ concat bs)) in Hs.
  apply sorted_app in Hs as (Hle & Hsb & Hsc).
  change (concat ((e :: b') :: bs)) with ((e :: b') ++ concat bs).
  pose proof (run_length_heads k rs bs Hbs) as [H0 H1].
  unfold find_index at 1 2. simpl run_length.
  destruct (Z.gtb_spec (fst r) k) as [E|E].
  - exists r, (e :: b'). split; [done|]. split; [done|].
    unfold find_index. simpl. rewrite He.
    destruct (Z.gtb_spec (fst r) k) as [E'|E']; [done|lia].
  - simpl pred. destruct (run_length k rs) as [|m] eqn:Erl.
    + exists r, (e :: b'). split; [done|]. split; [done|].
      assert (run_length k ((e :: b') ++ concat bs) = run_length k (e :: b'))
        as Heq.
      { destruct (decide (run_length k (e :: b') = length (e :: b'))) as [Ha|Ha].
        - rewrite run_length_app_all by done. rewrite H0 by done. lia.
        - apply run_length_app_stop. pose proof (run_length_le k (e :: b')). lia. }
      unfold find_index. rewrite Heq.
      apply lookup_app_l. pose proof (run_length_le k (e :: b')).
      simpl in *. rewrite He in *. destruct (Z.gtb_spec (fst r) k); [lia|].
      simpl. lia.
    + assert (rs ≠ []) as Hne by (intros ->; done).
      destruct (IH Hsc Hne) as (r1 & b1 & Hr1 & Hb1 & Hc1).
      assert (find_index k rs = m) as Hfi by (unfold find_index; lia).
      rewrite Hfi in Hr1, Hb1. exists r1, b1. split; [done|]. split; [done|].
      rewrite <- Hc1.
      assert (0 < run_length k (concat bs))%nat as Hpos by (apply H1; lia).
      assert (run_length k (e :: b') = length (e :: b')) as Hall.
      { apply run_length_all. intros x Hx.
        destruct (concat bs) as [|y ys] eqn:Ec; [simpl in Hpos; lia|].
        specialize (Hle x y Hx (list_elem_of_here _ _)).
        simpl in Hpos. destruct (Z.gtb_spec (fst y) k); [lia|]. lia. }
      unfold find_index. rewrite run_length_app_all by done.
      replace (pred (length (e :: b') + run_length k (concat bs)))
        with (length (e :: b') + pred (run_length k (concat bs)))%nat by lia.
      by rewrite lookup_app_r, Nat.add_sub' by lia.
Qed.

Lemma sorted_block bs i b :
  sorted (concat bs) → bs !! i = Some b → sorted b.
Proof.
  revert i. induction bs as [|b0 bs IH]; intros i Hs Hb; [done|].
  change (sorted (b0 ++ concat bs)) in Hs.
  apply sorted_app in Hs as (_ & Hs0 & Hs).
  destruct i as [|i]; simpl in Hb; [by injection Hb as <-|]. by eapply IH.
Qed.

Lemma elem_of_block bs i b x :
  bs !! i = Some b → x ∈ b → x ∈ concat bs.
Proof.
  revert i. induction bs as [|b0 bs IH]; intros i Hb Hx; [done|].
  change (x ∈ b0 ++ concat bs). apply elem_of_app.
  destruct i as [|i]; simpl in Hb; [injection Hb as <-; by left|].
  right. by eapply IH.
Qed.

End blocks.
End BlockFacts.

Import BlockFacts.


(** ** [find] in a page node *)

Module PageFindFacts.
Section page.
Context {T A : Type} (c : Page.config).
Implicit Types (p : Page.PageNode T A) (l : list (Z * T)).

Lemma entry_inv i p e p' :
  Page.entry c i p = Ok (e, p') →
  p' = p ∧ Page.pool_memory p !! Z.to_nat i = Some e.
Proof.
  unfold Page.entry. destruct (Page.in_pool c i); [|done].
  destruct (Page.pool_memory p !! Z.to_nat i); [|done].
  intros [= <- <-]. done.
Qed.

Lemma get_stem_entry i p sn p0 :
  Page.entry c i p = Ok (Page.stem sn, p0) → Page.get_stem c i p = Ok (sn, p).
Proof.
  intros H. destruct (entry_inv _ _ _ _ H) as [-> _].
  unfold Page.get_stem. by rewrite (bind_Ok _ _ _ _ _ H).
Qed.

Lemma get_leaf_entry i p ln p0 :
  Page.entry c i p = Ok (Page.leaf ln, p0) → Page.get_leaf c i p = Ok (ln, p).
Proof.
  intros H. destruct (entry_inv _ _ _ _ H) as [-> _].
  unfold Page.get_leaf. by rewrite (bind_Ok _ _ _ _ _ H).
Qed.

Lemma page_find_from_S n index k p sn i r :
  Page.get_stem c index p = Ok (sn, p) →
  Line.find (Page.stem_max c) sn k = Ok i →
  Line.elem (Page.stem_max c) sn i = Ok r →
  Page.find_from c (S n) index k p = Page.find_from c n (snd r) k p.
Proof.
  intros H1 H2 H3. unfold Page.find_from. simpl Page.descend.
  unfold bind at 1 2. rewrite H1. unfold bind at 1, lift at 1. rewrite H2.
  unfold bind at 1, lift at 1. rewrite H3. reflexivity.
Qed.

Lemma page_subtree_S n p index :
  Page.subtree c (S n) p index =
  match Page.entry c index p with
  | Ok (Page.stem sn, _) =>
      match Line.live (Page.stem_max c) sn with
      | Some (r :: rs) => all_blocks (Page.subtree c n p) (r :: rs)
      | _ => None
      end
  | _ => None
  end.
Proof. reflexivity. Qed.

(** In a subtree whose elements are sorted, [find] arrives at the element
    that [find_index] designates among all of them. *)
Lemma page_find_from_subtree k : ∀ n p index l,
  Page.subtree c n p index = Some l → sorted l →
  ∃ pos e ln,
    Page.find_from c n index k p = Ok (pos, p)
    ∧ Page.get_leaf c (page_position.line pos) p = Ok (ln, p)
    ∧ 0 ≤ page_position.elem pos < Line.count_ ln ∧ Line.count_ ln < 256
    ∧ Page.elem c pos p = Ok (e, p)
    ∧ l !! find_index k l = Some e.
Proof.
  induction n as [|n IH]; intros p index l Hsub Hs;
    [simpl in Hsub|rewrite page_subtree_S in Hsub].
  - destruct (Page.entry c index p) as [[[sn|ln| |] p0]|] eqn:E; try done.
    destruct (Line.live (Page.leaf_max c) ln) as [[|e0 l0]|] eqn:El; try done.
    injection Hsub as <-.
    pose proof (get_leaf_entry _ _ _ _ E) as Hg.
    pose proof (LineFacts.find_live _ ln _ k El ltac:(done)) as Hf.
    destruct (find_index_lookup k (e0 :: l0) ltac:(done)) as [e He].
    pose proof (LineFacts.live_elem _ ln _ _ e El He) as Hel.
    pose proof (LineFacts.live_inv _ ln _ El) as (Hc & H8 & _ & _ & Hn).
    pose proof (lookup_lt_Some _ _ _ He) as Hlt.
    exists (page_position.mk index (Z.of_nat (find_index k (e0 :: l0)))), e, ln.
    split.
    { unfold Page.find_from. simpl Page.descend. unfold bind at 1, ret at 1.
      rewrite (bind_Ok _ _ _ _ _ Hg). unfold bind, lift. rewrite Hf. done. }
    split; [done|]. split; [simpl in *; lia|]. split; [done|]. split; [|done].
    unfold Page.elem. simpl. rewrite (bind_Ok _ _ _ _ _ Hg).
    unfold lift. by rewrite Hel.
  - destruct (Page.entry c index p) as [[[sn|ln| |] p0]|] eqn:E; try done.
    destruct (Line.live (Page.stem_max c) sn) as [[|r0 rs0]|] eqn:El; try done.
    destruct (all_blocks_inv _ _ _ Hsub) as (bs & HF & ->).
    assert (Forall2 heads (r0 :: rs0) bs) as Hh.
    { eapply Forall2_impl; [exact HF|]. by intros ?? [_ ?]. }
    destruct (find_index_concat k _ _ Hh Hs ltac:(done)) as (r & b & Hr & Hb & Hc).
    destruct (Forall2_lookup_lr _ _ _ _ _ _ HF Hr Hb) as [Hsubr _].
    pose proof (sorted_block bs _ b Hs Hb) as Hsb.
    destruct (IH p (snd r) b Hsubr Hsb) as (pos & e & ln & H1 & H2 & H3 & H4 & H5 & H6).
    exists pos, e, ln.
    rewrite (page_find_from_S n index k p sn (Z.of_nat (find_index k (r0 :: rs0))) r).
    + repeat split; try done; try lia. by rewrite Hc.
    + by eapply get_stem_entry.
    + by apply LineFacts.find_live.
    + by eapply LineFacts.live_elem.
Qed.

(** [find] on a page whose elements are sorted *)
Lemma page_find_contents k p l :
  Page.contents c p = Some l → sorted l →
  ∃ pos e ln,
    Page.find c k p = Ok (pos, p)
    ∧ Page.get_leaf c (page_position.line pos) p = Ok (ln, p)
    ∧ 0 ≤ page_position.elem pos < Line.count_ ln ∧ Line.count_ ln < 256
    ∧ Page.elem c pos p = Ok (e, p)
    ∧ l !! find_index k l = Some e.
Proof.
  unfold Page.contents. destruct (0 <=? Page.stem_levels p); [|done].
  intros Hsub Hs. exact (page_find_from_subtree k _ _ _ _ Hsub Hs).
Qed.

End page.
End PageFindFacts.


(** ** [find] in the tree *)

Module FindFacts.
Import Kernel.

Section blocks.
Context {X I : Type}.

(** The first keys of the blocks of a sorted list are sorted. *)
Lemma sorted_heads (rs : list (Z * I)) (bs : list (list (Z * X))) :
  Forall2 heads rs bs → sorted (concat bs) → sorted rs.
Proof.
  induction 1 as [|r b rs bs Hh Hbs IH]; intros Hs; [constructor|].
  change (sorted (b ++ concat bs)) in Hs.
  apply sorted_app in Hs as (Hle & _ & Hsc).
  apply sorted_cons. split; [|by apply IH].
  intros x Hx. apply list_elem_of_lookup_1 in Hx as [j Hj].
  destruct (Forall2_lookup_l _ _ _ _ _ Hbs Hj) as (bj & Hbj & ej & bj' & -> & Hej).
  destruct Hh as (e & b' & -> & He). rewrite <- He, <- Hej.
  apply Hle; [apply list_elem_of_here|].
  eapply elem_of_block; [exact Hbj|apply list_elem_of_here].
Qed.
End blocks.

Lemma faithful_stem : faithful stem_kind.
Proof. intros [p|p] p'; simpl; [by intros [= ->]|done]. Qed.
Lemma faithful_leaf : faithful leaf_kind.
Proof. intros [p|p] p'; simpl; [done|by intros [= ->]]. Qed.

Lemma set_heap_same k : set_heap (heap k) k = k.
Proof. by destruct k. Qed.

(** A member function that leaves the page as it is leaves the tree as it is. *)
Lemma on_unchanged {T A X} (kd : kind T A) (m : M (Page.PageNode T A) X)
    ptr k o p x :
  faithful kd → heap k !! ptr = Some o → proj kd o = Some p →
  m p = Ok (x, p) → on kd ptr m k = Ok (x, k).
Proof.
  intros Hkd Ho Hp Hm. unfold on, deref, bind at 1. rewrite Ho, Hp.
  unfold bind at 1, lift. rewrite Hm. unfold bind, store, modify, ret.
  rewrite (Hkd o p Hp), (insert_id _ _ _ Ho), set_heap_same. done.
Qed.

Lemma tree_subtree_S n h ptr :
  subtree (S n) h ptr =
  match h !! ptr with
  | Some (stem_object p) =>
      match Page.contents (cfg stem_kind) p with
      | Some (r :: rs) => all_blocks (subtree n h) (r :: rs)
      | _ => None
      end
  | _ => None
  end.
Proof. reflexivity. Qed.

Lemma tree_subtree_0 h ptr :
  subtree 0 h ptr =
  match h !! ptr with
  | Some (leaf_object p) =>
      match Page.contents (cfg leaf_kind) p with
      | Some (e :: l) => Some (e :: l)
      | _ => None
      end
  | _ => None
  end.
Proof. reflexivity. Qed.

Lemma tree_find_from_S n ptr key k pos r :
  P_find stem_kind ptr key k = Ok (pos, k) →
  P_elem stem_kind ptr pos k = Ok (r, k) →
  find_from (S n) ptr key k = find_from n (snd r) key k.
Proof.
  intros H1 H2. unfold find_from. simpl descend.
  unfold bind at 1 2. rewrite H1. unfold bind at 1. rewrite H2. reflexivity.
Qed.

(** In a subtree whose elements are sorted, [find] arrives at the element
    that [find_index] designates among all of them; the position is inside
    a leaf line of a leaf page. *)
Lemma tree_find_from_subtree key k : ∀ n ptr l,
  subtree n (heap k) ptr = Some l → sorted l →
  ∃ pos e p ln,
    find_from n ptr key k = Ok (pos, k)
    ∧ heap k !! tree_position.page pos = Some (leaf_object p)
    ∧ Page.get_leaf (cfg leaf_kind)
        (page_position.line (tree_position.sub_position pos)) p = Ok (ln, p)
    ∧ 0 ≤ page_position.elem (tree_position.sub_position pos) < Line.count_ ln
    ∧ Line.count_ ln < 256
    ∧ elem pos k = Ok (e, k)
    ∧ l !! find_index key l = Some e.
Proof.
  induction n as [|n IH]; intros ptr l Hsub Hs;
    [rewrite tree_subtree_0 in Hsub|rewrite tree_subtree_S in Hsub].
  - destruct (heap k !! ptr) as [[p|p]|] eqn:Ho; try done.
    destruct (Page.contents (cfg leaf_kind) p) as [[|e0 l0]|] eqn:Ec; try done.
    injection Hsub as <-.
    destruct (PageFindFacts.page_find_contents _ key p _ Ec Hs)
      as (pos & e & ln & H1 & H2 & H3 & H4 & H5 & H6).
    exists (tree_position.mk ptr pos), e, p, ln.
    pose proof (on_unchanged leaf_kind _ ptr k _ p pos faithful_leaf Ho eq_refl H1)
      as Hf.
    split.
    { unfold find_from. simpl descend. unfold bind at 1, ret at 1.
      unfold P_find. unfold bind. by rewrite Hf. }
    repeat split; simpl; try done; try lia.
    unfold elem, P_elem. simpl.
    exact (on_unchanged leaf_kind _ ptr k _ p e faithful_leaf Ho eq_refl H5).
  - destruct (heap k !! ptr) as [[p|p]|] eqn:Ho; try done.
    destruct (Page.contents (cfg stem_kind) p) as [[|r0 rs0]|] eqn:Ec; try done.
    destruct (all_blocks_inv _ _ _ Hsub) as (bs & HF & ->).
    assert (Forall2 heads (r0 :: rs0) bs) as Hh.
    { eapply Forall2_impl; [exact HF|]. by intros ?? [_ ?]. }
    destruct (find_index_concat key _ _ Hh Hs ltac:(done))
      as (r & b & Hr & Hb & Hc).
    destruct (Forall2_lookup_lr _ _ _ _ _ _ HF Hr Hb) as [Hsubr _].
    pose proof (sorted_block bs _ b Hs Hb) as Hsb.
    pose proof (sorted_heads _ _ Hh Hs) as Hsr.
    destruct (PageFindFacts.page_find_contents _ key p _ Ec Hsr)
      as (spos & e' & sln & S1 & _ & _ & _ & S5 & S6).
    rewrite Hr in S6. injection S6 as <-.
    destruct (IH (snd r) b Hsubr Hsb) as (pos & e & pg & ln & H1 & H2 & H3 & H4 & H5 & H6 & H7).
    exists pos, e, pg, ln.
    rewrite (tree_find_from_S n ptr key k spos r).
    + repeat split; try done; try lia. by rewrite Hc.
    + exact (on_unchanged stem_kind _ ptr k _ p spos faithful_stem Ho eq_refl S1).
    + exact (on_unchanged stem_kind _ ptr k _ p r faithful_stem Ho eq_refl S5).
Qed.

Lemma tree_find_contents key k l :
  contents k = Some l → sorted l →
  ∃ pos e p ln,
    find key k = Ok (pos, k)
    ∧ heap k !! tree_position.page pos = Some (leaf_object p)
    ∧ Page.get_leaf (cfg leaf_kind)
        (page_position.line (tree_position.sub_position pos)) p = Ok (ln, p)
    ∧ 0 ≤ page_position.elem (tree_position.sub_position pos) < Line.count_ ln
    ∧ Line.count_ ln < 256
    ∧ elem pos k = Ok (e, k)
    ∧ l !! find_index key l = Some e.
Proof.
  unfold contents. destruct (0 <=? stem_levels k); [|done].
  intros Hsub Hs. exact (tree_find_from_subtree key k _ _ _ Hsub Hs).
Qed.

Lemma on_inv {T A X} (kd : kind T A) (m : M (Page.PageNode T A) X) ptr k x k' :
  on kd ptr m k = Ok (x, k') →
  ∃ o p p', heap k !! ptr = Some o ∧ proj kd o = Some p ∧ m p = Ok (x, p').
Proof.
  unfold on. intros H. apply bind_inv in H as (p & k1 & Hd & H).
  unfold deref in Hd. destruct (heap k !! ptr) as [o|] eqn:Ho; [|done].
  destruct (proj kd o) as [p0|] eqn:Hp; [|done]. injection Hd as <- <-.
  apply bind_inv in H as ([x' p'] & k2 & Hm & H).
  unfold lift in Hm. destruct (m p0) as [[x1 p1]|] eqn:E; [|done].
  injection Hm as <- <- <-.
  apply bind_inv in H as ([] & k3 & _ & H). injection H as <- _. eauto 10.
Qed.

(** A position inside a leaf line is not the position that [end()] gives. *)
Lemma inside_is_not_end k pos p ln e k' :
  heap k !! tree_position.page pos = Some (leaf_object p) →
  Page.get_leaf (cfg leaf_kind)
    (page_position.line (tree_position.sub_position pos)) p = Ok (ln, p) →
  0 ≤ page_position.elem (tree_position.sub_position pos) < Line.count_ ln →
  Line.count_ ln < 256 →
  end_ k = Ok (e, k') → tree_position.neqb pos e = true.
Proof.
  intros Ho Hg Hi H8 He. unfold end_ in He.
  apply bind_inv in He as (mp & k1 & Hmp & He). injection Hmp as <- <-.
  apply bind_inv in He as (epos & k2 & Hon & He). injection He as <- _.
  apply on_inv in Hon as (o & q & q' & Hq & Hproj & Hend).
  destruct o as [?|q0]; [done|]. injection Hproj as ->.
  unfold Page.end_position in Hend.
  apply bind_inv in Hend as (i & q1 & Hi' & Hend). injection Hi' as <- <-.
  apply bind_inv in Hend as (n & q2 & Hn & Hend). injection Hend as <- _.
  unfold tree_position.neqb, page_position.neqb. simpl.
  destruct pos as [pg [li el]]. simpl in *.
  destruct (Z.eqb_spec pg (max_leaf_pointer k)) as [->|]; [|done].
  rewrite Hq in Ho. injection Ho as ->.
  destruct (Z.eqb_spec li (Page.max_leaf_index p)) as [->|]; [|done].
  rewrite Hg in Hn. injection Hn as <- <-. simpl.
  unfold Line.max_index. destruct (Z.eqb_spec (Line.count_ ln) 0); [lia|].
  rewrite (u8_small (Line.count_ ln - 1)) by lia.
  rewrite u8_small by lia.
  destruct (Z.eqb_spec el (Line.count_ ln - 1 + 1)); [lia|done].
Qed.

(** [contents] gives a list only when no node on the way is empty: the
    list has an element. *)
Lemma all_blocks_not_empty {X I} (below : I → option (list (Z * X))) r rs l :
  all_blocks below (r :: rs) = Some l → l ≠ [].
Proof.
  simpl. unfold child_block.
  destruct (below (snd r)) as [[|e b]|]; try done.
  destruct (fst e =? fst r); [|done].
  destruct (all_blocks below rs); [|done]. by intros [= <-].
Qed.

Lemma page_contents_not_empty {T A} c (p : Page.PageNode T A) l :
  Page.contents c p = Some l → l ≠ [].
Proof.
  unfold Page.contents. destruct (0 <=? Page.stem_levels p); [|done].
  destruct (Z.to_nat (Page.stem_levels p)) as [|n]; simpl.
  - destruct (Page.entry c (Page.root_index p) p) as [[[| | |] ?]|]; try done.
    destruct (Line.live _ n) as [[|]|]; try done. by intros [= <-].
  - destruct (Page.entry c (Page.root_index p) p) as [[[| | |] ?]|]; try done.
    destruct (Line.live _ n0) as [[|]|]; try done.
    apply all_blocks_not_empty.
Qed.

Lemma contents_not_empty k l : contents k = Some l → l ≠ [].
Proof.
  unfold contents. destruct (0 <=? stem_levels k); [|done].
  destruct (Z.to_nat (stem_levels k)) as [|n]; simpl.
  - destruct (heap k !! root_pointer k) as [[|p]|]; try done.
    destruct (Page.contents _ p) as [[|]|]; try done. by intros [= <-].
  - destruct (heap k !! root_pointer k) as [[p|]|]; try done.
    destruct (Page.contents _ p) as [[|]|]; try done.
    apply all_blocks_not_empty.
Qed.

End FindFacts.


(** ** The pool of a page node under [insert] *)

Module LineCountFacts.
Section counts.
Context {T A : Type}.
Variable max_count : Z.
Implicit Types (n : Line.line_node T A) (i k : Z).

Lemma u8_le z : 0 ≤ z → 0 ≤ u8 z ≤ z.
Proof.
  intros Hz. unfold u8. split; [apply Z.mod_pos_bound; lia|].
  apply Z.mod_le; lia.
Qed.

Lemma rbind_Ok {X Y} (r : result X) (f : X → result Y) y :
  rbind r f = Ok y → ∃ x, r = Ok x ∧ f x = Ok y.
Proof. destruct r as [x|e]; simpl; [eauto|discriminate]. Qed.

Lemma find_of_two n k pos :
  Line.count_ n = 2 → Line.find max_count n k = Ok pos → pos = 0 ∨ pos = 1.
Proof.
  intros Hc. unfold Line.find, Line.end_index, Line.min_index. rewrite Hc.
  intros H. apply rbind_Ok in H as (k0 & _ & H).
  destruct (k0 >? k); [left; congruence|].
  simpl in H. apply rbind_Ok in H as (k1 & _ & H). rewrite Hc in H.
  destruct (k1 >? k); inversion H; auto.
Qed.

Lemma elem_lookup n i e :
  Line.elem max_count n i = Ok e →
  Line.elems_ n !! Z.to_nat i = Some (Some e).
Proof.
  unfold Line.elem, Line.cell. destruct (Line.in_array max_count i);
    [|discriminate].
  destruct (Line.elems_ n !! Z.to_nat i) as [[e'|]|]; congruence.
Qed.

Lemma set_key_count n i k n' :
  Line.set_key max_count n i k = Ok n' → Line.count_ n' = Line.count_ n.
Proof.
  unfold Line.set_key. intros H.
  apply rbind_Ok in H as (e & _ & H). apply rbind_Ok in H as (es & _ & H).
  inversion H. reflexivity.
Qed.

Lemma split_counts n b n1 n2 :
  2 ≤ max_count → Line.count_ n = max_count →
  Line.split max_count n b = Ok (n1, n2) →
  Line.count_ n1 ≠ max_count ∧ Line.count_ n2 ≠ max_count.
Proof.
  intros Hm Hc. unfold Line.split. intros H.
  apply rbind_Ok in H as (es & _ & H). inversion H; subst n1 n2; simpl.
  rewrite Hc.
  pose proof (Z.div_mod max_count 2 ltac:(lia)).
  pose proof (Z.mod_pos_bound max_count 2 ltac:(lia)).
  pose proof (u8_le (max_count / 2 + max_count mod 2) ltac:(lia)).
  pose proof (u8_le (max_count / 2) ltac:(lia)).
  lia.
Qed.

Lemma insert_into_empty (a : A) (e1 : Z * T) s1 :
  1 ≤ max_count →
  Line.insert max_count (Line.init (Line.blank max_count a)) e1 = Ok s1 →
  s1 = Line.mk (Some e1 :: replicate (Z.to_nat max_count - 1) None) 1 a.
Proof.
  intros Hm. unfold Line.insert. unfold Line.init. unfold Line.blank.
  unfold Line.end_index, Line.min_index. unfold Line.move_one_back.
  unfold Line.move, Line.set_cell, Line.in_array. simpl.
  destruct (Z.to_nat max_count) as [|m] eqn:Em; [lia|].
  replace (0 <=? max_count) with true by lia.
  replace (0 + 1 + (0 - 0) <=? max_count) with true by lia.
  replace (0 <? max_count) with true by lia.
  simpl. rewrite Nat.sub_0_r. intros H. inversion H. reflexivity.
Qed.

Lemma insert_into_one (a : A) (e1 e2 : Z * T) s2 :
  3 ≤ max_count →
  Line.insert max_count
    (Line.mk (Some e1 :: replicate (Z.to_nat max_count - 1) None) 1 a) e2
    = Ok s2 →
  Line.count_ s2 = 2
  ∧ ∀ j, (j = 0%nat ∨ j = 1%nat) →
      ∃ e, Line.elems_ s2 !! j = Some (Some e) ∧ (e = e1 ∨ e = e2).
Proof.
  intros Hm. unfold Line.insert. unfold Line.end_index, Line.min_index.
  unfold Line.move_one_back. unfold Line.move, Line.set_cell. simpl.
  unfold Line.key, Line.elem, Line.cell, Line.in_array. simpl.
  destruct (Z.to_nat max_count) as [|[|[|m]]] eqn:Em; try lia.
  replace (0 <? max_count) with true by lia. simpl.
  destruct (fst e1 >? fst e2); simpl.
  - replace (0 <=? max_count) with true by lia.
    replace (1 <=? max_count) with true by lia.
    replace (0 + 1 + (1 - 0) <=? max_count) with true by lia.
    replace (0 <? max_count) with true by lia. simpl.
    intros H; inversion H; simpl. split; [reflexivity|].
    intros j [->| ->]; simpl; eauto.
  - replace (0 <=? max_count) with true by lia.
    replace (1 <=? max_count) with true by lia.
    replace (1 + 1 + (1 - 1) <=? max_count) with true by lia.
    replace (1 <? max_count) with true by lia. simpl.
    intros H; inversion H; simpl. split; [reflexivity|].
    intros j [->| ->]; simpl; eauto.
Qed.

End counts.
End LineCountFacts.

Module BenignFacts.
Import Page.
Section benign.
Context {T A : Type}.
Variable max_count : Z.
Implicit Types (n : Line.line_node T A) (i k : Z).

Lemma benign_Ok {X} (x : X) : benign (Ok x).
Proof. discriminate. Qed.

Lemma benign_rbind {X Y} (r : result X) (f : X → result Y) :
  benign r → (∀ x, benign (f x)) → benign (rbind r f).
Proof.
  unfold benign. destruct r as [x|e]; simpl; intros Hr Hf; [apply Hf|].
  congruence.
Qed.

Lemma benign_cell (es : list (option (Z * T))) i :
  benign (Line.cell max_count es i).
Proof.
  unfold Line.cell. destruct (Line.in_array max_count i); [|discriminate].
  destruct (es !! Z.to_nat i) as [[e|]|]; discriminate.
Qed.

Lemma benign_set_cell (es : list (option (Z * T))) i e :
  benign (Line.set_cell max_count es i e).
Proof.
  unfold Line.set_cell. destruct (Line.in_array max_count i); discriminate.
Qed.

Lemma benign_move (src dst : list (option (Z * T))) b e d :
  benign (Line.move max_count src b e dst d).
Proof. unfold Line.move. destruct (_ && _); discriminate. Qed.

Lemma benign_elem n i : benign (Line.elem max_count n i).
Proof. apply benign_cell. Qed.

Lemma benign_key n i : benign (Line.key max_count n i).
Proof.
  apply benign_rbind; [apply benign_elem|]. intros; apply benign_Ok.
Qed.

Lemma benign_min_key n : benign (Line.min_key max_count n).
Proof. apply benign_key. Qed.

Lemma benign_find_loop fuel i n k :
  benign (Line.find_loop max_count fuel i n k).
Proof.
  revert i. induction fuel as [|fuel IH]; intros i; simpl; [discriminate|].
  apply benign_rbind; [apply benign_key|]. intros x.
  destruct (x >? k); [discriminate|apply IH].
Qed.

Lemma benign_find n k : benign (Line.find max_count n k).
Proof.
  apply benign_rbind; [apply benign_min_key|]. intros x.
  destruct (x >? k); [discriminate|apply benign_find_loop].
Qed.

Lemma benign_insert_loop fuel i n k :
  benign (Line.insert_loop max_count fuel i n k).
Proof.
  revert i. induction fuel as [|fuel IH]; intros i; simpl; [discriminate|].
  apply benign_rbind; [apply benign_key|]. intros x.
  destruct (x >? k); [discriminate|apply IH].
Qed.

Lemma benign_insert n e : benign (Line.insert max_count n e).
Proof.
  apply benign_rbind; [apply benign_insert_loop|]. intros i.
  apply benign_rbind; [apply benign_move|]. intros es.
  apply benign_rbind; [apply benign_set_cell|]. intros es'. discriminate.
Qed.

Lemma benign_set_key n i k : benign (Line.set_key max_count n i k).
Proof.
  apply benign_rbind; [apply benign_elem|]. intros e.
  apply benign_rbind; [apply benign_set_cell|]. intros es. discriminate.
Qed.

Lemma benign_split n n' : benign (Line.split max_count n n').
Proof.
  apply benign_rbind; [apply benign_move|]. intros es. discriminate.
Qed.

End benign.
End BenignFacts.

Module PoolFacts.
Import Page.
Section pool.
Context {T A : Type}.
Variable c : config.
Implicit Types (p : PageNode T A) (n : Z).

Local Abbreviation PM := (M (PageNode T A)).

Lemma wp_bind {X Y} (m : PM X) (f : X → PM Y) Q p :
  wp m (fun x p' => wp (f x) Q p') p → wp (bind m f) Q p.
Proof.
  unfold wp, bind. destruct (m p) as [[x p']|e]; auto.
Qed.

Lemma wp_mono {X} (m : PM X) (Q Q' : X → PageNode T A → Prop) p :
  wp m Q p → (∀ x p', Q x p' → Q' x p') → wp m Q' p.
Proof.
  unfold wp. destruct (m p) as [[x p']|e]; auto.
Qed.

Lemma wp_lift {X} (r : result X) (Q : X → PageNode T A → Prop) p :
  benign r → (∀ x, r = Ok x → Q x p) → wp (lift r) Q p.
Proof.
  unfold wp, lift, benign. destruct r; intros Hb HQ; auto. congruence.
Qed.

Lemma wp_entry index (Q : PoolEntry T → PageNode T A → Prop) p :
  (∀ e, in_pool c index = true →
        pool_memory p !! Z.to_nat index = Some e → Q e p) →
  wp (entry c index) Q p.
Proof.
  unfold wp, entry. intros HQ. destruct (in_pool c index); [|discriminate].
  destruct (pool_memory p !! Z.to_nat index); [auto|discriminate].
Qed.

Lemma wp_get_stem index (Q : stem_node → PageNode T A → Prop) p :
  (∀ s, in_pool c index = true →
        pool_memory p !! Z.to_nat index = Some (stem s) → Q s p) →
  wp (get_stem c index) Q p.
Proof.
  intros HQ. apply wp_bind, wp_entry. intros [s|l|i|] Hi He;
    try discriminate.
  apply HQ; assumption.
Qed.

Lemma wp_get_leaf index (Q : leaf_node T → PageNode T A → Prop) p :
  (∀ l, in_pool c index = true →
        pool_memory p !! Z.to_nat index = Some (leaf l) → Q l p) →
  wp (get_leaf c index) Q p.
Proof.
  intros HQ. apply wp_bind, wp_entry. intros [s|l|i|] Hi He;
    try discriminate.
  apply HQ; assumption.
Qed.

Lemma wp_set_entry index e (Q : unit → PageNode T A → Prop) p :
  Q tt (set_pool_memory (<[Z.to_nat index := e]> (pool_memory p)) p) →
  wp (set_entry c index e) Q p.
Proof.
  unfold wp, set_entry. destruct (in_pool c index); [auto|discriminate].
Qed.

Lemma wp_allocate (Q : page_index → PageNode T A → Prop) p :
  0 < free_count p →
  (∀ i h b, Q i (set_allocator h b (u8 (free_count p - 1)) p)) →
  wp (allocate c) Q p.
Proof.
  unfold wp, allocate. intros Hf HQ.
  destruct (Z.gtb_spec (free_count p) 0); [|lia].
  destruct (head_index p =? back_index p); [apply HQ|].
  destruct (entry c (head_index p) p) as [[[s|l|i|] p']|e] eqn:He;
    try discriminate; [apply HQ|].
  unfold entry, pool_exhausted in *.
  destruct (in_pool c (head_index p)); [|congruence].
  destruct (pool_memory p !! Z.to_nat (head_index p)); congruence.
Qed.

(** ** Counting the entries taken *)

Lemma spends_ret {X} (x : X) n : 0 ≤ n → spends n (ret x : PM X).
Proof. intros Hn p Hp. unfold wp, ret. lia. Qed.

Lemma spends_fail {X} e n : e ≠ pool_exhausted → spends n (fail e : PM X).
Proof. intros He p Hp. exact He. Qed.

Lemma spends_gets {X} (f : PageNode T A → X) n : 0 ≤ n → spends n (gets f).
Proof. intros Hn p Hp. unfold wp, gets. lia. Qed.

Lemma spends_lift {X} (r : result X) n :
  0 ≤ n → benign r → spends n (lift r : PM X).
Proof. intros Hn Hr p Hp. apply wp_lift; [done|]. intros; lia. Qed.

Lemma spends_modify (f : PageNode T A → PageNode T A) n :
  0 ≤ n → (∀ p, free_count (f p) = free_count p) → spends n (modify f).
Proof. intros Hn Hf p Hp. unfold wp, modify. rewrite Hf. lia. Qed.

Lemma spends_entry index n : 0 ≤ n → spends n (entry c index : PM _).
Proof. intros Hn p Hp. apply wp_entry. intros; lia. Qed.

Lemma spends_set_entry index e n : 0 ≤ n → spends n (set_entry c index e : PM _).
Proof. intros Hn p Hp. apply wp_set_entry. simpl. lia. Qed.

Lemma spends_allocate n : 1 ≤ n → spends n (allocate c : PM _).
Proof.
  intros Hn p Hp. apply wp_allocate; [lia|]. intros i h b. simpl.
  rewrite u8_small; lia.
Qed.

Lemma spends_bind {X Y} (m : PM X) (f : X → PM Y) a b n :
  spends a m → (∀ x, spends b (f x)) → 0 ≤ a → 0 ≤ b → a + b ≤ n →
  spends n (bind m f).
Proof.
  intros Hm Hf Ha Hb Hn p Hp. apply wp_bind.
  eapply wp_mono; [apply Hm; lia|]. intros x p' Hp'. simpl in Hp'.
  eapply wp_mono; [apply Hf; lia|]. intros y p'' Hp''. simpl in Hp''. lia.
Qed.

Lemma spends_bind0 {X Y} (m : PM X) (f : X → PM Y) n :
  spends 0 m → (∀ x, spends n (f x)) → 0 ≤ n → spends n (bind m f).
Proof. intros Hm Hf Hn. apply (spends_bind m f 0 n); auto; lia. Qed.

Lemma spends_bind_allocate {Y} (f : page_index → PM Y) n :
  (∀ x, spends (n - 1) (f x)) → 1 ≤ n → spends n (bind (allocate c : PM _) f).
Proof.
  intros Hf Hn. apply (spends_bind _ f 1 (n - 1)); auto; try lia.
  apply spends_allocate. lia.
Qed.

Lemma spends_when (b : bool) (m : PM unit) n :
  0 ≤ n → spends n m → spends n (when b m).
Proof. intros Hn Hm. destruct b; [exact Hm|apply spends_ret, Hn]. Qed.

Lemma spends_get_stem index n : 0 ≤ n → spends n (get_stem c index : PM _).
Proof.
  intros Hn. apply spends_bind0; [apply spends_entry; lia| |lia].
  intros [s|l|i|]; (apply spends_ret; lia) || (apply spends_fail; discriminate).
Qed.

Lemma spends_get_leaf index n : 0 ≤ n → spends n (get_leaf c index : PM _).
Proof.
  intros Hn. apply spends_bind0; [apply spends_entry; lia| |lia].
  intros [s|l|i|]; (apply spends_ret; lia) || (apply spends_fail; discriminate).
Qed.

Lemma spends_upd_stem index f n :
  0 ≤ n → (∀ s, benign (f s)) → spends n (upd_stem c index f : PM _).
Proof.
  intros Hn Hf. apply spends_bind0; [apply spends_get_stem; lia| |lia].
  intros s. apply spends_bind0; [apply spends_lift; [lia|apply Hf]| |lia].
  intros s'. apply spends_set_entry, Hn.
Qed.

Lemma spends_upd_leaf index f n :
  0 ≤ n → (∀ l, benign (f l)) → spends n (upd_leaf c index f : PM _).
Proof.
  intros Hn Hf. apply spends_bind0; [apply spends_get_leaf; lia| |lia].
  intros s. apply spends_bind0; [apply spends_lift; [lia|apply Hf]| |lia].
  intros s'. apply spends_set_entry, Hn.
Qed.

End pool.

Ltac benign_tac :=
  first
    [ apply BenignFacts.benign_Ok | apply BenignFacts.benign_elem
    | apply BenignFacts.benign_key | apply BenignFacts.benign_min_key
    | apply BenignFacts.benign_find | apply BenignFacts.benign_insert
    | apply BenignFacts.benign_set_key | apply BenignFacts.benign_split ].

(** One step through a computation, for a goal [spends n m]. *)
Ltac spends_step :=
  lazymatch goal with
  | |- spends _ (bind (allocate _) _) =>
      apply spends_bind_allocate; [intros ?|lia]
  | |- spends _ (bind _ _) => apply spends_bind0; [|intros ?|lia]
  | |- spends _ (ret _) => apply spends_ret; lia
  | |- spends _ (fail _) => apply spends_fail; discriminate
  | |- spends _ (gets _) => apply spends_gets; lia
  | |- spends _ (lift _) => apply spends_lift; [lia|benign_tac]
  | |- spends _ (modify _) => apply spends_modify; [lia|reflexivity]
  | |- spends _ (when _ _) => apply spends_when; [lia|]
  | |- spends _ (get_stem _ _) => apply spends_get_stem; lia
  | |- spends _ (get_leaf _ _) => apply spends_get_leaf; lia
  | |- spends _ (put_stem _ _ _) => apply spends_set_entry; lia
  | |- spends _ (put_leaf _ _ _) => apply spends_set_entry; lia
  | |- spends _ (set_entry _ _ _) => apply spends_set_entry; lia
  | |- spends _ (upd_stem _ _ _) =>
      apply spends_upd_stem; [lia|intros ?; benign_tac]
  | |- spends _ (upd_leaf _ _ _) =>
      apply spends_upd_leaf; [lia|intros ?; benign_tac]
  | |- spends _ (if ?b then _ else _) => destruct b
  | |- spends _ (match ?x with _ => _ end) => destruct x
  end.

Section steps.
Context {T A : Type}.
Variable c : config.
Local Abbreviation PM := (M (PageNode T A)).

Lemma spends_stem_min_key index n :
  0 ≤ n → spends n (stem_min_key c index : PM _).
Proof. intros Hn. unfold stem_min_key. repeat spends_step. Qed.

Lemma spends_leaf_min_key index n :
  0 ≤ n → spends n (leaf_min_key c index : PM _).
Proof. intros Hn. unfold leaf_min_key. repeat spends_step. Qed.

Lemma spends_split_stem index new_index n :
  0 ≤ n → spends n (split_stem c index new_index : PM _).
Proof. intros Hn. unfold split_stem. repeat spends_step. Qed.

Lemma spends_split_leaf index new_index a n :
  0 ≤ n → spends n (split_leaf c index new_index a : PM _).
Proof. intros Hn. unfold split_leaf. repeat spends_step. Qed.

Lemma spends_set_prev_index index i n :
  0 ≤ n → spends n (set_prev_index c index i : PM _).
Proof. intros Hn. unfold set_prev_index. repeat spends_step. Qed.

Lemma spends_set_next_index index i n :
  0 ≤ n → spends n (set_next_index c index i : PM _).
Proof. intros Hn. unfold set_next_index. repeat spends_step. Qed.

Lemma spends_insert_step new_key index :
  spends 1 (insert_step c new_key index : PM _).
Proof.
  unfold insert_step.
  repeat first
    [ apply spends_stem_min_key; lia | apply spends_split_stem; lia
    | spends_step ].
Qed.

Lemma spends_insert_below (new_elem : Z * T) index :
  spends 1 (insert_below c new_elem index : PM _).
Proof.
  unfold insert_below.
  repeat first
    [ apply spends_leaf_min_key; lia | apply spends_split_leaf; lia
    | apply spends_set_prev_index; lia | apply spends_set_next_index; lia
    | spends_step ].
Qed.

Lemma spends_iterate_index k (step : Z → PM Z) index :
  (∀ i, spends 1 (step i)) →
  spends (Z.of_nat k) (iterate_index k step index).
Proof.
  intros Hs. revert index. induction k as [|k IH]; intros index.
  - apply spends_ret. lia.
  - simpl iterate_index.
    apply (spends_bind _ _ 1 (Z.of_nat k)); auto; lia.
Qed.

End steps.
End PoolFacts.

Module PageInsertFacts.
Import Page PoolFacts LineCountFacts.
Section page_insert.
Context {T A : Type}.
Variable c : config.
Implicit Types (p : PageNode T A) (n : Z).
Local Abbreviation PM := (M (PageNode T A)).

Lemma wp_ret {X} (x : X) (Q : X → PageNode T A → Prop) p :
  Q x p → wp (ret x) Q p.
Proof. auto. Qed.

Lemma wp_gets {X} (f : PageNode T A → X) (Q : X → PageNode T A → Prop) p :
  Q (f p) p → wp (gets f) Q p.
Proof. auto. Qed.

Lemma wp_modify (f : PageNode T A → PageNode T A) Q p :
  Q tt (f p) → wp (modify f) Q p.
Proof. auto. Qed.

Lemma wp_unbind {X Y} (m : PM X) (f : X → PM Y) Q p :
  wp (bind m f) Q p → wp m (fun x p' => wp (f x) Q p') p.
Proof. unfold wp, bind. destruct (m p) as [[x p']|e]; auto. Qed.

Lemma wp_not_exhausted {X} (m : PM X) Q p :
  wp m Q p → m p ≠ Err pool_exhausted.
Proof.
  unfold wp. destruct (m p) as [[x p']|e]; [discriminate|congruence].
Qed.

Lemma wp_spends {X} (m : PM X) n p :
  spends n m → n ≤ free_count p < 256 →
  wp m (fun _ p' => free_count p - n ≤ free_count p' ≤ free_count p) p.
Proof. intros Hm Hp. apply Hm, Hp. Qed.

(** ** Nodes with room *)

Lemma roomy_at_insert (m : list (PoolEntry T)) i j e :
  roomy_entry c e → roomy_at c m i → roomy_at c (<[Z.to_nat j := e]> m) i.
Proof.
  unfold roomy_at. intros He Hp.
  destruct (decide (Z.to_nat j = Z.to_nat i)) as [->|Hne].
  - destruct (<[Z.to_nat i:=e]> m !! Z.to_nat i) as [e'|] eqn:E; [|done].
    apply list_lookup_insert_Some in E as [(_ & -> & _)|(? & _)]; [done|lia].
  - rewrite list_lookup_insert_ne; done.
Qed.

Lemma roomy_at_insert_same (m : list (PoolEntry T)) i e :
  roomy_entry c e → roomy_at c (<[Z.to_nat i := e]> m) i.
Proof.
  unfold roomy_at. intros He.
  destruct (<[Z.to_nat i:=e]> m !! Z.to_nat i) as [e'|] eqn:E; [|done].
  apply list_lookup_insert_Some in E as [(_ & -> & _)|(? & _)]; [done|lia].
Qed.

Lemma roomy_at_entry (m : list (PoolEntry T)) i e :
  roomy_at c m i → m !! Z.to_nat i = Some e → roomy_entry c e.
Proof. unfold roomy_at. intros Hr E. rewrite E in Hr. exact Hr. Qed.

Lemma lookup_insert_same (m : list (PoolEntry T)) i e e' :
  <[i := e]> m !! i = Some e' → e' = e ∧ (i < length m)%nat.
Proof.
  intros E. apply list_lookup_insert_Some in E as [(_ & -> & ?)|(? & _)];
    [done|lia].
Qed.

Lemma roomy_stem p i s :
  roomy c p i → pool_memory p !! Z.to_nat i = Some (stem s) →
  Line.full (stem_max c) s = false.
Proof.
  unfold roomy, roomy_at, Line.full. intros Hr E. rewrite E in Hr.
  simpl in Hr. lia.
Qed.

Lemma roomy_leaf p i l :
  roomy c p i → pool_memory p !! Z.to_nat i = Some (leaf l) →
  Line.full (leaf_max c) l = false.
Proof.
  unfold roomy, roomy_at, Line.full. intros Hr E. rewrite E in Hr.
  simpl in Hr. lia.
Qed.

(** ** [split_root] *)

Lemma split_root_keeps p :
  root_full c p = false → wp (split_root c) (fun _ p' => p' = p) p.
Proof.
  unfold root_full, split_root. intros Hr.
  apply wp_bind, wp_gets, wp_bind, wp_gets.
  destruct (stem_levels p >? 0) eqn:Hs.
  - apply wp_bind, wp_get_stem. intros s Hi E. rewrite Hi, E in Hr.
    simpl in Hr. rewrite Hr. reflexivity.
  - apply wp_bind, wp_get_leaf. intros l Hi E. rewrite Hi, E in Hr.
    simpl in Hr. rewrite Hr. reflexivity.
Qed.

Lemma wp_stem_min_key index (Q : Z → PageNode T A → Prop) p :
  (∀ k, Q k p) → wp (stem_min_key c index) Q p.
Proof.
  intros HQ. unfold stem_min_key. apply wp_bind, wp_get_stem. intros s _ _.
  apply wp_lift; [benign_tac|]. auto.
Qed.

Lemma wp_leaf_min_key index (Q : Z → PageNode T A → Prop) p :
  (∀ k, Q k p) → wp (leaf_min_key c index) Q p.
Proof.
  intros HQ. unfold leaf_min_key. apply wp_bind, wp_get_leaf. intros s _ _.
  apply wp_lift; [benign_tac|]. auto.
Qed.

Lemma init_root_makes (key1 key2 : PM Z) p i1 i2 :
  (∀ (Q : Z → PageNode T A → Prop) q, (∀ k, Q k q) → wp key1 Q q) →
  (∀ (Q : Z → PageNode T A → Prop) q, (∀ k, Q k q) → wp key2 Q q) →
  3 ≤ stem_max c → roomy c p i1 → roomy c p i2 →
  wp (init_root c key1 i1 key2 i2)
     (fun _ p' => free_count p' = free_count p
                ∧ stem_levels p' = stem_levels p ∧ just_split c p') p.
Proof.
  intros Hk1 Hk2 Hm H1 H2. unfold init_root, upd_stem, put_stem.
  apply wp_bind, wp_gets, wp_bind, wp_set_entry.
  apply wp_bind, Hk1. intros k1.
  apply wp_bind, wp_bind, wp_get_stem. simpl. intros s0 _ E0.
  apply lookup_insert_same in E0 as [E0 Hlen]. inversion E0; subst s0.
  apply wp_bind, wp_lift; [benign_tac|]. intros s1 Hs1.
  apply insert_into_empty in Hs1; [|lia].
  apply wp_set_entry.
  apply wp_bind, Hk2. intros k2.
  apply wp_bind, wp_get_stem. simpl. intros s1' _ E1.
  apply lookup_insert_same in E1 as [E1 _]. inversion E1; subst s1'.
  apply wp_bind, wp_lift; [benign_tac|]. intros s2 Hs2. subst s1.
  apply insert_into_one in Hs2 as [Hc Hch]; [|lia].
  apply wp_set_entry. simpl. split; [reflexivity|]. split; [reflexivity|].
  assert (Hroom : ∀ i, roomy c p i →
    roomy_at c
      (<[Z.to_nat (root_index p) := stem s2]>
        (<[Z.to_nat (root_index p) :=
             stem (Line.mk
               (Some (k1, i1) :: replicate (Z.to_nat (stem_max c) - 1) None)
               1 ())]>
          (<[Z.to_nat (root_index p) :=
               stem (Line.init (new_stem_node c))]> (pool_memory p)))) i).
  { intros i Hi. repeat apply roomy_at_insert; simpl; try lia. exact Hi. }
  exists s2. simpl. split.
  { apply list_lookup_insert_eq. rewrite !length_insert. exact Hlen. }
  split; [exact Hc|]. intros j Hj.
  destruct (Hch j Hj) as (e & Ee & [-> | ->]); eexists _, _;
    (split; [exact Ee|]); unfold roomy; simpl; apply Hroom; assumption.
Qed.

Lemma split_root_splits p :
  root_full c p = true → 3 ≤ stem_max c → 2 ≤ leaf_max c →
  2 ≤ free_count p < 256 →
  wp (split_root c)
     (fun _ p' => free_count p' = free_count p - 2 ∧ just_split c p'
                ∧ stem_levels p' = u8 (stem_levels p + 1)) p.
Proof.
  unfold root_full, split_root. intros Hr Hs Hl Hf.
  apply andb_prop in Hr as [_ Hr].
  assert (Hf1 : u8 (free_count p - 1) = free_count p - 1)
    by (apply u8_small; lia).
  assert (Hf2 : u8 (free_count p - 1 - 1) = free_count p - 2)
    by (rewrite u8_small; lia).
  apply wp_bind, wp_gets, wp_bind, wp_gets.
  destruct (stem_levels p >? 0) eqn:Hsl.
  - apply wp_bind, wp_get_stem. intros s _ E. rewrite E in Hr.
    simpl in Hr. rewrite Hr. unfold when.
    apply wp_bind, wp_allocate; [lia|]. intros new_index h b.
    apply wp_bind. unfold split_stem, put_stem.
    apply wp_bind, wp_get_stem. simpl. intros s' _ E'.
    rewrite E in E'. inversion E'; subst s'.
    apply wp_bind, wp_lift; [benign_tac|]. intros [n1 n2] Hsp.
    apply split_counts in Hsp as [Hn1 Hn2];
      [|lia|unfold Line.full in Hr; lia].
    apply wp_bind, wp_set_entry, wp_set_entry.
    apply wp_bind, wp_allocate; [simpl; lia|]. intros r h' b'.
    apply wp_bind, wp_modify.
    apply wp_bind. eapply wp_mono.
    { apply init_root_makes;
        [apply wp_stem_min_key|apply wp_stem_min_key|exact Hs| |];
        unfold roomy; simpl.
      - apply roomy_at_insert; [exact Hn2|].
        apply roomy_at_insert_same. exact Hn1.
      - apply roomy_at_insert_same. exact Hn2. }
    simpl. intros [] p' (Hfc & Hlv & Hj).
    apply wp_modify. simpl. rewrite Hfc, Hlv, Hf1, Hf2.
    split; [reflexivity|]. split; [exact Hj|reflexivity].
  - apply wp_bind, wp_get_leaf. intros s _ E. rewrite E in Hr.
    simpl in Hr. rewrite Hr. unfold when.
    apply wp_bind, wp_allocate; [lia|]. intros new_index h b.
    apply wp_bind. unfold split_leaf, put_leaf.
    apply wp_bind, wp_get_leaf. simpl. intros s' _ E'.
    rewrite E in E'. inversion E'; subst s'.
    apply wp_bind, wp_lift; [benign_tac|]. intros [n1 n2] Hsp.
    apply split_counts in Hsp as [Hn1 Hn2];
      [|lia|unfold Line.full in Hr; lia].
    apply wp_bind, wp_set_entry, wp_set_entry.
    apply wp_bind. unfold set_next_index, upd_leaf, put_leaf.
    apply wp_bind, wp_get_leaf. simpl. intros l _ El.
    assert (Hroom : roomy_at c
      (<[Z.to_nat new_index := leaf n2]>
         (<[Z.to_nat (root_index p) := leaf n1]> (pool_memory p)))
      (root_index p)).
    { apply roomy_at_insert; [exact Hn2|].
      apply roomy_at_insert_same. exact Hn1. }
    pose proof (roomy_at_entry _ _ _ Hroom El) as Hl'. simpl in Hl'.
    apply wp_bind, wp_lift; [benign_tac|]. intros l' El'.
    inversion El'; subst l'. apply wp_set_entry.
    apply wp_bind, wp_modify.
    apply wp_bind, wp_allocate; [simpl; lia|]. intros r h' b'.
    apply wp_bind, wp_modify.
    apply wp_bind. eapply wp_mono.
    { apply init_root_makes;
        [apply wp_leaf_min_key|apply wp_leaf_min_key|exact Hs| |];
        unfold roomy; simpl.
      - apply roomy_at_insert; [exact Hl'|]. exact Hroom.
      - apply roomy_at_insert; [exact Hl'|].
        apply roomy_at_insert_same. exact Hn2. }
    simpl. intros [] p' (Hfc & Hlv & Hj).
    apply wp_modify. simpl. rewrite Hfc, Hlv, Hf1, Hf2.
    split; [reflexivity|]. split; [exact Hj|reflexivity].
Qed.

(** ** The level below a root that was just split *)

Lemma just_split_child p s k pos te :
  just_split c p →
  pool_memory p !! Z.to_nat (root_index p) = Some (stem s) →
  Line.find (stem_max c) s k = Ok pos →
  Line.elem (stem_max c) s pos = Ok te →
  Line.count_ s = 2 ∧ roomy c p (snd te).
Proof.
  intros (s' & E' & Hc & Hch) E Hf He. rewrite E' in E. inversion E; subst s'.
  split; [exact Hc|].
  apply find_of_two in Hf; [|exact Hc]. apply elem_lookup in He.
  destruct (Hch (Z.to_nat pos)) as (k' & i & Ei & Hi).
  { destruct Hf as [-> | ->]; auto. }
  rewrite Ei in He. inversion He. exact Hi.
Qed.

Lemma set_key_keeps_room p s pos k i :
  pool_memory p !! Z.to_nat (root_index p) = Some (stem s) →
  Line.count_ s = 2 → 3 ≤ stem_max c → roomy c p i →
  wp (upd_stem c (root_index p)
        (fun x => Line.set_key (stem_max c) x pos k))
     (fun _ p' => free_count p' = free_count p ∧ roomy c p' i) p.
Proof.
  intros E Hc Hm Hr. unfold upd_stem.
  apply wp_bind, wp_get_stem. intros s' _ E'.
  rewrite E in E'. inversion E'; subst s'.
  apply wp_bind, wp_lift; [benign_tac|]. intros s' Hk.
  apply wp_set_entry. split; [reflexivity|].
  apply roomy_at_insert; [|exact Hr].
  simpl. rewrite (set_key_count _ _ _ _ _ Hk). lia.
Qed.

Lemma first_step_spends_nothing p k :
  3 ≤ stem_max c → just_split c p →
  wp (insert_step c k (root_index p))
     (fun _ p' => free_count p' = free_count p) p.
Proof.
  intros Hm Hj. unfold insert_step.
  apply wp_bind, wp_get_stem. intros s _ E.
  apply wp_bind, wp_lift; [benign_tac|]. intros pos Hf.
  apply wp_bind, wp_lift; [benign_tac|]. intros te He.
  destruct (just_split_child p s k pos te Hj E Hf He) as [Hc Hr].
  apply wp_bind. unfold stem_min_key.
  apply wp_bind, wp_get_stem. intros t _ _.
  apply wp_lift; [benign_tac|]. intros tmin _.
  apply wp_bind.
  apply (wp_mono _
    (fun _ p' => free_count p' = free_count p ∧ roomy c p' (snd te))).
  { unfold when. destruct (k <? tmin); [|apply wp_ret; auto].
    apply (set_key_keeps_room p s); assumption. }
  intros [] p' [Hfc Hr'].
  apply wp_bind, wp_get_stem. intros t' _ Et'.
  rewrite (roomy_stem _ _ _ Hr' Et'). apply wp_ret. exact Hfc.
Qed.

Lemma leaf_level_spends_nothing p (e : Z * T) :
  3 ≤ stem_max c → just_split c p → 0 ≤ free_count p < 256 →
  wp (insert_below c e (root_index p))
     (fun _ p' => free_count p' = free_count p) p.
Proof.
  intros Hm Hj Hb. unfold insert_below.
  apply wp_bind, wp_get_stem. intros s _ E.
  apply wp_bind, wp_lift; [benign_tac|]. intros pos Hf.
  apply wp_bind, wp_lift; [benign_tac|]. intros te He.
  destruct (just_split_child p s (fst e) pos te Hj E Hf He) as [Hc Hr].
  apply wp_bind. unfold leaf_min_key.
  apply wp_bind, wp_get_leaf. intros t _ _.
  apply wp_lift; [benign_tac|]. intros tmin _.
  apply wp_bind.
  apply (wp_mono _
    (fun _ p' => free_count p' = free_count p ∧ roomy c p' (snd te))).
  { unfold when. destruct (fst e <? tmin); [|apply wp_ret; auto].
    apply (set_key_keeps_room p s); assumption. }
  intros [] p' [Hfc Hr'].
  apply wp_bind, wp_get_leaf. intros t' _ Et'.
  rewrite (roomy_leaf _ _ _ Hr' Et').
  eapply wp_mono.
  { apply (wp_spends _ 0); [|lia].
    apply spends_upd_leaf; [lia|]. intros l. benign_tac. }
  simpl. intros _ p'' Hp''. lia.
Qed.

(** C8.  A page node that is not oversized on entry survives one call of
    [PageNode::insert] without running its pool out: the assertion of
    [allocate] holds at every allocation that [insert] makes, directly or
    through [split_root].  The page is one whose stem depth, counted after
    the split of a full root, is within [max_stem_levels], the depth that
    [max_levels] is computed from; [stem_levels] and [free_count] are bytes. *)
Theorem insert_does_not_exhaust_pool p (new_elem : Z * T) :
  3 ≤ stem_max c → 2 ≤ leaf_max c →
  0 ≤ stem_levels p → free_count p < 256 →
  depth_after_split c p ≤ max_stem_levels c →
  oversized c p = false →
  insert c new_elem p ≠ Err pool_exhausted.
Proof.
  intros Hs Hl H0 Hf Hd Ho. apply (wp_not_exhausted _ (fun _ _ => True)).
  unfold oversized, max_levels in Ho.
  unfold depth_after_split in Hd. unfold insert. apply wp_bind.
  destruct (root_full c p) eqn:Hr.
  - eapply wp_mono; [apply split_root_splits; auto; lia|]. simpl.
    intros [] p' (Hfc & Hj & Hlv).
    apply wp_bind, wp_gets, wp_bind, wp_gets.
    pose proof (u8_le (stem_levels p + 1) ltac:(lia)) as Hu.
    destruct (stem_levels p' >? 0) eqn:Hpos.
    + destruct (Z.to_nat (stem_levels p' - 1)) as [|m] eqn:Em.
      * simpl. apply wp_bind, wp_ret.
        eapply wp_mono; [apply leaf_level_spends_nothing; auto; lia|]. auto.
      * simpl iterate_index. apply wp_bind, wp_bind.
        eapply wp_mono; [apply first_step_spends_nothing; auto|]. simpl.
        intros i q Hq. apply wp_unbind.
        eapply wp_mono; [apply (wp_spends _ (Z.of_nat m + 1)); [|lia]|auto].
        apply (spends_bind _ _ (Z.of_nat m) 1); try lia.
        -- apply spends_iterate_index. intros j. apply spends_insert_step.
        -- intros j. apply spends_insert_below.
    + eapply wp_mono; [apply (wp_spends _ 0); [|lia]|auto].
      apply spends_upd_leaf; [lia|]. intros l. benign_tac.
  - eapply wp_mono; [apply split_root_keeps, Hr|]. simpl. intros [] p' ->.
    apply wp_bind, wp_gets, wp_bind, wp_gets.
    destruct (stem_levels p >? 0) eqn:Hpos.
    + eapply wp_mono; [apply (wp_spends _ (stem_levels p)); [|lia]|auto].
      apply (spends_bind _ _ (Z.of_nat (Z.to_nat (stem_levels p - 1))) 1);
        try lia.
      * apply spends_iterate_index. intros j. apply spends_insert_step.
      * intros j. apply spends_insert_below.
    + eapply wp_mono; [apply (wp_spends _ 0); [|lia]|auto].
      apply spends_upd_leaf; [lia|]. intros l. benign_tac.
Qed.

End page_insert.

(** The root page after 15 ascending insertions: its only leaf line is
    full, so the next [insert] splits the root and takes two entries. *)
Lemma insert_does_not_exhaust_pool_witness :
  root_full (Kernel.cfg Kernel.leaf_kind)
    (Kernel.leaf_page_at 1 (Kernel.state_of Kernel.one_full_line)) = true
  ∧ insert (Kernel.cfg Kernel.leaf_kind) (16, 160)
      (Kernel.leaf_page_at 1 (Kernel.state_of Kernel.one_full_line))
    ≠ Err pool_exhausted.
Proof.
  split; [vm_compute; reflexivity|].
  apply insert_does_not_exhaust_pool.
  - apply Z.leb_le. vm_compute. reflexivity.
  - apply Z.leb_le. vm_compute. reflexivity.
  - apply Z.leb_le. vm_compute. reflexivity.
  - apply Z.ltb_lt. vm_compute. reflexivity.
  - apply Z.leb_le. vm_compute. reflexivity.
  - vm_compute. reflexivity.
Defined.

End PageInsertFacts.


(** ** What [insert] and [erase] leave of the pool *)

Module PageLoadFacts.
Import Page PoolFacts LineCountFacts PageInsertFacts.
Section counting.
Context {T A : Type}.
Variable c : config.
Local Abbreviation PM := (M (PageNode T A)).
Implicit Types (p : PageNode T A) (n : Z).













End counting.


Section page_erase.
Context {T A : Type}.
Variable c : config.
Local Abbreviation PM := (M (PageNode T A)).
Implicit Types (p : PageNode T A) (n : Z).













End page_erase.

Section page_load.
Context {T A : Type}.
Variable c : config.
Implicit Types (p : PageNode T A) (n : Z).



End page_load.


End PageLoadFacts.


(** ** Runs of operations *)

Module KernelFacts.
Import Kernel.

Lemma run_fault ops e : run ops (Err e) = Err e.
Proof. induction ops as [|o ops IH]; [reflexivity|]. exact IH. Qed.

Lemma run_step o ops s : run (o :: ops) s = run ops (exec (apply o) s).
Proof. reflexivity. Qed.

Lemma reachable_run ops : ∀ k k',
  reachable k → run ops (Ok k) = Ok k' → reachable k'.
Proof.
  induction ops as [|o ops IH]; intros k k' Hk H.
  - injection H as <-. exact Hk.
  - rewrite run_step in H. simpl in H.
    destruct (apply o k) as [[[] k1]|e] eqn:E.
    + eapply IH; [|exact H]. eapply reachable_apply; eassumption.
    + rewrite run_fault in H. discriminate.
Qed.

Lemma reachable_from_new ops k : run ops kernel_ = Ok k → reachable k.
Proof.
  destruct kernel_ as [k0|e] eqn:E.
  - apply reachable_run. by apply reachable_new.
  - rewrite run_fault. discriminate.
Qed.

(** A state in which [P] holds and on which [m] faults, from two evaluations. *)
Lemma fault_after {X} (m : M kernel X) (e : error) (P : kernel → bool) ops :
  holds P (run ops kernel_) = true →
  eval m (run ops kernel_) = Err e →
  ∃ k, reachable k ∧ P k = true ∧ m k = Err e.
Proof.
  destruct (run ops kernel_) as [k|e0] eqn:E; simpl; [|discriminate].
  intros HP H. exists k. split; [by eapply reachable_from_new|]. split; [done|].
  destruct (m k) as [[x k']|e1]; [discriminate|congruence].
Qed.

Lemma state_after (P : kernel → bool) ops :
  holds P (run ops kernel_) = true → ∃ k, reachable k ∧ P k = true.
Proof.
  destruct (run ops kernel_) as [k|e0] eqn:E; simpl; [|discriminate].
  intros HP. exists k. split; [by eapply reachable_from_new|done].
Qed.

Lemma max_stem_levels_helper_nonneg c fuel : ∀ n b,
  0 ≤ Page.max_stem_levels_helper c fuel n b.
Proof.
  induction fuel as [|fuel IH]; intros n b; simpl; [lia|].
  destruct (n >? b); [|lia]. specialize (IH (n - b) (b * Page.branchout c)). lia.
Qed.

Lemma max_levels_positive c : 1 ≤ Page.max_levels c.
Proof.
  unfold Page.max_levels, Page.max_stem_levels.
  pose proof (max_stem_levels_helper_nonneg c (Z.to_nat (Page.pool c))
                (Page.pool c) 1). lia.
Qed.

Lemma large_is_not_small {T A} c (p : Page.PageNode T A) :
  Page.large c p = negb (Page.small c p).
Proof. unfold Page.small, Page.large. lia. Qed.

Lemma oversized_is_large {T A} c (p : Page.PageNode T A) :
  Page.oversized c p = true → Page.large c p = true.
Proof.
  pose proof (max_levels_positive c). unfold Page.large, Page.oversized. lia.
Qed.

(** C7, as amended.  [small] holds iff [free_count > 2 * max_levels - 1] and
    [oversized] iff [free_count <= max_levels - 1]; [large] is the complement
    of [small], so exactly one of [small] and [large] holds, and every
    oversized page is large. *)
Theorem load_states {T A} c (p : Page.PageNode T A) :
  (Page.small c p = true ↔ Page.free_count p > 2 * Page.max_levels c - 1)
  ∧ (Page.oversized c p = true ↔ Page.free_count p ≤ Page.max_levels c - 1)
  ∧ (Page.large c p = true ↔ Page.small c p = false)
  ∧ (Page.oversized c p = true → Page.large c p = true).
Proof.
  split; [unfold Page.small; lia|]. split; [unfold Page.oversized; lia|].
  split; [|apply oversized_is_large].
  rewrite large_is_not_small. destruct (Page.small c p); intuition.
Qed.

(** C7, as stated, fails on the root page of the map of the keys 1 to 104:
    one pool entry is free, the page is large and oversized at once. *)
Lemma large_does_not_exclude_oversized :
  ∃ k p, reachable k ∧ heap k !! 1 = Some (leaf_object p)
       ∧ Page.free_count p = 1
       ∧ ¬ (Page.large (cfg leaf_kind) p = true
            ↔ Page.small (cfg leaf_kind) p = false
              ∧ Page.oversized (cfg leaf_kind) p = false).
Proof.
  destruct (state_after (fun k =>
      match heap k !! 1 with
      | Some (leaf_object p) =>
          (Page.free_count p =? 1) && Page.large (cfg leaf_kind) p
          && Page.oversized (cfg leaf_kind) p
      | _ => false
      end) (inserts 1 104)) as (k & Hk & HP); [vm_compute; reflexivity|].
  destruct (heap k !! 1) as [[|p]|] eqn:E; try discriminate.
  apply andb_true_iff in HP as [HP Ho]. apply andb_true_iff in HP as [Hf Hl].
  exists k, p. repeat split; try done; [lia|].
  intros [H _]. specialize (H Hl) as [_ H]. congruence.
Qed.


(** C3, as stated, fails on the map of the keys 1, 3, 5, 7 and 9: the key 4
    is absent, and [find(4)] returns the position of the element with key 3,
    not [end()]. *)
Lemma find_of_absent_key_is_not_end :
  ∃ k pos e, reachable k ∧ lacks_key 4 k = true
           ∧ eval (find 4) (Ok k) = Ok pos ∧ eval end_ (Ok k) = Ok e
           ∧ tree_position.eqb pos e = false
           ∧ eval (elem pos) (Ok k) = Ok (3, 30).
Proof.
  destruct (state_after (fun k =>
      lacks_key 4 k
      && match eval (find 4) (Ok k), eval end_ (Ok k) with
         | Ok pos, Ok e =>
             negb (tree_position.eqb pos e)
             && match eval (elem pos) (Ok k) with
                | Ok x => (fst x =? 3) && (snd x =? 30)
                | Err _ => false
                end
         | _, _ => false
         end)
    [Insert (5, 50); Insert (3, 30); Insert (9, 90); Insert (1, 10);
     Insert (7, 70)]) as (k & Hk & HP); [vm_compute; reflexivity|].
  apply andb_true_iff in HP as [Hl HP].
  destruct (eval (find 4) (Ok k)) as [pos|] eqn:Ef; [|done].
  destruct (eval end_ (Ok k)) as [e|] eqn:Ee; [|done].
  apply andb_true_iff in HP as [Hne Hel].
  exists k, pos, e. repeat split; try done.
  - by apply negb_true_iff.
  - destruct (eval (elem pos) (Ok k)) as [[a b]|]; [|done].
    apply andb_true_iff in Hel. simpl in Hel. f_equal. f_equal; lia.
Qed.

(** C3, as amended.  In a state that holds at least one element, where no
    page and no line of the tree is empty, every stem entry carries the
    first key of its child (this is what [contents k = Some l] says, see
    [contents_not_empty]) and the elements [l] are sorted, [find] returns
    the position of an element of the map and leaves the map as it is.
    When the key is present the element has that key; when some key is not
    greater than the one given, the element has the greatest such key; when
    all keys are greater, the element is the first one.  The position is
    never the one of [end()].  Nothing is said of the new map and of a map
    that [erase] has emptied, which have no element. *)
Theorem find_in_sorted_map k l find_key :
  contents k = Some l → sorted l →
  ∃ pos e, find find_key k = Ok (pos, k) ∧ elem pos k = Ok (e, k) ∧ e ∈ l
    ∧ ((∃ x, x ∈ l ∧ fst x = find_key) → fst e = find_key)
    ∧ ((∃ x, x ∈ l ∧ fst x ≤ find_key) →
         fst e ≤ find_key ∧ ∀ x, x ∈ l → fst x ≤ find_key → fst x ≤ fst e)
    ∧ ((∀ x, x ∈ l → find_key < fst x) → l !! 0%nat = Some e)
    ∧ (∀ e' k', end_ k = Ok (e', k') → tree_position.neqb pos e' = true).
Proof.
  intros Hc Hs.
  destruct (FindFacts.tree_find_contents find_key k l Hc Hs)
    as (pos & e & p & ln & H1 & H2 & H3 & H4 & H5 & H6 & H7).
  exists pos, e. split; [done|]. split; [done|].
  split; [by eapply list_elem_of_lookup_2|].
  split; [|split; [|split]].
  - intros (x & Hx & Hxk).
    destruct (find_index_greatest find_key l e Hs H7) as [Hle Hmax].
    { exists x. split; [done|lia]. }
    specialize (Hmax x Hx). lia.
  - by apply find_index_greatest.
  - intros Hall. by rewrite <- (find_index_all_above find_key l Hall).
  - intros e' k' He. by eapply FindFacts.inside_is_not_end.
Qed.

Lemma five_keys_run : five_keys = Ok (state_of five_keys).
Proof. vm_compute. reflexivity. Qed.

Lemma find_in_sorted_map_witness :
  contents (state_of five_keys)
  = Some [(1, 10); (3, 30); (5, 50); (7, 70); (9, 90)]
  ∧ sorted [(1, 10); (3, 30); (5, 50); (7, 70); (9, 90)]
  ∧ ∃ pos e, find 4 (state_of five_keys) = Ok (pos, state_of five_keys)
    ∧ elem pos (state_of five_keys) = Ok (e, state_of five_keys)
    ∧ e ∈ [(1, 10); (3, 30); (5, 50); (7, 70); (9, 90)]
    ∧ ((∃ x, x ∈ [(1, 10); (3, 30); (5, 50); (7, 70); (9, 90)] ∧ fst x = 4) →
         fst e = 4)
    ∧ ((∃ x, x ∈ [(1, 10); (3, 30); (5, 50); (7, 70); (9, 90)] ∧ fst x ≤ 4) →
         fst e ≤ 4
         ∧ ∀ x, x ∈ [(1, 10); (3, 30); (5, 50); (7, 70); (9, 90)] →
                fst x ≤ 4 → fst x ≤ fst e)
    ∧ ((∀ x, x ∈ [(1, 10); (3, 30); (5, 50); (7, 70); (9, 90)] → 4 < fst x) →
         [(1, 10); (3, 30); (5, 50); (7, 70); (9, 90)] !! 0%nat = Some e)
    ∧ (∀ e' k', end_ (state_of five_keys) = Ok (e', k') →
         tree_position.neqb pos e' = true).
Proof.
  assert (H1 : contents (state_of five_keys)
               = Some [(1, 10); (3, 30); (5, 50); (7, 70); (9, 90)])
    by (vm_compute; reflexivity).
  assert (H2 : sorted [(1, 10); (3, 30); (5, 50); (7, 70); (9, 90)])
    by (unfold sorted; apply (bool_decide_unpack _); vm_compute; exact I).
  split; [exact H1|]. split; [exact H2|].
  exact (find_in_sorted_map (state_of five_keys) _ 4 H1 H2).
Defined.

(** C1. The round trip of [insert] and [find] breaks on a key smaller than
    all keys of a map of two leaf pages: the map of the keys 1 to 105 is
    reachable and does not hold the key 0, and [insert((0, 7))] indexes the
    path of [set_key] of the root stem page at [stem_levels - 1 = -1]. *)
Theorem insert_below_minimum_faults :
  ∃ k, reachable k ∧ lacks_key 0 k = true
     ∧ insert (0, 7) k = Err (OutOfBounds "set_key: path[stem_levels - 1]").
Proof.
  apply (fault_after (insert (0, 7)) _ (lacks_key 0) (inserts 1 105));
    vm_compute; reflexivity.
Qed.

(** C2. Iteration after a bulk insertion breaks: the keys 1 to 105 inserted
    in ascending order all arrive in the map, and the traversal from
    [begin()] reads the [next_pointer] of the second leaf page, which
    [split_root] never assigned.  On the empty map the traversal
    dereferences a cell that was never written. *)
Theorem iteration_after_root_split_faults :
  (∃ k, reachable k
      ∧ contents k = Some ((fun i => (i, 10 * i)) <$> seqZ 1 105)
      ∧ iterate 1000 k = Err (Indeterminate "next_pointer"))
  ∧ eval (iterate 1000) kernel_ = Err (Indeterminate "elems_").
Proof.
  split; [|vm_compute; reflexivity].
  destruct (fault_after (iterate 1000) (Indeterminate "next_pointer")
    (fun k => bool_decide
       (contents k = Some ((fun i => (i, 10 * i)) <$> seqZ 1 105)))
    (inserts 1 105)) as (k & Hk & HP & Hf);
    [vm_compute; reflexivity ..|].
  exists k. split; [done|]. split; [|done]. by apply bool_decide_eq_true in HP.
Qed.

(** C4. [erase] breaks on the smallest key of a map of two leaf pages:
    the map of the keys 1 to 105 is reachable and holds the key 1, and
    [erase(1)] indexes the path of [set_key] of the root stem page at
    [stem_levels - 1 = -1] when it renews the routing key of the page. *)
Theorem erase_of_minimum_faults :
  ∃ k, reachable k ∧ holds_key 1 k = true
     ∧ erase 1 k = Err (OutOfBounds "set_key: path[stem_levels - 1]").
Proof.
  apply (fault_after (erase 1) _ (holds_key 1) (inserts 1 105));
    vm_compute; reflexivity.
Qed.

(** C5. [insert] of a key that is present breaks in two reachable states.
    With the keys 1 to 200 the second leaf page is oversized;
    [insert((200, 7))] splits it and reads its [next_pointer], which was
    never assigned.  With the keys 6 to 96, 98 and 99 erased again,
    [insert((150, 7))] offloads to the previous page and [borrow_next]
    indexes [next_path] at [stem_levels - 1 = -1] of the receiving page. *)
Theorem insert_of_present_key_faults :
  (∃ k, reachable k ∧ holds_key 200 k = true
      ∧ insert (200, 7) k = Err (Indeterminate "next_pointer"))
  ∧ (∃ k, reachable k ∧ holds_key 150 k = true
      ∧ insert (150, 7) k
        = Err (OutOfBounds "borrow_next: next_path[stem_levels - 1]")).
Proof.
  split.
  - apply (fault_after (insert (200, 7)) _ (holds_key 200) (inserts 1 200));
      vm_compute; reflexivity.
  - apply (fault_after (insert (150, 7)) _ (holds_key 150)
             (inserts 1 200 ++ erases_down 96 91 ++ [Erase 98; Erase 99]));
      vm_compute; reflexivity.
Qed.

(** C10. On the newly constructed map [begin()] and [end()] differ: both
    point into line 0 of the root page, [begin()] at element 0 and [end()]
    at element 1. *)
Theorem begin_is_not_end_on_new_map :
  eval empty kernel_ = Ok true
  ∧ ∃ b e, eval begin_ kernel_ = Ok b ∧ eval end_ kernel_ = Ok e
         ∧ tree_position.neqb b e = true
         ∧ tree_position.page b = tree_position.page e
         ∧ tree_position.sub_position b = page_position.mk 0 0
         ∧ tree_position.sub_position e = page_position.mk 0 1.
Proof.
  split; [vm_compute; reflexivity|].
  eexists _, _. split; [vm_compute; reflexivity|].
  split; [vm_compute; reflexivity|]. vm_compute. auto.
Qed.

End KernelFacts.

(** ** Contents of a line node after an operation *)

Module LineOpsFacts.
Import LineFacts.
Section line_ops.
Context {T A : Type} (mc : Z).
Implicit Types (n : Line.line_node T A) (l : list (Z * T)) (e : Z * T).
Implicit Types (es : list (option (Z * T))).

Lemma all_written_fmap l : Line.all_written (Some <$> l) = Some l.
Proof.
  induction l as [|e l IH]; [done|]. rewrite fmap_cons. simpl.
  by rewrite IH.
Qed.

(** The cells of a node: its elements, then cells that are not in use. *)
Lemma live_cells n l :
  Line.live mc n = Some l →
  ∃ rest, Line.elems_ n = (Some <$> l) ++ rest
        ∧ Z.of_nat (length l) + Z.of_nat (length rest) = mc
        ∧ Line.count_ n = Z.of_nat (length l) ∧ Z.of_nat (length l) < 256.
Proof.
  intros H. apply live_inv in H as (Hc & H8 & Hlen & Htake & Hn).
  exists (drop (Z.to_nat (Line.count_ n)) (Line.elems_ n)).
  rewrite <- Htake, take_drop. split; [done|].
  rewrite length_drop. lia.
Qed.

Lemma cells_live l rest (a : A) c :
  Z.of_nat (length l) + Z.of_nat (length rest) = mc →
  c = Z.of_nat (length l) → c < 256 →
  Line.live mc (Line.mk ((Some <$> l) ++ rest) c a) = Some l.
Proof.
  intros Hlen -> H8. unfold Line.live. simpl.
  rewrite length_app, length_fmap, Nat2Z.inj_add, Hlen, Z.eqb_refl.
  replace (0 <=? Z.of_nat (length l)) with true by lia.
  replace (Z.of_nat (length l) <=? mc) with true by lia.
  replace (Z.of_nat (length l) <? 256) with true by lia. simpl.
  rewrite Nat2Z.id, take_app_length' by (by rewrite length_fmap).
  apply all_written_fmap.
Qed.

(** [std::move] copies the middle segment of the source over the cells of
    the destination from [d] on. *)
Lemma move_segment (src s1 s2 s3 dst : list (option (Z * T))) (b en d : Z) :
  src = s1 ++ s2 ++ s3 →
  b = Z.of_nat (length s1) → en = b + Z.of_nat (length s2) → en ≤ mc →
  0 ≤ d → d + Z.of_nat (length s2) ≤ mc →
  Line.move mc src b en dst d
  = Ok (take (Z.to_nat d) dst ++ s2
        ++ drop (Z.to_nat d + length s2) dst).
Proof.
  intros -> -> -> He Hd Hd'. unfold Line.move.
  replace (_ && _) with true by lia.
  replace (Z.of_nat (length s1) + Z.of_nat (length s2) - Z.of_nat (length s1))
    with (Z.of_nat (length s2)) by lia.
  rewrite !Nat2Z.id, drop_app_length, take_app_length.
  do 4 f_equal. lia.
Qed.

(** The loop of [insert] stops at the first key that is greater than the
    new one. *)
Lemma insert_loop_live n l (k : Z) : Line.live mc n = Some l →
  ∀ m j, (j + m = length l)%nat →
  Line.insert_loop mc m (Z.of_nat j) n k
  = Ok (Z.of_nat (j + run_length k (drop j l))).
Proof.
  intros Hl. pose proof (live_inv mc n l Hl) as (Hc & H8 & _ & _ & Hn).
  induction m as [|m IH]; intros j Hm; simpl.
  - rewrite drop_ge by lia. simpl. unfold Line.end_index. f_equal. lia.
  - destruct (lookup_lt_is_Some_2 l j) as [x Hx]; [lia|].
    rewrite (live_key mc n l j x Hl Hx). simpl.
    rewrite (drop_S l x j Hx). simpl.
    destruct (Z.gtb_spec (fst x) k) as [E|E].
    + f_equal. lia.
    + replace (Z.of_nat j + 1) with (Z.of_nat (S j)) by lia.
      rewrite IH by lia. f_equal. lia.
Qed.

(** [insert] on a node that is not full: the new element goes behind the
    elements at the front whose keys are not greater than its key. *)
Lemma insert_live n l e :
  Line.live mc n = Some l → Line.count_ n < mc → mc < 256 →
  ∃ n', Line.insert mc n e = Ok n'
      ∧ Line.live mc n' = Some (put_behind e l)
      ∧ Line.aux n' = Line.aux n.
Proof.
  intros Hl Hfull Hmc. unfold put_behind.
  destruct (live_cells n l Hl) as (rest & Hes & Hlen & Hc & H8).
  pose proof (run_length_le (fst e) l) as Hr.
  set (r := run_length (fst e) l) in *.
  unfold Line.insert, Line.min_index, Line.end_index.
  rewrite Hc. replace (Z.to_nat (Z.of_nat (length l) - 0)) with (length l)
    by lia.
  pose proof (insert_loop_live n l (fst e) Hl (length l) 0 eq_refl) as Hloop.
  rewrite drop_0 in Hloop. change (Z.of_nat 0) with 0 in Hloop.
  rewrite Hloop. simpl. fold r. clearbody r.
  destruct rest as [|x rest]; [simpl in Hlen; lia|].
  rewrite length_cons in Hlen.
  assert (Hsplit : Line.elems_ n
    = (Some <$> take r l) ++ (Some <$> drop r l) ++ x :: rest).
  { rewrite Hes, app_assoc, <- fmap_app, take_drop. done. }
  unfold Line.move_one_back.
  rewrite (move_segment _ _ _ _ _ (Z.of_nat r) (Z.of_nat (length l))
             (Z.of_nat r + 1) Hsplit);
    rewrite ?length_fmap, ?length_take, ?length_drop; try lia.
  simpl. unfold Line.set_cell, Line.in_array.
  replace ((0 <=? Z.of_nat r) && (Z.of_nat r <? mc)) with true by lia.
  simpl. eexists. split; [reflexivity|]. split; [|reflexivity].
  replace (Z.to_nat (Z.of_nat r + 1)) with (S r) by lia.
  replace (S r + (length l - r))%nat with (S (length l)) by lia.
  rewrite Nat2Z.id.
  assert (Hhead : ∃ y, Line.elems_ n !! r = Some y).
  { apply lookup_lt_is_Some_2. rewrite Hes, length_app, length_fmap.
    simpl. lia. }
  destruct Hhead as [y Hy].
  rewrite (take_S_r _ _ _ Hy).
  assert (Htake : take r (Line.elems_ n) = Some <$> take r l).
  { rewrite Hsplit, take_app_length'; [done|].
    rewrite length_fmap, length_take. lia. }
  assert (Hdrop : drop (S (length l)) (Line.elems_ n) = rest).
  { rewrite Hes. rewrite drop_app_ge by (rewrite length_fmap; lia).
    rewrite length_fmap. replace (S (length l) - length l)%nat with 1%nat
      by lia. done. }
  rewrite Htake, Hdrop.
  rewrite <- app_assoc.
  rewrite (insert_app_r_alt _ _ r) by (rewrite length_fmap, length_take; lia).
  rewrite length_fmap, length_take.
  replace (r - r `min` length l)%nat with 0%nat by lia. simpl.
  replace ((Some <$> take r l) ++ Some e :: (Some <$> drop r l) ++ rest)
    with ((Some <$> (take r l ++ e :: drop r l)) ++ rest).
  2:{ rewrite fmap_app, fmap_cons, <- app_assoc. done. }
  apply cells_live.
  - rewrite length_app, length_take, length_cons, length_drop.
    rewrite Nat.min_l by lia. lia.
  - rewrite length_app, length_take, length_cons, length_drop.
    rewrite Nat.min_l by lia. rewrite u8_small by lia. lia.
  - rewrite u8_small by lia. lia.
Qed.

Lemma take_cells l rest i :
  (i ≤ length l)%nat → take i ((Some <$> l) ++ rest) = Some <$> take i l.
Proof.
  intros Hi. rewrite take_app_le by (by rewrite length_fmap).
  by rewrite fmap_take.
Qed.

Lemma drop_cells l rest i :
  (i ≤ length l)%nat →
  drop i ((Some <$> l) ++ rest) = (Some <$> drop i l) ++ rest.
Proof.
  intros Hi. rewrite drop_app_le by (by rewrite length_fmap).
  by rewrite fmap_drop.
Qed.

Lemma cells_segments l rest i :
  (Some <$> l) ++ rest
  = (Some <$> take i l) ++ (Some <$> drop i l) ++ rest.
Proof. by rewrite app_assoc, <- fmap_app, take_drop. Qed.

(** [erase] at the index of an element removes that element. *)
Lemma erase_live n l (i : nat) :
  Line.live mc n = Some l → (i < length l)%nat →
  ∃ n', Line.erase mc n (Z.of_nat i) = Ok n'
      ∧ Line.live mc n' = Some (delete i l)
      ∧ Line.aux n' = Line.aux n.
Proof.
  intros Hl Hi.
  destruct (live_cells n l Hl) as (rest & Hes & Hlen & Hc & H8).
  unfold Line.erase, Line.end_index. rewrite Hc.
  replace (Z.of_nat i <? Z.of_nat (length l)) with true by lia.
  unfold Line.move_one_forward. rewrite (u8_small (Z.of_nat i + 1)) by lia.
  pose proof (cells_segments l rest (S i)) as Hseg. rewrite <- Hes in Hseg.
  rewrite (move_segment _ _ _ _ _ (Z.of_nat i + 1) (Z.of_nat (length l))
             (Z.of_nat i + 1 - 1) Hseg);
    rewrite ?length_fmap, ?length_take, ?length_drop; try lia.
  simpl. eexists. split; [reflexivity|]. split; [|reflexivity].
  replace (Z.to_nat (Z.of_nat i + 1 - 1)) with i by lia.
  replace (i + (length l - S i))%nat with (length l - 1)%nat by lia.
  rewrite Hes, take_cells, drop_cells by lia.
  rewrite (app_assoc (Some <$> take i l)), <- fmap_app, <- delete_take_drop.
  apply cells_live.
  - rewrite length_delete by (by apply lookup_lt_is_Some_2).
    rewrite length_app, length_fmap, length_drop. lia.
  - rewrite length_delete by (by apply lookup_lt_is_Some_2).
    rewrite u8_small by lia. lia.
  - rewrite u8_small by lia. lia.
Qed.

(** [split] leaves the first half, with the odd element, in the node and
    moves the rest to the front of the other node. *)
Lemma split_live n l (n2 : Line.line_node T A) :
  Line.live mc n = Some l → Z.of_nat (length (Line.elems_ n2)) = mc →
  ∃ n1' n2', Line.split mc n n2 = Ok (n1', n2')
      ∧ Line.live mc n1' = Some (take ((length l + 1) / 2) l)
      ∧ Line.live mc n2' = Some (drop ((length l + 1) / 2) l)
      ∧ Line.aux n1' = Line.aux n ∧ Line.aux n2' = Line.aux n2.
Proof.
  intros Hl Hlen2.
  destruct (live_cells n l Hl) as (rest & Hes & Hlen & Hc & H8).
  set (h := ((length l + 1) / 2)%nat).
  assert (Hh : Z.of_nat h = Z.of_nat (length l) / 2 + Z.of_nat (length l) mod 2).
  { unfold h. rewrite Nat2Z.inj_div, Nat2Z.inj_add.
    change (Z.of_nat 2) with 2. change (Z.of_nat 1) with 1.
    pose proof (Z.div_mod (Z.of_nat (length l)) 2 ltac:(lia)).
    pose proof (Z.mod_pos_bound (Z.of_nat (length l)) 2 ltac:(lia)).
    pose proof (Z.div_mod (Z.of_nat (length l) + 1) 2 ltac:(lia)).
    pose proof (Z.mod_pos_bound (Z.of_nat (length l) + 1) 2 ltac:(lia)).
    lia. }
  assert (Hh2 : Z.of_nat (length l) / 2 = Z.of_nat (length l) - Z.of_nat h).
  { pose proof (Z.div_mod (Z.of_nat (length l)) 2 ltac:(lia)). lia. }
  assert (Hhl : (h ≤ length l)%nat).
  { pose proof (Z.mod_pos_bound (Z.of_nat (length l)) 2 ltac:(lia)).
    pose proof (Z.div_mod (Z.of_nat (length l)) 2 ltac:(lia)). lia. }
  clearbody h.
  unfold Line.split, Line.end_index, Line.min_index, Line.move_to.
  rewrite Hc, <- Hh, Hh2. rewrite (u8_small (Z.of_nat h)) by lia.
  pose proof (cells_segments l rest h) as Hseg. rewrite <- Hes in Hseg.
  rewrite (move_segment _ _ _ _ _ (Z.of_nat h) (Z.of_nat (length l)) 0 Hseg);
    rewrite ?length_fmap, ?length_take, ?length_drop; try lia.
  simpl. eexists _, _. split; [reflexivity|]. simpl.
  split; [|split; [|done]].
  - rewrite Hes, (cells_segments l rest h). apply cells_live.
    + rewrite length_take, length_app, length_fmap, length_drop. lia.
    + rewrite length_take. lia.
    + lia.
  - apply cells_live.
    + rewrite !length_drop. lia.
    + rewrite length_drop, u8_small by lia. lia.
    + rewrite u8_small by lia. lia.
Qed.

Lemma empty_live es (a : A) :
  Z.of_nat (length es) = mc → Line.live mc (Line.mk es 0 a) = Some [].
Proof. intros H. apply (cells_live [] es a 0); simpl; lia. Qed.

Lemma cells_front l rest :
  (Some <$> l) ++ rest = [] ++ (Some <$> l) ++ rest.
Proof. done. Qed.

(** [merge_prev_erase]: the elements but the erased one go behind those of
    the previous node; the node is left empty. *)
Lemma merge_prev_erase_live n l prev lp (i : nat) :
  Line.live mc n = Some l → Line.live mc prev = Some lp →
  (i < length l)%nat → Z.of_nat (length lp + length l) - 1 ≤ mc → mc < 256 →
  ∃ n' prev', Line.merge_prev_erase mc n (Z.of_nat i) prev = Ok (n', prev')
      ∧ Line.live mc n' = Some []
      ∧ Line.live mc prev' = Some (lp ++ delete i l)
      ∧ Line.aux n' = Line.aux n ∧ Line.aux prev' = Line.aux prev.
Proof.
  intros Hl Hp Hi Hfit Hmc.
  destruct (live_cells n l Hl) as (rest & Hes & Hlen & Hc & H8).
  destruct (live_cells prev lp Hp) as (restp & Hesp & Hlenp & Hcp & H8p).
  unfold Line.merge_prev_erase, Line.end_index, Line.move_to.
  rewrite Hc, Hcp.
  pose proof (cells_segments l rest i) as Hseg0. rewrite <- Hes in Hseg0.
  apply (f_equal (app [])) in Hseg0. simpl in Hseg0.
  rewrite (move_segment _ [] (Some <$> take i l) ((Some <$> drop i l) ++ rest)
             _ 0 (Z.of_nat i) (Z.of_nat (length lp)) Hseg0);
    rewrite ?length_fmap, ?length_take, ?length_drop; simpl; try lia.
  rewrite (u8_small (Z.of_nat i + 1)) by lia.
  rewrite (u8_small (Z.of_nat (length lp) + Z.of_nat i)) by lia.
  pose proof (cells_segments l rest (S i)) as Hseg. rewrite <- Hes in Hseg.
  rewrite (move_segment _ _ _ _ _ (Z.of_nat i + 1) (Z.of_nat (length l))
             (Z.of_nat (length lp) + Z.of_nat i) Hseg);
    rewrite ?length_fmap, ?length_take, ?length_drop; try lia.
  simpl. eexists _, _. split; [reflexivity|]. simpl.
  split; [apply empty_live; rewrite Hes, length_app, length_fmap; lia|].
  split; [|done].
  rewrite !Nat2Z.id, Nat.min_l by lia.
  replace (Z.to_nat (Z.of_nat (length lp) + Z.of_nat i))
    with (length lp + i)%nat by lia.
  rewrite Hesp, (take_app_length' (Some <$> lp)) by (by rewrite length_fmap).
  rewrite (drop_app_ge (Some <$> lp)) by (rewrite length_fmap; lia).
  rewrite length_fmap.
  replace (length lp + i - length lp)%nat with i by lia.
  rewrite (app_assoc (Some <$> lp) (Some <$> take i l)).
  rewrite (take_app_length' (_ ++ _)) by
    (rewrite length_app, !length_fmap, length_take; lia).
  rewrite (drop_app_ge (_ ++ _)) by
    (rewrite length_app, !length_fmap, length_take; lia).
  rewrite drop_drop.
  rewrite <- (app_assoc (Some <$> lp)).
  rewrite (app_assoc (Some <$> take i l)), <- fmap_app, <- delete_take_drop.
  rewrite (app_assoc (Some <$> lp)), <- fmap_app.
  apply cells_live.
  - rewrite length_drop, !length_app, !length_fmap, length_take.
    rewrite length_delete by (by apply lookup_lt_is_Some_2).
    rewrite Nat.min_l by lia. lia.
  - rewrite length_app, length_delete by (by apply lookup_lt_is_Some_2).
    rewrite u8_small by lia. lia.
  - rewrite u8_small by lia. lia.
Qed.

(** [merge_next_erase]: the elements of the next node go behind those of
    the node, without the erased one; the next node is left empty. *)
Lemma merge_next_erase_live n l next ln (i : nat) :
  Line.live mc n = Some l → Line.live mc next = Some ln →
  (i < length l)%nat → Z.of_nat (length l + length ln) - 1 ≤ mc → mc < 256 →
  ∃ n' next', Line.merge_next_erase mc n (Z.of_nat i) next = Ok (n', next')
      ∧ Line.live mc n' = Some (delete i l ++ ln)
      ∧ Line.live mc next' = Some []
      ∧ Line.aux n' = Line.aux n ∧ Line.aux next' = Line.aux next.
Proof.
  intros Hl Hp Hi Hfit Hmc.
  destruct (live_cells n l Hl) as (rest & Hes & Hlen & Hc & H8).
  destruct (live_cells next ln Hp) as (restn & Hesn & Hlenn & Hcn & H8n).
  unfold Line.merge_next_erase, Line.end_index, Line.min_index, Line.move_to,
    Line.move_one_forward.
  rewrite Hc, Hcn.
  rewrite (u8_small (Z.of_nat i + 1)) by lia.
  rewrite (u8_small (Z.of_nat (length l) - 1)) by lia.
  pose proof (cells_segments l rest (S i)) as Hseg. rewrite <- Hes in Hseg.
  rewrite (move_segment _ _ _ _ _ (Z.of_nat i + 1) (Z.of_nat (length l))
             (Z.of_nat i + 1 - 1) Hseg);
    rewrite ?length_fmap, ?length_take, ?length_drop; try lia.
  simpl.
  rewrite (move_segment _ [] (Some <$> ln) restn _ 0 (Z.of_nat (length ln))
             (Z.of_nat (length l) - 1) Hesn);
    rewrite ?length_fmap; simpl; try lia.
  eexists _, _. split; [reflexivity|]. simpl.
  split; [|split; [apply empty_live; rewrite Hesn, length_app, length_fmap; lia
                  |done]].
  replace (Z.to_nat (Z.of_nat i + 1 - 1)) with i by lia.
  replace (Z.to_nat (Z.of_nat (length l) - 1)) with (length l - 1)%nat by lia.
  rewrite Hes, take_cells by lia.
  rewrite (app_assoc (Some <$> take i l)), <- fmap_app, <- delete_take_drop.
  assert (Hd : length (delete i l) = (length l - 1)%nat).
  { rewrite length_delete by (by apply lookup_lt_is_Some_2). lia. }
  rewrite (take_app_length' (Some <$> delete i l)) by (by rewrite length_fmap).
  rewrite (drop_app_ge (Some <$> delete i l)) by (rewrite length_fmap; lia).
  rewrite app_assoc, <- fmap_app.
  apply cells_live.
  - rewrite !length_drop, !length_app, !length_fmap, Hd. lia.
  - rewrite length_app, Hd, u8_small by lia. lia.
  - rewrite u8_small by lia. lia.
Qed.

(** [borrow_prev_erase]: the last element of the previous node comes to
    the front of the node, in exchange for the erased one. *)
Lemma borrow_prev_erase_live n l prev lp x (i : nat) :
  Line.live mc n = Some l → Line.live mc prev = Some (lp ++ [x]) →
  (i < length l)%nat →
  ∃ n' prev', Line.borrow_prev_erase mc n (Z.of_nat i) prev = Ok (n', prev')
      ∧ Line.live mc n' = Some (x :: delete i l)
      ∧ Line.live mc prev' = Some lp
      ∧ Line.aux n' = Line.aux n ∧ Line.aux prev' = Line.aux prev.
Proof.
  intros Hl Hp Hi.
  destruct (live_cells n l Hl) as (rest & Hes & Hlen & Hc & H8).
  destruct (live_cells prev _ Hp) as (restp & Hesp & Hlenp & Hcp & H8p).
  rewrite length_app, length_cons in Hlenp, Hcp, H8p. simpl in Hlenp, Hcp, H8p.
  unfold Line.borrow_prev_erase, Line.end_index, Line.min_index,
    Line.move_to, Line.move_one_back.
  rewrite Hcp.
  replace (Z.of_nat (length lp + 1) - 1) with (Z.of_nat (length lp)) by lia.
  rewrite (u8_small (Z.of_nat (length lp))) by lia.
  pose proof (cells_segments l rest i) as Hseg. rewrite <- Hes in Hseg.
  apply (f_equal (app [])) in Hseg. simpl in Hseg.
  rewrite (move_segment _ [] (Some <$> take i l) ((Some <$> drop i l) ++ rest)
             _ 0 (Z.of_nat i) (0 + 1) Hseg);
    rewrite ?length_fmap, ?length_take, ?length_drop; simpl; try lia.
  assert (Hsegp : Line.elems_ prev = (Some <$> lp) ++ [Some x] ++ restp).
  { rewrite Hesp, fmap_app, <- app_assoc. done. }
  rewrite (move_segment _ _ _ _ _ (Z.of_nat (length lp))
             (Z.of_nat (length lp + 1)) 0 Hsegp);
    rewrite ?length_fmap; simpl; try lia.
  eexists _, _. split; [reflexivity|]. simpl. split; [|split; [|done]].
  - rewrite Nat.min_l by lia.
    rewrite (drop_app_length' (take _ _)) by
      (rewrite length_take, Hes, length_app, length_fmap; lia).
    rewrite Hes, drop_cells by lia.
    rewrite (app_assoc (Some <$> take i l)), <- fmap_app, <- delete_take_drop.
    change (Some x :: (Some <$> delete i l) ++ rest)
      with ((Some <$> (x :: delete i l)) ++ rest).
    apply cells_live.
    + rewrite length_cons, length_delete by (by apply lookup_lt_is_Some_2).
      lia.
    + rewrite length_cons, length_delete by (by apply lookup_lt_is_Some_2).
      lia.
    + lia.
  - rewrite Hsegp. apply cells_live.
    + rewrite length_app, length_cons, length_nil. simpl length. lia.
    + lia.
    + lia.
Qed.

(** [borrow_next_erase]: the first element of the next node comes to the
    back of the node, in exchange for the erased one. *)
Lemma borrow_next_erase_live n l next y ln (i : nat) :
  Line.live mc n = Some l → Line.live mc next = Some (y :: ln) →
  (i < length l)%nat →
  ∃ n' next', Line.borrow_next_erase mc n (Z.of_nat i) next = Ok (n', next')
      ∧ Line.live mc n' = Some (delete i l ++ [y])
      ∧ Line.live mc next' = Some ln
      ∧ Line.aux n' = Line.aux n ∧ Line.aux next' = Line.aux next.
Proof.
  intros Hl Hp Hi.
  destruct (live_cells n l Hl) as (rest & Hes & Hlen & Hc & H8).
  destruct (live_cells next _ Hp) as (restn & Hesn & Hlenn & Hcn & H8n).
  rewrite length_cons in Hlenn, Hcn, H8n.
  unfold Line.borrow_next_erase, Line.end_index, Line.min_index,
    Line.move_to, Line.move_one_forward.
  rewrite Hc, Hcn.
  rewrite (u8_small (Z.of_nat i + 1)) by lia.
  rewrite (u8_small (Z.of_nat (length l) - 1)) by lia.
  rewrite (u8_small (0 + 1)) by lia.
  pose proof (cells_segments l rest (S i)) as Hseg. rewrite <- Hes in Hseg.
  rewrite (move_segment _ _ _ _ _ (Z.of_nat i + 1) (Z.of_nat (length l))
             (Z.of_nat i + 1 - 1) Hseg);
    rewrite ?length_fmap, ?length_take, ?length_drop; try lia.
  simpl.
  assert (Hsegn : Line.elems_ next
    = [] ++ [Some y] ++ (Some <$> ln) ++ restn) by (by rewrite Hesn).
  rewrite (move_segment _ [] [Some y] ((Some <$> ln) ++ restn) _ 0 (0 + 1)
             (Z.of_nat (length l) - 1) Hsegn); simpl; try lia.
  assert (Hsegn' : Line.elems_ next
    = [Some y] ++ (Some <$> ln) ++ restn) by (by rewrite Hesn).
  rewrite (move_segment _ [Some y] (Some <$> ln) restn _ (0 + 1)
             (Z.of_nat (S (length ln))) (0 + 1 - 1) Hsegn');
    rewrite ?length_fmap; simpl length; try lia.
  eexists _, _. split; [reflexivity|]. simpl. split; [|split; [|done]].
  - replace (Z.to_nat (Z.of_nat i + 1 - 1)) with i by lia.
    replace (Z.to_nat (Z.of_nat (length l) - 1)) with (length l - 1)%nat
      by lia.
    rewrite Hes, take_cells by lia.
    rewrite (app_assoc (Some <$> take i l)), <- fmap_app, <- delete_take_drop.
    assert (Hd : length (delete i l) = (length l - 1)%nat).
    { rewrite length_delete by (by apply lookup_lt_is_Some_2). lia. }
    rewrite (take_app_length' (Some <$> delete i l))
      by (by rewrite length_fmap).
    rewrite (drop_app_ge (Some <$> delete i l)) by (rewrite length_fmap; lia).
    change (Some y :: ?t) with ([Some y] ++ t).
    rewrite app_assoc.
    change [Some y] with (Some <$> [y]). rewrite <- fmap_app.
    apply cells_live.
    + rewrite !length_drop, !length_app, !length_fmap, Hd. simpl length. lia.
    + rewrite length_app, Hd. simpl length. lia.
    + lia.
  - apply cells_live.
    + rewrite length_drop, Hesn, length_app, length_fmap, length_cons. lia.
    + rewrite u8_small by lia. lia.
    + rewrite u8_small by lia. lia.
Qed.

End line_ops.
End LineOpsFacts.

(** ** Insertion into a list behind the keys that are not greater *)

Module PutFacts.
Section put.
Context {X : Type}.
Implicit Types (e : Z * X) (l : list (Z * X)) (k : Z).

Lemma run_length_take k l :
  run_length k (take (run_length k l) l) = run_length k l.
Proof.
  induction l as [|x l IH]; [done|]. simpl.
  destruct (fst x >? k) eqn:E; [done|]. simpl. rewrite E. by rewrite IH.
Qed.

Lemma run_length_drop k l : run_length k (drop (run_length k l) l) = 0%nat.
Proof.
  induction l as [|x l IH]; [done|]. simpl.
  destruct (fst x >? k) eqn:E; simpl; [by rewrite E|done].
Qed.

Lemma elem_of_take_run k l x : x ∈ take (run_length k l) l → fst x ≤ k.
Proof.
  intros Hx. apply list_elem_of_lookup in Hx as [i Hi].
  apply lookup_take_Some in Hi as [Hi Hlt].
  by apply (run_length_below k l i).
Qed.

Lemma elem_of_drop_run k l x :
  sorted l → x ∈ drop (run_length k l) l → k < fst x.
Proof.
  intros Hs Hx. apply list_elem_of_lookup in Hx as [i Hi].
  rewrite lookup_drop in Hi.
  apply (run_length_above k l Hs (run_length k l + i)); [lia|done].
Qed.

Lemma put_behind_length e l : length (put_behind e l) = S (length l).
Proof.
  unfold put_behind. rewrite length_app, length_cons, length_take, length_drop.
  pose proof (run_length_le (fst e) l). lia.
Qed.

Lemma put_behind_perm e l : put_behind e l ≡ₚ e :: l.
Proof.
  unfold put_behind. rewrite <- Permutation_middle.
  by rewrite take_drop.
Qed.

Lemma put_behind_sorted e l : sorted l → sorted (put_behind e l).
Proof.
  intros Hs. unfold put_behind.
  rewrite <- (take_drop (run_length (fst e) l) l) in Hs at 1.
  apply sorted_app in Hs as (H12 & H1 & H2).
  apply sorted_app. split; [|split; [done|]].
  - intros x1 x2 Hx1 Hx2. apply elem_of_cons in Hx2 as [->|Hx2].
    + by apply (elem_of_take_run _ l).
    + by apply H12.
  - apply sorted_cons. split; [|done].
    intros x Hx. apply (elem_of_drop_run (fst e) l) in Hx.
    + lia.
    + rewrite <- (take_drop (run_length (fst e) l) l). apply sorted_app. done.
Qed.

Lemma put_behind_lookup e l :
  put_behind e l !! run_length (fst e) l = Some e.
Proof.
  unfold put_behind. pose proof (run_length_le (fst e) l).
  rewrite lookup_app_r by (rewrite length_take; lia).
  rewrite length_take. replace (_ - _)%nat with 0%nat by lia. done.
Qed.

(** [find_index] for the key of the element that was put is where the
    element is. *)
Lemma find_index_put_behind e l :
  find_index (fst e) (put_behind e l) = run_length (fst e) l.
Proof.
  unfold find_index, put_behind.
  pose proof (run_length_le (fst e) l).
  rewrite run_length_app_all.
  - rewrite length_take. simpl.
    destruct (Z.gtb_spec (fst e) (fst e)); [lia|].
    rewrite run_length_drop. lia.
  - rewrite run_length_take, length_take. lia.
Qed.

End put.
End PutFacts.

(** ** A page node that is a single leaf line *)

Module OneLinePageFacts.
Import Page LineFacts LineOpsFacts PutFacts.
Section one_line_page.
Context {T A : Type} (c : config).
Implicit Types (p : PageNode T A) (l : list (Z * T)) (e : Z * T).

Lemma entry_ok i p x :
  in_pool c i = true → pool_memory p !! Z.to_nat i = Some x →
  entry c i p = Ok (x, p).
Proof. unfold entry. by intros -> ->. Qed.

Lemma get_leaf_ok i p (n : leaf_node T) :
  in_pool c i = true → pool_memory p !! Z.to_nat i = Some (leaf n) →
  get_leaf c i p = Ok (n, p).
Proof.
  intros Hi Hn. unfold get_leaf, bind. by rewrite (entry_ok i p _ Hi Hn).
Qed.

Lemma upd_leaf_ok i p (n n' : leaf_node T) f :
  in_pool c i = true → pool_memory p !! Z.to_nat i = Some (leaf n) →
  f n = Ok n' →
  upd_leaf c i f p
  = Ok (tt, set_pool_memory (<[Z.to_nat i := leaf n']> (pool_memory p)) p).
Proof.
  intros Hi Hn Hf. unfold upd_leaf, bind.
  rewrite (get_leaf_ok i p n Hi Hn). unfold lift. rewrite Hf.
  unfold put_leaf, set_entry. by rewrite Hi.
Qed.

(** Writing the root leaf of a one-line page gives a one-line page. *)
Lemma one_line_put p l (n' : leaf_node T) l' :
  one_line c p l → Line.live (leaf_max c) n' = Some l' →
  Line.aux n' = mk_leaf_aux page_index_nil page_index_nil →
  one_line c
    (set_pool_memory (<[Z.to_nat (root_index p) := leaf n']> (pool_memory p)) p)
    l'.
Proof.
  intros (Hsl & Hin & Hmin & Hmax & n & Hn & Hl & Ha) Hl' Ha'.
  repeat split; try done. exists n'. split; [|done]. simpl.
  apply list_lookup_insert_eq. by eapply lookup_lt_Some.
Qed.

Lemma split_root_one_line p l :
  one_line c p l → Z.of_nat (length l) < leaf_max c →
  split_root c p = Ok (tt, p).
Proof.
  intros (Hsl & Hin & Hmin & Hmax & n & Hn & Hl & Ha) Hfull.
  pose proof (live_inv _ n l Hl) as (Hc & H8 & _ & _ & Hlen).
  unfold split_root, bind, gets. rewrite Hsl. simpl.
  rewrite (get_leaf_ok _ p n Hin Hn). unfold Line.full.
  replace (Line.count_ n =? leaf_max c) with false by lia. done.
Qed.

Lemma insert_one_line p l e :
  one_line c p l → Z.of_nat (length l) < leaf_max c → leaf_max c < 256 →
  ∃ p', insert c e p = Ok (tt, p') ∧ one_line c p' (put_behind e l)
      ∧ free_count p' = free_count p ∧ Page.aux p' = Page.aux p.
Proof.
  intros H1 Hfull H8. pose proof H1 as H1'.
  destruct H1 as (Hsl & Hin & Hmin & Hmax & n & Hn & Hl & Ha).
  pose proof (live_inv _ n l Hl) as (Hc & _ & _ & _ & Hlen).
  destruct (insert_live (leaf_max c) n l e Hl ltac:(lia) H8)
    as (n' & Hins & Hl' & Ha').
  exists (set_pool_memory
            (<[Z.to_nat (root_index p) := leaf n']> (pool_memory p)) p).
  split; [|split; [|done]].
  - unfold insert, bind. rewrite (split_root_one_line p l H1' Hfull).
    unfold gets. rewrite Hsl. simpl.
    apply (upd_leaf_ok _ p n n'); done.
  - apply (one_line_put p l); [done|done|]. by rewrite Ha'.
Qed.

Lemma find_one_line p l k :
  one_line c p l → l ≠ [] →
  find c k p
  = Ok (page_position.mk (root_index p) (Z.of_nat (find_index k l)), p).
Proof.
  intros (Hsl & Hin & Hmin & Hmax & n & Hn & Hl & Ha) Hne.
  unfold find, bind, gets. rewrite Hsl. simpl. unfold ret.
  rewrite (get_leaf_ok _ p n Hin Hn). unfold lift.
  by rewrite (find_live _ n l k Hl Hne).
Qed.

Lemma elem_one_line p l i e :
  one_line c p l → l !! i = Some e →
  elem c (page_position.mk (root_index p) (Z.of_nat i)) p = Ok (e, p).
Proof.
  intros (Hsl & Hin & Hmin & Hmax & n & Hn & Hl & Ha) He.
  unfold elem, bind. simpl. rewrite (get_leaf_ok _ p n Hin Hn). unfold lift.
  by rewrite (live_elem _ n l i e Hl He).
Qed.

Lemma find_path_one_line p l k :
  one_line c p l → l ≠ [] →
  ∃ path, find_path c k p = Ok (path, p)
        ∧ path_get c "erase: path[stem_levels]" path 0
          = Ok (page_position.mk (root_index p) (Z.of_nat (find_index k l))).
Proof.
  intros (Hsl & Hin & Hmin & Hmax & n & Hn & Hl & Ha) Hne.
  pose proof (KernelFacts.max_levels_positive c) as Hml.
  unfold find_path, make_path, bind, gets. rewrite Hsl. simpl. unfold ret.
  rewrite (get_leaf_ok _ p n Hin Hn). unfold lift.
  rewrite (find_live _ n l k Hl Hne). unfold path_set, in_path.
  replace ((0 <=? 0) && (0 <? max_levels c)) with true by lia.
  eexists. split; [reflexivity|]. unfold path_get, in_path.
  replace ((0 <=? 0) && (0 <? max_levels c)) with true by lia.
  destruct (Z.to_nat (max_levels c)) as [|m] eqn:Em; [lia|]. done.
Qed.

Lemma erase_one_line p l k :
  one_line c p l → l ≠ [] →
  ∃ p', erase c k p = Ok (tt, p')
      ∧ one_line c p' (delete (find_index k l) l)
      ∧ free_count p' = free_count p ∧ Page.aux p' = Page.aux p.
Proof.
  intros H1 Hne. pose proof H1 as H1'.
  destruct H1 as (Hsl & Hin & Hmin & Hmax & n & Hn & Hl & Ha).
  destruct (find_path_one_line p l k H1' Hne) as (path & Hp & Hg).
  pose proof (find_index_lt k l Hne) as Hlt.
  destruct (erase_live (leaf_max c) n l (find_index k l) Hl Hlt)
    as (n' & Her & Hl' & Ha').
  exists (set_pool_memory
            (<[Z.to_nat (root_index p) := leaf n']> (pool_memory p)) p).
  split; [|split; [|done]].
  - unfold erase, bind. rewrite Hp. unfold gets. rewrite Hsl.
    unfold lift at 1. rewrite Hg. simpl.
    rewrite (get_leaf_ok _ p n Hin Hn). simpl.
    rewrite (upd_leaf_ok _ p n n' _ Hin Hn Her). done.
  - apply (one_line_put p l); [done|done|]. by rewrite Ha'.
Qed.

Lemma empty_one_line p l :
  one_line c p l →
  empty c p = Ok (match l with [] => true | _ => false end, p).
Proof.
  intros (Hsl & Hin & Hmin & Hmax & n & Hn & Hl & Ha).
  pose proof (live_inv _ n l Hl) as (Hc & _ & _ & _ & Hlen).
  unfold empty, bind, gets. rewrite Hsl. simpl.
  rewrite (get_leaf_ok _ p n Hin Hn). unfold ret, Line.empty. do 2 f_equal.
  destruct l; simpl length in *; lia.
Qed.

Lemma min_position_one_line p l :
  one_line c p l →
  min_position c p = Ok (page_position.mk (root_index p) 0, p).
Proof.
  intros (Hsl & Hin & Hmin & Hmax & n & Hn & Hl & Ha).
  unfold min_position, bind, gets. rewrite Hmin.
  by rewrite (get_leaf_ok _ p n Hin Hn).
Qed.

Lemma end_position_one_line p l :
  one_line c p l → l ≠ [] →
  end_position c p
  = Ok (page_position.mk (root_index p) (Z.of_nat (length l)), p).
Proof.
  intros (Hsl & Hin & Hmin & Hmax & n & Hn & Hl & Ha) Hne.
  pose proof (live_inv _ n l Hl) as (Hc & H8 & _ & _ & Hlen).
  unfold end_position, bind, gets. rewrite Hmax.
  rewrite (get_leaf_ok _ p n Hin Hn). unfold ret, Line.max_index.
  destruct l; [done|]. simpl length in *.
  replace (Line.count_ n =? 0) with false by lia.
  rewrite (u8_small (Line.count_ n - 1)) by lia.
  rewrite u8_small by lia. do 3 f_equal. lia.
Qed.

Lemma next_position_one_line p l i :
  one_line c p l → 0 ≤ i < 255 →
  next_position c (page_position.mk (root_index p) i) p
  = Ok (page_position.mk (root_index p) (i + 1), p).
Proof.
  intros (Hsl & Hin & Hmin & Hmax & n & Hn & Hl & Ha) Hi.
  unfold next_position, bind. simpl.
  rewrite (get_leaf_ok _ p n Hin Hn). rewrite Ha. simpl.
  unfold ret. by rewrite u8_small by lia.
Qed.

Lemma contents_one_line p l :
  one_line c p l → l ≠ [] → contents c p = Some l.
Proof.
  intros (Hsl & Hin & Hmin & Hmax & n & Hn & Hl & Ha) Hne.
  unfold contents. rewrite Hsl. simpl.
  rewrite (entry_ok _ p _ Hin Hn), Hl. by destruct l.
Qed.

End one_line_page.
End OneLinePageFacts.

(** ** A map that is a single leaf line *)

Module OneLineFacts.
Import Kernel FindFacts PutFacts OneLinePageFacts.
Implicit Types (k : kernel) (l : list (Z * Z)) (e : Z * Z).

Lemma leaf_max_15 : Page.leaf_max (cfg leaf_kind) = 15.
Proof. reflexivity. Qed.

Lemma on_leaf {X} (m : M leaf_node X) ptr k p x p' :
  heap k !! ptr = Some (leaf_object p) → m p = Ok (x, p') →
  on leaf_kind ptr m k
  = Ok (x, set_heap (<[ptr := leaf_object p']> (heap k)) k).
Proof.
  intros Ho Hm. unfold on, deref, bind at 1. rewrite Ho. simpl.
  unfold bind at 1, lift. rewrite Hm. reflexivity.
Qed.

Lemma on_leaf_same {X} (m : M leaf_node X) ptr k p x :
  heap k !! ptr = Some (leaf_object p) → m p = Ok (x, p) →
  on leaf_kind ptr m k = Ok (x, k).
Proof.
  intros Ho Hm.
  by apply (on_unchanged leaf_kind m ptr k (leaf_object p) p x faithful_leaf).
Qed.

Lemma one_line_store k l (p' : leaf_node) l' :
  one_line k l → Page.one_line (cfg leaf_kind) p' l' →
  Page.oversized (cfg leaf_kind) p' = false →
  Page.aux p' = mk_leaf_aux (Some nullptr) (Some nullptr) →
  one_line (set_heap (<[root_pointer k := leaf_object p']> (heap k)) k) l'.
Proof.
  intros (Hsl & Hmin & Hmax & p & Hp & H1 & Ho & Ha) H1' Ho' Ha'.
  repeat split; try done. exists p'. simpl. by rewrite lookup_insert_eq.
Qed.

Lemma kernel_one_line : ∃ k, kernel_ = Ok k ∧ one_line k [].
Proof.
  eexists. split; [reflexivity|].
  repeat split. eexists. split; [reflexivity|].
  split; [|split; reflexivity].
  repeat split. eexists. split; [reflexivity|]. split; reflexivity.
Qed.

Lemma map_split_root_one_line k l : one_line k l → split_root k = Ok (tt, k).
Proof.
  intros (Hsl & Hmin & Hmax & p & Hp & H1 & Ho & Ha).
  unfold split_root, bind at 1, gets at 1. unfold bind at 1, gets at 1.
  rewrite Hsl. simpl. unfold bind at 1, P_oversized.
  rewrite (on_leaf_same _ _ k p false Hp); [done|].
  unfold gets. by rewrite Ho.
Qed.

Lemma map_insert_one_line k l e :
  one_line k l → (length l < 15)%nat →
  ∃ k', insert e k = Ok (tt, k') ∧ one_line k' (put_behind e l).
Proof.
  intros H Hlen. pose proof H as H'.
  destruct H as (Hsl & Hmin & Hmax & p & Hp & H1 & Ho & Ha).
  destruct (OneLinePageFacts.insert_one_line (cfg leaf_kind) p l e H1)
    as (p' & Hins & H1' & Hfc & Ha'); [rewrite leaf_max_15; lia..|].
  eexists. split.
  - unfold insert, bind at 1. rewrite (map_split_root_one_line k l H').
    unfold bind at 1, gets at 1. unfold bind at 1, gets at 1.
    rewrite Hsl. simpl. unfold bind at 1, ret at 1. unfold P_insert.
    apply (on_leaf _ _ k p tt p' Hp Hins).
  - apply (one_line_store k l); [done|done| |congruence].
    unfold Page.oversized in *. by rewrite Hfc.
Qed.

Lemma map_find_one_line k l key :
  one_line k l → l ≠ [] →
  ∃ p, heap k !! root_pointer k = Some (leaf_object p)
     ∧ find key k
       = Ok (tree_position.mk (root_pointer k)
               (page_position.mk (Page.root_index p)
                  (Z.of_nat (find_index key l))), k).
Proof.
  intros (Hsl & Hmin & Hmax & p & Hp & H1 & Ho & Ha) Hne.
  exists p. split; [done|].
  unfold find, find_implementation, bind at 1, gets at 1.
  unfold bind at 1, gets at 1. rewrite Hsl. simpl.
  unfold bind at 1, ret at 1. unfold bind at 1, P_find.
  rewrite (on_leaf_same _ _ k p _ Hp
             (OneLinePageFacts.find_one_line _ p l key H1 Hne)).
  reflexivity.
Qed.

Lemma map_elem_one_line k l p i e :
  one_line k l → heap k !! root_pointer k = Some (leaf_object p) →
  l !! i = Some e →
  elem (tree_position.mk (root_pointer k)
          (page_position.mk (Page.root_index p) (Z.of_nat i))) k
  = Ok (e, k).
Proof.
  intros (Hsl & Hmin & Hmax & p' & Hp' & H1 & Ho & Ha) Hp He.
  rewrite Hp in Hp'. injection Hp' as <-.
  unfold elem, P_elem. simpl.
  apply (on_leaf_same _ _ k p _ Hp).
  apply (OneLinePageFacts.elem_one_line _ p l i e H1 He).
Qed.

Lemma map_erase_one_line k l key :
  one_line k l → l ≠ [] →
  ∃ k', erase key k = Ok (tt, k')
      ∧ one_line k' (delete (find_index key l) l).
Proof.
  intros H Hne. pose proof H as H'.
  destruct H as (Hsl & Hmin & Hmax & p & Hp & H1 & Ho & Ha).
  destruct (OneLinePageFacts.erase_one_line (cfg leaf_kind) p l key H1 Hne)
    as (p' & Her & H1' & Hfc & Ha').
  eexists. split.
  - unfold erase, bind at 1, find_path, bind at 1, gets at 1.
    unfold bind at 1, gets at 1. rewrite Hsl. simpl.
    unfold bind at 1, ret at 1. unfold bind at 1, P_find.
    rewrite (on_leaf_same _ _ k p _ Hp
               (OneLinePageFacts.find_one_line _ p l key H1 Hne)).
    unfold ret at 1. unfold bind at 1, gets at 1. rewrite Hsl.
    unfold bind at 1, lift at 1, path_get. simpl.
    unfold bind at 1, P_large.
    rewrite (on_leaf_same _ _ k p _ Hp eq_refl).
    unfold bind at 1, P_erase.
    rewrite (on_leaf _ _ k p tt p' Hp Her). reflexivity.
  - apply (one_line_store k l); [done|done| |congruence].
    unfold Page.oversized in *. by rewrite Hfc.
Qed.

Lemma end_one_line k l p :
  one_line k l → heap k !! root_pointer k = Some (leaf_object p) → l ≠ [] →
  end_ k
  = Ok (tree_position.mk (root_pointer k)
          (page_position.mk (Page.root_index p) (Z.of_nat (length l))), k).
Proof.
  intros (Hsl & Hmin & Hmax & p' & Hp' & H1 & Ho & Ha) Hp Hne.
  rewrite Hp in Hp'. injection Hp' as <-.
  unfold end_, bind at 1, gets at 1. rewrite Hmax. unfold bind at 1.
  rewrite (on_leaf_same _ _ k p _ Hp
             (end_position_one_line _ p l H1 Hne)).
  reflexivity.
Qed.

Lemma increment_one_line k l p (i : nat) :
  one_line k l → heap k !! root_pointer k = Some (leaf_object p) →
  (i < 255)%nat →
  increment (tree_position.mk (root_pointer k)
               (page_position.mk (Page.root_index p) (Z.of_nat i))) k
  = Ok (tree_position.mk (root_pointer k)
          (page_position.mk (Page.root_index p) (Z.of_nat (S i))), k).
Proof.
  intros (Hsl & Hmin & Hmax & p' & Hp' & H1 & Ho & Ha) Hp Hi.
  rewrite Hp in Hp'. injection Hp' as <-.
  unfold increment. simpl. unfold bind at 1, get_next_pointer, bind at 1.
  unfold get_aux. rewrite (on_leaf_same _ _ k p _ Hp eq_refl).
  rewrite Ha. simpl.
  change (Page.mk_config stem_line_max_count leaf_line_max_count
            leaf_pool_count) with (cfg leaf_kind).
  unfold bind at 1, ret at 1. unfold bind at 1.
  rewrite (on_leaf_same _ _ k p _ Hp
             (next_position_one_line _ p l (Z.of_nat i) H1 ltac:(lia))).
  unfold ret. do 4 f_equal. lia.
Qed.

Lemma visit_one_line k l p :
  one_line k l → heap k !! root_pointer k = Some (leaf_object p) → l ≠ [] →
  ∀ fuel i, (i ≤ length l)%nat → (length l - i ≤ fuel)%nat →
  visit fuel (tree_position.mk (root_pointer k)
                (page_position.mk (Page.root_index p) (Z.of_nat i))) k
  = Ok (drop i l, k).
Proof.
  intros H Hp Hne. pose proof H as H'.
  destruct H as (Hsl & Hmin & Hmax & p' & Hp' & H1 & Ho & Ha).
  rewrite Hp in Hp'. injection Hp' as <-.
  destruct H1 as (_ & _ & _ & _ & n & _ & Hl & _).
  pose proof (LineFacts.live_inv _ n l Hl) as (_ & H8 & _ & _ & Hlen).
  assert (Hend : ∀ fuel i,
    visit fuel (tree_position.mk (root_pointer k)
                  (page_position.mk (Page.root_index p) (Z.of_nat i))) k
    = (if Z.of_nat i =? Z.of_nat (length l) then Ok ([], k)
       else match fuel with
            | O => Err Diverges
            | S fuel' =>
                (x <- elem (tree_position.mk (root_pointer k)
                              (page_position.mk (Page.root_index p)
                                 (Z.of_nat i))) ;;
                 it' <- increment (tree_position.mk (root_pointer k)
                              (page_position.mk (Page.root_index p)
                                 (Z.of_nat i))) ;;
                 xs <- visit fuel' it' ;;
                 ret (x :: xs))%monad k
            end)).
  { intros fuel i. destruct fuel; simpl; unfold bind at 1;
      rewrite (end_one_line k l p H' Hp Hne);
      unfold tree_position.neqb, page_position.neqb; simpl;
      rewrite !Z.eqb_refl; simpl;
      destruct (Z.of_nat i =? Z.of_nat (length l)); reflexivity. }
  induction fuel as [|fuel IH]; intros i Hi Hf; rewrite Hend.
  - replace (Z.of_nat i =? Z.of_nat (length l)) with true by lia.
    rewrite drop_ge by lia. done.
  - destruct (Z.eqb_spec (Z.of_nat i) (Z.of_nat (length l))) as [E|E].
    + rewrite drop_ge by lia. done.
    + destruct (lookup_lt_is_Some_2 l i ltac:(lia)) as [x Hx].
      unfold bind at 1. rewrite (map_elem_one_line k l p i x H' Hp Hx).
      unfold bind at 1.
      rewrite (increment_one_line k l p i H' Hp ltac:(lia)).
      unfold bind at 1. rewrite IH by lia.
      unfold ret. by rewrite (drop_S l x i Hx).
Qed.

Lemma iterate_one_line k l fuel :
  one_line k l → l ≠ [] → (length l ≤ fuel)%nat →
  iterate fuel k = Ok (l, k).
Proof.
  intros H Hne Hf. pose proof H as H'.
  destruct H as (Hsl & Hmin & Hmax & p & Hp & H1 & Ho & Ha).
  unfold iterate, bind at 1, begin_, bind at 1, gets at 1. rewrite Hmin.
  unfold bind at 1.
  rewrite (on_leaf_same _ _ k p _ Hp (min_position_one_line _ p l H1)).
  unfold ret at 1.
  exact (visit_one_line k l p H' Hp Hne fuel 0 ltac:(lia) ltac:(lia)).
Qed.

End OneLineFacts.

(** ** The pool allocator *)

Module AllocatorFacts.
Import Page LineFacts LineOpsFacts.
Section allocator.
Context {T A : Type} (c : config).
Implicit Types (p : PageNode T A).

Lemma deallocate_allocate p i :
  in_pool c i = true → (Z.to_nat i < length (pool_memory p))%nat →
  i ≠ back_index p → 0 ≤ free_count p < 255 →
  bind (deallocate c i) (fun _ => allocate c) p
  = Ok (i, set_pool_memory
             (<[Z.to_nat i := prev_head (head_index p)]> (pool_memory p)) p).
Proof.
  intros Hi Hlen Hb Hf. unfold bind at 1, deallocate, bind at 1, gets at 1.
  unfold bind at 1, set_entry. rewrite Hi. unfold modify, allocate. simpl.
  rewrite (u8_small (free_count p + 1)) by lia.
  replace (free_count p + 1 >? 0) with true by lia.
  replace (i =? back_index p) with false by lia.
  unfold entry. rewrite Hi. simpl.
  rewrite list_lookup_insert_eq by done.
  replace (free_count p + 1 - 1) with (free_count p) by lia.
  rewrite u8_small by lia. by destruct p.
Qed.

Lemma new_page (a : A) :
  1 ≤ pool c < 256 → 0 ≤ leaf_max c →
  ∃ p, PageNode_ c a = Ok p ∧ one_line c p [] ∧ free_count p = pool c - 1
     ∧ Page.aux p = a.
Proof.
  intros Hp Hl. unfold PageNode_, allocate. simpl.
  rewrite (u8_small (pool c)) by lia.
  replace (pool c >? 0) with true by lia. simpl.
  unfold put_leaf, set_entry, in_pool. simpl.
  replace (0 <? pool c) with true by lia. simpl.
  eexists. split; [reflexivity|]. simpl.
  split; [|split; [rewrite u8_small; lia|done]].
  unfold one_line, in_pool. simpl.
  replace (0 <? pool c) with true by lia.
  repeat split. exists (new_leaf_node c page_index_nil page_index_nil).
  split; [|split; [|reflexivity]].
  - apply list_lookup_insert_eq. rewrite length_replicate. lia.
  - apply empty_live. rewrite length_replicate. lia.
Qed.

(** [max_stem_levels_helper] stops at the first level that the nodes left
    fit in. *)
Lemma max_stem_levels_helper_capacity : ∀ fuel n b,
  1 ≤ stem_max c → 1 ≤ b → n ≤ Z.of_nat fuel →
  n ≤ tree_capacity c (Z.to_nat (max_stem_levels_helper c fuel n b)) b
  ∧ (0 < max_stem_levels_helper c fuel n b →
       tree_capacity c (Z.to_nat (max_stem_levels_helper c fuel n b - 1)) b
       < n).
Proof.
  induction fuel as [|fuel IH]; intros n b HB Hb Hn.
  - simpl. split; lia.
  - simpl max_stem_levels_helper. destruct (Z.gtb_spec n b) as [E|E].
    + assert (Hb' : 1 ≤ b * branchout c) by (unfold branchout; nia).
      destruct (IH (n - b) (b * branchout c) HB Hb' ltac:(lia)) as [H1 H2].
      pose proof (KernelFacts.max_stem_levels_helper_nonneg c fuel (n - b)
                    (b * branchout c)) as H0.
      set (L := max_stem_levels_helper c fuel (n - b) (b * branchout c)) in *.
      replace (Z.to_nat (1 + L)) with (S (Z.to_nat L)) by lia.
      replace (1 + L - 1) with L by lia. simpl tree_capacity.
      split; [lia|]. intros _.
      destruct (Z.to_nat L) as [|m] eqn:Em.
      * simpl. lia.
      * replace (Z.to_nat (L - 1)) with m in H2 by lia.
        simpl. specialize (H2 ltac:(lia)). lia.
    + simpl. split; lia.
Qed.

End allocator.
End AllocatorFacts.

(** ** Paths and subscripts *)

Module PathFacts.
Import Kernel FindFacts.

(** [find_path] goes down the way [find] does. *)
Lemma descend_path_descend key : ∀ n ptr k,
  descend n key ptr k
  = match descend_path n key ptr k with
    | Ok ((leaf_pointer, _), k') => Ok (leaf_pointer, k')
    | Err e => Err e
    end
  ∧ ∀ leaf_pointer stems k',
      descend_path n key ptr k = Ok ((leaf_pointer, stems), k') →
      length stems = n.
Proof.
  induction n as [|n IH]; intros ptr k.
  - split; [reflexivity|]. simpl. unfold ret. intros ??? [= <- <- <-]. done.
  - simpl. unfold bind.
    destruct (P_find stem_kind ptr key k) as [[pos k1]|]; [|by split].
    destruct (P_elem stem_kind ptr pos k1) as [[e k2]|]; [|by split].
    destruct (IH (snd e) k2) as [H1 H2]. rewrite H1.
    destruct (descend_path n key (snd e) k2) as [[[lp st] k3]|]; [|by split].
    split; [done|]. unfold ret. intros ??? [= <- <- <-]. simpl. f_equal.
    by apply (H2 lp st k3).
Qed.

(** X20.  [find] gives the last position of the path that [find_path] gives
    for the same key, and errs where [find_path] errs; the path has one
    position for each stem level and one for the leaf level. *)
Theorem find_is_end_of_find_path key k :
  find key k
  = bind (find_path key)
      (fun path => lift (path_get path (Z.of_nat (length path) - 1))) k
  ∧ ∀ path k', find_path key k = Ok (path, k') →
      length path = S (Z.to_nat (stem_levels k)).
Proof.
  unfold find, find_implementation, find_path, bind, gets.
  destruct (descend_path_descend key (Z.to_nat (stem_levels k))
              (root_pointer k) k) as [H1 H2].
  rewrite H1.
  destruct (descend_path (Z.to_nat (stem_levels k)) key (root_pointer k) k)
    as [[[lp st] k1]|]; [|by split].
  specialize (H2 lp st k1 eq_refl).
  destruct (P_find leaf_kind lp key k1) as [[pos k2]|]; [|by split].
  unfold ret, lift, path_get. rewrite length_app, length_cons. simpl length.
  rewrite (proj2 (Z.leb_le 0 _)) by lia.
  rewrite (proj2 (Z.ltb_lt _ _)) by lia.
  simpl andb. cbv iota.
  replace (Z.to_nat (Z.of_nat (length st + 1) - 1)) with (length st) by lia.
  rewrite (list_lookup_middle st []) by done.
  split; [done|]. intros ?? [= <- <-]. rewrite length_app. simpl. lia.
Qed.

End PathFacts.

Module SubscriptFacts.
Import Kernel FindFacts.

(** X21.  [operator[]] on a map that holds at least one element, where no
    page and no line is empty, every stem entry carries the first key of its
    child ([contents k = Some l]) and the elements are sorted: the map is
    left as it is, also when the key is absent, and the value is that of the
    element with the greatest key that is not greater, or of the first
    element if all keys are greater. *)
Theorem subscript_reads_greatest_key_not_above k l key :
  contents k = Some l → sorted l →
  ∃ e, at_ key k = Ok (snd e, k) ∧ l !! find_index key l = Some e
     ∧ ((∃ x, x ∈ l ∧ fst x ≤ key) →
          fst e ≤ key ∧ ∀ x, x ∈ l → fst x ≤ key → fst x ≤ fst e)
     ∧ ((∀ x, x ∈ l → key < fst x) → l !! 0%nat = Some e).
Proof.
  intros Hc Hs.
  destruct (tree_find_contents key k l Hc Hs)
    as (pos & e & p & ln & H1 & H2 & H3 & H4 & H5 & H6 & H7).
  exists e. split; [|split; [done|split]].
  - unfold at_, bind. unfold find in H1. by rewrite H1, H6.
  - by apply find_index_greatest.
  - intros Hall. by rewrite <- (find_index_all_above key l Hall).
Qed.

Lemma subscript_reads_greatest_key_not_above_witness :
  ∃ e, at_ 4 (state_of five_keys) = Ok (snd e, state_of five_keys)
     ∧ [(1, 10); (3, 30); (5, 50); (7, 70); (9, 90)]
         !! find_index 4 [(1, 10); (3, 30); (5, 50); (7, 70); (9, 90)]
       = Some e
     ∧ ((∃ x, x ∈ [(1, 10); (3, 30); (5, 50); (7, 70); (9, 90)] ∧ fst x ≤ 4) →
          fst e ≤ 4
          ∧ ∀ x, x ∈ [(1, 10); (3, 30); (5, 50); (7, 70); (9, 90)] →
                 fst x ≤ 4 → fst x ≤ fst e)
     ∧ ((∀ x, x ∈ [(1, 10); (3, 30); (5, 50); (7, 70); (9, 90)] → 4 < fst x) →
          [(1, 10); (3, 30); (5, 50); (7, 70); (9, 90)] !! 0%nat = Some e).
Proof.
  apply subscript_reads_greatest_key_not_above.
  - vm_compute. reflexivity.
  - unfold sorted. apply (bool_decide_unpack _). vm_compute. exact I.
Defined.

(** X22.  On the newly constructed map [find], [operator[]] and [erase] read
    element 0 of the root line, which was never written, whatever the key is;
    so does the loop from [begin()] to [end()]. *)
Theorem empty_map_reads_unwritten_element key :
  eval (find key) kernel_ = Err (Indeterminate "elems_")
  ∧ eval (at_ key) kernel_ = Err (Indeterminate "elems_")
  ∧ exec (erase key) kernel_ = Err (Indeterminate "elems_")
  ∧ eval (iterate loops) kernel_ = Err (Indeterminate "elems_").
Proof. repeat split; vm_compute; reflexivity. Qed.

End SubscriptFacts.

(** ** Properties of the line nodes *)

Module LineNodeProperties.
Import LineFacts LineOpsFacts PutFacts.
Section line.
Context {T A : Type} (mc : Z).
Implicit Types (n : Line.line_node T A) (l : list (Z * T)) (e : Z * T).

(** X1.  [line_node::insert] on a node that is not full puts the new element
    behind the elements whose keys are not greater: the node holds one element
    more, the old ones and the new one, and stays sorted. *)
Theorem insert_keeps_line_sorted n l e :
  Line.live mc n = Some l → sorted l → Line.count_ n < mc → mc < 256 →
  ∃ n', Line.insert mc n e = Ok n'
      ∧ Line.live mc n' = Some (put_behind e l)
      ∧ sorted (put_behind e l) ∧ put_behind e l ≡ₚ e :: l
      ∧ Line.count_ n' = Line.count_ n + 1 ∧ Line.aux n' = Line.aux n.
Proof.
  intros Hl Hs Hc Hmc.
  destruct (insert_live mc n l e Hl Hc Hmc) as (n' & Hi & Hl' & Ha).
  exists n'. split; [done|]. split; [done|].
  split; [by apply put_behind_sorted|]. split; [apply put_behind_perm|].
  split; [|done].
  apply live_inv in Hl as (_ & _ & _ & _ & Hn).
  apply live_inv in Hl' as (_ & _ & _ & _ & Hn').
  rewrite put_behind_length in Hn'. lia.
Qed.

(** X2.  [find] for the key of an element that [insert] has just put into the
    node arrives at that element, also when the key was there before. *)
Theorem insert_then_find n l e :
  Line.live mc n = Some l → Line.count_ n < mc → mc < 256 →
  ∃ n' i, Line.insert mc n e = Ok n'
        ∧ Line.find mc n' (fst e) = Ok i
        ∧ Line.elem mc n' i = Ok e.
Proof.
  intros Hl Hc Hmc.
  destruct (insert_live mc n l e Hl Hc Hmc) as (n' & Hi & Hl' & Ha).
  exists n', (Z.of_nat (run_length (fst e) l)). split; [done|].
  assert (Hne : put_behind e l ≠ []).
  { intros E. apply (f_equal length) in E.
    by rewrite put_behind_length in E. }
  split.
  - rewrite (find_live mc n' _ (fst e) Hl' Hne).
    by rewrite find_index_put_behind.
  - apply (live_elem mc n' (put_behind e l)); [done|].
    apply put_behind_lookup.
Qed.

(** X3.  [insert] assumes that the node is not full: on a full node the
    elements behind the new one are moved past the end of the array. *)
Theorem insert_into_full_line_faults n l e :
  Line.live mc n = Some l → Line.count_ n = mc →
  Line.insert mc n e = Err (OutOfBounds "std::move").
Proof.
  intros Hl Hfull.
  pose proof (live_inv mc n l Hl) as (Hc & H8 & Hlen & _ & Hn).
  pose proof (run_length_le (fst e) l) as Hr.
  unfold Line.insert, Line.min_index, Line.end_index.
  replace (Z.to_nat (Line.count_ n - 0)) with (length l) by lia.
  pose proof (insert_loop_live mc n l (fst e) Hl (length l) 0 eq_refl)
    as Hloop.
  rewrite drop_0 in Hloop. change (Z.of_nat 0) with 0 in Hloop.
  rewrite Hloop. simpl. unfold Line.move_one_back, Line.move.
  rewrite (proj2 (Z.leb_gt (_ + (_ - _)) mc)) by lia.
  by rewrite !andb_false_r.
Qed.

(** X4.  [split] leaves the first half of the elements, with the odd one, in
    the node and moves the second half to the other node. *)
Theorem split_halves n l (n2 : Line.line_node T A) :
  Line.live mc n = Some l → Z.of_nat (length (Line.elems_ n2)) = mc →
  ∃ n1' n2' l1 l2, Line.split mc n n2 = Ok (n1', n2')
      ∧ Line.live mc n1' = Some l1 ∧ Line.live mc n2' = Some l2
      ∧ l = l1 ++ l2
      ∧ length l1 = ((length l + 1) / 2)%nat
      ∧ length l2 = (length l / 2)%nat
      ∧ Line.aux n1' = Line.aux n ∧ Line.aux n2' = Line.aux n2.
Proof.
  intros Hl Hlen.
  destruct (split_live mc n l n2 Hl Hlen)
    as (n1' & n2' & Hs & H1 & H2 & Ha1 & Ha2).
  exists n1', n2', (take ((length l + 1) / 2) l),
    (drop ((length l + 1) / 2) l).
  split; [done|]. split; [done|]. split; [done|].
  split; [by rewrite take_drop|].
  assert (Hh : ((length l + 1) / 2 ≤ length l)%nat).
  { destruct (length l) as [|m]; [done|].
    apply Nat.Div0.div_le_upper_bound. lia. }
  split; [rewrite length_take; lia|]. split; [|done].
  rewrite length_drop.
  pose proof (Nat.div_mod_eq (length l + 1) 2).
  pose proof (Nat.div_mod_eq (length l) 2).
  pose proof (Nat.mod_upper_bound (length l + 1) 2 ltac:(lia)).
  pose proof (Nat.mod_upper_bound (length l) 2 ltac:(lia)).
  lia.
Qed.

(** X5.  [erase] at the index of an element removes that element and no other. *)
Theorem erase_removes_element n l (i : nat) :
  Line.live mc n = Some l → (i < length l)%nat →
  ∃ n', Line.erase mc n (Z.of_nat i) = Ok n'
      ∧ Line.live mc n' = Some (delete i l)
      ∧ Line.count_ n' = Line.count_ n - 1 ∧ Line.aux n' = Line.aux n.
Proof.
  intros Hl Hi.
  destruct (erase_live mc n l i Hl Hi) as (n' & He & Hl' & Ha).
  exists n'. split; [done|]. split; [done|]. split; [|done].
  apply live_inv in Hl as (_ & _ & _ & _ & Hn).
  apply live_inv in Hl' as (_ & _ & _ & _ & Hn').
  rewrite length_delete in Hn' by (by apply lookup_lt_is_Some_2). lia.
Qed.

(** X6.  [merge_prev_erase] empties the node: its elements but the erased one
    go behind the elements of the previous node, in their order. *)
Theorem merge_prev_erase_appends n l prev lp (i : nat) :
  Line.live mc n = Some l → Line.live mc prev = Some lp →
  (i < length l)%nat → Z.of_nat (length lp + length l) - 1 ≤ mc → mc < 256 →
  ∃ n' prev', Line.merge_prev_erase mc n (Z.of_nat i) prev = Ok (n', prev')
      ∧ Line.live mc n' = Some []
      ∧ Line.live mc prev' = Some (lp ++ delete i l).
Proof.
  intros Hl Hp Hi Hfit Hmc.
  destruct (merge_prev_erase_live mc n l prev lp i Hl Hp Hi Hfit Hmc)
    as (n' & prev' & H & H1 & H2 & _). by exists n', prev'.
Qed.

(** X7.  [merge_next_erase] empties the next node: its elements go behind the
    elements of the node, which loses the erased one. *)
Theorem merge_next_erase_appends n l next ln (i : nat) :
  Line.live mc n = Some l → Line.live mc next = Some ln →
  (i < length l)%nat → Z.of_nat (length l + length ln) - 1 ≤ mc → mc < 256 →
  ∃ n' next', Line.merge_next_erase mc n (Z.of_nat i) next = Ok (n', next')
      ∧ Line.live mc n' = Some (delete i l ++ ln)
      ∧ Line.live mc next' = Some [].
Proof.
  intros Hl Hp Hi Hfit Hmc.
  destruct (merge_next_erase_live mc n l next ln i Hl Hp Hi Hfit Hmc)
    as (n' & next' & H & H1 & H2 & _). by exists n', next'.
Qed.

(** X8.  [borrow_prev_erase] replaces the erased element by the last element
    of the previous node, which comes to the front. *)
Theorem borrow_prev_erase_takes_last n l prev lp x (i : nat) :
  Line.live mc n = Some l → Line.live mc prev = Some (lp ++ [x]) →
  (i < length l)%nat →
  ∃ n' prev', Line.borrow_prev_erase mc n (Z.of_nat i) prev = Ok (n', prev')
      ∧ Line.live mc n' = Some (x :: delete i l)
      ∧ Line.live mc prev' = Some lp.
Proof.
  intros Hl Hp Hi.
  destruct (borrow_prev_erase_live mc n l prev lp x i Hl Hp Hi)
    as (n' & prev' & H & H1 & H2 & _). by exists n', prev'.
Qed.

(** X9.  [borrow_next_erase] replaces the erased element by the first element
    of the next node, which comes to the back. *)
Theorem borrow_next_erase_takes_first n l next y ln (i : nat) :
  Line.live mc n = Some l → Line.live mc next = Some (y :: ln) →
  (i < length l)%nat →
  ∃ n' next', Line.borrow_next_erase mc n (Z.of_nat i) next = Ok (n', next')
      ∧ Line.live mc n' = Some (delete i l ++ [y])
      ∧ Line.live mc next' = Some ln.
Proof.
  intros Hl Hp Hi.
  destruct (borrow_next_erase_live mc n l next y ln i Hl Hp Hi)
    as (n' & next' & H & H1 & H2 & _). by exists n', next'.
Qed.

End line.

Lemma sorted_135 : sorted [(1, 10); (3, 30); (5, 50)].
Proof. unfold sorted. apply (bool_decide_unpack _). vm_compute. exact I. Qed.

Lemma insert_keeps_line_sorted_witness :
  ∃ n', Line.insert 4 Line.three_of_four (4, 40) = Ok n'
      ∧ Line.live 4 n' = Some (put_behind (4, 40) [(1, 10); (3, 30); (5, 50)])
      ∧ sorted (put_behind (4, 40) [(1, 10); (3, 30); (5, 50)])
      ∧ put_behind (4, 40) [(1, 10); (3, 30); (5, 50)]
        ≡ₚ (4, 40) :: [(1, 10); (3, 30); (5, 50)]
      ∧ Line.count_ n' = Line.count_ Line.three_of_four + 1
      ∧ Line.aux n' = Line.aux Line.three_of_four.
Proof.
  apply (insert_keeps_line_sorted 4 Line.three_of_four
           [(1, 10); (3, 30); (5, 50)] (4, 40));
    [reflexivity|exact sorted_135|simpl; lia|lia].
Defined.

Lemma insert_then_find_witness :
  ∃ n' i, Line.insert 4 Line.three_of_four (3, 33) = Ok n'
        ∧ Line.find 4 n' (fst (3, 33)) = Ok i
        ∧ Line.elem 4 n' i = Ok (3, 33).
Proof.
  apply (insert_then_find 4 Line.three_of_four [(1, 10); (3, 30); (5, 50)]
           (3, 33)); [reflexivity|simpl; lia|lia].
Defined.

Lemma insert_into_full_line_faults_witness :
  Line.insert 2 Line.two_of_two (2, 20) = Err (OutOfBounds "std::move").
Proof.
  apply (insert_into_full_line_faults 2 Line.two_of_two [(1, 10); (3, 30)]);
    reflexivity.
Defined.

Lemma split_halves_witness :
  ∃ n1' n2' l1 l2,
    Line.split 4 Line.three_of_four Line.two_of_four = Ok (n1', n2')
    ∧ Line.live 4 n1' = Some l1 ∧ Line.live 4 n2' = Some l2
    ∧ [(1, 10); (3, 30); (5, 50)] = l1 ++ l2
    ∧ length l1 = ((length [(1, 10); (3, 30); (5, 50)] + 1) / 2)%nat
    ∧ length l2 = (length [(1, 10); (3, 30); (5, 50)] / 2)%nat
    ∧ Line.aux n1' = Line.aux Line.three_of_four
    ∧ Line.aux n2' = Line.aux Line.two_of_four.
Proof.
  apply (split_halves 4 Line.three_of_four [(1, 10); (3, 30); (5, 50)]
           Line.two_of_four); reflexivity.
Defined.

Lemma erase_removes_element_witness :
  ∃ n', Line.erase 4 Line.three_of_four (Z.of_nat 1) = Ok n'
      ∧ Line.live 4 n' = Some (delete 1%nat [(1, 10); (3, 30); (5, 50)])
      ∧ Line.count_ n' = Line.count_ Line.three_of_four - 1
      ∧ Line.aux n' = Line.aux Line.three_of_four.
Proof.
  apply (erase_removes_element 4 Line.three_of_four
           [(1, 10); (3, 30); (5, 50)] 1); [reflexivity|simpl; lia].
Defined.

Lemma merge_prev_erase_appends_witness :
  ∃ n' prev',
    Line.merge_prev_erase 4 Line.two_of_four (Z.of_nat 0) Line.three_of_four
    = Ok (n', prev')
    ∧ Line.live 4 n' = Some []
    ∧ Line.live 4 prev'
      = Some ([(1, 10); (3, 30); (5, 50)] ++ delete 0%nat [(7, 70); (9, 90)]).
Proof.
  apply (merge_prev_erase_appends 4 Line.two_of_four [(7, 70); (9, 90)]
           Line.three_of_four [(1, 10); (3, 30); (5, 50)] 0);
    [reflexivity|reflexivity|simpl; lia|simpl; lia|lia].
Defined.

Lemma merge_next_erase_appends_witness :
  ∃ n' next',
    Line.merge_next_erase 4 Line.three_of_four (Z.of_nat 0) Line.two_of_four
    = Ok (n', next')
    ∧ Line.live 4 n'
      = Some (delete 0%nat [(1, 10); (3, 30); (5, 50)] ++ [(7, 70); (9, 90)])
    ∧ Line.live 4 next' = Some [].
Proof.
  apply (merge_next_erase_appends 4 Line.three_of_four
           [(1, 10); (3, 30); (5, 50)] Line.two_of_four [(7, 70); (9, 90)] 0);
    [reflexivity|reflexivity|simpl; lia|simpl; lia|lia].
Defined.

Lemma borrow_prev_erase_takes_last_witness :
  ∃ n' prev',
    Line.borrow_prev_erase 4 Line.two_of_four (Z.of_nat 1) Line.three_of_four
    = Ok (n', prev')
    ∧ Line.live 4 n' = Some ((5, 50) :: delete 1%nat [(7, 70); (9, 90)])
    ∧ Line.live 4 prev' = Some [(1, 10); (3, 30)].
Proof.
  apply (borrow_prev_erase_takes_last 4 Line.two_of_four [(7, 70); (9, 90)]
           Line.three_of_four [(1, 10); (3, 30)] (5, 50) 1);
    [reflexivity|reflexivity|simpl; lia].
Defined.

Lemma borrow_next_erase_takes_first_witness :
  ∃ n' next',
    Line.borrow_next_erase 4 Line.three_of_four (Z.of_nat 2) Line.two_of_four
    = Ok (n', next')
    ∧ Line.live 4 n'
      = Some (delete 2%nat [(1, 10); (3, 30); (5, 50)] ++ [(7, 70)])
    ∧ Line.live 4 next' = Some [(9, 90)].
Proof.
  apply (borrow_next_erase_takes_first 4 Line.three_of_four
           [(1, 10); (3, 30); (5, 50)] Line.two_of_four (7, 70) [(9, 90)] 2);
    [reflexivity|reflexivity|simpl; lia].
Defined.

End LineNodeProperties.

(** ** Properties of the page nodes and of the map *)

Module PageNodeProperties.
Import Page LineFacts LineOpsFacts PutFacts OneLinePageFacts AllocatorFacts.
Section page.
Context {T A : Type} (c : config).
Implicit Types (p : PageNode T A) (l : list (Z * T)) (e : Z * T).

(** X10.  The pool is a stack: [allocate] after [deallocate] hands out the
    entry that was given back, and [head_index], [back_index] and [free_count]
    are what they were before; the entry itself holds the link to the previous
    head. *)
Theorem deallocate_then_allocate_gives_back p i :
  in_pool c i = true → (Z.to_nat i < length (pool_memory p))%nat →
  i ≠ back_index p → 0 ≤ free_count p < 255 →
  bind (deallocate c i) (fun _ => allocate c) p
  = Ok (i, set_pool_memory
             (<[Z.to_nat i := prev_head (head_index p)]> (pool_memory p)) p).
Proof. apply deallocate_allocate. Qed.

(** X11.  [max_stem_levels] is the least number of stem levels of a tree with
    [branchout] children per node that has [pool_count] nodes or more. *)
Theorem max_stem_levels_fits_pool :
  1 ≤ stem_max c →
  pool c ≤ tree_capacity c (Z.to_nat (max_stem_levels c)) 1
  ∧ (0 < max_stem_levels c →
       tree_capacity c (Z.to_nat (max_stem_levels c - 1)) 1 < pool c).
Proof.
  intros HB. unfold max_stem_levels.
  destruct (Z_le_gt_dec 0 (pool c)) as [Hp|Hp].
  - apply max_stem_levels_helper_capacity; lia.
  - replace (Z.to_nat (pool c)) with 0%nat by lia. simpl. lia.
Qed.

(** X12.  The constructor makes a page of one empty leaf line that uses one
    entry of the pool. *)
Theorem new_page_is_empty_line (a : A) :
  1 ≤ pool c < 256 → 0 ≤ leaf_max c →
  ∃ p, PageNode_ c a = Ok p ∧ one_line c p []
     ∧ empty c p = Ok (true, p) ∧ free_count p = pool c - 1
     ∧ Page.aux p = a.
Proof.
  intros Hp Hl. destruct (new_page (T:=T) c a Hp Hl) as (p & H1 & H2 & H3 & H4).
  exists p. split; [done|]. split; [done|]. split; [|done].
  apply (empty_one_line c p [] H2).
Qed.

(** X13.  [PageNode::insert] into a page that is a single leaf line with room:
    the page stays one line, which holds the new element behind the elements
    whose keys are not greater, and no pool entry is taken. *)
Theorem insert_into_one_line p l e :
  one_line c p l → Z.of_nat (length l) < leaf_max c → leaf_max c < 256 →
  ∃ p', insert c e p = Ok (tt, p') ∧ one_line c p' (put_behind e l)
      ∧ contents c p' = Some (put_behind e l)
      ∧ free_count p' = free_count p.
Proof.
  intros H1 Hlen H8.
  destruct (insert_one_line c p l e H1 Hlen H8) as (p' & Hi & H1' & Hf & _).
  exists p'. split; [done|]. split; [done|]. split; [|done].
  apply contents_one_line; [done|].
  intros E. apply (f_equal length) in E. by rewrite put_behind_length in E.
Qed.

(** X14.  [PageNode::erase] from a page that is a single leaf line: the
    element that [find] arrives at is removed, whether its key is the one
    given or not. *)
Theorem erase_from_one_line p l key :
  one_line c p l → l ≠ [] →
  ∃ p' pos e, find c key p = Ok (pos, p) ∧ elem c pos p = Ok (e, p)
      ∧ l !! find_index key l = Some e
      ∧ erase c key p = Ok (tt, p')
      ∧ one_line c p' (delete (find_index key l) l)
      ∧ free_count p' = free_count p.
Proof.
  intros H1 Hne.
  destruct (erase_one_line c p l key H1 Hne) as (p' & He & H1' & Hf & _).
  destruct (find_index_lookup key l Hne) as [e Hl].
  exists p', (page_position.mk (root_index p) (Z.of_nat (find_index key l))), e.
  split; [by apply find_one_line|].
  split; [by apply (elem_one_line c p l)|]. done.
Qed.

End page.

Lemma five_keys_page :
  one_line (Kernel.cfg Kernel.leaf_kind)
    (Kernel.leaf_page_at 1 (Kernel.state_of Kernel.five_keys))
    [(1, 10); (3, 30); (5, 50); (7, 70); (9, 90)].
Proof.
  repeat split.
  let n := eval vm_compute in
    (pool_memory (Kernel.leaf_page_at 1 (Kernel.state_of Kernel.five_keys))
       !! Z.to_nat 0) in
  match n with Some (leaf ?x) => exists x end.
  split; [vm_compute; reflexivity|]. split; vm_compute; reflexivity.
Qed.

Lemma deallocate_then_allocate_gives_back_witness :
  bind (deallocate (Kernel.cfg Kernel.leaf_kind) 0)
       (fun _ => allocate (Kernel.cfg Kernel.leaf_kind))
       (Kernel.leaf_page_at 1 (Kernel.state_of Kernel.five_keys))
  = Ok (0, set_pool_memory
             (<[Z.to_nat 0 :=
                  prev_head (head_index
                    (Kernel.leaf_page_at 1 (Kernel.state_of Kernel.five_keys)))]>
                (pool_memory
                   (Kernel.leaf_page_at 1 (Kernel.state_of Kernel.five_keys))))
             (Kernel.leaf_page_at 1 (Kernel.state_of Kernel.five_keys))).
Proof.
  apply deallocate_then_allocate_gives_back.
  - reflexivity.
  - vm_compute. lia.
  - vm_compute. discriminate.
  - split; [apply Z.leb_le|apply Z.ltb_lt]; reflexivity.
Defined.

Lemma max_stem_levels_fits_pool_witness :
  pool (Kernel.cfg Kernel.leaf_kind)
  ≤ tree_capacity (Kernel.cfg Kernel.leaf_kind)
      (Z.to_nat (max_stem_levels (Kernel.cfg Kernel.leaf_kind))) 1
  ∧ (0 < max_stem_levels (Kernel.cfg Kernel.leaf_kind) →
       tree_capacity (Kernel.cfg Kernel.leaf_kind)
         (Z.to_nat (max_stem_levels (Kernel.cfg Kernel.leaf_kind) - 1)) 1
       < pool (Kernel.cfg Kernel.leaf_kind)).
Proof.
  apply max_stem_levels_fits_pool. apply Z.leb_le. reflexivity.
Defined.

Lemma new_page_is_empty_line_witness :
  ∃ p, PageNode_ (Kernel.cfg Kernel.leaf_kind)
         (Kernel.new_aux Kernel.leaf_kind) = Ok p
     ∧ one_line (T:=Z) (Kernel.cfg Kernel.leaf_kind) p []
     ∧ empty (Kernel.cfg Kernel.leaf_kind) p = Ok (true, p)
     ∧ free_count p = pool (Kernel.cfg Kernel.leaf_kind) - 1
     ∧ Page.aux p = Kernel.new_aux Kernel.leaf_kind.
Proof.
  apply new_page_is_empty_line.
  - split; [apply Z.leb_le|apply Z.ltb_lt]; reflexivity.
  - apply Z.leb_le. reflexivity.
Defined.

Lemma insert_into_one_line_witness :
  ∃ p', insert (Kernel.cfg Kernel.leaf_kind) (4, 40)
          (Kernel.leaf_page_at 1 (Kernel.state_of Kernel.five_keys))
        = Ok (tt, p')
      ∧ one_line (Kernel.cfg Kernel.leaf_kind) p'
          (put_behind (4, 40) [(1, 10); (3, 30); (5, 50); (7, 70); (9, 90)])
      ∧ contents (Kernel.cfg Kernel.leaf_kind) p'
        = Some (put_behind (4, 40)
                  [(1, 10); (3, 30); (5, 50); (7, 70); (9, 90)])
      ∧ free_count p'
        = free_count
            (Kernel.leaf_page_at 1 (Kernel.state_of Kernel.five_keys)).
Proof.
  apply insert_into_one_line.
  - exact five_keys_page.
  - apply Z.ltb_lt. reflexivity.
  - apply Z.ltb_lt. reflexivity.
Defined.

Lemma erase_from_one_line_witness :
  ∃ p' pos e,
    find (Kernel.cfg Kernel.leaf_kind) 4
      (Kernel.leaf_page_at 1 (Kernel.state_of Kernel.five_keys))
    = Ok (pos, Kernel.leaf_page_at 1 (Kernel.state_of Kernel.five_keys))
    ∧ elem (Kernel.cfg Kernel.leaf_kind) pos
        (Kernel.leaf_page_at 1 (Kernel.state_of Kernel.five_keys))
      = Ok (e, Kernel.leaf_page_at 1 (Kernel.state_of Kernel.five_keys))
    ∧ [(1, 10); (3, 30); (5, 50); (7, 70); (9, 90)]
        !! find_index 4 [(1, 10); (3, 30); (5, 50); (7, 70); (9, 90)]
      = Some e
    ∧ erase (Kernel.cfg Kernel.leaf_kind) 4
        (Kernel.leaf_page_at 1 (Kernel.state_of Kernel.five_keys))
      = Ok (tt, p')
    ∧ one_line (Kernel.cfg Kernel.leaf_kind) p'
        (delete (find_index 4 [(1, 10); (3, 30); (5, 50); (7, 70); (9, 90)])
           [(1, 10); (3, 30); (5, 50); (7, 70); (9, 90)])
    ∧ free_count p'
      = free_count (Kernel.leaf_page_at 1 (Kernel.state_of Kernel.five_keys)).
Proof.
  apply erase_from_one_line; [exact five_keys_page|discriminate].
Defined.

End PageNodeProperties.

(** * More properties of the map *)

Module MapProperties.
Import Kernel FindFacts PutFacts OneLineFacts KernelFacts.
Implicit Types (k : kernel) (l : list (Z * Z)) (e : Z * Z).

Lemma sorted_delete {X} (l : list (Z * X)) i : sorted l → sorted (delete i l).
Proof.
  revert i. induction l as [|x l IH]; intros i Hs; [done|].
  apply sorted_cons in Hs as [Hx Hs]. destruct i as [|i]; [done|].
  simpl. apply sorted_cons. split; [|by apply IH].
  intros y Hy. apply Hx. by eapply list_elem_of_delete_inv.
Qed.

Lemma apply_one_line o k l :
  one_line k l → fits o l = true →
  ∃ k', apply o k = Ok (tt, k') ∧ one_line k' (apply_to_list o l).
Proof.
  intros H Hf. destruct o as [e|key]; simpl in *.
  - apply map_insert_one_line; [done|].
    change leaf_line_max_count with 15 in Hf. lia.
  - apply map_erase_one_line; [done|]. intros ->. done.
Qed.

Lemma apply_to_list_sorted o l : sorted l → sorted (apply_to_list o l).
Proof.
  destruct o; simpl; [apply put_behind_sorted|apply sorted_delete].
Qed.

Lemma run_one_line ops : ∀ k l l',
  one_line k l → sorted l → reachable k → run_list ops l = Some l' →
  ∃ k', run ops (Ok k) = Ok k' ∧ one_line k' l' ∧ sorted l' ∧ reachable k'.
Proof.
  induction ops as [|o ops IH]; intros k l l' H Hs Hr Hrun; simpl in Hrun.
  - injection Hrun as <-. by exists k.
  - destruct (fits o l) eqn:Hf; [|done].
    destruct (apply_one_line o k l H Hf) as (k1 & Ha & H1).
    destruct (IH k1 _ l' H1 (apply_to_list_sorted o l Hs)
                (reachable_apply k o k1 Hr Ha) Hrun) as (k' & Hk' & Hrest).
    exists k'. split; [|done]. rewrite run_step. simpl. by rewrite Ha.
Qed.

Lemma run_list_one_line ops l :
  run_list ops [] = Some l →
  ∃ k, run ops kernel_ = Ok k ∧ reachable k ∧ one_line k l ∧ sorted l
     ∧ (l ≠ [] → contents k = Some l ∧ iterate loops k = Ok (l, k)).
Proof.
  intros Hrun. destruct kernel_one_line as (k0 & Hk0 & H0).
  destruct (run_one_line ops k0 [] l H0 ltac:(constructor)
              (reachable_new k0 Hk0) Hrun) as (k & Hk & H1 & Hs & Hr).
  exists k. rewrite Hk0. split; [done|]. split; [done|]. split; [done|].
  split; [done|]. intros Hne. split.
  - destruct H1 as (Hsl & _ & _ & p & Hp & Hp1 & _).
    unfold contents. rewrite Hsl. change (0 <=? 0) with true.
    change (Z.to_nat 0) with 0%nat. cbv iota.
    rewrite tree_subtree_0, Hp.
    rewrite (OneLinePageFacts.contents_one_line _ p l Hp1 Hne).
    by destruct l.
  - apply iterate_one_line; [done|done|].
    destruct H1 as (_ & _ & _ & p & _ & (_ & _ & _ & _ & n & _ & Hl & _) & _).
    apply LineFacts.live_inv in Hl as (_ & H8 & _ & _ & Hn).
    unfold loops. lia.
Qed.

(** X15.  While the elements fit into one leaf line, the map does to them what
    [put_behind] and [delete] do to a list: every operation of the run
    returns and the map is a single line with the elements of the list, in
    ascending order of the keys.  When the list is not empty at the end of
    the run, the loop from [begin()] to [end()] visits its elements in this
    order; of the loop over a map without elements nothing is said. *)
Theorem one_line_map_follows_list ops l :
  run_list ops [] = Some l →
  ∃ k, run ops kernel_ = Ok k ∧ reachable k ∧ one_line k l ∧ sorted l
     ∧ (l ≠ [] → contents k = Some l ∧ iterate loops k = Ok (l, k)).
Proof. apply run_list_one_line. Qed.

Lemma run_list_inserts (es : list (Z * Z)) : ∀ l,
  (length l + length es ≤ 15)%nat →
  ∃ l', run_list (Insert <$> es) l = Some l' ∧ l' ≡ₚ l ++ es.
Proof.
  induction es as [|e es IH]; intros l Hlen.
  - exists l. by rewrite app_nil_r.
  - rewrite fmap_cons. simpl run_list. unfold fits.
    change leaf_line_max_count with 15. simpl length in Hlen.
    rewrite (proj2 (Z.ltb_lt _ _)) by lia.
    destruct (IH (put_behind e l)) as (l' & Hl' & Hp).
    { rewrite put_behind_length. lia. }
    exists l'. split; [done|].
    rewrite Hp, put_behind_perm. by rewrite <- Permutation_middle.
Qed.

(** X16.  From 1 to 15 elements, inserted into the new map in any order and
    with any keys, equal ones too: every [insert] returns, and the loop from
    [begin()] to [end()] visits the elements that were inserted, in
    ascending order of the keys. *)
Theorem iteration_of_one_line_is_sorted (es : list (Z * Z)) :
  es ≠ [] → (length es ≤ 15)%nat →
  ∃ l, eval (iterate loops) (run (Insert <$> es) kernel_) = Ok l
     ∧ sorted l ∧ l ≡ₚ es.
Proof.
  intros Hne Hlen.
  destruct (run_list_inserts es []) as (l & Hrun & Hp); [simpl; lia|].
  destruct (run_list_one_line _ l Hrun)
    as (k & Hk & _ & _ & Hs & Hit).
  exists l. simpl in Hp. split; [|done].
  rewrite Hk. simpl. destruct Hit as [_ ->]; [|done].
  intros ->. apply Permutation_nil_l in Hp. done.
Qed.

(** X17.  In a map that is one leaf line with room, after [insert] of an
    element [find] for its key arrives at this element, and [operator[]] gives
    its value, also when the key was in the map before. *)
Theorem insert_then_find_in_one_line k l e :
  one_line k l → (length l < 15)%nat →
  ∃ k' pos, insert e k = Ok (tt, k') ∧ find (fst e) k' = Ok (pos, k')
          ∧ elem pos k' = Ok (e, k') ∧ at_ (fst e) k' = Ok (snd e, k').
Proof.
  intros H Hlen. destruct (map_insert_one_line k l e H Hlen) as (k' & Hi & H').
  assert (Hne : put_behind e l ≠ []).
  { intros E. apply (f_equal length) in E.
    by rewrite put_behind_length in E. }
  destruct (map_find_one_line k' _ (fst e) H' Hne) as (p & Hp & Hf).
  rewrite find_index_put_behind in Hf.
  pose proof (map_elem_one_line k' _ p _ e H' Hp (put_behind_lookup e l)) as He.
  eexists k', _. split; [done|]. split; [exact Hf|]. split; [exact He|].
  unfold at_, bind. unfold find in Hf. by rewrite Hf, He.
Qed.

(** X18.  [erase] in a map that is one leaf line with sorted elements removes
    the element that [find] arrives at: the one with the key given if there is
    one, else the one with the greatest smaller key, else the first. *)
Theorem erase_in_one_line k l key :
  one_line k l → sorted l → l ≠ [] →
  ∃ k' e, erase key k = Ok (tt, k') ∧ l !! find_index key l = Some e
        ∧ one_line k' (delete (find_index key l) l)
        ∧ ((∃ x, x ∈ l ∧ fst x = key) → fst e = key)
        ∧ ((∃ x, x ∈ l ∧ fst x ≤ key) →
             fst e ≤ key ∧ ∀ x, x ∈ l → fst x ≤ key → fst x ≤ fst e)
        ∧ ((∀ x, x ∈ l → key < fst x) → find_index key l = 0%nat).
Proof.
  intros H Hs Hne. destruct (map_erase_one_line k l key H Hne) as (k' & He & H').
  destruct (find_index_lookup key l Hne) as [e Hl].
  exists k', e. split; [done|]. split; [done|]. split; [done|].
  split; [|split].
  - intros (x & Hx & Hxk).
    destruct (find_index_greatest key l e Hs Hl) as [Hle Hmax].
    { exists x. split; [done|lia]. }
    specialize (Hmax x Hx). lia.
  - by apply find_index_greatest.
  - apply find_index_all_above.
Qed.

(** X19.  [empty()] of a map that is one leaf line tells whether the line
    holds no element. *)
Theorem empty_of_one_line k l :
  one_line k l → empty k = Ok (match l with [] => true | _ => false end, k).
Proof.
  intros (Hsl & _ & _ & p & Hp & Hp1 & _).
  unfold empty, bind, gets. rewrite Hsl. simpl. unfold P_empty.
  apply (on_leaf_same _ _ k p _ Hp).
  apply (OneLinePageFacts.empty_one_line _ p l Hp1).
Qed.

Lemma five_keys_one_line :
  one_line (state_of five_keys) [(1, 10); (3, 30); (5, 50); (7, 70); (9, 90)].
Proof.
  split; [vm_compute; reflexivity|].
  split; [vm_compute; reflexivity|]. split; [vm_compute; reflexivity|].
  exists (leaf_page_at 1 (state_of five_keys)).
  split; [vm_compute; reflexivity|].
  split; [exact PageNodeProperties.five_keys_page|].
  split; vm_compute; reflexivity.
Qed.

Lemma sorted_13579 : sorted [(1, 10); (3, 30); (5, 50); (7, 70); (9, 90)].
Proof. unfold sorted. apply (bool_decide_unpack _). vm_compute. exact I. Qed.

Lemma one_line_map_follows_list_witness :
  ∃ k, run [Insert (5, 50); Insert (3, 30); Erase 4; Insert (5, 55);
            Insert (1, 10)] kernel_ = Ok k
     ∧ reachable k ∧ one_line k [(1, 10); (5, 50); (5, 55)]
     ∧ sorted [(1, 10); (5, 50); (5, 55)]
     ∧ ([(1, 10); (5, 50); (5, 55)] ≠ [] →
          contents k = Some [(1, 10); (5, 50); (5, 55)]
          ∧ iterate loops k = Ok ([(1, 10); (5, 50); (5, 55)], k)).
Proof. apply one_line_map_follows_list. reflexivity. Defined.

Lemma iteration_of_one_line_is_sorted_witness :
  ∃ l, eval (iterate loops)
         (run (Insert <$> [(5, 50); (3, 30); (9, 90); (1, 10); (7, 70)])
              kernel_) = Ok l
     ∧ sorted l ∧ l ≡ₚ [(5, 50); (3, 30); (9, 90); (1, 10); (7, 70)].
Proof.
  apply iteration_of_one_line_is_sorted; [discriminate|simpl; lia].
Defined.

Lemma insert_then_find_in_one_line_witness :
  ∃ k' pos, insert (3, 33) (state_of five_keys) = Ok (tt, k')
          ∧ find (fst (3, 33)) k' = Ok (pos, k')
          ∧ elem pos k' = Ok ((3, 33), k')
          ∧ at_ (fst (3, 33)) k' = Ok (snd (3, 33), k').
Proof.
  apply (insert_then_find_in_one_line _ _ _ five_keys_one_line).
  simpl. lia.
Defined.

Lemma erase_in_one_line_witness :
  ∃ k' e, erase 4 (state_of five_keys) = Ok (tt, k')
    ∧ [(1, 10); (3, 30); (5, 50); (7, 70); (9, 90)]
        !! find_index 4 [(1, 10); (3, 30); (5, 50); (7, 70); (9, 90)]
      = Some e
    ∧ one_line k'
        (delete (find_index 4 [(1, 10); (3, 30); (5, 50); (7, 70); (9, 90)])
           [(1, 10); (3, 30); (5, 50); (7, 70); (9, 90)])
    ∧ ((∃ x, x ∈ [(1, 10); (3, 30); (5, 50); (7, 70); (9, 90)] ∧ fst x = 4) →
         fst e = 4)
    ∧ ((∃ x, x ∈ [(1, 10); (3, 30); (5, 50); (7, 70); (9, 90)] ∧ fst x ≤ 4) →
         fst e ≤ 4
         ∧ ∀ x, x ∈ [(1, 10); (3, 30); (5, 50); (7, 70); (9, 90)] →
                fst x ≤ 4 → fst x ≤ fst e)
    ∧ ((∀ x, x ∈ [(1, 10); (3, 30); (5, 50); (7, 70); (9, 90)] → 4 < fst x) →
         find_index 4 [(1, 10); (3, 30); (5, 50); (7, 70); (9, 90)] = 0%nat).
Proof.
  apply erase_in_one_line;
    [exact five_keys_one_line|exact sorted_13579|discriminate].
Defined.

Lemma empty_of_one_line_witness :
  empty (state_of five_keys) = Ok (false, state_of five_keys).
Proof. exact (empty_of_one_line _ _ five_keys_one_line). Defined.

End MapProperties.

(** ** A map emptied by [erase] *)

Module EmptiedPageFacts.
Import Page LineFacts LineOpsFacts PutFacts OneLinePageFacts.
Section emptied_page.
Context {T A : Type} (c : config).
Implicit Types (p : PageNode T A) (l : list (Z * T)) (e : Z * T).

(** Erasing the only element of a line leaves it in its cell. *)
Lemma erase_only_element (n : leaf_node T) e :
  Line.live (leaf_max c) n = Some [e] →
  Line.erase (leaf_max c) n 0 = Ok (Line.mk (Line.elems_ n) 0 (Line.aux n))
  ∧ Line.elems_ n !! 0%nat = Some (Some e).
Proof.
  intros Hl. destruct (live_cells _ n [e] Hl) as (rest & Hes & Hlen & Hc & _).
  simpl in Hlen, Hc. change (Z.of_nat 1) with 1 in Hlen, Hc.
  unfold Line.erase, Line.end_index, Line.move_one_forward, Line.move.
  rewrite Hc. change (u8 (0 + 1)) with 1. change (1 - 1) with 0.
  change (0 + 0) with 0.
  rewrite (proj2 (Z.leb_le 1 (leaf_max c))) by lia.
  rewrite (proj2 (Z.leb_le 0 (leaf_max c))) by lia.
  simpl. split; [|by rewrite Hes]. done.
Qed.

Lemma erase_last_one_line p e k :
  one_line c p [e] →
  ∃ n, pool_memory p !! Z.to_nat (root_index p) = Some (leaf n)
     ∧ Line.elems_ n !! 0%nat = Some (Some e)
     ∧ 1 ≤ leaf_max c
     ∧ erase c k p
       = Ok (tt, set_pool_memory
                   (<[Z.to_nat (root_index p) :=
                        leaf (Line.mk (Line.elems_ n) 0 (Line.aux n))]>
                      (pool_memory p)) p).
Proof.
  intros H1. pose proof H1 as H1'.
  destruct H1 as (Hsl & Hin & Hmin & Hmax & n & Hn & Hl & Ha).
  destruct (find_path_one_line c p [e] k H1' ltac:(done)) as (path & Hp & Hg).
  destruct (erase_only_element n e Hl) as [Her He].
  pose proof (live_inv _ n [e] Hl) as (Hc & _ & _ & _ & Hlen).
  simpl in Hlen.
  assert (Hfi : find_index k [e] = 0%nat).
  { pose proof (find_index_lt k [e] ltac:(done)). simpl in *. lia. }
  rewrite Hfi in Hg.
  exists n. split; [done|]. split; [done|]. split; [lia|].
  unfold erase, bind. rewrite Hp. unfold gets. rewrite Hsl.
  unfold lift at 1. rewrite Hg. simpl.
  rewrite (get_leaf_ok c _ p n Hin Hn). simpl.
  rewrite (upd_leaf_ok c _ p n _ _ Hin Hn Her). done.
Qed.

(** A page whose root leaf was emptied: the count is 0, and cell 0 holds
    the element that was erased last. *)
Section stale.
Variables (p : PageNode T A) (n : leaf_node T) (e : Z * T).
Hypothesis Hsl : stem_levels p = 0.
Hypothesis Hin : in_pool c (root_index p) = true.
Hypothesis Hn : pool_memory p !! Z.to_nat (root_index p) = Some (leaf n).
Hypothesis Hc : Line.count_ n = 0.
Hypothesis He : Line.elems_ n !! 0%nat = Some (Some e).
Hypothesis Hmc : 1 ≤ leaf_max c.

Lemma line_find_stale k :
  Line.find (leaf_max c) n k = Ok (if fst e >? k then 0 else 255).
Proof.
  unfold Line.find, Line.min_key, Line.key, Line.elem, Line.cell,
    Line.in_array, Line.min_index, Line.end_index.
  rewrite (proj2 (Z.ltb_lt 0 (leaf_max c))) by lia.
  change (Z.to_nat 0) with 0%nat. rewrite He. simpl.
  destruct (fst e >? k); [done|]. rewrite Hc. simpl. rewrite Hc. done.
Qed.

Lemma find_stale k :
  find c k p
  = Ok (page_position.mk (root_index p) (if fst e >? k then 0 else 255), p).
Proof.
  unfold find, bind, gets. rewrite Hsl. simpl. unfold ret.
  rewrite (get_leaf_ok c _ p n Hin Hn). unfold lift.
  by rewrite line_find_stale.
Qed.

Lemma find_path_stale k :
  ∃ path, find_path c k p = Ok (path, p)
        ∧ path_get c "erase: path[stem_levels]" path 0
          = Ok (page_position.mk (root_index p)
                  (if fst e >? k then 0 else 255)).
Proof.
  pose proof (KernelFacts.max_levels_positive c) as Hml.
  unfold find_path, make_path, bind, gets. rewrite Hsl. simpl. unfold ret.
  rewrite (get_leaf_ok c _ p n Hin Hn). unfold lift.
  rewrite line_find_stale. unfold path_set, in_path.
  replace ((0 <=? 0) && (0 <? max_levels c)) with true by lia.
  eexists. split; [reflexivity|]. unfold path_get, in_path.
  replace ((0 <=? 0) && (0 <? max_levels c)) with true by lia.
  destruct (Z.to_nat (max_levels c)) as [|m] eqn:Em; [lia|]. done.
Qed.

Lemma line_erase_stale k :
  Line.erase (leaf_max c) n (if fst e >? k then 0 else 255)
  = Ok (Line.mk (Line.elems_ n) 255 (Line.aux n)).
Proof.
  unfold Line.erase, Line.end_index. rewrite Hc.
  by destruct (fst e >? k).
Qed.

Lemma erase_stale k :
  erase c k p
  = Ok (tt, set_pool_memory
              (<[Z.to_nat (root_index p) :=
                   leaf (Line.mk (Line.elems_ n) 255 (Line.aux n))]>
                 (pool_memory p)) p).
Proof.
  destruct (find_path_stale k) as (path & Hp & Hg).
  unfold erase, bind. rewrite Hp. unfold gets. rewrite Hsl.
  unfold lift at 1. rewrite Hg. simpl.
  rewrite (get_leaf_ok c _ p n Hin Hn). simpl.
  rewrite (upd_leaf_ok c _ p n _ _ Hin Hn (line_erase_stale k)). done.
Qed.

Lemma elem_stale k :
  leaf_max c ≤ 255 →
  elem c (page_position.mk (root_index p) (if fst e >? k then 0 else 255)) p
  = if fst e >? k then Ok (e, p) else Err (OutOfBounds "elems_").
Proof.
  intros H8. unfold elem, bind. simpl.
  rewrite (get_leaf_ok c _ p n Hin Hn). unfold lift, Line.elem, Line.cell,
    Line.in_array.
  destruct (fst e >? k).
  - rewrite (proj2 (Z.ltb_lt 0 (leaf_max c))) by lia.
    change (Z.to_nat 0) with 0%nat. by rewrite He.
  - rewrite (proj2 (Z.ltb_ge 255 (leaf_max c))) by lia. done.
Qed.

End stale.

Lemma empty_count p (n : leaf_node T) :
  stem_levels p = 0 → in_pool c (root_index p) = true →
  pool_memory p !! Z.to_nat (root_index p) = Some (leaf n) →
  empty c p = Ok (Line.count_ n =? 0, p).
Proof.
  intros Hsl Hin Hn. unfold empty, bind, gets. rewrite Hsl. simpl.
  by rewrite (get_leaf_ok c _ p n Hin Hn).
Qed.

End emptied_page.
End EmptiedPageFacts.

Module EmptiedMapFacts.
Import Kernel FindFacts PutFacts OneLinePageFacts OneLineFacts EmptiedPageFacts.
Implicit Types (k : kernel) (l : list (Z * Z)) (e : Z * Z).

Lemma on_leaf_err {X} (m : M leaf_node X) ptr k p err :
  heap k !! ptr = Some (leaf_object p) → m p = Err err →
  on leaf_kind ptr m k = Err err.
Proof.
  intros Ho Hm. unfold on, deref, bind at 1. rewrite Ho. simpl.
  unfold bind at 1, lift. rewrite Hm. reflexivity.
Qed.

Lemma find_root k (p : leaf_node) key pos :
  stem_levels k = 0 → heap k !! root_pointer k = Some (leaf_object p) →
  Page.find (cfg leaf_kind) key p = Ok (pos, p) →
  find key k = Ok (tree_position.mk (root_pointer k) pos, k).
Proof.
  intros Hsl Hp Hf.
  unfold find, find_implementation, bind at 1, gets at 1.
  unfold bind at 1, gets at 1. rewrite Hsl. simpl.
  unfold bind at 1, ret at 1. unfold bind at 1, P_find.
  by rewrite (on_leaf_same _ _ k p _ Hp Hf).
Qed.

Lemma erase_root k (p p' : leaf_node) key pos :
  stem_levels k = 0 → heap k !! root_pointer k = Some (leaf_object p) →
  Page.find (cfg leaf_kind) key p = Ok (pos, p) →
  Page.erase (cfg leaf_kind) key p = Ok (tt, p') →
  erase key k
  = Ok (tt, set_heap (<[root_pointer k := leaf_object p']> (heap k)) k).
Proof.
  intros Hsl Hp Hf Her.
  unfold erase, bind at 1, find_path, bind at 1, gets at 1.
  unfold bind at 1, gets at 1. rewrite Hsl. simpl.
  unfold bind at 1, ret at 1. unfold bind at 1, P_find.
  rewrite (on_leaf_same _ _ k p _ Hp Hf).
  unfold ret at 1. unfold bind at 1, gets at 1. rewrite Hsl.
  unfold bind at 1, lift at 1, path_get. simpl.
  unfold bind at 1, P_large.
  rewrite (on_leaf_same _ _ k p _ Hp eq_refl).
  unfold bind at 1, P_erase.
  by rewrite (on_leaf _ _ k p tt p' Hp Her).
Qed.

Lemma empty_root k (p : leaf_node) b :
  stem_levels k = 0 → heap k !! root_pointer k = Some (leaf_object p) →
  Page.empty (cfg leaf_kind) p = Ok (b, p) →
  empty k = Ok (b, k).
Proof.
  intros Hsl Hp He. unfold empty, bind, gets. rewrite Hsl. simpl.
  unfold P_empty. apply (on_leaf_same _ _ k p _ Hp He).
Qed.

Lemma map_empty_one_line k l :
  one_line k l → empty k = Ok (match l with [] => true | _ => false end, k).
Proof.
  intros (Hsl & _ & _ & p & Hp & Hp1 & _).
  apply (empty_root k p _ Hsl Hp).
  apply (OneLinePageFacts.empty_one_line _ p l Hp1).
Qed.

Section emptied.
Variables (k : kernel) (e : Z * Z) (key1 : Z).
Hypothesis H : one_line k [e].

(** The state after the only element was erased *)
Lemma erase_only k1 :
  erase key1 k = Ok (tt, k1) →
  one_line k1 []
  ∧ ∃ (p1 : leaf_node) n1,
      heap k1 !! root_pointer k1 = Some (leaf_object p1)
      ∧ stem_levels k1 = 0
      ∧ Page.stem_levels p1 = 0
      ∧ Page.in_pool (cfg leaf_kind) (Page.root_index p1) = true
      ∧ Page.pool_memory p1 !! Z.to_nat (Page.root_index p1)
        = Some (Page.leaf n1)
      ∧ Line.count_ n1 = 0
      ∧ Line.elems_ n1 !! 0%nat = Some (Some e).
Proof.
  intros Her.
  destruct (map_erase_one_line k [e] key1 H ltac:(done)) as (k1' & Her' & H1).
  rewrite Her in Her'. injection Her' as <-.
  assert (Hfi : find_index key1 [e] = 0%nat).
  { pose proof (find_index_lt key1 [e] ltac:(done)). simpl in *. lia. }
  rewrite Hfi in H1. simpl in H1. split; [done|].
  destruct H as (Hsl & Hmin & Hmax & p & Hp & Hp1 & Ho & Ha).
  destruct (erase_last_one_line (cfg leaf_kind) p e key1 Hp1)
    as (n & Hn & He & Hmc & Herp).
  pose proof Hp1 as (Hpsl & Hin & _ & _ & _).
  rewrite (erase_root k p _ key1 _ Hsl Hp
             (OneLinePageFacts.find_one_line _ p [e] key1 Hp1 ltac:(done))
             Herp) in Her.
  injection Her as <-. eexists _, _. simpl.
  split; [apply lookup_insert_eq|]. simpl.
  split; [done|]. split; [done|]. split; [done|].
  split; [apply list_lookup_insert_eq; by eapply lookup_lt_Some|]. done.
Qed.

End emptied.

End EmptiedMapFacts.

Module EmptiedMapProperties.
Import Kernel OneLineFacts EmptiedPageFacts EmptiedMapFacts.

(** X23.  After the only element of a one-line map was erased, [empty()]
    holds, but the line keeps the element in cell 0 and [find] compares with
    its key: for a smaller key it gives the position of the erased element,
    whose value [operator[]] returns; for any other key it gives element 255
    of the line, and [operator[]] reads outside the array. *)
Theorem find_in_emptied_map k e key1 key :
  one_line k [e] →
  ∃ k1 p1, erase key1 k = Ok (tt, k1) ∧ empty k1 = Ok (true, k1)
    ∧ heap k1 !! root_pointer k1 = Some (leaf_object p1)
    ∧ find key k1
      = Ok (tree_position.mk (root_pointer k1)
              (page_position.mk (Page.root_index p1)
                 (if fst e >? key then 0 else 255)), k1)
    ∧ at_ key k1
      = if fst e >? key then Ok (snd e, k1) else Err (OutOfBounds "elems_").
Proof.
  intros H.
  destruct (map_erase_one_line k [e] key1 H ltac:(done)) as (k1 & Her & _).
  destruct (erase_only k e key1 H k1 Her)
    as (H1 & p1 & n1 & Hp1 & Hsl & Hpsl & Hin & Hn & Hc & He).
  exists k1, p1. split; [done|].
  split; [apply (map_empty_one_line k1 [] H1)|]. split; [done|].
  pose proof (find_stale (cfg leaf_kind) p1 n1 e Hpsl Hin Hn Hc He
                ltac:(by rewrite leaf_max_15) key) as Hf.
  pose proof (find_root k1 p1 key _ Hsl Hp1 Hf) as Hfk. split; [done|].
  unfold at_, bind. unfold find in Hfk. rewrite Hfk.
  unfold elem, P_elem. simpl tree_position.page.
  simpl tree_position.sub_position.
  pose proof (elem_stale (cfg leaf_kind) p1 n1 e Hin Hn He
                ltac:(by rewrite leaf_max_15) key
                ltac:(by rewrite leaf_max_15)) as Hel.
  destruct (fst e >? key).
  - by rewrite (on_leaf_same _ _ k1 p1 _ Hp1 Hel).
  - by rewrite (on_leaf_err _ _ k1 p1 _ Hp1 Hel).
Qed.

(** X24.  [erase] on a map that was emptied by [erase] is not refused: it
    returns, the count of the root line wraps from 0 to 255, and [empty()] no
    longer holds. *)
Theorem erase_in_emptied_map_wraps_count k e key1 key2 :
  one_line k [e] →
  ∃ k1 k2 (p2 : leaf_node) n2,
    erase key1 k = Ok (tt, k1) ∧ empty k1 = Ok (true, k1)
    ∧ erase key2 k1 = Ok (tt, k2) ∧ empty k2 = Ok (false, k2)
    ∧ heap k2 !! root_pointer k2 = Some (leaf_object p2)
    ∧ Page.pool_memory p2 !! Z.to_nat (Page.root_index p2)
      = Some (Page.leaf n2)
    ∧ Line.count_ n2 = 255.
Proof.
  intros H.
  destruct (map_erase_one_line k [e] key1 H ltac:(done)) as (k1 & Her & _).
  destruct (erase_only k e key1 H k1 Her)
    as (H1 & p1 & n1 & Hp1 & Hsl & Hpsl & Hin & Hn & Hc & He).
  pose proof (find_stale (cfg leaf_kind) p1 n1 e Hpsl Hin Hn Hc He
                ltac:(by rewrite leaf_max_15) key2) as Hf.
  pose proof (erase_stale (cfg leaf_kind) p1 n1 e Hpsl Hin Hn Hc He
                ltac:(by rewrite leaf_max_15) key2) as Her2.
  pose proof (erase_root k1 p1 _ key2 _ Hsl Hp1 Hf Her2) as Hk2.
  set (n2 := Line.mk (Line.elems_ n1) 255 (Line.aux n1)) in *.
  set (p2 := Page.set_pool_memory
               (<[Z.to_nat (Page.root_index p1) := Page.leaf n2]>
                  (Page.pool_memory p1)) p1) in *.
  set (k2 := set_heap (<[root_pointer k1 := leaf_object p2]> (heap k1)) k1)
    in *.
  assert (Hlk : Page.pool_memory p2 !! Z.to_nat (Page.root_index p2)
                = Some (Page.leaf n2)).
  { simpl. apply list_lookup_insert_eq. by eapply lookup_lt_Some. }
  assert (Hp2 : heap k2 !! root_pointer k2 = Some (leaf_object p2)).
  { simpl. apply lookup_insert_eq. }
  exists k1, k2, p2, n2. split; [done|].
  split; [apply (map_empty_one_line k1 [] H1)|]. split; [exact Hk2|].
  split; [|done].
  apply (empty_root k2 p2 false Hsl Hp2).
  by rewrite (empty_count (cfg leaf_kind) p2 n2 Hpsl Hin Hlk).
Qed.

Lemma one_key_one_line :
  one_line (state_of (run [Insert (5, 50)] kernel_)) [(5, 50)].
Proof.
  split; [vm_compute; reflexivity|].
  split; [vm_compute; reflexivity|]. split; [vm_compute; reflexivity|].
  exists (leaf_page_at 1 (state_of (run [Insert (5, 50)] kernel_))).
  split; [vm_compute; reflexivity|]. split; [|split; vm_compute; reflexivity].
  repeat split.
  let n := eval vm_compute in
    (Page.pool_memory
       (leaf_page_at 1 (state_of (run [Insert (5, 50)] kernel_)))
       !! Z.to_nat 0) in
  match n with Some (Page.leaf ?x) => exists x end.
  split; [vm_compute; reflexivity|]. split; vm_compute; reflexivity.
Qed.

Lemma find_in_emptied_map_witness :
  ∃ k1 p1,
    erase 5 (state_of (run [Insert (5, 50)] kernel_)) = Ok (tt, k1)
    ∧ empty k1 = Ok (true, k1)
    ∧ heap k1 !! root_pointer k1 = Some (leaf_object p1)
    ∧ find 3 k1
      = Ok (tree_position.mk (root_pointer k1)
              (page_position.mk (Page.root_index p1)
                 (if fst (5, 50) >? 3 then 0 else 255)), k1)
    ∧ at_ 3 k1
      = if fst (5, 50) >? 3 then Ok (snd (5, 50), k1)
        else Err (OutOfBounds "elems_").
Proof. exact (find_in_emptied_map _ (5, 50) 5 3 one_key_one_line). Defined.

Lemma erase_in_emptied_map_wraps_count_witness :
  ∃ k1 k2 (p2 : leaf_node) n2,
    erase 5 (state_of (run [Insert (5, 50)] kernel_)) = Ok (tt, k1)
    ∧ empty k1 = Ok (true, k1)
    ∧ erase 5 k1 = Ok (tt, k2) ∧ empty k2 = Ok (false, k2)
    ∧ heap k2 !! root_pointer k2 = Some (leaf_object p2)
    ∧ Page.pool_memory p2 !! Z.to_nat (Page.root_index p2)
      = Some (Page.leaf n2)
    ∧ Line.count_ n2 = 255.
Proof.
  exact (erase_in_emptied_map_wraps_count _ (5, 50) 5 5 one_key_one_line).
Defined.

End EmptiedMapProperties.

(** ** A page node of two leaf lines *)

Module PutAppFacts.
Import PutFacts.
Section put_app.
Context {X : Type}.
Implicit Types (e : Z * X) (l : list (Z * X)) (k : Z).

Lemma run_length_head_above k l x :
  head l = Some x → k < fst x → run_length k l = 0%nat.
Proof.
  destruct l as [|y l]; [done|]. intros [= ->] H. simpl.
  by rewrite (proj2 (Z.gtb_lt _ _)) by lia.
Qed.

Lemma run_length_head_below k l x :
  head l = Some x → fst x ≤ k → (0 < run_length k l)%nat.
Proof.
  destruct l as [|y l]; [done|]. intros [= ->] H. simpl.
  destruct (Z.gtb_spec (fst x) k); lia.
Qed.

Lemma put_behind_app_l e l1 l2 x :
  head l2 = Some x → fst e < fst x →
  put_behind e (l1 ++ l2) = put_behind e l1 ++ l2.
Proof.
  intros Hx Hlt. unfold put_behind.
  pose proof (run_length_le (fst e) l1) as Hle.
  assert (Hr : run_length (fst e) (l1 ++ l2) = run_length (fst e) l1).
  { destruct (decide (run_length (fst e) l1 < length l1)%nat) as [H|H].
    - by apply run_length_app_stop.
    - rewrite run_length_app_all by lia.
      rewrite (run_length_head_above _ l2 x Hx Hlt). lia. }
  rewrite Hr, take_app_le, drop_app_le by lia.
  by rewrite <- app_assoc.
Qed.

Lemma put_behind_app_r e l1 l2 :
  (∀ x, x ∈ l1 → fst x ≤ fst e) →
  put_behind e (l1 ++ l2) = l1 ++ put_behind e l2.
Proof.
  intros Hall. unfold put_behind.
  rewrite (run_length_app_all _ l1 l2 (run_length_all _ l1 Hall)).
  rewrite take_app_ge, drop_app_ge by lia.
  replace (length l1 + run_length (fst e) l2 - length l1)%nat
    with (run_length (fst e) l2) by lia.
  by rewrite <- app_assoc.
Qed.

Lemma put_behind_head_above e l x :
  head l = Some x → fst e < fst x → put_behind e l = e :: l.
Proof.
  intros Hx Hlt. unfold put_behind.
  by rewrite (run_length_head_above _ l x Hx Hlt).
Qed.

Lemma put_behind_head_below e l x :
  head l = Some x → fst x ≤ fst e → head (put_behind e l) = Some x.
Proof.
  intros Hx Hle. unfold put_behind.
  pose proof (run_length_head_below _ l x Hx Hle).
  destruct l as [|y l]; [done|]. injection Hx as ->.
  destruct (run_length (fst e) (x :: l)); [lia|done].
Qed.

End put_app.
End PutAppFacts.

Module SetKeyFacts.
Import LineFacts LineOpsFacts.
Section set_key.
Context {T A : Type} (mc : Z).
Implicit Types (n : Line.line_node T A) (l : list (Z * T)).

Lemma set_key_live n l (i : nat) x k :
  Line.live mc n = Some l → l !! i = Some x →
  ∃ n', Line.set_key mc n (Z.of_nat i) k = Ok n'
      ∧ Line.live mc n' = Some (<[i := (k, snd x)]> l)
      ∧ Line.aux n' = Line.aux n.
Proof.
  intros Hl Hx.
  destruct (live_cells mc n l Hl) as (rest & Hes & Hlen & Hc & H8).
  pose proof (lookup_lt_Some _ _ _ Hx) as Hi.
  unfold Line.set_key. rewrite (live_elem mc n l i x Hl Hx). simpl.
  unfold Line.set_cell, Line.in_array.
  rewrite (proj2 (Z.leb_le 0 _)) by lia.
  rewrite (proj2 (Z.ltb_lt _ mc)) by lia. simpl.
  eexists. split; [reflexivity|]. split; [|done].
  rewrite Nat2Z.id, Hes.
  rewrite insert_app_l by (rewrite length_fmap; lia).
  rewrite <- (list_fmap_insert Some l i (k, snd x)).
  apply cells_live; rewrite ?length_insert; lia.
Qed.

End set_key.
End SetKeyFacts.

Module TwoLinesFacts.
Import Page LineFacts LineOpsFacts PutFacts PutAppFacts SetKeyFacts
  OneLinePageFacts.
Section two_lines_page.
Context {T A : Type} (c : config).
Implicit Types (p : PageNode T A) (l : list (Z * T)) (e : Z * T).

Lemma bind_lift {S X Y} (r : result X) (k : X → M S Y) s x :
  r = Ok x → bind (lift r) k s = k x s.
Proof. intros ->. reflexivity. Qed.

Lemma get_stem_ok i p (n : stem_node) :
  in_pool c i = true → pool_memory p !! Z.to_nat i = Some (stem n) →
  get_stem c i p = Ok (n, p).
Proof.
  intros Hi Hn. unfold get_stem, bind. by rewrite (entry_ok c i p _ Hi Hn).
Qed.

Lemma upd_stem_ok i p (n n' : stem_node) f :
  in_pool c i = true → pool_memory p !! Z.to_nat i = Some (stem n) →
  f n = Ok n' →
  upd_stem c i f p
  = Ok (tt, set_pool_memory (<[Z.to_nat i := stem n']> (pool_memory p)) p).
Proof.
  intros Hi Hn Hf. unfold upd_stem, bind.
  rewrite (get_stem_ok i p n Hi Hn). unfold lift. rewrite Hf.
  unfold put_stem, set_entry. by rewrite Hi.
Qed.

Lemma leaf_min_key_ok i p (n : leaf_node T) l x :
  in_pool c i = true → pool_memory p !! Z.to_nat i = Some (leaf n) →
  Line.live (leaf_max c) n = Some l → head l = Some x →
  leaf_min_key c i p = Ok (fst x, p).
Proof.
  intros Hi Hn Hl Hx. unfold leaf_min_key, bind.
  rewrite (get_leaf_ok c i p n Hi Hn). unfold lift, Line.min_key.
  destruct l as [|y l]; [done|]. injection Hx as ->.
  unfold Line.min_index. by rewrite (live_key _ n _ 0 x Hl eq_refl : Line.key (leaf_max c) n 0 = _).
Qed.

Lemma set_pool_memory_id p : set_pool_memory (pool_memory p) p = p.
Proof. by destruct p. Qed.

Lemma to_nat_ne i j :
  in_pool c i = true → in_pool c j = true → i ≠ j → Z.to_nat i ≠ Z.to_nat j.
Proof. unfold in_pool. intros Hi Hj Hne. lia. Qed.

(** [two_lines] gives the elements of both lines. *)
Lemma contents_two_lines p l1 l2 :
  two_lines c p l1 l2 → contents c p = Some (l1 ++ l2).
Proof.
  intros (Hsl & Hin & i1 & i2 & e1 & e2 & sn & n1 & n2 & Hmin & Hmax & Hne
          & Hi1 & Hi2 & He1 & He2 & Hsn & Hls & Hn1 & Hl1 & Ha1
          & Hn2 & Hl2 & Ha2).
  unfold contents. rewrite Hsl. simpl.
  rewrite (entry_ok c _ p _ Hin Hsn), Hls. simpl. unfold child_block. simpl.
  rewrite (entry_ok c _ p _ Hi1 Hn1), Hl1.
  rewrite (entry_ok c _ p _ Hi2 Hn2), Hl2.
  destruct l1 as [|x1 l1]; [done|]. destruct l2 as [|x2 l2]; [done|].
  injection He1 as ->. injection He2 as ->.
  rewrite !Z.eqb_refl. by rewrite app_nil_r.
Qed.

(** The leaf level of [insert] when the target leaf has room. *)
Lemma insert_below_room p e r (sn : stem_node) rs x target
    (tl : leaf_node T) lt et :
  in_pool c r = true → pool_memory p !! Z.to_nat r = Some (stem sn) →
  Line.live (stem_max c) sn = Some rs → rs ≠ [] →
  rs !! find_index (fst e) rs = Some x → snd x = target →
  in_pool c target = true → target ≠ r →
  pool_memory p !! Z.to_nat target = Some (leaf tl) →
  Line.live (leaf_max c) tl = Some lt → head lt = Some et →
  Z.of_nat (length lt) < leaf_max c → leaf_max c < 256 →
  ∃ (sn' : stem_node) (tl' : leaf_node T),
    Line.live (stem_max c) sn'
    = Some (if fst e <? fst et
            then <[find_index (fst e) rs := (fst e, target)]> rs else rs)
    ∧ Line.live (leaf_max c) tl' = Some (put_behind e lt)
    ∧ Line.aux tl' = Line.aux tl
    ∧ insert_below c e r p
      = Ok (tt, set_pool_memory
                  (<[Z.to_nat target := leaf tl']>
                     (<[Z.to_nat r := stem sn']> (pool_memory p))) p).
Proof.
  intros Hr Hsn Hls Hne Hx Ht Hit Htr Htl Hlt Het Hroom H8.
  pose proof (live_inv _ tl lt Hlt) as (Hc & _ & _ & _ & Hlen).
  destruct (insert_live (leaf_max c) tl lt e Hlt ltac:(lia) H8)
    as (tl' & Hins & Hl' & Ha').
  assert (∃ sn', (if fst e <? fst et
                   then Line.set_key (stem_max c) sn
                          (Z.of_nat (find_index (fst e) rs)) (fst e)
                   else Ok sn) = Ok sn'
            ∧ Line.live (stem_max c) sn'
              = Some (if fst e <? fst et
                      then <[find_index (fst e) rs := (fst e, target)]> rs
                      else rs)) as (sn' & Hset & Hls').
  { destruct (fst e <? fst et); [|by exists sn].
    destruct (set_key_live (stem_max c) sn rs _ x (fst e) Hls Hx)
      as (sn' & H1 & H2 & _). exists sn'. by rewrite Ht in H2. }
  exists sn', tl'. split; [done|]. split; [done|]. split; [done|].
  unfold insert_below.
  rewrite (bind_Ok _ _ _ _ _ (get_stem_ok r p sn Hr Hsn)).
  rewrite (bind_lift _ _ _ _ (find_live _ sn rs (fst e) Hls Hne)).
  rewrite (bind_lift _ _ _ _ (live_elem _ sn rs _ x Hls Hx)).
  rewrite Ht.
  rewrite (bind_Ok _ _ _ _ _ (leaf_min_key_ok target p tl lt et Hit Htl Hlt Het)).
  set (p1 := set_pool_memory (<[Z.to_nat r := stem sn']> (pool_memory p)) p).
  assert (Hwhen : when (fst e <? fst et)
                    (upd_stem c r (fun n =>
                       Line.set_key (stem_max c) n
                         (Z.of_nat (find_index (fst e) rs)) (fst e))) p
                  = Ok (tt, p1)).
  { unfold p1. destruct (fst e <? fst et); simpl.
    - by apply (upd_stem_ok r p sn sn').
    - injection Hset as <-. unfold ret.
      by rewrite list_insert_id, set_pool_memory_id. }
  rewrite (bind_Ok _ _ _ _ _ Hwhen).
  assert (Htl1 : pool_memory p1 !! Z.to_nat target = Some (leaf tl)).
  { unfold p1. simpl. rewrite list_lookup_insert_ne; [done|].
    apply not_eq_sym. by apply to_nat_ne. }
  rewrite (bind_Ok _ _ _ _ _ (get_leaf_ok c target p1 tl Hit Htl1)).
  unfold Line.full. rewrite (proj2 (Z.eqb_neq _ _)) by lia.
  by rewrite (upd_leaf_ok c target p1 tl tl' _ Hit Htl1 Hins).
Qed.

Lemma split_root_two_lines p l1 l2 :
  two_lines c p l1 l2 → 3 ≤ stem_max c → split_root c p = Ok (tt, p).
Proof.
  intros (Hsl & Hin & i1 & i2 & e1 & e2 & sn & n1 & n2 & Hmin & Hmax & Hne
          & Hi1 & Hi2 & He1 & He2 & Hsn & Hls & _) Hs.
  pose proof (live_inv _ sn _ Hls) as (_ & _ & _ & _ & Hlen).
  simpl in Hlen.
  unfold split_root, bind, gets. rewrite Hsl. simpl.
  rewrite (get_stem_ok _ p sn Hin Hsn). unfold Line.full.
  rewrite (proj2 (Z.eqb_neq _ _)) by lia. done.
Qed.

Lemma two_lines_intro p (r i1 i2 : Z) (sn : stem_node) (n1 n2 : leaf_node T)
    l1 l2 e1 e2 :
  stem_levels p = 1 → root_index p = r →
  min_leaf_index p = i1 → max_leaf_index p = i2 →
  in_pool c r = true → in_pool c i1 = true → in_pool c i2 = true →
  i1 ≠ i2 →
  pool_memory p !! Z.to_nat r = Some (stem sn) →
  pool_memory p !! Z.to_nat i1 = Some (leaf n1) →
  pool_memory p !! Z.to_nat i2 = Some (leaf n2) →
  Line.live (stem_max c) sn = Some [(fst e1, i1); (fst e2, i2)] →
  Line.live (leaf_max c) n1 = Some l1 → head l1 = Some e1 →
  Line.aux n1 = mk_leaf_aux page_index_nil i2 →
  Line.live (leaf_max c) n2 = Some l2 → head l2 = Some e2 →
  Line.aux n2 = mk_leaf_aux i1 page_index_nil →
  two_lines c p l1 l2.
Proof.
  intros Hsl Hr Hmin Hmax Hir Hi1 Hi2 Hne Hsn Hn1 Hn2 Hls Hl1 He1 Ha1
    Hl2 He2 Ha2.
  split; [done|]. split; [by rewrite Hr|].
  exists i1, i2, e1, e2, sn, n1, n2. rewrite Hr. done.
Qed.

Lemma insert_two_lines p l1 l2 e e1 e2 :
  two_lines c p l1 l2 → head l1 = Some e1 → head l2 = Some e2 →
  Z.of_nat (length l1) < leaf_max c → Z.of_nat (length l2) < leaf_max c →
  leaf_max c < 256 → 3 ≤ stem_max c →
  ∃ p', insert c e p = Ok (tt, p')
      ∧ free_count p' = free_count p ∧ Page.aux p' = Page.aux p
      ∧ if (fst e1 <=? fst e) && (fst e2 <=? fst e)
        then two_lines c p' l1 (put_behind e l2)
        else two_lines c p' (put_behind e l1) l2.
Proof.
  intros H2 Hh1 Hh2 Hr1 Hr2 H8 Hs. pose proof H2 as H2'.
  destruct H2 as (Hsl & Hin & i1 & i2 & x1 & x2 & sn & n1 & n2 & Hmin & Hmax
          & Hne & Hi1 & Hi2 & He1 & He2 & Hsn & Hls & Hn1 & Hl1 & Ha1
          & Hn2 & Hl2 & Ha2).
  rewrite Hh1 in He1. injection He1 as <-.
  rewrite Hh2 in He2. injection He2 as <-.
  assert (Hr1' : i1 ≠ root_index p) by (intros ->; congruence).
  assert (Hr2' : i2 ≠ root_index p) by (intros ->; congruence).
  pose proof (to_nat_ne _ _ Hi1 Hin Hr1') as Hq1.
  pose proof (to_nat_ne _ _ Hi2 Hin Hr2') as Hq2.
  pose proof (to_nat_ne _ _ Hi1 Hi2 Hne) as Hq12.
  pose proof (lookup_lt_Some _ _ _ Hsn) as Hlr.
  pose proof (lookup_lt_Some _ _ _ Hn1) as Hl1'.
  pose proof (lookup_lt_Some _ _ _ Hn2) as Hl2'.
  assert (Hstart : ∀ p',
    insert_below c e (root_index p) p = Ok (tt, p') →
    insert c e p = Ok (tt, p')).
  { intros p' Hb. unfold insert.
    rewrite (bind_Ok _ _ _ _ _ (split_root_two_lines p l1 l2 H2' Hs)).
    unfold bind at 1, gets at 1. unfold bind at 1, gets at 1.
    rewrite Hsl. simpl. unfold bind at 1, ret at 1. exact Hb. }
  destruct (Z.leb_spec (fst e1) (fst e)) as [C1|C1];
    [destruct (Z.leb_spec (fst e2) (fst e)) as [C2|C2]|]; simpl andb.
  - (* the second leaf *)
    assert (Hfi : find_index (fst e) [(fst e1, i1); (fst e2, i2)] = 1%nat).
    { unfold find_index. simpl.
      destruct (Z.gtb_spec (fst e1) (fst e)); [lia|].
      destruct (Z.gtb_spec (fst e2) (fst e)); [lia|]. done. }
    destruct (insert_below_room p e (root_index p) sn _ (fst e2, i2) i2 n2 l2
                e2 Hin Hsn Hls ltac:(done)) as (sn' & tl' & Hls' & Hl' & Ha' & Hb);
      try done; [by rewrite Hfi|].
    rewrite (proj2 (Z.ltb_ge _ _)) in Hls' by lia.
    eexists. split; [apply Hstart, Hb|]. split; [done|]. split; [done|].
    apply (two_lines_intro _ (root_index p) i1 i2 sn' n1 tl' l1 _ e1 e2);
      simpl; try done.
    + rewrite list_lookup_insert_ne by done.
      by apply list_lookup_insert_eq.
    + rewrite !list_lookup_insert_ne by done. done.
    + apply list_lookup_insert_eq. by rewrite length_insert.
    + by apply put_behind_head_below.
    + by rewrite Ha'.
  - (* the first leaf, behind its first element *)
    assert (Hfi : find_index (fst e) [(fst e1, i1); (fst e2, i2)] = 0%nat).
    { unfold find_index. simpl.
      destruct (Z.gtb_spec (fst e1) (fst e)); [done|].
      destruct (Z.gtb_spec (fst e2) (fst e)); [done|lia]. }
    destruct (insert_below_room p e (root_index p) sn _ (fst e1, i1) i1 n1 l1
                e1 Hin Hsn Hls ltac:(done)) as (sn' & tl' & Hls' & Hl' & Ha' & Hb);
      try done; [by rewrite Hfi|].
    rewrite (proj2 (Z.ltb_ge _ _)) in Hls' by lia.
    eexists. split; [apply Hstart, Hb|]. split; [done|]. split; [done|].
    apply (two_lines_intro _ (root_index p) i1 i2 sn' tl' n2 _ l2 e1 e2);
      simpl; try done.
    + rewrite list_lookup_insert_ne by done.
      by apply list_lookup_insert_eq.
    + apply list_lookup_insert_eq. by rewrite length_insert.
    + rewrite !list_lookup_insert_ne by done. done.
    + by apply put_behind_head_below.
    + by rewrite Ha'.
  - (* the first leaf, in front *)
    assert (Hfi : find_index (fst e) [(fst e1, i1); (fst e2, i2)] = 0%nat).
    { unfold find_index. simpl.
      destruct (Z.gtb_spec (fst e1) (fst e)); [done|lia]. }
    destruct (insert_below_room p e (root_index p) sn _ (fst e1, i1) i1 n1 l1
                e1 Hin Hsn Hls ltac:(done)) as (sn' & tl' & Hls' & Hl' & Ha' & Hb);
      try done; [by rewrite Hfi|].
    rewrite (proj2 (Z.ltb_lt _ _)) in Hls' by lia.
    rewrite Hfi in Hls'. simpl in Hls'.
    rewrite (put_behind_head_above e l1 e1 Hh1 C1) in Hl' |- *.
    eexists. split; [apply Hstart, Hb|]. split; [done|]. split; [done|].
    apply (two_lines_intro _ (root_index p) i1 i2 sn' tl' n2 _ l2 e e2);
      simpl; try done.
    + rewrite list_lookup_insert_ne by done.
      by apply list_lookup_insert_eq.
    + apply list_lookup_insert_eq. by rewrite length_insert.
    + rewrite !list_lookup_insert_ne by done. done.
    + by rewrite Ha'.
Qed.

Lemma allocate_fresh p :
  head_index p = back_index p → 0 < free_count p < 256 →
  0 ≤ back_index p → back_index p + 1 < 256 →
  allocate c p
  = Ok (back_index p,
        set_allocator (back_index p + 1) (back_index p + 1)
          (free_count p - 1) p).
Proof.
  intros Hh Hf Hb0 Hb. unfold allocate.
  rewrite (proj2 (Z.gtb_lt _ _)) by lia. rewrite Hh, Z.eqb_refl.
  by rewrite !u8_small by lia.
Qed.

Lemma set_entry_ok i x p :
  in_pool c i = true →
  set_entry c i x p
  = Ok (tt, set_pool_memory (<[Z.to_nat i := x]> (pool_memory p)) p).
Proof. intros Hi. unfold set_entry. by rewrite Hi. Qed.

Lemma head_take l (h : nat) x :
  head l = Some x → (0 < h)%nat → head (take h l) = Some x.
Proof. destruct l, h; simpl; done || lia. Qed.

Lemma head_drop {X} (l : list X) (h : nat) : head (drop h l) = l !! h.
Proof. revert h. induction l; intros [|h]; simpl; auto. Qed.

(** [split_root] on a page that is one full leaf line *)
Lemma split_root_full p l :
  one_line c p l → fresh_pool c p →
  Z.of_nat (length l) = leaf_max c → sorted l →
  2 ≤ leaf_max c < 256 → 2 ≤ stem_max c < 256 →
  ∃ p', split_root c p = Ok (tt, p')
      ∧ two_lines c p' (take ((length l + 1) / 2) l)
                       (drop ((length l + 1) / 2) l)
      ∧ free_count p' = free_count p - 2 ∧ Page.aux p' = Page.aux p.
Proof.
  intros H1 Hf Hfull Hs Hlm Hsm.
  destruct H1 as (Hsl & Hin & Hmin & Hmax & n & Hn & Hl & Ha).
  destruct Hf as (Hhb & Hrb & Hb1 & Hp256 & Hfc & Hlen).
  set (h := ((length l + 1) / 2)%nat).
  assert (Hh : (0 < h < length l)%nat).
  { unfold h. split.
    - apply Nat.div_str_pos. lia.
    - apply Nat.Div0.div_lt_upper_bound. lia. }
  destruct (lookup_lt_is_Some_2 l 0 ltac:(lia)) as [x1 Hx0].
  assert (Hx1 : head l = Some x1) by (by rewrite head_lookup).
  destruct (lookup_lt_is_Some_2 l h ltac:(lia)) as [x2 Hx2].
  assert (Hk12 : fst x1 ≤ fst x2).
  { apply (sorted_lookup l Hs 0 h); [lia|done|done]. }
  set (r0 := root_index p) in *. set (b := back_index p) in *.
  assert (Hr0 : 0 ≤ r0 < pool c) by (unfold in_pool in Hin; lia).
  assert (Hib : in_pool c b = true) by (unfold in_pool; lia).
  assert (Hib1 : in_pool c (b + 1) = true) by (unfold in_pool; lia).
  set (a2 := mk_leaf_aux r0 page_index_nil).
  destruct (split_live (leaf_max c) n l (Line.blank (leaf_max c) a2) Hl)
    as (n1 & n2 & Hsplit & Hl1 & Hl2 & Ha1 & Ha2).
  { simpl. rewrite length_replicate. lia. }
  fold h in Hl1, Hl2.
  (* the states *)
  set (pa := set_allocator (b + 1) (b + 1) (free_count p - 1) p).
  set (p1 := set_pool_memory
               (<[Z.to_nat b := leaf n2]>
                  (<[Z.to_nat r0 := leaf n1]> (pool_memory p))) pa).
  set (n1' := Line.set_aux n1
                (mk_leaf_aux (prev_index (Line.aux n1)) b)).
  set (p2 := set_pool_memory
               (<[Z.to_nat r0 := leaf n1']> (pool_memory p1)) p1).
  set (p3 := set_max_leaf_index b p2).
  set (p4 := set_allocator (b + 2) (b + 2) (free_count p - 2) p3).
  set (p5 := set_root_index (b + 1) p4).
  set (s0 := Line.init (new_stem_node c)).
  set (p6 := set_pool_memory
               (<[Z.to_nat (b + 1) := stem s0]> (pool_memory p5)) p5).
  assert (Hls0 : Line.live (stem_max c) s0 = Some []).
  { apply empty_live. simpl. rewrite length_replicate. lia. }
  destruct (insert_live (stem_max c) s0 [] (fst x1, r0) Hls0)
    as (s1 & Hins1 & Hls1 & _); [simpl; lia|lia|].
  set (p7 := set_pool_memory
               (<[Z.to_nat (b + 1) := stem s1]> (pool_memory p6)) p6).
  destruct (insert_live (stem_max c) s1 _ (fst x2, b) Hls1)
    as (s2 & Hins2 & Hls2 & _).
  { apply live_inv in Hls1 as (_ & _ & _ & _ & Hc1). simpl in Hc1. lia. }
  { lia. }
  assert (Hrs : put_behind (fst x2, b) (put_behind (fst x1, r0) [])
                = [(fst x1, r0); (fst x2, b)]).
  { unfold put_behind. simpl.
    destruct (Z.gtb_spec (fst x1) (fst x2)); [lia|done]. }
  rewrite Hrs in Hls2.
  set (p8 := set_pool_memory
               (<[Z.to_nat (b + 1) := stem s2]> (pool_memory p7)) p7).
  set (p9 := set_stem_levels 1 p8).
  assert (Hq : Z.to_nat r0 ≠ Z.to_nat b) by lia.
  assert (Hq1 : Z.to_nat r0 ≠ Z.to_nat (b + 1)) by lia.
  assert (Hq2 : Z.to_nat b ≠ Z.to_nat (b + 1)) by lia.
  assert (Hlen' : (Z.to_nat (b + 1) < length (pool_memory p))%nat) by lia.
  (* the steps *)
  assert (E1 : allocate c p = Ok (b, pa)).
  { apply allocate_fresh; fold b; lia. }
  assert (E2 : split_leaf c r0 b a2 pa = Ok (tt, p1)).
  { unfold split_leaf.
    rewrite (bind_Ok _ _ _ _ _ (get_leaf_ok c r0 pa n Hin Hn)).
    rewrite (bind_lift _ _ _ _ Hsplit).
    unfold put_leaf.
    rewrite (bind_Ok _ _ _ _ _ (set_entry_ok r0 _ pa Hin)).
    by rewrite (set_entry_ok b _ _ Hib). }
  assert (Hn1 : pool_memory p1 !! Z.to_nat r0 = Some (leaf n1)).
  { simpl. rewrite list_lookup_insert_ne by lia.
    apply list_lookup_insert_eq. lia. }
  assert (E3 : set_next_index c r0 b p1 = Ok (tt, p2)).
  { unfold set_next_index. by apply (upd_leaf_ok c r0 p1 n1 n1'). }
  assert (E4 : allocate c p3 = Ok (b + 1, p4)).
  { rewrite (allocate_fresh p3); [|simpl; fold b; lia..].
    change (back_index p3) with (b + 1).
    change (free_count p3) with (free_count p - 1). unfold p4.
    by replace (b + 1 + 1) with (b + 2) by lia;
      replace (free_count p - 1 - 1) with (free_count p - 2) by lia. }
  assert (E6 : put_stem c (b + 1) s0 p5 = Ok (tt, p6)).
  { by apply set_entry_ok. }
  assert (Hn1' : pool_memory p6 !! Z.to_nat r0 = Some (leaf n1')).
  { simpl. rewrite list_lookup_insert_ne by lia.
    apply list_lookup_insert_eq. rewrite !length_insert. lia. }
  assert (Hl1' : Line.live (leaf_max c) n1' = Some (take h l)).
  { exact Hl1. }
  assert (E7 : leaf_min_key c r0 p6 = Ok (fst x1, p6)).
  { apply (leaf_min_key_ok r0 p6 n1' (take h l) x1 Hin Hn1' Hl1').
    apply head_take; [done|lia]. }
  assert (Hs0 : pool_memory p6 !! Z.to_nat (b + 1) = Some (stem s0)).
  { simpl. apply list_lookup_insert_eq. rewrite !length_insert. lia. }
  assert (E8 : upd_stem c (b + 1)
                 (fun x => Line.insert (stem_max c) x (fst x1, r0)) p6
               = Ok (tt, p7)).
  { by apply (upd_stem_ok (b + 1) p6 s0 s1). }
  assert (Hn2 : pool_memory p7 !! Z.to_nat b = Some (leaf n2)).
  { simpl. rewrite !list_lookup_insert_ne by lia.
    apply list_lookup_insert_eq. rewrite !length_insert. lia. }
  assert (E9 : leaf_min_key c b p7 = Ok (fst x2, p7)).
  { apply (leaf_min_key_ok b p7 n2 (drop h l) x2 Hib Hn2 Hl2).
    by rewrite head_drop. }
  assert (Hs1 : pool_memory p7 !! Z.to_nat (b + 1) = Some (stem s1)).
  { simpl. apply list_lookup_insert_eq. rewrite !length_insert. lia. }
  assert (E10 : upd_stem c (b + 1)
                  (fun x => Line.insert (stem_max c) x (fst x2, b)) p7
                = Ok (tt, p8)).
  { by apply (upd_stem_ok (b + 1) p7 s1 s2). }
  assert (E11 : init_root c (leaf_min_key c r0) r0 (leaf_min_key c b) b p5
                = Ok (tt, p8)).
  { unfold init_root, bind at 1, gets at 1.
    change (root_index p5) with (b + 1).
    rewrite (bind_Ok _ _ _ _ _ E6).
    rewrite (bind_Ok _ _ _ _ _ E7).
    rewrite (bind_Ok _ _ _ _ _ E8).
    rewrite (bind_Ok _ _ _ _ _ E9).
    exact E10. }
  exists p9. split; [|split; [|split; [simpl; lia|done]]].
  - unfold split_root, bind at 1, gets at 1. unfold bind at 1, gets at 1.
    rewrite Hsl. change (0 >? 0) with false. cbv iota. fold r0.
    rewrite (bind_Ok _ _ _ _ _ (get_leaf_ok c r0 p n Hin Hn)).
    unfold Line.full.
    rewrite (proj2 (Z.eqb_eq _ _))
      by (apply live_inv in Hl as (_ & _ & _ & _ & Hcn); lia).
    unfold when.
    rewrite (bind_Ok _ _ _ _ _ E1). fold a2.
    rewrite (bind_Ok _ _ _ _ _ E2).
    rewrite (bind_Ok _ _ _ _ _ E3).
    unfold bind at 1, modify at 1. fold p3.
    rewrite (bind_Ok _ _ _ _ _ E4).
    unfold bind at 1, modify at 1. fold p5.
    rewrite (bind_Ok _ _ _ _ _ E11).
    unfold incr_stem_levels, modify.
    change (stem_levels p8) with (stem_levels p). by rewrite Hsl.
  - apply (two_lines_intro _ (b + 1) r0 b s2 n1' n2 _ _ x1 x2);
      simpl; try done; try lia.
    all: first
      [ by apply head_take; [|lia]
      | by rewrite head_drop
      | by rewrite Ha2
      | by (unfold n1'; simpl; rewrite Ha1, Ha)
      | (rewrite ?list_lookup_insert_ne by lia;
         apply list_lookup_insert_eq; rewrite ?length_insert; lia) ].
Qed.

End two_lines_page.
End TwoLinesFacts.

(** ** The split of a full root line *)

Module SplitFacts.
Import Page LineFacts LineOpsFacts PutFacts PutAppFacts SetKeyFacts
  OneLinePageFacts TwoLinesFacts.
Section split_page.
Context {T A : Type} (c : config).
Implicit Types (p : PageNode T A) (l : list (Z * T)) (e : Z * T).

(** Where the new element goes agrees with its place in the whole list. *)
Lemma put_behind_two l1 l2 e e1 e2 :
  head l1 = Some e1 → head l2 = Some e2 → sorted (l1 ++ l2) →
  (if (fst e1 <=? fst e) && (fst e2 <=? fst e)
   then l1 ++ put_behind e l2 else put_behind e l1 ++ l2)
  = put_behind e (l1 ++ l2).
Proof.
  intros H1 H2 Hs. apply sorted_app in Hs as (H12 & Hs1 & Hs2).
  assert (He2 : e2 ∈ l2) by (destruct l2; [done|]; injection H2 as ->; left).
  assert (He1 : e1 ∈ l1) by (destruct l1; [done|]; injection H1 as ->; left).
  destruct (Z.leb_spec (fst e2) (fst e)) as [C2|C2].
  - rewrite (proj2 (Z.leb_le (fst e1) (fst e)))
      by (specialize (H12 e1 e2 He1 He2); lia).
    simpl. symmetry. apply put_behind_app_r.
    intros x Hx. specialize (H12 x e2 Hx He2). lia.
  - rewrite andb_false_r. symmetry. by apply (put_behind_app_l e l1 l2 e2).
Qed.

Lemma insert_two_lines_contents p l1 l2 e :
  two_lines c p l1 l2 → sorted (l1 ++ l2) →
  Z.of_nat (length l1) < leaf_max c → Z.of_nat (length l2) < leaf_max c →
  leaf_max c < 256 → 3 ≤ stem_max c →
  ∃ p' l1' l2', insert c e p = Ok (tt, p')
      ∧ two_lines c p' l1' l2' ∧ l1' ++ l2' = put_behind e (l1 ++ l2)
      ∧ contents c p' = Some (put_behind e (l1 ++ l2))
      ∧ free_count p' = free_count p ∧ Page.aux p' = Page.aux p
      ∧ stem_levels p' = 1
      ∧ (length l1 ≤ length l1')%nat ∧ (length l2 ≤ length l2')%nat.
Proof.
  intros H2 Hs Hr1 Hr2 H8 Hsm.
  pose proof H2 as (_ & _ & i1 & i2 & e1 & e2 & _ & _ & _ & _ & _ & _ & _ & _
                    & He1 & He2 & _).
  destruct (insert_two_lines c p l1 l2 e e1 e2 H2 He1 He2 Hr1 Hr2 H8 Hsm)
    as (p' & Hi & Hf & Ha & Hif).
  pose proof (put_behind_two l1 l2 e e1 e2 He1 He2 Hs) as Hput.
  destruct ((fst e1 <=? fst e) && (fst e2 <=? fst e)).
  - exists p', l1, (put_behind e l2). rewrite <- Hput.
    split; [done|]. split; [done|]. split; [done|].
    split; [by apply contents_two_lines|]. split; [done|]. split; [done|].
    split; [by destruct Hif|]. rewrite put_behind_length. lia.
  - exists p', (put_behind e l1), l2. rewrite <- Hput.
    split; [done|]. split; [done|]. split; [done|].
    split; [by apply contents_two_lines|]. split; [done|]. split; [done|].
    split; [by destruct Hif|]. rewrite put_behind_length. lia.
Qed.

Lemma insert_full_line p l e :
  one_line c p l → fresh_pool c p →
  Z.of_nat (length l) = leaf_max c → sorted l →
  2 ≤ leaf_max c < 256 → 3 ≤ stem_max c < 256 →
  ∃ p' l1 l2, insert c e p = Ok (tt, p')
      ∧ two_lines c p' l1 l2 ∧ l1 ++ l2 = put_behind e l
      ∧ contents c p' = Some (put_behind e l)
      ∧ free_count p' = free_count p - 2 ∧ Page.aux p' = Page.aux p
      ∧ stem_levels p' = 1
      ∧ (length l / 2 ≤ length l1)%nat ∧ (length l / 2 ≤ length l2)%nat.
Proof.
  intros H1 Hf Hfull Hs Hlm Hsm.
  destruct (split_root_full c p l H1 Hf Hfull Hs Hlm ltac:(lia))
    as (p2 & Hsplit & H2 & Hfc & Ha).
  set (h := ((length l + 1) / 2)%nat) in *.
  assert (Hh : (0 < h < length l)%nat).
  { unfold h. split.
    - apply Nat.div_str_pos. lia.
    - apply Nat.Div0.div_lt_upper_bound. lia. }
  destruct (insert_two_lines_contents p2 (take h l) (drop h l) e H2)
    as (p' & l1 & l2 & Hi & H2' & Happ & Hc & Hfc' & Ha' & Hsl' & Hg1 & Hg2);
    [by rewrite take_drop|rewrite length_take; lia|rewrite length_drop; lia
    |lia|lia|].
  assert (Hhalf : (length l / 2 ≤ h ∧ length l / 2 ≤ length l - h)%nat).
  { unfold h.
    pose proof (Nat.div_mod_eq (length l + 1) 2).
    pose proof (Nat.div_mod_eq (length l) 2).
    pose proof (Nat.mod_upper_bound (length l + 1) 2 ltac:(lia)).
    pose proof (Nat.mod_upper_bound (length l) 2 ltac:(lia)).
    lia. }
  rewrite length_take in Hg1. rewrite length_drop in Hg2.
  rewrite take_drop in Happ, Hc.
  exists p', l1, l2. split; [|split; [done|split; [done|split; [done|]]]].
  - unfold insert in Hi |- *. rewrite (bind_Ok _ _ _ _ _ Hsplit).
    by rewrite (bind_Ok _ _ _ _ _
                  (split_root_two_lines c p2 _ _ H2 ltac:(lia))) in Hi.
  - split; [lia|]. split; [congruence|]. split; [done|]. lia.
Qed.

End split_page.
End SplitFacts.

(** ** The pool of the root page of a one-line map *)

Module FreshPoolFacts.
Import Page LineFacts LineOpsFacts PutFacts OneLinePageFacts.
Section fresh.
Context {T A : Type} (c : config).
Implicit Types (p : PageNode T A) (l : list (Z * T)) (e : Z * T).

Lemma fresh_pool_put p i x :
  fresh_pool c p →
  fresh_pool c (set_pool_memory (<[i := x]> (pool_memory p)) p).
Proof.
  intros (H1 & H2 & H3 & H4 & H5 & H6). repeat split; simpl; try done; try lia.
  by rewrite length_insert.
Qed.

Lemma insert_one_line_fresh p l e :
  one_line c p l → Z.of_nat (length l) < leaf_max c → leaf_max c < 256 →
  fresh_pool c p →
  ∃ p', insert c e p = Ok (tt, p') ∧ fresh_pool c p'.
Proof.
  intros H1 Hfull H8 Hf. pose proof H1 as H1'.
  destruct H1 as (Hsl & Hin & Hmin & Hmax & n & Hn & Hl & Ha).
  pose proof (live_inv _ n l Hl) as (Hc & _ & _ & _ & Hlen).
  destruct (insert_live (leaf_max c) n l e Hl ltac:(lia) H8)
    as (n' & Hins & Hl' & Ha').
  exists (set_pool_memory
            (<[Z.to_nat (root_index p) := leaf n']> (pool_memory p)) p).
  split; [|by apply fresh_pool_put].
  unfold insert, bind. rewrite (split_root_one_line c p l H1' Hfull).
  unfold gets. rewrite Hsl. simpl.
  apply (upd_leaf_ok c _ p n n'); done.
Qed.

Lemma erase_one_line_fresh p l k :
  one_line c p l → l ≠ [] → fresh_pool c p →
  ∃ p', erase c k p = Ok (tt, p') ∧ fresh_pool c p'.
Proof.
  intros H1 Hne Hf. pose proof H1 as H1'.
  destruct H1 as (Hsl & Hin & Hmin & Hmax & n & Hn & Hl & Ha).
  destruct (find_path_one_line c p l k H1' Hne) as (path & Hp & Hg).
  pose proof (find_index_lt k l Hne) as Hlt.
  destruct (erase_live (leaf_max c) n l (find_index k l) Hl Hlt)
    as (n' & Her & Hl' & Ha').
  exists (set_pool_memory
            (<[Z.to_nat (root_index p) := leaf n']> (pool_memory p)) p).
  split; [|by apply fresh_pool_put].
  unfold erase, bind. rewrite Hp. unfold gets. rewrite Hsl.
  unfold lift at 1. rewrite Hg. simpl.
  rewrite (get_leaf_ok c _ p n Hin Hn). simpl.
  by rewrite (upd_leaf_ok c _ p n n' _ Hin Hn Her).
Qed.

End fresh.
End FreshPoolFacts.

Module SplitMapFacts.
Import Kernel FindFacts PutFacts OneLinePageFacts OneLineFacts
  EmptiedMapFacts FreshPoolFacts SplitFacts KernelFacts.
Implicit Types (k : kernel) (l : list (Z * Z)) (e : Z * Z).

Lemma split_root_small k (p : leaf_node) :
  stem_levels k = 0 → heap k !! root_pointer k = Some (leaf_object p) →
  Page.oversized (cfg leaf_kind) p = false →
  split_root k = Ok (tt, k).
Proof.
  intros Hsl Hp Ho.
  unfold split_root, bind at 1, gets at 1. unfold bind at 1, gets at 1.
  rewrite Hsl. simpl. unfold bind at 1, P_oversized.
  rewrite (on_leaf_same _ _ k p false Hp); [done|].
  unfold gets. by rewrite Ho.
Qed.

Lemma insert_root k (p p' : leaf_node) e :
  stem_levels k = 0 → heap k !! root_pointer k = Some (leaf_object p) →
  Page.oversized (cfg leaf_kind) p = false →
  Page.insert (cfg leaf_kind) e p = Ok (tt, p') →
  insert e k
  = Ok (tt, set_heap (<[root_pointer k := leaf_object p']> (heap k)) k).
Proof.
  intros Hsl Hp Ho Hins.
  unfold insert, bind at 1. rewrite (split_root_small k p Hsl Hp Ho).
  unfold bind at 1, gets at 1. unfold bind at 1, gets at 1.
  rewrite Hsl. simpl. unfold bind at 1, ret at 1. unfold P_insert.
  apply (on_leaf _ _ k p tt p' Hp Hins).
Qed.

(** The pool of the root page stays as the constructor left it while the
    map is one leaf line. *)
Lemma apply_one_line_fresh o k l (p : leaf_node) :
  one_line k l → fits o l = true →
  heap k !! root_pointer k = Some (leaf_object p) →
  Page.fresh_pool (cfg leaf_kind) p →
  ∃ k' (p' : leaf_node), apply o k = Ok (tt, k')
    ∧ heap k' !! root_pointer k' = Some (leaf_object p')
    ∧ Page.fresh_pool (cfg leaf_kind) p'.
Proof.
  intros H Hfit Hp Hf.
  destruct H as (Hsl & Hmin & Hmax & p0 & Hp0 & H1 & Ho & Ha).
  rewrite Hp in Hp0. injection Hp0 as <-.
  destruct o as [e|key]; unfold apply, fits in *.
  - change leaf_line_max_count with 15 in Hfit.
    destruct (insert_one_line_fresh (cfg leaf_kind) p l e H1)
      as (p' & Hins & Hf'); [rewrite leaf_max_15; lia..|done|].
    exists (set_heap (<[root_pointer k := leaf_object p']> (heap k)) k), p'.
    split; [by apply (insert_root k p p')|].
    split; [apply lookup_insert_eq|done].
  - assert (Hne : l ≠ []) by (by intros ->).
    destruct (erase_one_line_fresh (cfg leaf_kind) p l key H1 Hne Hf)
      as (p' & Her & Hf').
    exists (set_heap (<[root_pointer k := leaf_object p']> (heap k)) k), p'.
    split; [|split; [apply lookup_insert_eq|done]].
    apply (erase_root k p p' key _ Hsl Hp
             (OneLinePageFacts.find_one_line _ p l key H1 Hne) Her).
Qed.

Lemma run_one_line_fresh ops : ∀ k l l' (p : leaf_node),
  one_line k l → run_list ops l = Some l' →
  heap k !! root_pointer k = Some (leaf_object p) →
  Page.fresh_pool (cfg leaf_kind) p →
  ∃ k' (p' : leaf_node), run ops (Ok k) = Ok k'
    ∧ heap k' !! root_pointer k' = Some (leaf_object p')
    ∧ Page.fresh_pool (cfg leaf_kind) p'.
Proof.
  induction ops as [|o ops IH]; intros k l l' p H Hrun Hp Hf; simpl in Hrun.
  - by exists k, p.
  - destruct (fits o l) eqn:Hfit; [|done].
    destruct (apply_one_line_fresh o k l p H Hfit Hp Hf)
      as (k1 & p1 & Ha & Hp1 & Hf1).
    destruct (MapProperties.apply_one_line o k l H Hfit) as (k1' & Ha' & H1).
    rewrite Ha in Ha'. injection Ha' as <-.
    destruct (IH k1 _ l' p1 H1 Hrun Hp1 Hf1) as (k' & p' & Hk' & Hrest).
    exists k', p'. split; [|done]. rewrite run_step. simpl. by rewrite Ha.
Qed.

Lemma kernel_fresh :
  ∃ k (p : leaf_node), kernel_ = Ok k ∧ one_line k []
    ∧ heap k !! root_pointer k = Some (leaf_object p)
    ∧ Page.fresh_pool (cfg leaf_kind) p.
Proof.
  destruct kernel_one_line as (k & Hk & H1).
  injection Hk as <-.
  eexists _, _. split; [reflexivity|]. split; [done|].
  split; [reflexivity|]. repeat split; vm_compute; done.
Qed.

End SplitMapFacts.

(** ** Iteration over two leaf lines *)

Module PositionFacts.
Import Page LineFacts LineOpsFacts OneLinePageFacts.
Section positions.
Context {T A : Type} (c : config).
Implicit Types (p : PageNode T A) (l : list (Z * T)) (e : Z * T).

Lemma max_index_live (n : leaf_node T) l :
  Line.live (leaf_max c) n = Some l → l ≠ [] →
  Line.max_index n = Z.of_nat (length l) - 1.
Proof.
  intros Hl Hne. pose proof (live_inv _ n l Hl) as (Hc & H8 & _ & _ & Hlen).
  unfold Line.max_index. destruct l; [done|]. rewrite length_cons in *.
  rewrite (proj2 (Z.eqb_neq _ _)) by lia. rewrite u8_small by lia. lia.
Qed.

Lemma elem_leaf p i (n : leaf_node T) l (j : nat) x :
  in_pool c i = true → pool_memory p !! Z.to_nat i = Some (leaf n) →
  Line.live (leaf_max c) n = Some l → l !! j = Some x →
  elem c (page_position.mk i (Z.of_nat j)) p = Ok (x, p).
Proof.
  intros Hi Hn Hl Hx. unfold elem, bind. simpl.
  rewrite (get_leaf_ok c i p n Hi Hn). unfold lift.
  by rewrite (live_elem _ n l j x Hl Hx).
Qed.

Lemma min_position_leaf p (n : leaf_node T) :
  in_pool c (min_leaf_index p) = true →
  pool_memory p !! Z.to_nat (min_leaf_index p) = Some (leaf n) →
  min_position c p = Ok (page_position.mk (min_leaf_index p) 0, p).
Proof.
  intros Hi Hn. unfold min_position, bind, gets.
  by rewrite (get_leaf_ok c _ p n Hi Hn).
Qed.

Lemma end_position_leaf p (n : leaf_node T) l :
  in_pool c (max_leaf_index p) = true →
  pool_memory p !! Z.to_nat (max_leaf_index p) = Some (leaf n) →
  Line.live (leaf_max c) n = Some l → l ≠ [] →
  end_position c p
  = Ok (page_position.mk (max_leaf_index p) (Z.of_nat (length l)), p).
Proof.
  intros Hi Hn Hl Hne.
  pose proof (live_inv _ n l Hl) as (Hc & H8 & _ & _ & Hlen).
  unfold end_position, bind, gets.
  rewrite (get_leaf_ok c _ p n Hi Hn). unfold ret.
  rewrite (max_index_live n l Hl Hne). rewrite u8_small by lia.
  do 3 f_equal. lia.
Qed.

Lemma next_position_inside p i (n : leaf_node T) j :
  in_pool c i = true → pool_memory p !! Z.to_nat i = Some (leaf n) →
  next_index (Line.aux n) = page_index_nil ∨ j ≠ Line.max_index n →
  0 ≤ j < 255 →
  next_position c (page_position.mk i j) p
  = Ok (page_position.mk i (j + 1), p).
Proof.
  intros Hi Hn Hor Hj. unfold next_position, bind. simpl.
  rewrite (get_leaf_ok c i p n Hi Hn).
  replace (negb (next_index (Line.aux n) =? page_index_nil)
           && (j =? Line.max_index n)) with false.
  - unfold ret. by rewrite u8_small by lia.
  - destruct Hor as [->|Hne].
    + by rewrite Z.eqb_refl.
    + rewrite (proj2 (Z.eqb_neq _ _) Hne). by rewrite andb_false_r.
Qed.

Lemma next_position_cross p i (n : leaf_node T) i' (n' : leaf_node T) :
  in_pool c i = true → pool_memory p !! Z.to_nat i = Some (leaf n) →
  next_index (Line.aux n) = i' → i' ≠ page_index_nil →
  in_pool c i' = true → pool_memory p !! Z.to_nat i' = Some (leaf n') →
  next_position c (page_position.mk i (Line.max_index n)) p
  = Ok (page_position.mk i' 0, p).
Proof.
  intros Hi Hn Hnext Hnil Hi' Hn'. unfold next_position, bind. simpl.
  rewrite (get_leaf_ok c i p n Hi Hn). rewrite Hnext.
  rewrite (proj2 (Z.eqb_neq _ _) Hnil), Z.eqb_refl. simpl.
  by rewrite (get_leaf_ok c i' p n' Hi' Hn').
Qed.

End positions.
End PositionFacts.

Module TwoLinesMapFacts.
Import Kernel OneLineFacts EmptiedMapFacts PositionFacts.

Section two_lines_map.
Variables (k : kernel) (p : leaf_node) (l1 l2 : list (Z * Z)).
Hypothesis Hmin : min_leaf_pointer k = root_pointer k.
Hypothesis Hmax : max_leaf_pointer k = root_pointer k.
Hypothesis Hp : heap k !! root_pointer k = Some (leaf_object p).
Hypothesis Ha : Page.aux p = mk_leaf_aux (Some nullptr) (Some nullptr).
Hypothesis H2 : Page.two_lines (cfg leaf_kind) p l1 l2.

Lemma elem_page pos x :
  Page.elem (cfg leaf_kind) pos p = Ok (x, p) →
  elem (tree_position.mk (root_pointer k) pos) k = Ok (x, k).
Proof.
  intros H. unfold elem, P_elem. simpl. by apply (on_leaf_same _ _ k p _ Hp).
Qed.

Lemma increment_page pos pos' :
  Page.next_position (cfg leaf_kind) pos p = Ok (pos', p) →
  increment (tree_position.mk (root_pointer k) pos) k
  = Ok (tree_position.mk (root_pointer k) pos', k).
Proof.
  intros H. unfold increment. simpl tree_position.page.
  simpl tree_position.sub_position.
  unfold bind at 1, get_next_pointer, bind at 1.
  unfold get_aux. rewrite (on_leaf_same _ _ k p _ Hp eq_refl).
  rewrite Ha. simpl assigned. unfold ret at 1.
  change (negb (nullptr =? nullptr)) with false. cbv iota.
  unfold bind at 1, ret at 1. cbv iota. unfold bind at 1.
  by rewrite (on_leaf_same _ _ k p _ Hp H).
Qed.

Lemma iterate_two_lines fuel :
  (length l1 + length l2 ≤ fuel)%nat →
  iterate fuel k = Ok (l1 ++ l2, k).
Proof.
  intros Hfuel.
  destruct H2 as (Hsl & Hin & i1 & i2 & e1 & e2 & sn & n1 & n2 & Hmn & Hmx
          & Hne & Hi1 & Hi2 & He1 & He2 & Hsn & Hls & Hn1 & Hl1 & Ha1
          & Hn2 & Hl2 & Ha2).
  assert (Hne1 : l1 ≠ []) by (by intros ->).
  assert (Hne2 : l2 ≠ []) by (by intros ->).
  pose proof (LineFacts.live_inv _ n1 l1 Hl1) as (_ & H81 & _ & _ & Hlen1).
  pose proof (LineFacts.live_inv _ n2 l2 Hl2) as (_ & H82 & _ & _ & Hlen2).
  assert (Hend : end_ k
                 = Ok (tree_position.mk (root_pointer k)
                         (page_position.mk i2 (Z.of_nat (length l2))), k)).
  { unfold end_, bind at 1, gets at 1. rewrite Hmax. unfold bind at 1.
    rewrite (on_leaf_same _ _ k p _ Hp
               (end_position_leaf _ p n2 l2 ltac:(by rewrite Hmx)
                  ltac:(by rewrite Hmx) Hl2 Hne2)).
    by rewrite Hmx. }
  assert (Hstep : ∀ fuel i j,
    visit fuel (tree_position.mk (root_pointer k) (page_position.mk i j)) k
    = (if negb (i =? i2) || negb (j =? Z.of_nat (length l2))
       then match fuel with
            | O => Err Diverges
            | S fuel' =>
                (x <- elem (tree_position.mk (root_pointer k)
                              (page_position.mk i j)) ;;
                 it' <- increment (tree_position.mk (root_pointer k)
                              (page_position.mk i j)) ;;
                 xs <- visit fuel' it' ;;
                 ret (x :: xs))%monad k
            end
       else Ok ([], k))).
  { intros f i j. destruct f; simpl; unfold bind at 1; rewrite Hend;
      unfold tree_position.neqb, page_position.neqb; simpl;
      rewrite !Z.eqb_refl; simpl;
      destruct (negb (i =? i2) || negb (j =? Z.of_nat (length l2)));
      reflexivity. }
  assert (V2 : ∀ f j, (j ≤ length l2)%nat → (length l2 - j ≤ f)%nat →
    visit f (tree_position.mk (root_pointer k)
               (page_position.mk i2 (Z.of_nat j))) k
    = Ok (drop j l2, k)).
  { induction f as [|f IH]; intros j Hj Hf; rewrite Hstep, Z.eqb_refl;
      simpl negb; simpl orb.
    - rewrite (proj2 (Z.eqb_eq _ _)) by lia. simpl.
      by rewrite drop_ge by lia.
    - destruct (Z.eqb_spec (Z.of_nat j) (Z.of_nat (length l2))) as [E|E];
        simpl; [by rewrite drop_ge by lia|].
      destruct (lookup_lt_is_Some_2 l2 j ltac:(lia)) as [x Hx].
      unfold bind at 1.
      rewrite (elem_page _ x (elem_leaf _ p i2 n2 l2 j x Hi2 Hn2 Hl2 Hx)).
      unfold bind at 1.
      rewrite (increment_page _ _
                 (next_position_inside _ p i2 n2 (Z.of_nat j) Hi2 Hn2
                    ltac:(left; by rewrite Ha2) ltac:(lia))).
      unfold bind at 1.
      replace (Z.of_nat j + 1) with (Z.of_nat (S j)) by lia.
      rewrite IH by lia. unfold ret. by rewrite (drop_S l2 x j Hx). }
  assert (Hnil : i2 ≠ page_index_nil).
  { intros ->. apply lookup_lt_Some in Hn2.
    pose proof (lookup_lt_Some _ _ _ Hsn).
    unfold Page.in_pool in Hi2. change (Page.pool (cfg leaf_kind)) with 15 in Hi2.
    unfold page_index_nil in Hi2. lia. }
  assert (V1 : ∀ d j f, (length l1 - j = S d)%nat →
    (S d + length l2 ≤ f)%nat →
    visit f (tree_position.mk (root_pointer k)
               (page_position.mk i1 (Z.of_nat j))) k
    = Ok (drop j l1 ++ l2, k)).
  { induction d as [|d IH]; intros j f Hd Hf; rewrite Hstep;
      rewrite (proj2 (Z.eqb_neq i1 i2) Hne); simpl negb; simpl orb;
      (destruct f as [|f]; [lia|]);
      destruct (lookup_lt_is_Some_2 l1 j ltac:(lia)) as [x Hx];
      unfold bind at 1;
      rewrite (elem_page _ x (elem_leaf _ p i1 n1 l1 j x Hi1 Hn1 Hl1 Hx));
      unfold bind at 1.
    - replace (Z.of_nat j) with (Line.max_index n1)
        by (rewrite (max_index_live _ n1 l1 Hl1 Hne1); lia).
      rewrite (increment_page _ _
                 (next_position_cross _ p i1 n1 i2 n2 Hi1 Hn1
                    ltac:(by rewrite Ha1) Hnil Hi2 Hn2)).
      unfold bind at 1.
      pose proof (V2 f 0%nat ltac:(lia) ltac:(lia)) as V.
      change (Z.of_nat 0) with 0 in V. rewrite V.
      unfold ret. rewrite drop_0. rewrite (drop_S l1 x j Hx).
      by rewrite drop_ge by lia.
    - rewrite (increment_page _ _
                 (next_position_inside _ p i1 n1 (Z.of_nat j) Hi1 Hn1
                    ltac:(right; rewrite (max_index_live _ n1 l1 Hl1 Hne1);
                          lia) ltac:(lia))).
      unfold bind at 1.
      replace (Z.of_nat j + 1) with (Z.of_nat (S j)) by lia.
      rewrite (IH (S j) f) by lia. unfold ret.
      by rewrite (drop_S l1 x j Hx). }
  unfold iterate, bind at 1, begin_, bind at 1, gets at 1. rewrite Hmin.
  unfold bind at 1.
  rewrite (on_leaf_same _ _ k p _ Hp
             (min_position_leaf _ p n1 ltac:(by rewrite Hmn)
                ltac:(by rewrite Hmn))).
  unfold ret at 1. rewrite Hmn.
  destruct l1 as [|y l1']; [done|].
  exact (V1 (length l1') 0%nat fuel ltac:(simpl; lia) ltac:(simpl in *; lia)).
Qed.

End two_lines_map.
End TwoLinesMapFacts.

(** ** Properties of a page node with a stem *)

Module PageTreeProperties.
Import Page PutFacts SplitFacts TwoLinesFacts.
Section page.
Context {T A : Type} (c : config).
Implicit Types (p : PageNode T A) (l : list (Z * T)) (e : Z * T).

(** X26.  [PageNode::insert] into a page that is one full leaf line, with
    sorted elements and a pool that has given no entry back: [split_root]
    moves the second half of the line to a new leaf and puts a stem above the
    two, which takes two entries of the pool; the page then holds the old
    elements and the new one, the new one behind the elements whose keys are
    not greater. *)
Theorem insert_into_full_line_splits p l e :
  one_line c p l → fresh_pool c p →
  Z.of_nat (length l) = leaf_max c → sorted l →
  2 ≤ leaf_max c < 256 → 3 ≤ stem_max c < 256 →
  ∃ p' l1 l2, insert c e p = Ok (tt, p')
      ∧ two_lines c p' l1 l2 ∧ l1 ++ l2 = put_behind e l
      ∧ contents c p' = Some (put_behind e l)
      ∧ stem_levels p' = 1 ∧ free_count p' = free_count p - 2.
Proof.
  intros H1 Hf Hfull Hs Hlm Hsm.
  destruct (insert_full_line c p l e H1 Hf Hfull Hs Hlm Hsm)
    as (p' & l1 & l2 & Hi & H2 & Happ & Hc & Hfc & _ & Hsl & _).
  by exists p', l1, l2.
Qed.

(** X27.  [PageNode::insert] into a page of two leaf lines that both have
    room: the new element goes into the second line if its key is not smaller
    than the first key of that line, else into the first line, whose key in
    the stem is lowered if the new key is smaller; no pool entry is taken.
    With sorted elements the page holds the old elements and the new one, the
    new one behind the elements whose keys are not greater. *)
Theorem insert_into_two_lines p l1 l2 e :
  two_lines c p l1 l2 → sorted (l1 ++ l2) →
  Z.of_nat (length l1) < leaf_max c → Z.of_nat (length l2) < leaf_max c →
  leaf_max c < 256 → 3 ≤ stem_max c →
  ∃ p' l1' l2', insert c e p = Ok (tt, p')
      ∧ two_lines c p' l1' l2' ∧ l1' ++ l2' = put_behind e (l1 ++ l2)
      ∧ contents c p' = Some (put_behind e (l1 ++ l2))
      ∧ stem_levels p' = 1 ∧ free_count p' = free_count p.
Proof.
  intros H2 Hs Hr1 Hr2 H8 Hsm.
  destruct (insert_two_lines_contents c p l1 l2 e H2 Hs Hr1 Hr2 H8 Hsm)
    as (p' & l1' & l2' & Hi & H2' & Happ & Hc & Hfc & _ & Hsl & _).
  by exists p', l1', l2'.
Qed.

(** X25.  [PageNode::find] on a page of any depth that holds at least one
    element, where no line is empty, every stem entry carries the first key
    of its child ([contents c p = Some l], see
    [FindFacts.page_contents_not_empty]) and the elements are sorted: [find]
    leaves the page as it is and arrives at the element with the greatest
    key that is not greater than the key given, or at the first element if
    all keys are greater. *)
Theorem page_find_gives_greatest_key_not_above p l key :
  contents c p = Some l → sorted l →
  ∃ pos e, find c key p = Ok (pos, p) ∧ elem c pos p = Ok (e, p)
     ∧ l !! find_index key l = Some e
     ∧ ((∃ x, x ∈ l ∧ fst x ≤ key) →
          fst e ≤ key ∧ ∀ x, x ∈ l → fst x ≤ key → fst x ≤ fst e)
     ∧ ((∀ x, x ∈ l → key < fst x) → l !! 0%nat = Some e).
Proof.
  intros Hc Hs.
  destruct (PageFindFacts.page_find_contents c key p l Hc Hs)
    as (pos & e & ln & Hf & _ & _ & _ & He & Hl).
  exists pos, e. split; [done|]. split; [done|]. split; [done|]. split.
  - by apply find_index_greatest.
  - intros Hall. by rewrite <- (find_index_all_above key l Hall).
Qed.

End page.

Lemma sorted_1_15 :
  sorted
    [(1, 10); (2, 20); (3, 30); (4, 40); (5, 50); (6, 60); (7, 70);
       (8, 80); (9, 90); (10, 100); (11, 110); (12, 120); (13, 130);
       (14, 140); (15, 150)].
Proof. unfold sorted. apply (bool_decide_unpack _). vm_compute. exact I. Qed.

Lemma sorted_1_16 :
  sorted
    ([(1, 10); (2, 20); (3, 30); (4, 40); (5, 50); (6, 60); (7, 70);
       (8, 80)]
     ++ [(9, 90); (10, 100); (11, 110); (12, 120); (13, 130); (14, 140);
       (15, 150); (16, 160)]).
Proof. unfold sorted. apply (bool_decide_unpack _). vm_compute. exact I. Qed.

Lemma one_full_line_page :
  one_line (Kernel.cfg Kernel.leaf_kind)
    (Kernel.leaf_page_at 1 (Kernel.state_of Kernel.one_full_line))
    [(1, 10); (2, 20); (3, 30); (4, 40); (5, 50); (6, 60); (7, 70);
       (8, 80); (9, 90); (10, 100); (11, 110); (12, 120); (13, 130);
       (14, 140); (15, 150)].
Proof.
  repeat split.
  let n := eval vm_compute in
    (pool_memory (Kernel.leaf_page_at 1 (Kernel.state_of Kernel.one_full_line))
       !! Z.to_nat 0) in
  match n with Some (leaf ?x) => exists x end.
  split; [vm_compute; reflexivity|]. split; vm_compute; reflexivity.
Qed.

Lemma one_full_line_fresh :
  fresh_pool (Kernel.cfg Kernel.leaf_kind)
    (Kernel.leaf_page_at 1 (Kernel.state_of Kernel.one_full_line)).
Proof. repeat split; vm_compute; done. Qed.

Lemma two_lines_page :
  two_lines (Kernel.cfg Kernel.leaf_kind)
    (Kernel.leaf_page_at 1
       (Kernel.state_of (Kernel.run (Kernel.inserts 1 16) Kernel.kernel_)))
    [(1, 10); (2, 20); (3, 30); (4, 40); (5, 50); (6, 60); (7, 70);
       (8, 80)]
    [(9, 90); (10, 100); (11, 110); (12, 120); (13, 130); (14, 140);
       (15, 150); (16, 160)].
Proof.
  split; [vm_compute; reflexivity|]. split; [vm_compute; reflexivity|].
  exists 0, 1, (1, 10), (9, 90).
  let pm := eval vm_compute in
    (pool_memory
       (Kernel.leaf_page_at 1
          (Kernel.state_of (Kernel.run (Kernel.inserts 1 16) Kernel.kernel_))))
  in
  match pm with
  | leaf ?n1 :: leaf ?n2 :: stem ?sn :: _ => exists sn, n1, n2
  end.
  repeat split; vm_compute; done.
Qed.

Lemma insert_into_full_line_splits_witness :
  ∃ p' l1 l2,
    insert (Kernel.cfg Kernel.leaf_kind) (0, 0)
      (Kernel.leaf_page_at 1 (Kernel.state_of Kernel.one_full_line))
    = Ok (tt, p')
    ∧ two_lines (Kernel.cfg Kernel.leaf_kind) p' l1 l2
    ∧ l1 ++ l2
      = put_behind (0, 0)
          [(1, 10); (2, 20); (3, 30); (4, 40); (5, 50); (6, 60); (7, 70);
       (8, 80); (9, 90); (10, 100); (11, 110); (12, 120); (13, 130);
       (14, 140); (15, 150)]
    ∧ contents (Kernel.cfg Kernel.leaf_kind) p'
      = Some (put_behind (0, 0)
                [(1, 10); (2, 20); (3, 30); (4, 40); (5, 50); (6, 60); (7, 70);
       (8, 80); (9, 90); (10, 100); (11, 110); (12, 120); (13, 130);
       (14, 140); (15, 150)])
    ∧ stem_levels p' = 1
    ∧ free_count p'
      = free_count
          (Kernel.leaf_page_at 1 (Kernel.state_of Kernel.one_full_line)) - 2.
Proof.
  apply insert_into_full_line_splits.
  - exact one_full_line_page.
  - exact one_full_line_fresh.
  - reflexivity.
  - exact sorted_1_15.
  - vm_compute. split; [discriminate|reflexivity].
  - vm_compute. split; [discriminate|reflexivity].
Defined.

Lemma insert_into_two_lines_witness :
  ∃ p' l1' l2',
    insert (Kernel.cfg Kernel.leaf_kind) (4, 44)
      (Kernel.leaf_page_at 1
         (Kernel.state_of (Kernel.run (Kernel.inserts 1 16) Kernel.kernel_)))
    = Ok (tt, p')
    ∧ two_lines (Kernel.cfg Kernel.leaf_kind) p' l1' l2'
    ∧ l1' ++ l2'
      = put_behind (4, 44)
          ([(1, 10); (2, 20); (3, 30); (4, 40); (5, 50); (6, 60); (7, 70);
       (8, 80)]
           ++ [(9, 90); (10, 100); (11, 110); (12, 120); (13, 130); (14, 140);
       (15, 150); (16, 160)])
    ∧ contents (Kernel.cfg Kernel.leaf_kind) p'
      = Some (put_behind (4, 44)
                ([(1, 10); (2, 20); (3, 30); (4, 40); (5, 50); (6, 60); (7, 70);
       (8, 80)]
                 ++ [(9, 90); (10, 100); (11, 110); (12, 120); (13, 130); (14, 140);
       (15, 150); (16, 160)]))
    ∧ stem_levels p' = 1
    ∧ free_count p'
      = free_count
          (Kernel.leaf_page_at 1
             (Kernel.state_of
                (Kernel.run (Kernel.inserts 1 16) Kernel.kernel_))).
Proof.
  apply insert_into_two_lines.
  - exact two_lines_page.
  - exact sorted_1_16.
  - reflexivity.
  - reflexivity.
  - reflexivity.
  - vm_compute. discriminate.
Defined.

Lemma page_find_gives_greatest_key_not_above_witness :
  ∃ pos e,
    find (Kernel.cfg Kernel.leaf_kind) 100
      (Kernel.leaf_page_at 1
         (Kernel.state_of (Kernel.run (Kernel.inserts 1 16) Kernel.kernel_)))
    = Ok (pos,
          Kernel.leaf_page_at 1
            (Kernel.state_of
               (Kernel.run (Kernel.inserts 1 16) Kernel.kernel_)))
    ∧ elem (Kernel.cfg Kernel.leaf_kind) pos
        (Kernel.leaf_page_at 1
           (Kernel.state_of (Kernel.run (Kernel.inserts 1 16) Kernel.kernel_)))
      = Ok (e,
            Kernel.leaf_page_at 1
              (Kernel.state_of
                 (Kernel.run (Kernel.inserts 1 16) Kernel.kernel_)))
    ∧ ([(1, 10); (2, 20); (3, 30); (4, 40); (5, 50); (6, 60); (7, 70);
       (8, 80)]
       ++ [(9, 90); (10, 100); (11, 110); (12, 120); (13, 130); (14, 140);
       (15, 150); (16, 160)])
        !! find_index 100
             ([(1, 10); (2, 20); (3, 30); (4, 40); (5, 50); (6, 60); (7, 70);
       (8, 80)]
       ++ [(9, 90); (10, 100); (11, 110); (12, 120); (13, 130); (14, 140);
       (15, 150); (16, 160)])
      = Some e
    ∧ ((∃ x, x ∈ ([(1, 10); (2, 20); (3, 30); (4, 40); (5, 50); (6, 60); (7, 70);
       (8, 80)]
       ++ [(9, 90); (10, 100); (11, 110); (12, 120); (13, 130); (14, 140);
       (15, 150); (16, 160)])
             ∧ fst x ≤ 100) →
         fst e ≤ 100
         ∧ ∀ x, x ∈ ([(1, 10); (2, 20); (3, 30); (4, 40); (5, 50); (6, 60); (7, 70);
       (8, 80)]
       ++ [(9, 90); (10, 100); (11, 110); (12, 120); (13, 130); (14, 140);
       (15, 150); (16, 160)]) →
                fst x ≤ 100 → fst x ≤ fst e)
    ∧ ((∀ x, x ∈ ([(1, 10); (2, 20); (3, 30); (4, 40); (5, 50); (6, 60); (7, 70);
       (8, 80)]
       ++ [(9, 90); (10, 100); (11, 110); (12, 120); (13, 130); (14, 140);
       (15, 150); (16, 160)]) →
             100 < fst x) →
         ([(1, 10); (2, 20); (3, 30); (4, 40); (5, 50); (6, 60); (7, 70);
       (8, 80)]
       ++ [(9, 90); (10, 100); (11, 110); (12, 120); (13, 130); (14, 140);
       (15, 150); (16, 160)])
           !! 0%nat = Some e).
Proof.
  apply page_find_gives_greatest_key_not_above.
  - vm_compute. reflexivity.
  - exact sorted_1_16.
Defined.

End PageTreeProperties.

Module SplitMapProperties.
Import Kernel FindFacts PutFacts OneLineFacts SplitFacts SplitMapFacts
  TwoLinesMapFacts KernelFacts.
Implicit Types (k : kernel) (l : list (Z * Z)) (e : Z * Z).

Lemma run_snoc ops o s : run (ops ++ [o]) s = exec (apply o) (run ops s).
Proof. unfold run. by rewrite fold_left_app. Qed.

Lemma insert_sixteenth ops l e :
  run_list ops [] = Some l → length l = 15%nat →
  ∃ k k', run ops kernel_ = Ok k ∧ insert e k = Ok (tt, k')
      ∧ contents k' = Some (put_behind e l) ∧ sorted (put_behind e l)
      ∧ iterate loops k' = Ok (put_behind e l, k')
      ∧ at_ (fst e) k' = Ok (snd e, k').
Proof.
  intros Hrun Hlen.
  destruct kernel_fresh as (k0 & p0 & Hk0 & H0 & Hp0 & Hf0).
  destruct (MapProperties.run_one_line ops k0 [] l H0 ltac:(constructor)
              (reachable_new k0 Hk0) Hrun) as (k & Hk & H1 & Hs & Hr).
  destruct (run_one_line_fresh ops k0 [] l p0 H0 Hrun Hp0 Hf0)
    as (k1 & p & Hk1 & Hp & Hf).
  rewrite Hk in Hk1. injection Hk1 as <-.
  destruct H1 as (Hsl & Hmin & Hmax & p1 & Hp1 & Hl1 & Ho & Ha).
  rewrite Hp in Hp1. injection Hp1 as <-.
  destruct (insert_full_line (cfg leaf_kind) p l e Hl1 Hf)
    as (p' & l1 & l2 & Hi & H2 & Happ & Hc & Hfc & Ha' & Hsl' & Hg1 & Hg2);
    [rewrite leaf_max_15; lia|done|rewrite leaf_max_15; lia
    |change (Page.stem_max (cfg leaf_kind)) with 15; lia|].
  set (k' := set_heap (<[root_pointer k := leaf_object p']> (heap k)) k).
  assert (Hp' : heap k' !! root_pointer k' = Some (leaf_object p')).
  { apply lookup_insert_eq. }
  assert (Hne : put_behind e l ≠ []).
  { intros E. apply (f_equal length) in E.
    by rewrite put_behind_length in E. }
  assert (Hck : contents k' = Some (put_behind e l)).
  { unfold contents. change (stem_levels k') with (stem_levels k).
    rewrite Hsl. change (0 <=? 0) with true. change (Z.to_nat 0) with 0%nat.
    cbv iota. rewrite tree_subtree_0.
    change (heap k' !! root_pointer k) with (heap k' !! root_pointer k').
    rewrite Hp', Hc. by destruct (put_behind e l). }
  pose proof (put_behind_sorted e l Hs) as Hs'.
  exists k, k'. rewrite Hk0. split; [done|].
  split; [by apply (insert_root k p p')|]. split; [done|]. split; [done|].
  split.
  - rewrite <- Happ.
    apply (iterate_two_lines k' p' l1 l2 Hmin Hmax Hp'); [congruence|done|].
    rewrite <- length_app, Happ, put_behind_length, Hlen. unfold loops. lia.
  - destruct (tree_find_contents (fst e) k' _ Hck Hs')
      as (pos & e0 & _ & _ & Hfind & _ & _ & _ & _ & Hel & Hlk).
    rewrite find_index_put_behind, put_behind_lookup in Hlk.
    injection Hlk as <-.
    unfold at_, bind. unfold find in Hfind. by rewrite Hfind, Hel.
Qed.

(** X28.  A map that is one full leaf line takes one more element: [insert]
    returns, the loop from [begin()] to [end()] visits the 16 elements in
    ascending order of the keys, across the two leaf lines that the root page
    now has, and [operator[]] gives the value of the new element. *)
Theorem insert_splits_full_line ops l e :
  run_list ops [] = Some l → length l = 15%nat →
  ∃ k k', run ops kernel_ = Ok k ∧ insert e k = Ok (tt, k')
      ∧ contents k' = Some (put_behind e l) ∧ sorted (put_behind e l)
      ∧ iterate loops k' = Ok (put_behind e l, k')
      ∧ at_ (fst e) k' = Ok (snd e, k').
Proof. apply insert_sixteenth. Qed.

Lemma insert_splits_full_line_witness :
  ∃ k k', run (inserts 1 15) kernel_ = Ok k ∧ insert (0, 0) k = Ok (tt, k')
      ∧ contents k'
        = Some (put_behind (0, 0)
                  [(1, 10); (2, 20); (3, 30); (4, 40); (5, 50); (6, 60); (7, 70);
       (8, 80); (9, 90); (10, 100); (11, 110); (12, 120); (13, 130);
       (14, 140); (15, 150)])
      ∧ sorted
          (put_behind (0, 0)
             [(1, 10); (2, 20); (3, 30); (4, 40); (5, 50); (6, 60); (7, 70);
       (8, 80); (9, 90); (10, 100); (11, 110); (12, 120); (13, 130);
       (14, 140); (15, 150)])
      ∧ iterate loops k'
        = Ok (put_behind (0, 0)
                [(1, 10); (2, 20); (3, 30); (4, 40); (5, 50); (6, 60); (7, 70);
       (8, 80); (9, 90); (10, 100); (11, 110); (12, 120); (13, 130);
       (14, 140); (15, 150)], k')
      ∧ at_ (fst (0, 0)) k' = Ok (snd (0, 0), k').
Proof.
  apply (insert_splits_full_line (inserts 1 15)); reflexivity.
Defined.

End SplitMapProperties.

(** ** [erase] in a page node of two leaf lines *)

Module DeleteAppFacts.
Import PutFacts PutAppFacts.
Section delete_app.
Context {X : Type}.
Implicit Types (l : list (Z * X)) (k : Z).

Lemma delete_app_l {Y} (l1 l2 : list Y) (i : nat) :
  (i < length l1)%nat → delete i (l1 ++ l2) = delete i l1 ++ l2.
Proof.
  revert i. induction l1 as [|x l1 IH]; intros [|i] Hi; simpl in *;
    try lia; [done|]. by rewrite IH by lia.
Qed.

Lemma delete_app_r {Y} (l1 l2 : list Y) (i : nat) :
  delete (length l1 + i)%nat (l1 ++ l2) = l1 ++ delete i l2.
Proof. induction l1 as [|x l1 IH]; simpl; [done|]. by rewrite IH. Qed.

Lemma find_index_app_l l1 l2 k x :
  head l2 = Some x → k < fst x →
  find_index k (l1 ++ l2) = find_index k l1.
Proof.
  intros Hx Hlt. unfold find_index. f_equal.
  pose proof (run_length_le k l1) as Hle.
  destruct (decide (run_length k l1 < length l1)%nat) as [H|H].
  - by apply run_length_app_stop.
  - rewrite run_length_app_all by lia.
    rewrite (run_length_head_above _ l2 x Hx Hlt). lia.
Qed.

Lemma find_index_app_r l1 l2 k x :
  (∀ y, y ∈ l1 → fst y ≤ k) → head l2 = Some x → fst x ≤ k →
  find_index k (l1 ++ l2) = (length l1 + find_index k l2)%nat.
Proof.
  intros Hall Hx Hle. unfold find_index.
  rewrite (run_length_app_all _ l1 l2 (run_length_all _ l1 Hall)).
  pose proof (run_length_head_below _ l2 x Hx Hle). lia.
Qed.

Lemma head_delete_S {Y} (l : list Y) (i : nat) : head (delete (S i) l) = head l.
Proof. by destruct l. Qed.

Lemma head_delete_0 {Y} (l : list Y) : head (delete 0%nat l) = l !! 1%nat.
Proof. destruct l as [|x [|y l]]; done. Qed.

End delete_app.
End DeleteAppFacts.

Module TwoLinesEraseFacts.
Import Page LineFacts LineOpsFacts PutFacts PutAppFacts SetKeyFacts
  OneLinePageFacts TwoLinesFacts DeleteAppFacts.
Section erase_page.
Context {T A : Type} (c : config).
Implicit Types (p : PageNode T A) (l : list (Z * T)) (e : Z * T).

(** The path of [find_path] in a page with one stem level *)
Lemma find_path_one_level p key r (sn : stem_node) rs x
    (tl : leaf_node T) lt :
  stem_levels p = 1 → root_index p = r → 2 ≤ max_levels c →
  in_pool c r = true → pool_memory p !! Z.to_nat r = Some (stem sn) →
  Line.live (stem_max c) sn = Some rs → rs ≠ [] →
  rs !! find_index key rs = Some x →
  in_pool c (snd x) = true →
  pool_memory p !! Z.to_nat (snd x) = Some (leaf tl) →
  Line.live (leaf_max c) tl = Some lt → lt ≠ [] →
  ∃ path, find_path c key p = Ok (path, p)
    ∧ (∀ what, path_get c what path 0
               = Ok (page_position.mk r (Z.of_nat (find_index key rs))))
    ∧ (∀ what, path_get c what path 1
               = Ok (page_position.mk (snd x)
                       (Z.of_nat (find_index key lt)))).
Proof.
  intros Hsl Hr Hml Hir Hsn Hls Hne Hx Hit Htl Hlt Hnel.
  exists (<[1%nat := Some (page_position.mk (snd x)
                             (Z.of_nat (find_index key lt)))]>
            (<[0%nat := Some (page_position.mk r
                                (Z.of_nat (find_index key rs)))]>
               (replicate (Z.to_nat (max_levels c)) None))).
  assert (Hin0 : in_path c 0 = true) by (unfold in_path; lia).
  assert (Hin1 : in_path c 1 = true) by (unfold in_path; lia).
  split; [|split].
  - unfold find_path, make_path, bind at 1, gets at 1.
    unfold bind at 1, gets at 1. rewrite Hsl, Hr.
    change (Z.to_nat 1) with 1%nat. simpl descend_path.
    unfold bind at 1.
    rewrite (bind_Ok _ _ _ _ _ (get_stem_ok c r p sn Hir Hsn)).
    rewrite (bind_lift _ _ _ _ (find_live _ sn rs key Hls Hne)).
    unfold path_set at 1. rewrite Hin0.
    rewrite (bind_lift _ _ _ _ eq_refl).
    rewrite (bind_lift _ _ _ _ (live_elem _ sn rs _ x Hls Hx)).
    unfold ret at 1. cbv beta iota.
    rewrite (bind_Ok _ _ _ _ _ (get_leaf_ok c _ p tl Hit Htl)).
    rewrite (bind_lift _ _ _ _ (find_live _ tl lt key Hlt Hnel)).
    unfold lift, path_set. by rewrite Hin1.
  - intros what. unfold path_get. rewrite Hin0.
    destruct (Z.to_nat (max_levels c)) as [|[|m]] eqn:Em; [lia|lia|].
    reflexivity.
  - intros what. unfold path_get. rewrite Hin1.
    destruct (Z.to_nat (max_levels c)) as [|[|m]] eqn:Em; [lia|lia|].
    reflexivity.
Qed.

(** [erase] in a page with one stem level when the leaf is not thin *)
Lemma erase_leaf_not_thin p key r (sn : stem_node) rs x
    (tl : leaf_node T) lt :
  stem_levels p = 1 → root_index p = r → 2 ≤ max_levels c →
  in_pool c r = true → pool_memory p !! Z.to_nat r = Some (stem sn) →
  Line.live (stem_max c) sn = Some rs → rs ≠ [] →
  rs !! find_index key rs = Some x →
  in_pool c (snd x) = true → snd x ≠ r →
  pool_memory p !! Z.to_nat (snd x) = Some (leaf tl) →
  Line.live (leaf_max c) tl = Some lt →
  (2 ≤ length lt)%nat → leaf_max c / 2 ≤ Z.of_nat (length lt) →
  ∃ (sn' : stem_node) (tl' : leaf_node T) y,
    head (delete (find_index key lt) lt) = Some y
    ∧ Line.live (leaf_max c) tl' = Some (delete (find_index key lt) lt)
    ∧ Line.aux tl' = Line.aux tl
    ∧ Line.live (stem_max c) sn'
      = Some (if Z.of_nat (find_index key lt) =? 0
              then <[find_index key rs := (fst y, snd x)]> rs else rs)
    ∧ erase c key p
      = Ok (tt, set_pool_memory
                  (<[Z.to_nat r := stem sn']>
                     (<[Z.to_nat (snd x) := leaf tl']> (pool_memory p))) p).
Proof.
  intros Hsl Hr Hml Hir Hsn Hls Hne Hx Hit Htr Htl Hlt Hlen Hthin.
  assert (Hnel : lt ≠ []) by (intros ->; simpl in Hlen; lia).
  destruct (find_path_one_level p key r sn rs x tl lt Hsl Hr Hml Hir Hsn Hls
              Hne Hx Hit Htl Hlt Hnel) as (path & Hp & Hg0 & Hg1).
  pose proof (find_index_lt key lt Hnel) as Hj.
  set (j := find_index key lt) in *.
  destruct (erase_live (leaf_max c) tl lt j Hlt Hj)
    as (tl' & Her & Hl' & Ha').
  assert (∃ y, head (delete j lt) = Some y) as [y Hy].
  { destruct lt as [|a [|b lt']]; simpl in Hlen; try lia.
    destruct j; simpl; eauto. }
  set (p1 := set_pool_memory
               (<[Z.to_nat (snd x) := leaf tl']> (pool_memory p)) p).
  pose proof (to_nat_ne c _ _ Hit Hir Htr) as Hq.
  assert (Hsn1 : pool_memory p1 !! Z.to_nat r = Some (stem sn)).
  { unfold p1. simpl. by rewrite list_lookup_insert_ne. }
  assert (Htl1 : pool_memory p1 !! Z.to_nat (snd x) = Some (leaf tl')).
  { unfold p1. simpl. apply list_lookup_insert_eq.
    by eapply lookup_lt_Some. }
  assert (∃ sn', (if Z.of_nat j =? 0
                   then Line.set_key (stem_max c) sn
                          (Z.of_nat (find_index key rs)) (fst y)
                   else Ok sn) = Ok sn'
            ∧ Line.live (stem_max c) sn'
              = Some (if Z.of_nat j =? 0
                      then <[find_index key rs := (fst y, snd x)]> rs
                      else rs)) as (sn' & Hset & Hls').
  { destruct (Z.of_nat j =? 0); [|by exists sn].
    destruct (set_key_live (stem_max c) sn rs _ x (fst y) Hls Hx)
      as (sn' & H1 & H2 & _). by exists sn'. }
  exists sn', tl', y. split; [done|]. split; [done|]. split; [done|].
  split; [done|].
  unfold erase. rewrite (bind_Ok _ _ _ _ _ Hp).
  unfold bind at 1, gets at 1. rewrite Hsl.
  rewrite (bind_lift _ _ _ _ (Hg1 _)).
  cbn [page_position.line page_position.elem].
  rewrite (bind_Ok _ _ _ _ _ (get_leaf_ok c _ p tl Hit Htl)).
  unfold Line.thin, Line.min_count.
  pose proof (live_inv _ tl lt Hlt) as (_ & _ & _ & _ & Hcnt).
  rewrite (proj2 (Z.ltb_ge _ _)) by lia. rewrite andb_false_r.
  rewrite (bind_Ok _ _ _ _ _
             (upd_leaf_ok c _ p tl tl' _ Hit Htl Her)).
  fold p1. change (1 >? 0) with true. rewrite andb_true_l.
  change (1 - 1) with 0. unfold when.
  destruct (Z.of_nat j =? 0).
  - rewrite (bind_lift _ _ _ _ (Hg0 _)).
    rewrite (bind_Ok _ _ _ _ _
               (leaf_min_key_ok c _ p1 tl' _ y Hit Htl1 Hl' Hy)).
    unfold update_key. change (Z.to_nat 0) with 0%nat. simpl update_key_rec.
    rewrite (bind_lift _ _ _ _ (Hg0 _)).
    cbn [page_position.line page_position.elem].
    rewrite (bind_Ok _ _ _ _ _ (upd_stem_ok c r p1 sn sn' _ Hir Hsn1 Hset)).
    reflexivity.
  - injection Hset as <-. unfold ret, p1.
    rewrite (list_insert_id _ (Z.to_nat r) (stem sn)); [done|].
    by rewrite list_lookup_insert_ne.
Qed.

Lemma erase_two_lines p l1 l2 key e1 e2 :
  two_lines c p l1 l2 → head l1 = Some e1 → head l2 = Some e2 →
  (2 ≤ length l1)%nat → (2 ≤ length l2)%nat →
  leaf_max c / 2 ≤ Z.of_nat (length l1) →
  leaf_max c / 2 ≤ Z.of_nat (length l2) →
  2 ≤ max_levels c →
  ∃ p', erase c key p = Ok (tt, p')
      ∧ free_count p' = free_count p ∧ Page.aux p' = Page.aux p
      ∧ if (fst e1 <=? key) && (fst e2 <=? key)
        then two_lines c p' l1 (delete (find_index key l2) l2)
        else two_lines c p' (delete (find_index key l1) l1) l2.
Proof.
  intros H2 Hh1 Hh2 Hn1' Hn2' Ht1 Ht2 Hml.
  destruct H2 as (Hsl & Hin & i1 & i2 & x1 & x2 & sn & n1 & n2 & Hmin & Hmax
          & Hne & Hi1 & Hi2 & He1 & He2 & Hsn & Hls & Hn1 & Hl1 & Ha1
          & Hn2 & Hl2 & Ha2).
  rewrite Hh1 in He1. injection He1 as <-.
  rewrite Hh2 in He2. injection He2 as <-.
  assert (Hr1' : i1 ≠ root_index p) by (intros ->; congruence).
  assert (Hr2' : i2 ≠ root_index p) by (intros ->; congruence).
  pose proof (to_nat_ne c _ _ Hi1 Hin Hr1') as Hq1.
  pose proof (to_nat_ne c _ _ Hi2 Hin Hr2') as Hq2.
  pose proof (to_nat_ne c _ _ Hi1 Hi2 Hne) as Hq12.
  pose proof (lookup_lt_Some _ _ _ Hsn) as Hlr.
  pose proof (lookup_lt_Some _ _ _ Hn1) as Hl1'.
  pose proof (lookup_lt_Some _ _ _ Hn2) as Hl2'.
  destruct (Z.leb_spec (fst e1) key) as [C1|C1];
    [destruct (Z.leb_spec (fst e2) key) as [C2|C2]|]; simpl andb.
  - (* the second leaf *)
    assert (Hfi : find_index key [(fst e1, i1); (fst e2, i2)] = 1%nat).
    { unfold find_index. simpl.
      destruct (Z.gtb_spec (fst e1) key); [lia|].
      destruct (Z.gtb_spec (fst e2) key); [lia|]. done. }
    destruct (erase_leaf_not_thin p key (root_index p) sn _ (fst e2, i2)
                n2 l2 Hsl eq_refl Hml Hin Hsn Hls ltac:(done))
      as (sn' & tl' & y & Hy & Hl' & Ha' & Hls' & Her);
      try done; [by rewrite Hfi|].
    rewrite Hfi in Hls'. simpl snd in *.
    eexists. split; [exact Her|]. split; [done|]. split; [done|].
    destruct (find_index key l2) as [|j] eqn:Ej.
    + simpl in Hls'.
      apply (two_lines_intro c _ (root_index p) i1 i2 sn' n1 tl' l1 _ e1 y);
        simpl; try done.
      * apply list_lookup_insert_eq. by rewrite length_insert.
      * rewrite !list_lookup_insert_ne by done. done.
      * rewrite list_lookup_insert_ne by done.
        by apply list_lookup_insert_eq.
      * by rewrite Ha'.
    + rewrite (proj2 (Z.eqb_neq _ _)) in Hls' by lia.
      rewrite head_delete_S, Hh2 in Hy. injection Hy as <-.
      apply (two_lines_intro c _ (root_index p) i1 i2 sn' n1 tl' l1 _ e1 e2);
        simpl; try done.
      * apply list_lookup_insert_eq. by rewrite length_insert.
      * rewrite !list_lookup_insert_ne by done. done.
      * rewrite list_lookup_insert_ne by done.
        by apply list_lookup_insert_eq.
      * by rewrite head_delete_S.
      * by rewrite Ha'.
  - (* the first leaf *)
    assert (Hfi : find_index key [(fst e1, i1); (fst e2, i2)] = 0%nat).
    { unfold find_index. simpl.
      destruct (Z.gtb_spec (fst e1) key); [done|].
      destruct (Z.gtb_spec (fst e2) key); [done|lia]. }
    destruct (erase_leaf_not_thin p key (root_index p) sn _ (fst e1, i1)
                n1 l1 Hsl eq_refl Hml Hin Hsn Hls ltac:(done))
      as (sn' & tl' & y & Hy & Hl' & Ha' & Hls' & Her);
      try done; [by rewrite Hfi|].
    rewrite Hfi in Hls'. simpl snd in *.
    eexists. split; [exact Her|]. split; [done|]. split; [done|].
    destruct (find_index key l1) as [|j] eqn:Ej.
    + simpl in Hls'.
      apply (two_lines_intro c _ (root_index p) i1 i2 sn' tl' n2 _ l2 y e2);
        simpl; try done.
      * apply list_lookup_insert_eq. by rewrite length_insert.
      * rewrite list_lookup_insert_ne by done.
        by apply list_lookup_insert_eq.
      * rewrite !list_lookup_insert_ne by done. done.
      * by rewrite Ha'.
    + rewrite (proj2 (Z.eqb_neq _ _)) in Hls' by lia.
      rewrite head_delete_S, Hh1 in Hy. injection Hy as <-.
      apply (two_lines_intro c _ (root_index p) i1 i2 sn' tl' n2 _ l2 e1 e2);
        simpl; try done.
      * apply list_lookup_insert_eq. by rewrite length_insert.
      * rewrite list_lookup_insert_ne by done.
        by apply list_lookup_insert_eq.
      * rewrite !list_lookup_insert_ne by done. done.
      * by rewrite head_delete_S.
      * by rewrite Ha'.
  - (* the first leaf, all keys are greater *)
    assert (Hfi : find_index key [(fst e1, i1); (fst e2, i2)] = 0%nat).
    { unfold find_index. simpl.
      destruct (Z.gtb_spec (fst e1) key); [done|lia]. }
    destruct (erase_leaf_not_thin p key (root_index p) sn _ (fst e1, i1)
                n1 l1 Hsl eq_refl Hml Hin Hsn Hls ltac:(done))
      as (sn' & tl' & y & Hy & Hl' & Ha' & Hls' & Her);
      try done; [by rewrite Hfi|].
    rewrite Hfi in Hls'. simpl snd in *.
    eexists. split; [exact Her|]. split; [done|]. split; [done|].
    destruct (find_index key l1) as [|j] eqn:Ej.
    + simpl in Hls'.
      apply (two_lines_intro c _ (root_index p) i1 i2 sn' tl' n2 _ l2 y e2);
        simpl; try done.
      * apply list_lookup_insert_eq. by rewrite length_insert.
      * rewrite list_lookup_insert_ne by done.
        by apply list_lookup_insert_eq.
      * rewrite !list_lookup_insert_ne by done. done.
      * by rewrite Ha'.
    + rewrite (proj2 (Z.eqb_neq _ _)) in Hls' by lia.
      rewrite head_delete_S, Hh1 in Hy. injection Hy as <-.
      apply (two_lines_intro c _ (root_index p) i1 i2 sn' tl' n2 _ l2 e1 e2);
        simpl; try done.
      * apply list_lookup_insert_eq. by rewrite length_insert.
      * rewrite list_lookup_insert_ne by done.
        by apply list_lookup_insert_eq.
      * rewrite !list_lookup_insert_ne by done. done.
      * by rewrite head_delete_S.
      * by rewrite Ha'.
Qed.

End erase_page.
End TwoLinesEraseFacts.

(** ** Properties of [erase] after a split *)

Module EraseTwoLinesFacts.
Import Page PutFacts PutAppFacts DeleteAppFacts TwoLinesFacts
  TwoLinesEraseFacts.
Section erase_contents.
Context {T A : Type} (c : config).
Implicit Types (p : PageNode T A) (l : list (Z * T)) (e : Z * T).

(** Which element goes agrees with its place in the whole list. *)
Lemma delete_two l1 l2 key e1 e2 :
  head l1 = Some e1 → head l2 = Some e2 → sorted (l1 ++ l2) →
  (if (fst e1 <=? key) && (fst e2 <=? key)
   then l1 ++ delete (find_index key l2) l2
   else delete (find_index key l1) l1 ++ l2)
  = delete (find_index key (l1 ++ l2)) (l1 ++ l2).
Proof.
  intros H1 H2 Hs. apply sorted_app in Hs as (H12 & Hs1 & Hs2).
  assert (He2 : e2 ∈ l2) by (destruct l2; [done|]; injection H2 as ->; left).
  assert (He1 : e1 ∈ l1) by (destruct l1; [done|]; injection H1 as ->; left).
  destruct (Z.leb_spec (fst e2) key) as [C2|C2].
  - rewrite (proj2 (Z.leb_le (fst e1) key))
      by (specialize (H12 e1 e2 He1 He2); lia).
    simpl. rewrite (find_index_app_r l1 l2 key e2); [|..|done|done].
    + by rewrite delete_app_r.
    + intros y Hy. specialize (H12 y e2 Hy He2). lia.
  - rewrite andb_false_r. rewrite (find_index_app_l l1 l2 key e2 H2 C2).
    rewrite delete_app_l; [done|].
    apply find_index_lt. by intros ->.
Qed.

Lemma erase_two_lines_contents p l1 l2 key :
  two_lines c p l1 l2 → sorted (l1 ++ l2) →
  (2 ≤ length l1)%nat → (2 ≤ length l2)%nat →
  leaf_max c / 2 ≤ Z.of_nat (length l1) →
  leaf_max c / 2 ≤ Z.of_nat (length l2) →
  2 ≤ max_levels c →
  ∃ p' l1' l2', erase c key p = Ok (tt, p')
      ∧ two_lines c p' l1' l2'
      ∧ l1' ++ l2' = delete (find_index key (l1 ++ l2)) (l1 ++ l2)
      ∧ contents c p'
        = Some (delete (find_index key (l1 ++ l2)) (l1 ++ l2))
      ∧ free_count p' = free_count p ∧ Page.aux p' = Page.aux p
      ∧ stem_levels p' = 1.
Proof.
  intros H2 Hs Hn1 Hn2 Ht1 Ht2 Hml.
  pose proof H2 as (_ & _ & i1 & i2 & e1 & e2 & _ & _ & _ & _ & _ & _ & _ & _
                    & He1 & He2 & _).
  destruct (erase_two_lines c p l1 l2 key e1 e2 H2 He1 He2 Hn1 Hn2 Ht1 Ht2
              Hml) as (p' & Hi & Hf & Ha & Hif).
  pose proof (delete_two l1 l2 key e1 e2 He1 He2 Hs) as Hdel.
  destruct ((fst e1 <=? key) && (fst e2 <=? key)).
  - exists p', l1, (delete (find_index key l2) l2). rewrite <- Hdel.
    split; [done|]. split; [done|]. split; [done|].
    split; [by apply contents_two_lines|]. split; [done|]. split; [done|].
    by destruct Hif.
  - exists p', (delete (find_index key l1) l1), l2. rewrite <- Hdel.
    split; [done|]. split; [done|]. split; [done|].
    split; [by apply contents_two_lines|]. split; [done|]. split; [done|].
    by destruct Hif.
Qed.

End erase_contents.
End EraseTwoLinesFacts.

Module PageEraseProperties.
Import Page EraseTwoLinesFacts.
Section page.
Context {T A : Type} (c : config).
Implicit Types (p : PageNode T A) (l : list (Z * T)) (e : Z * T).

(** X29.  [PageNode::erase] on a page of two leaf lines with sorted elements,
    neither line thin: the element that [find] arrives at is removed from its
    line, the key of the line in the stem follows if it was the first element,
    and no pool entry is given back. *)
Theorem erase_from_two_lines p l1 l2 key :
  two_lines c p l1 l2 → sorted (l1 ++ l2) →
  (2 ≤ length l1)%nat → (2 ≤ length l2)%nat →
  leaf_max c / 2 ≤ Z.of_nat (length l1) →
  leaf_max c / 2 ≤ Z.of_nat (length l2) →
  2 ≤ max_levels c →
  ∃ p' l1' l2', erase c key p = Ok (tt, p')
      ∧ two_lines c p' l1' l2'
      ∧ l1' ++ l2' = delete (find_index key (l1 ++ l2)) (l1 ++ l2)
      ∧ contents c p'
        = Some (delete (find_index key (l1 ++ l2)) (l1 ++ l2))
      ∧ stem_levels p' = 1 ∧ free_count p' = free_count p.
Proof.
  intros H2 Hs Hn1 Hn2 Ht1 Ht2 Hml.
  destruct (erase_two_lines_contents c p l1 l2 key H2 Hs Hn1 Hn2 Ht1 Ht2 Hml)
    as (p' & l1' & l2' & He & H2' & Happ & Hc & Hfc & _ & Hsl).
  by exists p', l1', l2'.
Qed.

End page.

Lemma erase_from_two_lines_witness :
  ∃ p' l1' l2',
    erase (Kernel.cfg Kernel.leaf_kind) 9
      (Kernel.leaf_page_at 1
         (Kernel.state_of (Kernel.run (Kernel.inserts 1 16) Kernel.kernel_)))
    = Ok (tt, p')
    ∧ two_lines (Kernel.cfg Kernel.leaf_kind) p' l1' l2'
    ∧ l1' ++ l2'
      = delete
          (find_index 9
             ([(1, 10); (2, 20); (3, 30); (4, 40); (5, 50); (6, 60); (7, 70);
       (8, 80)]
     ++ [(9, 90); (10, 100); (11, 110); (12, 120); (13, 130); (14, 140);
       (15, 150); (16, 160)]))
          ([(1, 10); (2, 20); (3, 30); (4, 40); (5, 50); (6, 60); (7, 70);
       (8, 80)]
     ++ [(9, 90); (10, 100); (11, 110); (12, 120); (13, 130); (14, 140);
       (15, 150); (16, 160)])
    ∧ contents (Kernel.cfg Kernel.leaf_kind) p'
      = Some
          (delete
             (find_index 9
                ([(1, 10); (2, 20); (3, 30); (4, 40); (5, 50); (6, 60); (7, 70);
       (8, 80)]
     ++ [(9, 90); (10, 100); (11, 110); (12, 120); (13, 130); (14, 140);
       (15, 150); (16, 160)]))
             ([(1, 10); (2, 20); (3, 30); (4, 40); (5, 50); (6, 60); (7, 70);
       (8, 80)]
     ++ [(9, 90); (10, 100); (11, 110); (12, 120); (13, 130); (14, 140);
       (15, 150); (16, 160)]))
    ∧ stem_levels p' = 1
    ∧ free_count p'
      = free_count
          (Kernel.leaf_page_at 1
             (Kernel.state_of
                (Kernel.run (Kernel.inserts 1 16) Kernel.kernel_))).
Proof.
  apply erase_from_two_lines.
  - exact PageTreeProperties.two_lines_page.
  - exact PageTreeProperties.sorted_1_16.
  - simpl. lia.
  - simpl. lia.
  - vm_compute. discriminate.
  - vm_compute. discriminate.
  - vm_compute. discriminate.
Defined.

End PageEraseProperties.

Module EraseSplitMapFacts.
Import Kernel FindFacts PutFacts OneLineFacts EmptiedMapFacts SplitFacts
  SplitMapFacts TwoLinesMapFacts EraseTwoLinesFacts KernelFacts.
Implicit Types (k : kernel) (l : list (Z * Z)) (e : Z * Z).

(** The state after the insertion that splits the root line *)
Lemma split_state ops l e :
  run_list ops [] = Some l → length l = 15%nat →
  ∃ k k' (p' : leaf_node) l1 l2,
    run ops kernel_ = Ok k ∧ insert e k = Ok (tt, k')
    ∧ stem_levels k' = 0
    ∧ min_leaf_pointer k' = root_pointer k'
    ∧ max_leaf_pointer k' = root_pointer k'
    ∧ heap k' !! root_pointer k' = Some (leaf_object p')
    ∧ Page.aux p' = mk_leaf_aux (Some nullptr) (Some nullptr)
    ∧ Page.two_lines (cfg leaf_kind) p' l1 l2
    ∧ l1 ++ l2 = put_behind e l ∧ sorted (put_behind e l)
    ∧ (7 ≤ length l1)%nat ∧ (7 ≤ length l2)%nat.
Proof.
  intros Hrun Hlen.
  destruct kernel_fresh as (k0 & p0 & Hk0 & H0 & Hp0 & Hf0).
  destruct (MapProperties.run_one_line ops k0 [] l H0 ltac:(constructor)
              (reachable_new k0 Hk0) Hrun) as (k & Hk & H1 & Hs & Hr).
  destruct (run_one_line_fresh ops k0 [] l p0 H0 Hrun Hp0 Hf0)
    as (k1 & p & Hk1 & Hp & Hf).
  rewrite Hk in Hk1. injection Hk1 as <-.
  destruct H1 as (Hsl & Hmin & Hmax & p1 & Hp1 & Hl1 & Ho & Ha).
  rewrite Hp in Hp1. injection Hp1 as <-.
  destruct (insert_full_line (cfg leaf_kind) p l e Hl1 Hf)
    as (p' & l1 & l2 & Hi & H2 & Happ & Hc & Hfc & Ha' & Hsl' & Hg1 & Hg2);
    [rewrite leaf_max_15; lia|done|rewrite leaf_max_15; lia
    |change (Page.stem_max (cfg leaf_kind)) with 15; lia|].
  rewrite Hlen in Hg1, Hg2. change (15 / 2)%nat with 7%nat in Hg1, Hg2.
  exists k, (set_heap (<[root_pointer k := leaf_object p']> (heap k)) k),
    p', l1, l2.
  rewrite Hk0. split; [done|].
  split; [by apply (insert_root k p p')|]. split; [done|]. split; [done|].
  split; [done|]. split; [apply lookup_insert_eq|]. split; [congruence|].
  split; [done|]. split; [done|]. split; [by apply put_behind_sorted|done].
Qed.

Lemma contents_root k (p : leaf_node) l :
  stem_levels k = 0 → heap k !! root_pointer k = Some (leaf_object p) →
  Page.contents (cfg leaf_kind) p = Some l → l ≠ [] →
  contents k = Some l.
Proof.
  intros Hsl Hp Hc Hne. unfold contents. rewrite Hsl.
  change (0 <=? 0) with true. change (Z.to_nat 0) with 0%nat. cbv iota.
  rewrite tree_subtree_0, Hp, Hc. by destruct l.
Qed.

(** [erase] in a map whose root page has two leaf lines, neither thin *)
Lemma erase_two_lines_map k (p : leaf_node) l1 l2 key :
  stem_levels k = 0 →
  min_leaf_pointer k = root_pointer k → max_leaf_pointer k = root_pointer k →
  heap k !! root_pointer k = Some (leaf_object p) →
  Page.aux p = mk_leaf_aux (Some nullptr) (Some nullptr) →
  Page.two_lines (cfg leaf_kind) p l1 l2 → sorted (l1 ++ l2) →
  (7 ≤ length l1)%nat → (7 ≤ length l2)%nat →
  ∃ k', erase key k = Ok (tt, k')
      ∧ contents k'
        = Some (delete (find_index key (l1 ++ l2)) (l1 ++ l2))
      ∧ iterate loops k'
        = Ok (delete (find_index key (l1 ++ l2)) (l1 ++ l2), k').
Proof.
  intros Hsl Hmin Hmax Hp Ha H2 Hs Hg1 Hg2.
  destruct (erase_two_lines_contents (cfg leaf_kind) p l1 l2 key H2 Hs)
    as (p' & l1' & l2' & Her & H2' & Happ & Hc & Hfc & Ha' & Hsl');
    [lia|lia|rewrite leaf_max_15; change (15 / 2) with 7; lia
    |rewrite leaf_max_15; change (15 / 2) with 7; lia|by vm_compute|].
  destruct (PageFindFacts.page_find_contents (cfg leaf_kind) key p _
              (TwoLinesFacts.contents_two_lines _ p l1 l2 H2) Hs)
    as (pos & e0 & ln & Hf & _).
  set (k' := set_heap (<[root_pointer k := leaf_object p']> (heap k)) k).
  assert (Hp' : heap k' !! root_pointer k' = Some (leaf_object p')).
  { apply lookup_insert_eq. }
  assert (Hlen : length (delete (find_index key (l1 ++ l2)) (l1 ++ l2))
                 = pred (length (l1 ++ l2))).
  { rewrite length_delete; [lia|]. apply lookup_lt_is_Some_2.
    apply find_index_lt. intros E. apply (f_equal length) in E.
    rewrite length_app in E. simpl in E. lia. }
  rewrite length_app in Hlen.
  exists k'. split; [by apply (erase_root k p p' key pos)|]. split.
  - apply (contents_root k' p'); [done|done|done|].
    intros E. rewrite E in Hlen. simpl in Hlen. lia.
  - rewrite <- Happ.
    apply (iterate_two_lines k' p' l1' l2' Hmin Hmax Hp'); [congruence|done|].
    rewrite <- length_app, Happ, Hlen.
    pose proof H2 as (_ & _ & i1 & i2 & e1 & e2 & sn & n1 & n2 & _ & _ & _
                      & _ & _ & _ & _ & _ & _ & _ & Hl1 & _ & _ & Hl2 & _).
    apply LineFacts.live_inv in Hl1 as (Hc1 & _ & _ & _ & Hn1).
    apply LineFacts.live_inv in Hl2 as (Hc2 & _ & _ & _ & Hn2).
    rewrite leaf_max_15 in Hc1, Hc2. unfold loops. lia.
Qed.

End EraseSplitMapFacts.

Module EraseSplitMapProperties.
Import Kernel EraseSplitMapFacts.

(** X30.  After the insertion that splits the root line of a full one-line
    map, [erase] returns and removes the element that [find] arrives at; the
    loop from [begin()] to [end()] visits the 15 elements that are left, in
    ascending order of the keys. *)
Theorem erase_after_line_split ops l e key :
  run_list ops [] = Some l → length l = 15%nat →
  ∃ k', run (ops ++ [Insert e; Erase key]) kernel_ = Ok k'
      ∧ contents k'
        = Some (delete (find_index key (put_behind e l)) (put_behind e l))
      ∧ sorted (delete (find_index key (put_behind e l)) (put_behind e l))
      ∧ iterate loops k'
        = Ok (delete (find_index key (put_behind e l)) (put_behind e l), k').
Proof.
  intros Hrun Hlen.
  destruct (split_state ops l e Hrun Hlen)
    as (k & k1 & p' & l1 & l2 & Hk & Hi & Hsl & Hmin & Hmax & Hp & Ha & H2
        & Happ & Hs & Hg1 & Hg2).
  rewrite <- Happ in Hs |- *.
  destruct (erase_two_lines_map k1 p' l1 l2 key Hsl Hmin Hmax Hp Ha H2 Hs
              Hg1 Hg2) as (k' & He & Hc & Hit).
  exists k'. split; [|split; [done|split; [|done]]].
  - unfold run. rewrite fold_left_app. fold (run ops kernel_). rewrite Hk.
    simpl. rewrite Hi. simpl. by rewrite He.
  - by apply MapProperties.sorted_delete.
Qed.

Lemma erase_after_line_split_witness :
  ∃ k', run (inserts 1 15 ++ [Insert (16, 160); Erase 9]) kernel_ = Ok k'
      ∧ contents k'
        = Some (delete
                  (find_index 9
                     (put_behind (16, 160)
                        [(1, 10); (2, 20); (3, 30); (4, 40); (5, 50); (6, 60); (7, 70);
       (8, 80); (9, 90); (10, 100); (11, 110); (12, 120); (13, 130);
       (14, 140); (15, 150)]))
                  (put_behind (16, 160)
                     [(1, 10); (2, 20); (3, 30); (4, 40); (5, 50); (6, 60); (7, 70);
       (8, 80); (9, 90); (10, 100); (11, 110); (12, 120); (13, 130);
       (14, 140); (15, 150)]))
      ∧ sorted
          (delete
             (find_index 9
                (put_behind (16, 160)
                   [(1, 10); (2, 20); (3, 30); (4, 40); (5, 50); (6, 60); (7, 70);
       (8, 80); (9, 90); (10, 100); (11, 110); (12, 120); (13, 130);
       (14, 140); (15, 150)]))
             (put_behind (16, 160)
                [(1, 10); (2, 20); (3, 30); (4, 40); (5, 50); (6, 60); (7, 70);
       (8, 80); (9, 90); (10, 100); (11, 110); (12, 120); (13, 130);
       (14, 140); (15, 150)]))
      ∧ iterate loops k'
        = Ok (delete
                (find_index 9
                   (put_behind (16, 160)
                      [(1, 10); (2, 20); (3, 30); (4, 40); (5, 50); (6, 60); (7, 70);
       (8, 80); (9, 90); (10, 100); (11, 110); (12, 120); (13, 130);
       (14, 140); (15, 150)]))
                (put_behind (16, 160)
                   [(1, 10); (2, 20); (3, 30); (4, 40); (5, 50); (6, 60); (7, 70);
       (8, 80); (9, 90); (10, 100); (11, 110); (12, 120); (13, 130);
       (14, 140); (15, 150)]), k').
Proof.
  apply (erase_after_line_split (inserts 1 15)); reflexivity.
Defined.

End EraseSplitMapProperties.
